(* ===== verification/_CoqProject ===== *)
-Q . S2P
Prelude.v
GoBytes.v
GoStrings.v
GoSort.v
GoPaths.v
GoHttp.v
Objects.v
Client.v
Histories.v
ControllerUtil.v
FakeApi.v
TaskExecution.v
TaskNames.v
TaskHistories.v
RouterGateway.v
RouteRules.v
LandscapeClient.v
Activation.v
ActivationProps.v
StageRouteCleanup.v
StageRoutes.v
FluxUtils.v
FluxMapper.v
FluxReconcilers.v
FluxProps.v
ArtifactDeployment.v
ExposedServices.v
ArtifactDeploymentProps.v
DeploymentTarget.v
GoJson.v
GoAny.v
GoCompact.v
GoMarshal.v
Sha1.v
VectorDataController.v
VectorDataProps.v
VectorDataHistories.v
Watches.v
VectorDataService.v
VectorDataRoutes.v
VectorDataCache.v
VectorDataRoundtrip.v
VectorDataWire.v
VectorDataServiceProps.v
VectorDataMain.v
Operator.v
