(* ===== verification/Prelude.v ===== *)
(** Verification of the Kubernetes Landscape Orchestrator.

    * The program

    The orchestrator is a Kubernetes operator and a small HTTP service:
    - cmd/root.go and cmd/operator.go start the operator with the enabled
      controllers;
    - internal/vectordata: the VectorData controller materialises a VectorData
      object as an immutable ConfigMap and removes it again under a finalizer;
    - cmd/vectordata: the vector-data service answers feature-flag evaluations
      (OFREP) out of those ConfigMaps, through a cache that an informer
      invalidates;
    - internal/taskexecution: a TaskExecution runs as a Kubernetes Job;
    - internal/activationexecution: an activation maintains the HTTPRoute of its
      stage, on a router Gateway that must not be reachable from outside the
      cluster; a second controller removes the route before the Stage goes; a
      provider chooses the client of the landscape;
    - internal/fluxdeployer: ArtifactDeployments become Flux objects, and the
      Services they expose become deployment results, which VectorData carries
      and activations route to;
    - internal/deploymenttarget: validation of DeploymentTargets.

    * How code is modelled

    Strings are byte sequences; integers are [Z] with their bounds written out;
    Go's [(T, error)] is [result]; a nil-able value is [option]; a Go map is
    [gmap] where its order cannot matter, and a list of entries in iteration
    order where it could ([range] over a map: the theorems hold for every
    order).  Code that talks to the outside is a program of the free monad
    [prog]: a call is answered by whatever the other side returns, [execs]
    relates a program to its possible traces, and a theorem about all traces
    holds whatever the API server does.  [run] executes a program against a
    handler; examples and witnesses run against an in-memory API server
    (FakeApi) or the service's world (VectorDataCache).

    * Files

    Foundations:
    - Prelude: results, programs, traces, list lemmas, tactics;
    - GoBytes, GoStrings, GoSort, GoPaths, GoHttp: UTF-8, the functions of
      strings, strconv, path and fmt the code calls, sorting, clean paths, and
      path escaping and ServeMux;
    - GoJson, GoAny, GoCompact, GoMarshal, Sha1: encoding/json (scanner, parser,
      text, decoding into [any], Marshal, compaction, that Marshal writes what
      the parser reads) and crypto/sha1;
    - Objects, Client, ControllerUtil, FakeApi: the API objects, the calls of a
      controller, CreateOrUpdate, and the in-memory API server;
    - Histories: many programs started at any time and interleaved call by call,
      as one history of which every run is a run of its program; objects that
      are kept under a finalizer.

    Components (module, source, properties):
    - VectorDataController, VectorDataProps: vectordata_controller.go; the
      finalizer goes only after the ConfigMap, Ready only after the ConfigMap is
      there, no foreign ConfigMap is written, what [renderData] yields;
    - VectorDataHistories: over any history of reconciliations a ConfigMap that
      is stored has a VectorData that is held by its finalizer;
    - VectorDataService, VectorDataServiceProps: vector_data_service.go; single
      and bulk evaluation agree, error answers, entity tags;
    - VectorDataRoutes: its HTTP routes; a flag is evaluated under its own key;
    - VectorDataRoundtrip, VectorDataWire: the service reads back what the
      controller rendered, and the body of an evaluation decodes to the flag;
    - VectorDataCache: in_memory_cache.go and informer.go as a transition system
      of requests, changes, the initial list and notifications; coherence of the
      cache up to the race between a fetch and a notification and to changes
      before the initial list, and that both are reachable;
    - VectorDataMain: cmd/vectordata/main.go; start-up, background
      goroutines, signals, and how the process ends;
    - TaskExecution: taskexecution_controller.go; the Job of a TaskExecution, its
      outcome, names within bounds, idempotence;
    - TaskNames: when the name of a Job is one the API server accepts;
    - TaskHistories: over any history of reconciliations a TaskExecution gets a
      second Job only when the first was deleted or disowned, and what a list
      that lags does to that;
    - RouterGateway, RouteRules, LandscapeClient, Activation, ActivationProps,
      StageRouteCleanup: internal/activationexecution; routes only on a safe
      Gateway, under a finalizer, with exactly the rules of the deployment;
      superseded activations write nothing but status; the cleanup order; remote
      clients are current;
    - StageRoutes: activations and cleanups of a stage interleaved with each
      other; a stored route has a Stage that is held, up to the race in which a
      cleanup overtakes an activation, and that this race is reachable;
    - Watches: the SetupWithManager functions; which events wake the controllers
      for VectorData, TaskExecutions, activations and Stages, and that their own
      writes never feed a loop;
    - FluxUtils, FluxMapper, FluxReconcilers, FluxProps: the helpers, the mapper
      and the four Flux reconcilers;
    - ArtifactDeployment, ExposedServices, ArtifactDeploymentProps: the Helm and
      Kustomize controllers with their status updaters; the status refines an
      abstract phase machine, Ready deployments carry routable results,
      refusals are final, healthy deployments become Ready, which Flux objects a
      run writes, and that it updates them only when their spec differs;
    - DeploymentTarget: its validation agrees with the users of a target;
    - Operator: root.go, operator.go and the setup.go files; the flags, the
      scheme, what is registered before the manager starts, the exit status.

    * Fuel and bounds

    Programs are inductive, so every controller run terminates; that runs do not
    enqueue each other forever is [reconcile_loops_end].  Functions that
    are not structural take fuel that their input bounds: decoding runes,
    unquoting and quoting consume a byte per step (the length of the input is
    enough, [runes_cons], [unquote_enough]), and the JSON parser consumes a
    token every second call (twice the number of tokens, [pvalue_complete]).
    [jparse_text] shows that the parser reads back every well-formed value.

    * Parameters

    Code outside the repository is a parameter with its documented laws: the
    Unicode tables ([Unicode]), sort.Slice ([SortSlice]), the condition and
    finalizer helpers ([MetaConditions], [Finalizers]), CreateOrUpdate, the
    builder and the predicates of controller-runtime ([ControllerRuntime]), string
    constants of the Konfidence API ([Konfidence]), JSON of imported types, the
    text of decoding errors, the shortest decimal form of a float, the flag
    filter of the operator.  Each interface has a reference instance that the
    witnesses use.

    * Not modelled

    Mocks and test utilities; main.go and pkg/build (a call and version
    variables); logging; the nesting limit of encoding/json.  Mutexes and single
    flight appear as the atomicity of cache operations and as one fetch per
    vector.  The Helm and Kustomize
    controllers own Flux objects and poll; their watches are written down, but
    whether they come to rest depends on what the Flux controllers write. *)
From Stdlib Require Export ZArith Lia Ascii.
From Stdlib Require String.
From stdpp Require Export base strings gmap list option countable.

(** * Hint databases *)

Create HintDb klo.
Create Rewrite HintDb gostr.

(** * Fallible results: Go's [(T, error)] return pairs *)

Inductive result (E A : Type) : Type :=
| Ok (a : A)
| Err (e : E).
Arguments Ok {E A} a.
Arguments Err {E A} e.

#[export] Instance result_ret {E} : MRet (result E) := fun _ a => Ok a.
#[export] Instance result_bind {E} : MBind (result E) :=
  fun _ _ f m => match m with Ok a => f a | Err e => Err e end.
#[export] Instance result_fmap {E} : FMap (result E) :=
  fun _ _ f m => match m with Ok a => Ok (f a) | Err e => Err e end.

#[export] Instance result_eq_dec {E A} `{EqDecision E, EqDecision A} : EqDecision (result E A).
Proof. solve_decision. Defined.

Definition is_ok {E A} (r : result E A) : bool :=
  match r with Ok _ => true | Err _ => false end.

Lemma result_bind_Ok {E A B} (m : result E A) (f : A → result E B) b :
  m ≫= f = Ok b ↔ ∃ a, m = Ok a ∧ f a = Ok b.
Proof. destruct m; cbn; naive_solver. Qed.

(** * Programs over an effect signature

    A controller is a program that talks to the outside (the Kubernetes API
    server, the clock, the event recorder, the random generator).  [prog E R]
    is the free monad over the calls [E]: a call of type [E X] is answered by a
    value of type [X].  Controllers have no unbounded loop, so the type is
    inductive and every program terminates on every answer sequence. *)

Inductive prog (E : Type → Type) (R : Type) : Type :=
| Ret (r : R)
| Vis {X : Type} (e : E X) (k : X → prog E R).
Arguments Ret {E R} r.
Arguments Vis {E R X} e k.

Fixpoint prog_bind {E A B} (f : A → prog E B) (p : prog E A) : prog E B :=
  match p with
  | Ret a => f a
  | Vis e k => Vis e (fun x => prog_bind f (k x))
  end.

#[export] Instance prog_mret {E} : MRet (prog E) := fun _ a => Ret a.
#[export] Instance prog_mbind {E} : MBind (prog E) := fun _ _ f p => prog_bind f p.

Definition trigger {E X} (e : E X) : prog E X := Vis e Ret.

(** One answered call of a run. *)
Inductive obs (E : Type → Type) : Type :=
| Did {X : Type} (e : E X) (x : X).
Arguments Did {E X} e x.

(** [execs p tr r]: there is a run of [p] whose calls and answers are [tr] and
    that returns [r].  The answers are unconstrained: a property of all [tr]
    holds whatever the API server does. *)
Fixpoint execs {E R} (p : prog E R) (tr : list (obs E)) (r : R) : Prop :=
  match p with
  | Ret r' => tr = [] ∧ r = r'
  | Vis e k => ∃ x tr', tr = Did e x :: tr' ∧ execs (k x) tr' r
  end.

(** Deterministic execution against a handler with state [S]. *)
Fixpoint run {E R S} (h : ∀ X, E X → S → X * S) (p : prog E R) (s : S) : R * S :=
  match p with
  | Ret r => (r, s)
  | Vis e k => let xs := h _ e s in run h (k xs.1) xs.2
  end.

(** The calls and answers of that execution. *)
Fixpoint calls {E R S} (h : ∀ X, E X → S → X * S) (p : prog E R) (s : S) : list (obs E) :=
  match p with
  | Ret _ => []
  | Vis e k => let xs := h _ e s in Did e xs.1 :: calls h (k xs.1) xs.2
  end.

Section programs.
Context {E : Type → Type}.

Lemma prog_bind_ret {A B} (a : A) (f : A → prog E B) : (Ret a ≫= f) = f a.
Proof. done. Qed.

(** A run of a sequential composition splits into a run of each part. *)
Lemma execs_bind {A B} (p : prog E A) (f : A → prog E B) tr r :
  execs (p ≫= f) tr r ↔
  ∃ tr1 tr2 a, tr = tr1 ++ tr2 ∧ execs p tr1 a ∧ execs (f a) tr2 r.
Proof.
  revert tr. induction p as [a|X e k IH]; intros tr; cbn.
  - split; [intros H; exists [], tr, a; done | intros (t1 & t2 & a' & -> & [-> ->] & H); done].
  - split.
    + intros (x & tr' & -> & H). apply IH in H as (t1 & t2 & a & -> & H1 & H2).
      exists (Did e x :: t1), t2, a. naive_solver.
    + intros (t1 & t2 & a & -> & (x & t' & -> & H1) & H2).
      exists x, (t' ++ t2). split; [done|]. apply IH. eauto 10.
Qed.

(** The handler-driven execution is one of the runs. *)
Lemma run_execs {S R} (h : ∀ X, E X → S → X * S) (p : prog E R) s :
  execs p (calls h p s) (run h p s).1.
Proof. revert s. induction p as [r|X e k IH]; intros s; cbn; [done|]. eauto. Qed.

Lemma run_bind {S A B} (h : ∀ X, E X → S → X * S) (p : prog E A) (f : A → prog E B) s :
  run h (p ≫= f) s = run h (f (run h p s).1) (run h p s).2.
Proof. revert s. induction p as [a|X e k IH]; intros s; cbn; [done|]. apply IH. Qed.

(** Every program returns on every sequence of answers. *)
Lemma execs_total {R} (p : prog E R) (ans : ∀ X, E X → X) : ∃ tr r, execs p tr r.
Proof.
  induction p as [r|X e k IH]; [by exists [], r|].
  destruct (IH (ans X e)) as (tr & r & H). exists (Did e (ans X e) :: tr), r. cbn. eauto.
Qed.
End programs.

(** * Tactics *)

(** Case split on the innermost [match] of the goal or of a hypothesis. *)
Ltac klo_case :=
  match goal with
  | |- context [match ?x with _ => _ end] => destruct x eqn:?
  | H : context [match ?x with _ => _ end] |- _ => destruct x eqn:?
  end.

(** The value the next branch of a program is decided by. *)
Ltac prog_branch p :=
  lazymatch p with
  | match ?x with _ => _ end => constr:(x)
  | prog_bind _ ?q => prog_branch q
  | mbind _ ?q => prog_branch q
  end.

(** Walk through a run [H : execs p tr r] of a concrete program: each call
    contributes an unknown answer, each branch of the code a subgoal. *)
Ltac exec_step H :=
  cbn in H;
  lazymatch type of H with
  | ∃ _, _ => let x := fresh "x" in let t := fresh "tr" in
              destruct H as (x & t & -> & H)
  | _ = [] ∧ _ => destruct H as [-> H];
                  first [discriminate H | injection H as ?; try subst | try subst]
  | execs ?p _ _ => let x := prog_branch p in destruct x eqn:?
  end.
Ltac exec_steps H := repeat exec_step H.

(** Splits a run of [p ≫= f] into the run [H1] of [p] and the run [H] of the
    rest, for programs whose runs are described by a lemma of their own. *)
Ltac exec_bind H t x H1 :=
  let t' := fresh "tr" in
  apply execs_bind in H as (t & t' & x & -> & H1 & H).

(** * Lists *)

Section lists.
Context {A : Type}.

(** [whenever Q P l]: for each element of [l] satisfying [Q], [P] holds of what
    precedes it and of the element. *)
Definition whenever (Q : A → Prop) (P : list A → A → Prop) (l : list A) : Prop :=
  ∀ l1 x l2, l = l1 ++ x :: l2 → Q x → P l1 x.

(** [preceded P Q l]: every element of [l] satisfying [Q] is preceded by one
    satisfying [P]. *)
Definition preceded (P Q : A → Prop) (l : list A) : Prop :=
  ∀ l1 x l2, l = l1 ++ x :: l2 → Q x → Exists P l1.

Lemma preceded_nil (P Q : A → Prop) : preceded P Q [].
Proof. intros l1 x l2 H. by destruct l1. Qed.

Lemma preceded_hit (P Q : A → Prop) a l : ¬ Q a → P a → preceded P Q (a :: l).
Proof.
  intros Hq Hp l1 x l2 H Hx. destruct l1 as [|b l1]; simplify_eq/=; [done|].
  by left.
Qed.

Lemma preceded_miss (P Q : A → Prop) a l : ¬ Q a → preceded P Q l → preceded P Q (a :: l).
Proof.
  intros Hq H l1 x l2 Hl Hx. destruct l1 as [|b l1]; simplify_eq/=; [done|].
  right. by eapply H.
Qed.

Lemma preceded_app_hit (P Q : A → Prop) l1 l2 :
  preceded P Q l1 → Exists P l1 → preceded P Q (l1 ++ l2).
Proof.
  intros H He k1 x k2 Hl Hx. apply app_eq_app in Hl as (l & [[-> Hl]|[-> _]]).
  - destruct l as [|y l]; simplify_eq/=; [by rewrite app_nil_r in He|]. by eapply H.
  - apply Exists_app. by left.
Qed.

Lemma preceded_app_miss (P Q : A → Prop) l1 l2 :
  Forall (λ x, ¬ Q x) l1 → preceded P Q l2 → preceded P Q (l1 ++ l2).
Proof.
  induction l1 as [|a l1 IH]; [done|]. intros Hl H. inversion Hl; subst.
  apply preceded_miss; [done|]. by apply IH.
Qed.

Lemma elem_of_mid (l1 : list A) x l2 : x ∈ l1 ++ x :: l2.
Proof. apply elem_of_app. right. by left. Qed.
Lemma forall_map {B} (f : A → B) (P : B → Prop) l : Forall P (f <$> l) → Forall (λ x, P (f x)) l.
Proof. by rewrite Forall_fmap. Qed.

(** An element with [Q] after a prefix without any is in the rest. *)
Lemma split_after (Q : A → Prop) a b l1 x l2 :
  a ++ b = l1 ++ x :: l2 → Forall (λ x, ¬ Q x) a → Q x → ∃ l, l1 = a ++ l ∧ b = l ++ x :: l2.
Proof.
  revert l1. induction a as [|y a IH]; intros l1 E Ha Hx; [by exists l1|].
  inversion Ha; subst. destruct l1 as [|z l1]; simplify_eq/=.
  - done.
  - destruct (IH l1) as (l & -> & ->); [done..|]. by exists l.
Qed.

Lemma preceded_never (P Q : A → Prop) l : Forall (λ x, ¬ Q x) l → preceded P Q l.
Proof. intros H. rewrite <-(app_nil_r l). apply preceded_app_miss; [done|apply preceded_nil]. Qed.

Lemma whenever_app (Q : A → Prop) (P : list A → A → Prop) l1 l2 :
  whenever Q P l1 → whenever Q (λ l, P (l1 ++ l)) l2 → whenever Q P (l1 ++ l2).
Proof.
  intros H1 H2 k1 x k2 Hl Hx. apply app_eq_app in Hl as (l & [[-> Hl]|[-> Hl]]).
  - destruct l as [|y l]; simplify_eq/=.
    + specialize (H2 [] _ k2 eq_refl Hx). by rewrite !app_nil_r in H2.
    + by eapply H1.
  - by eapply H2.
Qed.
Lemma whenever_all (Q : A → Prop) (P : list A → A → Prop) l :
  Forall (λ x, Q x → ∀ l1, P l1 x) l → whenever Q P l.
Proof. intros H l1 x l2 -> Hx. apply Forall_app in H as [_ H]. inversion H; auto. Qed.

Lemma forallb_decide (P : A → Prop) `{∀ x, Decision (P x)} (l : list A) :
  forallb (λ x, bool_decide (P x)) l = true ↔ Forall P l.
Proof.
  induction l as [|x l IH]; cbn [forallb]; [naive_solver|].
  split.
  - intros [Hx Hl]%andb_true_iff. constructor; [by apply bool_decide_eq_true in Hx|by apply IH].
  - intros Hl. inversion Hl; subst. apply andb_true_iff. split; [by apply bool_decide_eq_true|by apply IH].
Qed.
End lists.

Section forall2.
Context {A B : Type} (R : A → B → Prop).
Lemma Forall2_elem_l l k x : Forall2 R l k → x ∈ l → ∃ y, y ∈ k ∧ R x y.
Proof.
  induction 1 as [|a b l k Hab _ IH]; intros Hx; [by apply elem_of_nil in Hx|].
  apply elem_of_cons in Hx as [->|Hx]; [exists b; split; [by left|done]|].
  destruct (IH Hx) as (y & Hy & ?). exists y. split; [by right|done].
Qed.
Lemma Forall2_elem_r l k y : Forall2 R l k → y ∈ k → ∃ x, x ∈ l ∧ R x y.
Proof.
  induction 1 as [|a b l k Hab _ IH]; intros Hy; [by apply elem_of_nil in Hy|].
  apply elem_of_cons in Hy as [->|Hy]; [exists a; split; [by left|done]|].
  destruct (IH Hy) as (x & Hx & ?). exists x. split; [by right|done].
Qed.
End forall2.

#[export] Hint Resolve preceded_nil preceded_hit preceded_miss : klo.
