(* ===== verification/GoBytes.v ===== *)
(** Go strings as byte sequences, and the UTF-8 coding of package
    [unicode/utf8] that [range], [strings.ToLower], [regexp] and
    [encoding/json] rely on.  A Go [string] is the Rocq [string]: its
    characters are the bytes. *)
From S2P Require Import Prelude.
Local Open Scope Z_scope.

(** * Strings and their bytes *)

Definition to_list (s : string) : list ascii := String.list_ascii_of_string s.
Definition of_list (l : list ascii) : string := String.string_of_list_ascii l.
Definition len (s : string) : nat := String.length s.

Lemma of_to_list s : of_list (to_list s) = s.
Proof. apply String.string_of_list_ascii_of_string. Qed.
Lemma to_of_list l : to_list (of_list l) = l.
Proof. apply String.list_ascii_of_string_of_list_ascii. Qed.
Lemma to_list_app s t : to_list (s +:+ t) = to_list s ++ to_list t.
Proof. induction s as [|c s IH]; [done|]. exact (f_equal (cons c) IH). Qed.
Lemma of_list_app l k : of_list (l ++ k) = of_list l +:+ of_list k.
Proof. induction l as [|c l IH]; [done|]. exact (f_equal (String c) IH). Qed.
Lemma length_to_list s : length (to_list s) = len s.
Proof. induction s as [|c s IH]; [done|]. exact (f_equal S IH). Qed.
Lemma len_of_list l : len (of_list l) = length l.
Proof. by rewrite <-length_to_list, to_of_list. Qed.
Lemma len_app s t : len (s +:+ t) = (len s + len t)%nat.
Proof. by rewrite <-!length_to_list, to_list_app, length_app. Qed.
Lemma to_list_inj s t : to_list s = to_list t → s = t.
Proof. intros H. by rewrite <-(of_to_list s), H, of_to_list. Qed.
Lemma of_list_inj l k : of_list l = of_list k → l = k.
Proof. intros H. by rewrite <-(to_of_list l), H, to_of_list. Qed.
Lemma str_app_assoc (s t u : string) : (s +:+ t) +:+ u = s +:+ (t +:+ u).
Proof. apply to_list_inj. by rewrite !to_list_app, (assoc_L (++)). Qed.
Lemma str_app_nil_r (s : string) : s +:+ "" = s.
Proof. apply to_list_inj. by rewrite to_list_app, app_nil_r. Qed.
Lemma str_app_inj_l (s t u : string) : s +:+ t = s +:+ u → t = u.
Proof.
  intros H. apply (f_equal to_list) in H. rewrite !to_list_app in H.
  by apply to_list_inj, (inj (to_list s ++.)).
Qed.
Lemma str_app_inj_r (s t u : string) : s +:+ u = t +:+ u → s = t.
Proof.
  intros H. apply (f_equal to_list) in H. rewrite !to_list_app in H.
  by apply to_list_inj, (inj (.++ to_list u)).
Qed.
Lemma len_zero s : len s = 0%nat ↔ s = "".
Proof. by destruct s. Qed.

#[export] Hint Rewrite of_to_list to_of_list to_list_app of_list_app length_to_list
  len_of_list len_app str_app_assoc str_app_nil_r : gostr.

(** * Bytes as numbers *)

Definition byteZ (c : ascii) : Z := Z.of_N (N_of_ascii c).
Definition Zbyte (z : Z) : ascii := ascii_of_N (Z.to_N z).

Lemma byteZ_range c : 0 ≤ byteZ c < 256.
Proof. unfold byteZ. pose proof (N_ascii_bounded c). lia. Qed.
Lemma Zbyte_byteZ c : Zbyte (byteZ c) = c.
Proof. unfold Zbyte, byteZ. by rewrite N2Z.id, ascii_N_embedding. Qed.
Lemma byteZ_Zbyte z : 0 ≤ z < 256 → byteZ (Zbyte z) = z.
Proof. intros H. unfold byteZ, Zbyte. rewrite N_ascii_embedding; lia. Qed.
Lemma byteZ_inj c d : byteZ c = byteZ d → c = d.
Proof. intros H. by rewrite <-(Zbyte_byteZ c), H, Zbyte_byteZ. Qed.

(** [in_range lo hi z]: the two-sided comparisons of the code. *)
Definition in_range (lo hi z : Z) : bool := (lo <=? z) && (z <=? hi).
Lemma in_range_spec lo hi z : in_range lo hi z = true ↔ lo ≤ z ≤ hi.
Proof. unfold in_range. rewrite andb_true_iff. lia. Qed.
Lemma in_range_false lo hi z : in_range lo hi z = false ↔ ¬ lo ≤ z ≤ hi.
Proof. rewrite <-in_range_spec. by destruct in_range. Qed.

(** * UTF-8 *)

Definition RuneError : Z := 65533.

Definition is_scalar (r : Z) : bool :=
  in_range 0 55295 r || in_range 57344 1114111 r.

(** [utf8.AppendRune]: a rune that is no Unicode scalar value is coded as
    U+FFFD. *)
Definition encode_rune (r : Z) : list ascii :=
  if in_range 0 127 r then [Zbyte r]
  else if in_range 128 2047 r then [Zbyte (192 + r / 64); Zbyte (128 + r mod 64)]
  else if negb (is_scalar r) then [Zbyte 239; Zbyte 191; Zbyte 189]
  else if r <=? 65535 then
    [Zbyte (224 + r / 4096); Zbyte (128 + r / 64 mod 64); Zbyte (128 + r mod 64)]
  else
    [Zbyte (240 + r / 262144); Zbyte (128 + r / 4096 mod 64);
     Zbyte (128 + r / 64 mod 64); Zbyte (128 + r mod 64)].

(** Continuation-byte ranges of the [acceptRanges] table: the second byte is
    restricted after E0, ED, F0 and F4. *)
Definition second_ok (b0 b1 : Z) : bool :=
  if b0 =? 224 then in_range 160 191 b1
  else if b0 =? 237 then in_range 128 159 b1
  else if b0 =? 240 then in_range 144 191 b1
  else if b0 =? 244 then in_range 128 143 b1
  else in_range 128 191 b1.
Definition cont_ok (b : Z) : bool := in_range 128 191 b.

(** [utf8.DecodeRune] followed by the rest of the input: an invalid or
    truncated encoding yields U+FFFD and consumes one byte. *)
Definition decode_rune (l : list ascii) : option (Z * list ascii) :=
  match l with
  | [] => None
  | c0 :: r0 =>
      let b0 := byteZ c0 in
      let bad := Some (RuneError, r0) in
      if b0 <=? 127 then Some (b0, r0)
      else if in_range 194 223 b0 then
        match r0 with
        | c1 :: r1 => let b1 := byteZ c1 in
            if cont_ok b1 then Some ((b0 - 192) * 64 + (b1 - 128), r1) else bad
        | _ => bad
        end
      else if in_range 224 239 b0 then
        match r0 with
        | c1 :: c2 :: r2 => let b1 := byteZ c1 in let b2 := byteZ c2 in
            if second_ok b0 b1 && cont_ok b2
            then Some ((b0 - 224) * 4096 + (b1 - 128) * 64 + (b2 - 128), r2) else bad
        | _ => bad
        end
      else if in_range 240 244 b0 then
        match r0 with
        | c1 :: c2 :: c3 :: r3 =>
            let b1 := byteZ c1 in let b2 := byteZ c2 in let b3 := byteZ c3 in
            if second_ok b0 b1 && cont_ok b2 && cont_ok b3
            then Some ((b0 - 240) * 262144 + (b1 - 128) * 4096 + (b2 - 128) * 64 + (b3 - 128), r3)
            else bad
        | _ => bad
        end
      else bad
  end.

(** The runes of a string, as [range] enumerates them.  Each decoding step
    consumes at least one byte, so the length of the input is enough fuel. *)
Fixpoint runes_fuel (n : nat) (l : list ascii) : list Z :=
  match n with
  | O => []
  | S n => match decode_rune l with
           | None => []
           | Some (r, rest) => r :: runes_fuel n rest
           end
  end.
Definition runes (l : list ascii) : list Z := runes_fuel (length l) l.

(** The byte sequences that are valid UTF-8. *)
Definition utf8_of (rs : list Z) : list ascii := rs ≫= encode_rune.
Definition valid_utf8 (s : string) : Prop :=
  ∃ rs, Forall (λ r, is_scalar r = true) rs ∧ to_list s = utf8_of rs.

Lemma is_scalar_spec r : is_scalar r = true ↔ 0 ≤ r ≤ 55295 ∨ 57344 ≤ r ≤ 1114111.
Proof. unfold is_scalar. rewrite orb_true_iff, !in_range_spec. lia. Qed.

Lemma decode_rune_shorter l r rest :
  decode_rune l = Some (r, rest) → (length rest < length l)%nat.
Proof.
  unfold decode_rune. intros H. repeat (klo_case; simplify_eq/=; try lia).
Qed.

Lemma decode_rune_None l : decode_rune l = None ↔ l = [].
Proof.
  split; [|by intros ->]. unfold decode_rune. intros H.
  repeat (klo_case; simplify_eq/=; try done).
Qed.

(** Enough fuel: any fuel of at least the input's length gives the same runes. *)
Lemma runes_fuel_enough n m l :
  (length l ≤ n)%nat → (length l ≤ m)%nat → runes_fuel n l = runes_fuel m l.
Proof.
  revert m l. induction n as [|n IH]; intros m l Hn Hm.
  - destruct l; [|simpl in *; lia]. by destruct m.
  - destruct m as [|m]; [destruct l; [done|simpl in *; lia]|]. cbn.
    destruct (decode_rune l) as [[r rest]|] eqn:E; [|done].
    apply decode_rune_shorter in E. f_equal. apply IH; lia.
Qed.

Lemma runes_cons l r rest :
  decode_rune l = Some (r, rest) → runes l = r :: runes rest.
Proof.
  intros H. pose proof (decode_rune_shorter _ _ _ H) as Hlt. unfold runes.
  destruct (length l) as [|n] eqn:El; [lia|]. cbn. rewrite H. f_equal.
  apply runes_fuel_enough; lia.
Qed.

(** * Decoding inverts encoding *)

Ltac byte_arith :=
  repeat match goal with
  | H : in_range _ _ _ = true |- _ => apply in_range_spec in H
  | H : in_range _ _ _ = false |- _ => apply in_range_false in H
  | H : (_ <=? _) = true |- _ => apply Z.leb_le in H
  | H : (_ <=? _) = false |- _ => apply Z.leb_gt in H
  end.

Ltac in_range_decide :=
  repeat match goal with
  | |- context [in_range ?a ?b ?z] =>
      first [ rewrite (proj2 (in_range_spec a b z)) by (Z.to_euclidean_division_equations; lia)
            | rewrite (proj2 (in_range_false a b z)) by (Z.to_euclidean_division_equations; lia) ]
  | |- context [?a <=? ?b] =>
      first [ rewrite (proj2 (Z.leb_le a b)) by (Z.to_euclidean_division_equations; lia)
            | rewrite (proj2 (Z.leb_gt a b)) by (Z.to_euclidean_division_equations; lia) ]
  end.

(** The four coded lengths, as arithmetic facts about the bytes. *)
Lemma encode_rune_cases r :
  is_scalar r = true →
  (0 ≤ r ≤ 127 ∧ encode_rune r = [Zbyte r]) ∨
  (128 ≤ r ≤ 2047 ∧ encode_rune r = [Zbyte (192 + r / 64); Zbyte (128 + r mod 64)]) ∨
  (2048 ≤ r ≤ 65535 ∧ encode_rune r =
     [Zbyte (224 + r / 4096); Zbyte (128 + r / 64 mod 64); Zbyte (128 + r mod 64)]) ∨
  (65536 ≤ r ≤ 1114111 ∧ encode_rune r =
     [Zbyte (240 + r / 262144); Zbyte (128 + r / 4096 mod 64);
      Zbyte (128 + r / 64 mod 64); Zbyte (128 + r mod 64)]).
Proof.
  intros Hs. unfold encode_rune. rewrite Hs. apply is_scalar_spec in Hs. cbn.
  destruct (in_range 0 127 r) eqn:E1; byte_arith; [left; by split|].
  destruct (in_range 128 2047 r) eqn:E2; byte_arith; [right; left; by split|].
  destruct (r <=? 65535) eqn:E3; byte_arith; [right; right; left|right; right; right];
    (split; [lia|done]).
Qed.

Lemma second_ok_spec b0 b1 :
  128 ≤ b1 ≤ 191 → (b0 = 224 → 160 ≤ b1) → (b0 = 237 → b1 ≤ 159) →
  (b0 = 240 → 144 ≤ b1) → (b0 = 244 → b1 ≤ 143) → second_ok b0 b1 = true.
Proof.
  intros. unfold second_ok.
  repeat match goal with |- context [?a =? ?b] => destruct (Z.eqb_spec a b) end;
    apply in_range_spec; lia.
Qed.

Lemma decode_encode_rune r rest :
  is_scalar r = true → decode_rune (encode_rune r ++ rest) = Some (r, rest).
Proof.
  intros Hs. pose proof Hs as Hr. apply is_scalar_spec in Hr.
  destruct (encode_rune_cases r Hs) as [[H ->]|[[H ->]|[[H ->]|[H ->]]]]; cbn -[Z.div Z.modulo Z.mul Z.add Z.sub];
    rewrite ?byteZ_Zbyte by (Z.to_euclidean_division_equations; lia).
  - in_range_decide. done.
  - in_range_decide. unfold cont_ok. in_range_decide. do 2 f_equal.
    Z.to_euclidean_division_equations; lia.
  - in_range_decide. rewrite second_ok_spec by (Z.to_euclidean_division_equations; lia).
    unfold cont_ok. in_range_decide. cbn [andb]. do 2 f_equal.
    Z.to_euclidean_division_equations; lia.
  - in_range_decide. rewrite second_ok_spec by (Z.to_euclidean_division_equations; lia).
    unfold cont_ok. in_range_decide. cbn [andb]. do 2 f_equal.
    Z.to_euclidean_division_equations; lia.
Qed.

(** The runes of valid UTF-8 are the scalar values it codes. *)
Lemma runes_utf8_of rs :
  Forall (λ r, is_scalar r = true) rs → runes (utf8_of rs) = rs.
Proof.
  induction 1 as [|r rs Hr _ IH]; [done|].
  change (utf8_of (r :: rs)) with (encode_rune r ++ utf8_of rs).
  rewrite (runes_cons _ r (utf8_of rs)); [by rewrite IH|]. by apply decode_encode_rune.
Qed.

(** ASCII bytes code themselves. *)
Lemma decode_rune_ascii c l : byteZ c ≤ 127 → decode_rune (c :: l) = Some (byteZ c, l).
Proof. intros H. unfold decode_rune. by rewrite (proj2 (Z.leb_le _ _) H). Qed.

Lemma runes_ascii l : Forall (λ c, byteZ c ≤ 127) l → runes l = byteZ <$> l.
Proof.
  induction 1 as [|c l Hc _ IH]; [done|].
  rewrite (runes_cons _ (byteZ c) l) by (by apply decode_rune_ascii). by rewrite IH.
Qed.

Lemma encode_rune_ascii c : byteZ c ≤ 127 → encode_rune (byteZ c) = [c].
Proof.
  intros H. pose proof (byteZ_range c). unfold encode_rune.
  rewrite (proj2 (in_range_spec 0 127 (byteZ c))) by lia. by rewrite Zbyte_byteZ.
Qed.

Lemma ascii_valid_utf8 l : Forall (λ c, byteZ c ≤ 127) l → valid_utf8 (of_list l).
Proof.
  intros H. exists (byteZ <$> l). rewrite to_of_list. split.
  - apply Forall_fmap. eapply Forall_impl; [|exact H]. intros c Hc; cbn.
    pose proof (byteZ_range c). apply is_scalar_spec. lia.
  - induction H as [|c l Hc _ IH]; [done|]. cbn.
    change (c :: l = encode_rune (byteZ c) ++ utf8_of (byteZ <$> l)).
    rewrite encode_rune_ascii by done. cbn. by f_equal.
Qed.

(** Re-coding counts runes: every rune, scalar or not, is coded as one. *)
Definition scalar_of (r : Z) : Z := if is_scalar r then r else RuneError.
Lemma encode_scalar_of r : encode_rune (scalar_of r) = encode_rune r.
Proof.
  unfold scalar_of. destruct (is_scalar r) eqn:E; [done|].
  unfold encode_rune at 2. rewrite E. cbn [negb].
  assert (Hs : ¬ (0 ≤ r ≤ 55295)) by (intros H; by rewrite (proj2 (is_scalar_spec r)) in E by lia).
  rewrite !(proj2 (in_range_false _ _ r)) by lia. done.
Qed.
Lemma utf8_of_scalars rs : utf8_of (scalar_of <$> rs) = utf8_of rs.
Proof.
  induction rs as [|r rs IH]; [done|].
  change (encode_rune (scalar_of r) ++ utf8_of (scalar_of <$> rs) = encode_rune r ++ utf8_of rs).
  by rewrite IH, encode_scalar_of.
Qed.
Lemma scalar_of_scalar r : is_scalar (scalar_of r) = true.
Proof. unfold scalar_of. by destruct (is_scalar r) eqn:E. Qed.
Lemma runes_recoded rs : runes (utf8_of rs) = scalar_of <$> rs.
Proof.
  rewrite <-utf8_of_scalars. apply runes_utf8_of. apply Forall_fmap, Forall_true.
  intros r. apply scalar_of_scalar.
Qed.
Lemma length_runes_fuel n l : (length (runes_fuel n l) ≤ n)%nat.
Proof.
  revert l. induction n as [|n IH]; intros l; [done|]. cbn.
  destruct (decode_rune l) as [[r rest]|]; cbn; [specialize (IH rest); lia|lia].
Qed.
Lemma length_runes l : (length (runes l) ≤ length l)%nat.
Proof. apply length_runes_fuel. Qed.
