(* ===== verification/GoStrings.v ===== *)
(** The functions of Go's [strings], [strconv], [path] and [fmt] packages that
    the orchestrator calls, on byte strings, with the lemmas its components
    share.  The Unicode case and print tables are the only parameters (class
    [Unicode]); every function is exact on ASCII and follows Go's rune
    semantics elsewhere. *)
From S2P Require Import Prelude GoBytes.
From stdpp Require Export pretty.
Local Open Scope Z_scope.

(** * Unicode tables

    The tables of package [unicode] for runes above ASCII: [ToLower],
    equality up to [SimpleFold], and [IsPrint]. *)
Class Unicode := {
  uni_lower : Z → Z;
  uni_fold_eq : Z → Z → bool;
  uni_print : Z → bool;
}.

(** Tables of a system whose non-ASCII letters have no case. *)
Definition caseless_unicode : Unicode := {|
  uni_lower r := r;
  uni_fold_eq := Z.eqb;
  uni_print _ := true;
|}.

(** * Trimming by a byte predicate *)

Section trimming.
Context {A : Type} (f : A → bool).

Fixpoint drop_while (l : list A) : list A :=
  match l with
  | [] => []
  | x :: l' => if f x then drop_while l' else l
  end.
Definition drop_while_end (l : list A) : list A := reverse (drop_while (reverse l)).

Lemma drop_while_split l :
  ∃ pre, l = pre ++ drop_while l ∧ Forall (λ x, f x = true) pre.
Proof.
  induction l as [|x l (pre & Hl & Hpre)]; cbn; [by exists []|].
  destruct (f x) eqn:E.
  - exists (x :: pre). cbn. rewrite <-Hl. by split; [|constructor].
  - by exists [].
Qed.

Lemma drop_while_head l x l' : drop_while l = x :: l' → f x = false.
Proof.
  induction l as [|y l IH]; cbn; [done|]. destruct (f y) eqn:E; [done|].
  intros [= -> ->]. done.
Qed.

Lemma drop_while_id l : (∀ x l', l = x :: l' → f x = false) → drop_while l = l.
Proof. destruct l as [|x l]; [done|]. intros H. cbn. by rewrite (H x l). Qed.

Lemma drop_while_end_split l :
  ∃ suf, l = drop_while_end l ++ suf ∧ Forall (λ x, f x = true) suf.
Proof.
  destruct (drop_while_split (reverse l)) as (pre & Hl & Hpre).
  exists (reverse pre). unfold drop_while_end. split; [|by apply Forall_reverse].
  by rewrite <-reverse_app, <-Hl, reverse_involutive.
Qed.

Lemma drop_while_end_last l x l' : drop_while_end l = l' ++ [x] → f x = false.
Proof.
  unfold drop_while_end. intros H. apply (f_equal reverse) in H.
  rewrite reverse_involutive, reverse_app in H. by apply drop_while_head in H.
Qed.

Lemma drop_while_end_id l : (∀ x l', l = l' ++ [x] → f x = false) → drop_while_end l = l.
Proof.
  intros H. unfold drop_while_end. rewrite drop_while_id, reverse_involutive; [done|].
  intros x l' Hl. apply (H x (reverse l')). apply (f_equal reverse) in Hl.
  by rewrite reverse_involutive, reverse_cons in Hl.
Qed.

Lemma drop_while_end_snoc l x : f x = false → drop_while_end (l ++ [x]) = l ++ [x].
Proof.
  intros Hx. apply drop_while_end_id. intros y l' Hl. by simplify_list_eq.
Qed.

Lemma length_drop_while_end l : (length (drop_while_end l) ≤ length l)%nat.
Proof.
  destruct (drop_while_end_split l) as (suf & Hl & _).
  rewrite Hl at 2. rewrite length_app. lia.
Qed.
End trimming.

(** * Package [strings] *)

Fixpoint strip_prefix_l (p l : list ascii) : option (list ascii) :=
  match p, l with
  | [], _ => Some l
  | a :: p', b :: l' => if ascii_dec a b then strip_prefix_l p' l' else None
  | _ :: _, [] => None
  end.
Definition strip_prefix (p s : string) : option string :=
  of_list <$> strip_prefix_l (to_list p) (to_list s).

Definition HasPrefix (s p : string) : bool :=
  match strip_prefix p s with Some _ => true | None => false end.
Definition TrimPrefix (s p : string) : string :=
  match strip_prefix p s with Some t => t | None => s end.

(** [strings.TrimRight s cutset] for a one-byte cutset. *)
Definition TrimRight (s : string) (cut : ascii) : string :=
  of_list (drop_while_end (λ c, bool_decide (c = cut)) (to_list s)).

(** Position of the last occurrence of a byte; [None] is Go's -1. *)
Fixpoint last_index (c : ascii) (l : list ascii) : option nat :=
  match l with
  | [] => None
  | x :: l' => match last_index c l' with
               | Some i => Some (S i)
               | None => if ascii_dec x c then Some O else None
               end
  end.
Definition LastIndexByte (s : string) (c : ascii) : option nat := last_index c (to_list s).

(** Go slices [s[:n]] and [s[n:]]; both panic out of range, which is [None]. *)
Definition slice_to (s : string) (n : Z) : option string :=
  if (0 <=? n) && (n <=? Z.of_nat (len s)) then Some (of_list (take (Z.to_nat n) (to_list s)))
  else None.
Definition slice_from (s : string) (n : Z) : option string :=
  if (0 <=? n) && (n <=? Z.of_nat (len s)) then Some (of_list (drop (Z.to_nat n) (to_list s)))
  else None.

(** [strings.Split] on a one-byte separator. *)
Fixpoint split_byte (c : ascii) (l : list ascii) : list (list ascii) :=
  match l with
  | [] => [[]]
  | x :: l' =>
      if ascii_dec x c then [] :: split_byte c l'
      else match split_byte c l' with
           | w :: ws => (x :: w) :: ws
           | [] => [[x]]
           end
  end.
Definition Split (s : string) (c : ascii) : list string := of_list <$> split_byte c (to_list s).
Definition Contains (s : string) (c : ascii) : bool := bool_decide (c ∈ to_list s).

(** [strings.SplitN s sep 2]: the part before the first [sep] and the rest, or
    the whole string. *)
Fixpoint cut_l (sep l : list ascii) : option (list ascii * list ascii) :=
  match strip_prefix_l sep l with
  | Some rest => Some ([], rest)
  | None => match l with
            | [] => None
            | x :: l' => match cut_l sep l' with
                         | Some (a, b) => Some (x :: a, b)
                         | None => None
                         end
            end
  end.
Definition SplitN2 (s sep : string) : list string :=
  match cut_l (to_list sep) (to_list s) with
  | Some (a, b) => [of_list a; of_list b]
  | None => [s]
  end.

Fixpoint Join (l : list string) (sep : string) : string :=
  match l with
  | [] => ""
  | [x] => x
  | x :: l' => x +:+ sep +:+ Join l' sep
  end.

(** [unicode.IsSpace]. *)
Definition is_space (r : Z) : bool :=
  in_range 9 13 r || (r =? 32) || (r =? 133) || (r =? 160) || (r =? 5760) ||
  in_range 8192 8202 r || (r =? 8232) || (r =? 8233) || (r =? 8239) || (r =? 8287) ||
  (r =? 12288).
Definition space_runes : list Z :=
  [9; 10; 11; 12; 13; 32; 133; 160; 5760; 8192; 8193; 8194; 8195; 8196; 8197; 8198; 8199;
   8200; 8201; 8202; 8232; 8233; 8239; 8287; 12288].

Fixpoint trim_left_space (n : nat) (l : list ascii) : list ascii :=
  match n with
  | O => l
  | S n => match decode_rune l with
           | Some (r, rest) => if is_space r then trim_left_space n rest else l
           | None => l
           end
  end.

(** One trailing white-space rune removed.  A white-space rune at the end of
    a string is the last rune [utf8.DecodeLastRune] finds, because its first
    byte is its only rune-start byte; [l] is the reversed input. *)
Definition strip_space_end (l : list ascii) : option (list ascii) :=
  foldr (λ r acc, match strip_prefix_l (reverse (encode_rune r)) l with
                  | Some rest => Some rest
                  | None => acc
                  end) None space_runes.
Fixpoint trim_right_space (n : nat) (l : list ascii) : list ascii :=
  match n with
  | O => l
  | S n => match strip_space_end l with
           | Some rest => trim_right_space n rest
           | None => l
           end
  end.
Definition TrimSpace (s : string) : string :=
  let l := trim_left_space (len s) (to_list s) in
  of_list (reverse (trim_right_space (length l) (reverse l))).

(** * Case folding *)

Definition ascii_lower (r : Z) : Z := if in_range 65 90 r then r + 32 else r.

Section unicode.
Context `{U : Unicode}.

Definition lower_rune (r : Z) : Z := if r <=? 127 then ascii_lower r else uni_lower r.

Definition fold_eq (a b : Z) : bool :=
  (a =? b) ||
  (if Z.max a b <=? 127 then ascii_lower a =? ascii_lower b else uni_fold_eq a b).
Fixpoint fold_eq_runes (l k : list Z) : bool :=
  match l, k with
  | [], [] => true
  | a :: l', b :: k' => fold_eq a b && fold_eq_runes l' k'
  | _, _ => false
  end.
Definition EqualFold (s t : string) : bool :=
  fold_eq_runes (runes (to_list s)) (runes (to_list t)).

Lemma fold_eq_runes_refl l : fold_eq_runes l l = true.
Proof. induction l as [|a l IH]; cbn; [done|]. unfold fold_eq. by rewrite Z.eqb_refl, IH. Qed.
Lemma EqualFold_refl s : EqualFold s s = true.
Proof. apply fold_eq_runes_refl. Qed.
End unicode.

(** * Package [strconv] *)

(** [strconv.ParseBool]. *)
Definition ParseBool (s : string) : option bool :=
  if bool_decide (s ∈ ["1"; "t"; "T"; "TRUE"; "true"; "True"]) then Some true
  else if bool_decide (s ∈ ["0"; "f"; "F"; "FALSE"; "false"; "False"]) then Some false
  else None.

Definition is_digit (c : ascii) : bool := in_range 48 57 (byteZ c).
Fixpoint digits_value (acc : Z) (l : list ascii) : option Z :=
  match l with
  | [] => Some acc
  | c :: l' => if is_digit c then digits_value (10 * acc + (byteZ c - 48)) l' else None
  end.

Definition max_int64 : Z := 9223372036854775807.
Definition min_int64 : Z := -9223372036854775808.

(** [strconv.ParseInt s 10 64] (and [Atoi] on a 64-bit platform): an optional
    sign, at least one digit, and the range check of an [int64]. *)
Definition ParseInt (s : string) : option Z :=
  let '(neg, ds) :=
    match to_list s with
    | c :: l => if byteZ c =? 43 then (false, l)
                else if byteZ c =? 45 then (true, l) else (false, c :: l)
    | [] => (false, [])
    end in
  match ds with
  | [] => None
  | _ => v ← digits_value 0 ds;
         let v := if neg : bool then - v else v in
         if in_range min_int64 max_int64 v then Some v else None
  end.

(** * Package [path] *)

Definition slash : ascii := "/"%char.

(** One step of [path.Clean] on the components of a path; [out] is the
    reversed list of the components kept so far. *)
Definition clean_step (rooted : bool) (out : list (list ascii)) (c : list ascii)
    : list (list ascii) :=
  let dotdot := to_list ".." in
  if bool_decide (c = []) || bool_decide (c = to_list ".") then out
  else if bool_decide (c = dotdot) then
    match out with
    | top :: out' => if bool_decide (top = dotdot) then dotdot :: out else out'
    | [] => if rooted then [] else [dotdot]
    end
  else c :: out.
Definition Clean (s : string) : string :=
  let l := to_list s in
  let rooted := match l with c :: _ => bool_decide (c = slash) | [] => false end in
  let body := Join (of_list <$> reverse (foldl (clean_step rooted) [] (split_byte slash l))) "/" in
  if rooted then "/" +:+ body else if bool_decide (body = "") then "." else body.

(** [path.Dir]: [Clean] of everything up to and including the last slash. *)
Definition Dir (s : string) : string :=
  match LastIndexByte s slash with
  | Some i => Clean (of_list (take (S i) (to_list s)))
  | None => Clean ""
  end.
Definition Base (s : string) : string :=
  if bool_decide (s = "") then "."
  else
    let l := drop_while_end (λ c, bool_decide (c = slash)) (to_list s) in
    let l := match last_index slash l with Some i => drop (S i) l | None => l end in
    if bool_decide (l = []) then "/" else of_list l.

(** * Lemmas *)

Lemma strip_prefix_l_Some p l r : strip_prefix_l p l = Some r ↔ l = p ++ r.
Proof.
  revert l. induction p as [|a p IH]; intros l; cbn; [naive_solver|].
  destruct l as [|b l]; [naive_solver|]. destruct (ascii_dec a b) as [->|Hne].
  - rewrite IH. naive_solver.
  - naive_solver.
Qed.
Lemma strip_prefix_Some p s t : strip_prefix p s = Some t ↔ s = p +:+ t.
Proof.
  unfold strip_prefix. rewrite fmap_Some. split.
  - intros (r & H & ->). apply strip_prefix_l_Some in H. apply to_list_inj.
    by rewrite to_list_app, to_of_list.
  - intros ->. exists (to_list t). rewrite strip_prefix_l_Some, to_list_app, of_to_list. done.
Qed.
Lemma HasPrefix_spec s p : HasPrefix s p = true ↔ ∃ t, s = p +:+ t.
Proof.
  unfold HasPrefix. destruct (strip_prefix p s) eqn:E.
  - apply strip_prefix_Some in E. naive_solver.
  - split; [done|]. intros [t Ht]. apply strip_prefix_Some in Ht. congruence.
Qed.
Lemma HasPrefix_app p t : HasPrefix (p +:+ t) p = true.
Proof. apply HasPrefix_spec. eauto. Qed.
Lemma TrimPrefix_app p t : TrimPrefix (p +:+ t) p = t.
Proof. unfold TrimPrefix. by rewrite (proj2 (strip_prefix_Some p (p +:+ t) t)). Qed.
Lemma TrimPrefix_no s p : HasPrefix s p = false → TrimPrefix s p = s.
Proof. unfold HasPrefix, TrimPrefix. by destruct strip_prefix. Qed.

Lemma slice_to_Some s n t :
  slice_to s n = Some t →
  0 ≤ n ≤ Z.of_nat (len s) ∧ t = of_list (take (Z.to_nat n) (to_list s)) ∧ Z.of_nat (len t) = n.
Proof.
  unfold slice_to. intros H. klo_case; simplify_eq.
  apply andb_true_iff in Heqb as [H1%Z.leb_le H2%Z.leb_le].
  rewrite len_of_list, length_take, length_to_list. split_and!; [lia|lia|done|lia].
Qed.

Lemma last_index_Some c l i :
  last_index c l = Some i → l = take i l ++ c :: drop (S i) l ∧ c ∉ drop (S i) l.
Proof.
  revert i. induction l as [|x l IH]; intros i; cbn; [done|].
  destruct (last_index c l) as [j|] eqn:E.
  - intros [= <-]. destruct (IH j eq_refl) as [Hl Hn]. cbn. split; [by f_equal|done].
  - destruct (ascii_dec x c) as [->|Hne]; [|done]. intros [= <-]. cbn.
    rewrite drop_0. split; [done|]. clear IH. induction l as [|y l IH]; [set_solver|].
    cbn in E. destruct (last_index c l) eqn:E'; [done|].
    destruct (ascii_dec y c); [done|]. set_solver.
Qed.
Lemma last_index_None c l : last_index c l = None ↔ c ∉ l.
Proof.
  split.
  - induction l as [|x l IH]; cbn; [set_solver|]. destruct (last_index c l) eqn:E; [done|].
    destruct (ascii_dec x c); [done|]. set_solver.
  - intros Hn. destruct (last_index c l) eqn:E; [|done].
    apply last_index_Some in E as [Hl _]. rewrite Hl in Hn. set_solver.
Qed.
Lemma last_index_app_r c l k i :
  last_index c k = Some i → last_index c (l ++ k) = Some (length l + i)%nat.
Proof. intros H. induction l as [|x l IH]; cbn; [done|]. by rewrite IH. Qed.
Lemma last_index_app_cons c l k :
  c ∉ k → last_index c (l ++ c :: k) = Some (length l).
Proof.
  intros H. rewrite (last_index_app_r c l (c :: k) 0%nat); [f_equal; lia|]. cbn.
  apply last_index_None in H. rewrite H. by destruct (ascii_dec c c).
Qed.

Lemma cut_l_Some sep l a b : cut_l sep l = Some (a, b) → l = a ++ sep ++ b.
Proof.
  revert a b. induction l as [|x l IH]; intros a b; cbn.
  - destruct (strip_prefix_l sep []) eqn:E; [|done]. intros [= <- <-].
    by apply strip_prefix_l_Some in E.
  - destruct (strip_prefix_l sep (x :: l)) eqn:E.
    + intros [= <- <-]. by apply strip_prefix_l_Some in E.
    + destruct (cut_l sep l) as [[a' b']|] eqn:E'; [|done]. intros [= <- <-].
      cbn. f_equal. by apply IH.
Qed.

Lemma split_byte_ne c l : split_byte c l ≠ [].
Proof. destruct l as [|x l]; cbn; [done|]. by repeat klo_case. Qed.
Lemma split_byte_single c l : c ∉ l → split_byte c l = [l].
Proof.
  induction l as [|x l IH]; cbn; [done|]. intros H.
  destruct (ascii_dec x c) as [->|Hne]; [set_solver|]. rewrite IH; [done|set_solver].
Qed.
Lemma split_byte_app c l k : c ∉ l → split_byte c (l ++ c :: k) = l :: split_byte c k.
Proof.
  induction l as [|x l IH]; cbn; intros H.
  - by destruct (ascii_dec c c).
  - destruct (ascii_dec x c) as [->|Hne]; [set_solver|]. rewrite IH; [done|set_solver].
Qed.

(** Bytes that are visible ASCII characters are neither space nor part of one. *)
Definition visible (c : ascii) : bool := in_range 33 126 (byteZ c).

Lemma visible_not_space c : visible c = true → is_space (byteZ c) = false.
Proof. by destruct c as [[] [] [] [] [] [] [] []]. Qed.

Lemma trim_left_space_id n c l : visible c = true → trim_left_space n (c :: l) = c :: l.
Proof.
  intros Hc. destruct n as [|n]; [done|]. cbn -[decode_rune].
  pose proof (proj1 (in_range_spec _ _ _) Hc) as Hr.
  rewrite decode_rune_ascii by lia. by rewrite visible_not_space.
Qed.
Lemma strip_space_end_visible c l : visible c = true → strip_space_end (c :: l) = None.
Proof. by destruct c as [[] [] [] [] [] [] [] []]. Qed.
Lemma trim_right_space_id n c l : visible c = true → trim_right_space n (c :: l) = c :: l.
Proof. intros Hc. destruct n; [done|]. cbn -[strip_space_end]. by rewrite strip_space_end_visible. Qed.

(** A string that starts and ends with visible characters is unchanged by
    [strings.TrimSpace]. *)
Lemma TrimSpace_id s c l d k :
  to_list s = c :: l → to_list s = k ++ [d] → visible c = true → visible d = true →
  TrimSpace s = s.
Proof.
  intros Hc Hd Vc Vd. unfold TrimSpace. rewrite Hc, trim_left_space_id by done.
  rewrite <-Hc, Hd, reverse_app. cbn [reverse rev_append app].
  change (reverse [d] ++ reverse k) with (d :: reverse k).
  rewrite trim_right_space_id by done. rewrite reverse_cons, reverse_involutive, <-Hd.
  apply of_to_list.
Qed.

(** * Package [fmt]: the [%q] verb *)

Definition hex_digit (z : Z) : ascii := if z <? 10 then Zbyte (48 + z) else Zbyte (87 + z).
(** The [n] lowest hexadecimal digits of [z], most significant first. *)
Fixpoint hex_digits (n : nat) (z : Z) : list ascii :=
  match n with
  | O => []
  | S n => hex_digits n (z / 16) ++ [hex_digit (z mod 16)]
  end.

Section quoting.
Context `{U : Unicode}.

Definition quote_rune (r : Z) : list ascii :=
  if r =? 34 then to_list "\" ++ [Zbyte 34]
  else if r =? 92 then to_list "\\"
  else if in_range 32 126 r then [Zbyte r]
  else if (127 <? r) && uni_print r then encode_rune r
  else if r =? 7 then to_list "\a"
  else if r =? 8 then to_list "\b"
  else if r =? 12 then to_list "\f"
  else if r =? 10 then to_list "\n"
  else if r =? 13 then to_list "\r"
  else if r =? 9 then to_list "\t"
  else if r =? 11 then to_list "\v"
  else if (r <? 32) || (r =? 127) then to_list "\x" ++ hex_digits 2 r
  else if r <? 65536 then to_list "\u" ++ hex_digits 4 r
  else to_list "\U" ++ hex_digits 8 r.

(** Invalid bytes are printed as [\xNN]. *)
Fixpoint quote_fuel (n : nat) (l : list ascii) : list ascii :=
  match n with
  | O => []
  | S n =>
      match l, decode_rune l with
      | c :: tl, Some (r, rest) =>
          if (r =? RuneError) && (length rest =? length tl)%nat
          then to_list "\x" ++ hex_digits 2 (byteZ c) ++ quote_fuel n tl
          else quote_rune r ++ quote_fuel n rest
      | _, _ => []
      end
  end.
(** [strconv.Quote]. *)
Definition Quote (s : string) : string :=
  of_list ([Zbyte 34] ++ quote_fuel (len s) (to_list s) ++ [Zbyte 34]).
End quoting.
Arguments Quote {_} s : simpl never.

Definition nul : string := String (Zbyte 0) "".
