(* ===== verification/GoSort.v ===== *)
(** Sorting: [sort.Slice] as an interface with its documented law, Go's order
    on strings, and sorting by insertion. *)
From Stdlib Require Import Sorting.Sorted.
From stdpp Require Import sorting.
From S2P Require Import Prelude GoBytes GoStrings.
Local Open Scope Z_scope.

(** * sort.Slice

    Go documents only that the slice ends up sorted by the comparison: equal
    elements may come out in any order. *)
Class SortSlice := {
  sort_Slice : ∀ {A}, (A → A → bool) → list A → list A;
  sort_Slice_perm {A} (less : A → A → bool) l : sort_Slice less l ≡ₚ l;
  sort_Slice_sorted {A} (less : A → A → bool) l :
    (∀ a, less a a = false) → (∀ a b c, less a b = true → less b c = true → less a c = true) →
    (∀ a b c, less a c = true → less a b = true ∨ less b c = true) →
    StronglySorted (λ a b, less b a = false) (sort_Slice less l);
}.

(** Go's [<] on strings: lexicographic on bytes. *)
Fixpoint bytes_ltb (a b : list ascii) : bool :=
  match a, b with
  | [], [] => false
  | [], _ :: _ => true
  | _ :: _, [] => false
  | x :: a', y :: b' =>
      if byteZ x <? byteZ y then true
      else if byteZ y <? byteZ x then false
      else bytes_ltb a' b'
  end.
Definition string_ltb (a b : string) : bool := bytes_ltb (to_list a) (to_list b).

Lemma bytes_ltb_irrefl a : bytes_ltb a a = false.
Proof. induction a as [|x a IH]; cbn; [done|]. by rewrite Z.ltb_irrefl. Qed.
Lemma bytes_ltb_trans a b c : bytes_ltb a b = true → bytes_ltb b c = true → bytes_ltb a c = true.
Proof.
  revert b c. induction a as [|x a IH]; intros [|y b] [|z c]; cbn; try done.
  destruct (Z.ltb_spec (byteZ x) (byteZ y)), (Z.ltb_spec (byteZ y) (byteZ x)),
    (Z.ltb_spec (byteZ y) (byteZ z)), (Z.ltb_spec (byteZ z) (byteZ y)),
    (Z.ltb_spec (byteZ x) (byteZ z)), (Z.ltb_spec (byteZ z) (byteZ x)); try done; try lia. apply IH.
Qed.
Lemma bytes_ltb_total a b : bytes_ltb a b = false → bytes_ltb b a = false → a = b.
Proof.
  revert b. induction a as [|x a IH]; intros [|y b]; cbn; try done.
  destruct (Z.ltb_spec (byteZ x) (byteZ y)), (Z.ltb_spec (byteZ y) (byteZ x)); try done.
  intros Ha Hb. f_equal; [apply byteZ_inj; lia|by apply IH].
Qed.

Lemma string_ltb_irrefl a : string_ltb a a = false.
Proof. apply bytes_ltb_irrefl. Qed.
Lemma string_ltb_trans a b c : string_ltb a b = true → string_ltb b c = true → string_ltb a c = true.
Proof. apply bytes_ltb_trans. Qed.
Lemma string_ltb_total a b : string_ltb a b = false → string_ltb b a = false → a = b.
Proof.
  intros Ha Hb. rewrite <-(of_to_list a), <-(of_to_list b). f_equal. by apply bytes_ltb_total.
Qed.
Lemma string_ltb_cotrans a b c : string_ltb a c = true → string_ltb a b = true ∨ string_ltb b c = true.
Proof.
  intros Hac. destruct (string_ltb a b) eqn:Hab; [by left|right].
  destruct (string_ltb b a) eqn:Hba; [by eapply string_ltb_trans|].
  by rewrite <-(string_ltb_total a b Hab Hba).
Qed.

(** Sorting by insertion meets the interface. *)
Section insertion.
Context {A : Type} (less : A → A → bool).
Fixpoint insert_by (x : A) (l : list A) : list A :=
  match l with
  | [] => [x]
  | y :: l' => if less y x then y :: insert_by x l' else x :: l
  end.
Definition sort_by (l : list A) : list A := foldr insert_by [] l.

Lemma insert_by_perm x l : insert_by x l ≡ₚ x :: l.
Proof.
  induction l as [|y l IH]; cbn; [done|]. destruct (less y x); [|done].
  rewrite IH. apply Permutation_swap.
Qed.
Lemma sort_by_perm l : sort_by l ≡ₚ l.
Proof. induction l as [|x l IH]; cbn; [done|]. by rewrite insert_by_perm, IH. Qed.
Lemma insert_by_sorted x l :
  (∀ a b c, less a b = true → less b c = true → less a c = true) →
  (∀ a b c, less a c = true → less a b = true ∨ less b c = true) → (∀ a, less a a = false) →
  StronglySorted (λ a b, less b a = false) l → StronglySorted (λ a b, less b a = false) (insert_by x l).
Proof.
  intros Htr Hco Hir. induction l as [|y l IH]; cbn; intros Hs; [by repeat constructor|].
  apply StronglySorted_inv in Hs as [Hs Hy]. destruct (less y x) eqn:E.
  - constructor; [by apply IH|]. rewrite insert_by_perm. constructor; [|done].
    destruct (less x y) eqn:E'; [|done]. pose proof (Htr _ _ _ E E'). by rewrite Hir in H.
  - constructor; [by constructor|]. constructor; [done|].
    eapply Forall_impl; [exact Hy|]. intros z Hz. cbn in Hz.
    destruct (less z x) eqn:Ez; [|done]. destruct (Hco _ y _ Ez); congruence.
Qed.
Lemma sort_by_sorted l :
  (∀ a, less a a = false) → (∀ a b c, less a b = true → less b c = true → less a c = true) →
  (∀ a b c, less a c = true → less a b = true ∨ less b c = true) →
  StronglySorted (λ a b, less b a = false) (sort_by l).
Proof. intros ???. induction l as [|x l IH]; cbn; [constructor|]. by apply insert_by_sorted. Qed.
End insertion.

Definition ref_sort : SortSlice := {|
  sort_Slice := @sort_by; sort_Slice_perm := @sort_by_perm; sort_Slice_sorted := @sort_by_sorted |}.

(** * Sorting by a string key *)

Section keys.
Context {A : Type} (key : A → string).
Definition by_key (a b : A) : bool := string_ltb (key a) (key b).
Abbreviation sorted := (StronglySorted (λ a b, string_ltb (key b) (key a) = false)).

(** Sorting by distinct keys leaves no freedom. *)
Lemma sorted_keys_unique l1 l2 : sorted l1 → sorted l2 → NoDup (key <$> l1) → l1 ≡ₚ l2 → l1 = l2.
Proof.
  revert l2. induction l1 as [|a l1 IH]; intros [|b l2] H1 H2 Hnd Hp; cbn in *.
  - done.
  - by apply Permutation_nil_cons in Hp.
  - symmetry in Hp. by apply Permutation_nil_cons in Hp.
  - apply StronglySorted_inv in H1 as [H1 Ha], H2 as [H2 Hb]. apply NoDup_cons in Hnd as [Hni Hnd].
    assert (a = b) as ->.
    { assert (a ∈ b :: l2) as [->|Ha']%elem_of_cons by (rewrite <-Hp; by left); [done|].
      assert (b ∈ a :: l1) as [->|Hb']%elem_of_cons by (rewrite Hp; by left); [done|].
      rewrite Forall_forall in Ha, Hb. specialize (Ha _ Hb'). specialize (Hb _ Ha').
      destruct Hni. rewrite (string_ltb_total (key a) (key b)) by done. by apply list_elem_of_fmap_2. }
    f_equal. apply IH; [done..|]. by eapply Permutation_cons_inv.
Qed.

Lemma sort_by_key_sorted l : sorted (sort_by by_key l).
Proof.
  apply sort_by_sorted; unfold by_key.
  - intros a. apply string_ltb_irrefl.
  - intros a b c. apply string_ltb_trans.
  - intros a b c. apply string_ltb_cotrans.
Qed.
Lemma sort_by_key_perm l l' : NoDup (key <$> l) → l ≡ₚ l' → sort_by by_key l = sort_by by_key l'.
Proof.
  intros Hnd Hp. apply sorted_keys_unique; [apply sort_by_key_sorted..|by rewrite sort_by_perm|].
  by rewrite !sort_by_perm.
Qed.
End keys.
