(* ===== verification/GoPaths.v ===== *)
(** Slash-separated paths by their components: what [path.Clean], [path.Dir] and
    [path.Base] do to paths whose components are plain. *)
From S2P Require Import Prelude GoBytes GoStrings.
Local Open Scope Z_scope.

(** A path component that [path.Clean] keeps. *)
Definition plain (c : list ascii) : Prop :=
  c ≠ [] ∧ c ≠ to_list "." ∧ c ≠ to_list ".." ∧ slash ∉ c.
(** The components [cs] followed by [rest], each ended by a slash. *)
Definition under (cs : list (list ascii)) (rest : list ascii) : list ascii :=
  foldr (λ c l, c ++ slash :: l) rest cs.

Arguments under : simpl never.
Lemma under_cons c cs rest : under (c :: cs) rest = c ++ slash :: under cs rest.
Proof. done. Qed.
Lemma under_app cs r k : under cs (r ++ k) = under cs r ++ k.
Proof. induction cs as [|c cs IH]; [done|]. by rewrite !under_cons, IH, <-app_assoc. Qed.

Lemma split_under cs rest :
  Forall plain cs → split_byte slash (under cs rest) = cs ++ split_byte slash rest.
Proof.
  induction 1 as [|c cs (_ & _ & _ & Hc) _ IH]; [done|]. rewrite under_cons, split_byte_app by done.
  cbn [app]. by rewrite IH.
Qed.

Lemma clean_plain rooted out cs : Forall plain cs → foldl (clean_step rooted) out cs = reverse cs ++ out.
Proof.
  intros H. revert out. induction H as [|c cs (H1 & H2 & H3 & _) _ IH]; intros out; [done|]. cbn [foldl].
  rewrite IH, reverse_cons, <-app_assoc. f_equal. unfold clean_step.
  rewrite !bool_decide_eq_false_2 by done. done.
Qed.

Lemma under_snoc cs c rest : under (cs ++ [c]) rest = under cs (c ++ slash :: rest).
Proof. unfold under. by rewrite foldr_app. Qed.

Lemma join_under cs c : Join (of_list <$> (cs ++ [c])) "/" = of_list (under cs c).
Proof.
  induction cs as [|d cs IH]; [done|]. cbn [app fmap list_fmap Join]. change (of_list <$> cs ++ [c]) with (of_list <$> (cs ++ [c])).
  rewrite IH. destruct (of_list <$> (cs ++ [c])) eqn:E; [by destruct cs|].
  by rewrite under_cons, of_list_app.
Qed.

Lemma plain_head c : plain c → ∃ x l, c = x :: l ∧ x ≠ slash.
Proof. intros (Hn & _ & _ & Hs). destruct c as [|x l]; [done|]. exists x, l. split; [done|]. set_solver. Qed.

Lemma dir_under cs c d : Forall plain cs → plain c → slash ∉ d →
  Dir (of_list (under (cs ++ [c]) d)) = of_list (under cs c).
Proof.
  intros Hcs Hc Hd. unfold Dir, LastIndexByte. rewrite to_of_list.
  assert (Hl : under (cs ++ [c]) d = (under cs c ++ [slash]) ++ d).
  { by rewrite under_snoc, under_app, <-app_assoc. }
  rewrite Hl, <-app_assoc. cbn [app]. rewrite (last_index_app_cons slash (under cs c) d) by done.
  rewrite (cons_middle slash (under cs c) d), app_assoc, take_app_length' by (rewrite length_app; cbn; lia).
  unfold Clean. rewrite to_of_list.
  assert (Hu : under cs c ++ [slash] = under (cs ++ [c]) []).
  { by rewrite under_snoc, under_app. }
  assert (Hall : Forall plain (cs ++ [c])) by (apply Forall_app; split; [done|constructor; [done|constructor]]).
  rewrite Hu, split_under by done.
  assert (Hroot : match under (cs ++ [c]) [] with c :: _ => bool_decide (c = slash) | [] => false end = false).
  { destruct cs as [|e cs]; cbn [app]; rewrite under_cons.
    - destruct (plain_head c Hc) as (x & l & -> & Hx). cbn. by rewrite bool_decide_eq_false_2.
    - apply Forall_cons in Hcs as [He _]. destruct (plain_head e He) as (x & l & -> & Hx). cbn.
      by rewrite bool_decide_eq_false_2. }
  rewrite Hroot, foldl_app, (clean_plain _ _ (cs ++ [c])) by done. cbn [split_byte foldl].
  assert (Hs : clean_step false (reverse (cs ++ [c]) ++ []) [] = reverse (cs ++ [c])) by (by rewrite app_nil_r).
  rewrite Hs, reverse_involutive, join_under. rewrite bool_decide_eq_false_2; [done|].
  intros E. apply (f_equal to_list) in E. rewrite to_of_list in E. destruct cs as [|e cs].
  - by destruct (plain_head c Hc) as (x & l & -> & _).
  - rewrite under_cons in E. by destruct e.
Qed.

Lemma base_under cs c : plain c → Base (of_list (under cs c)) = of_list c.
Proof.
  intros Hc. pose proof Hc as (Hn & _ & _ & Hs). unfold Base.
  assert (Hne : under cs c ≠ []) by (destruct cs as [|[] cs]; [done|done|by rewrite under_cons]).
  rewrite bool_decide_eq_false_2 by (intros E; apply Hne; apply (f_equal to_list) in E; by rewrite to_of_list in E).
  rewrite to_of_list.
  destruct (exists_last Hn) as (c' & x & Ec).
  assert (Hx : x ≠ slash) by (intros ->; apply Hs; rewrite Ec; apply elem_of_app; right; by left).
  rewrite drop_while_end_id.
  2: { intros y l E. apply bool_decide_eq_false. intros ->. apply Hx.
       assert (Hu : under cs c = under cs c' ++ [x]) by (rewrite Ec; apply under_app).
       rewrite Hu in E. by apply app_inj_tail in E as [_ ->]. }
  assert (Hdrop : match last_index slash (under cs c) with Some i => drop (S i) (under cs c) | None => under cs c end = c).
  { destruct cs as [|e cs] using rev_ind.
    - change (under [] c) with c. by rewrite (proj2 (last_index_None slash c) Hs).
    - rewrite under_snoc, under_app, last_index_app_cons by done.
      rewrite (cons_middle slash), app_assoc, drop_app_length' by (rewrite length_app; cbn; lia). done. }
  rewrite Hdrop, bool_decide_eq_false_2 by done. done.
Qed.

(** A rooted path of plain components is clean. *)
Lemma clean_rooted cs c : Forall plain cs → plain c → Clean ("/" +:+ of_list (under cs c)) = "/" +:+ of_list (under cs c).
Proof.
  intros Hcs Hc. unfold Clean. rewrite to_list_app, to_of_list. change (to_list "/") with [slash]. cbn [app].
  rewrite bool_decide_eq_true_2 by done. change (slash :: under cs c) with ([] ++ slash :: under cs c). rewrite (split_byte_app slash [] (under cs c)) by apply not_elem_of_nil.
  rewrite split_under, split_byte_single by (done || apply Hc). cbn [foldl].
  assert (Hs : clean_step true [] [] = []) by done. rewrite Hs, clean_plain by (apply Forall_app; split; [done|constructor; [done|constructor]]).
  by rewrite app_nil_r, reverse_involutive, join_under.
Qed.
