(* ===== verification/GoHttp.v ===== *)
(** What the vector-data service uses of net/url and net/http: escaping of path
    segments, and the patterns and matching of [ServeMux]. *)
From S2P Require Import Prelude GoBytes GoStrings.
Local Open Scope Z_scope.

(** * Package [net/url] *)

Definition percent : ascii := "%"%char.
Definition upper_hex (z : Z) : ascii := if z <? 10 then Zbyte (48 + z) else Zbyte (55 + z).
Definition unhex (c : ascii) : option Z :=
  let z := byteZ c in
  if in_range 48 57 z then Some (z - 48)
  else if in_range 97 102 z then Some (z - 87)
  else if in_range 65 70 z then Some (z - 55)
  else None.

(** The bytes [PathEscape] keeps: letters, digits and [-_.~$&+=:@]. *)
Definition segment_byte (c : ascii) : bool :=
  let z := byteZ c in
  in_range 97 122 z || in_range 65 90 z || in_range 48 57 z || bool_decide (c ∈ to_list "-_.~$&+=:@").
Definition escape_byte (c : ascii) : list ascii :=
  if segment_byte c then [c] else [percent; upper_hex (byteZ c / 16); upper_hex (byteZ c mod 16)].
Definition PathEscape (s : string) : string := of_list (flat_map escape_byte (to_list s)).

(** [None] is an error for a percent sign that two hexadecimal digits do not
    follow. *)
Fixpoint path_unescape (l : list ascii) : option (list ascii) :=
  match l with
  | [] => Some []
  | c :: l' =>
      if bool_decide (c = percent) then
        match l' with
        | a :: b :: rest =>
            match unhex a, unhex b with
            | Some x, Some y => (Zbyte (16 * x + y) ::.) <$> path_unescape rest
            | _, _ => None
            end
        | _ => None
        end
      else (c ::.) <$> path_unescape l'
  end.
Definition PathUnescape (s : string) : option string := of_list <$> path_unescape (to_list s).

Lemma segment_byte_plain c : segment_byte c = true → c ≠ percent ∧ c ≠ slash.
Proof. intros H. split; intros ->; vm_compute in H; discriminate. Qed.

(** All bytes, to check facts about each of them. *)
Definition all_bytes : list ascii := Zbyte <$> seqZ 0 256.
Lemma elem_all_bytes c : c ∈ all_bytes.
Proof.
  rewrite <-(Zbyte_byteZ c). apply list_elem_of_fmap_2, elem_of_seqZ. pose proof (byteZ_range c). lia.
Qed.
Definition escape_checks (c : ascii) : bool :=
  if segment_byte c then true
  else match unhex (upper_hex (byteZ c / 16)), unhex (upper_hex (byteZ c mod 16)) with
       | Some x, Some y => bool_decide (Zbyte (16 * x + y) = c) && negb (bool_decide (slash ∈ escape_byte c))
       | _, _ => false
       end.
Lemma escape_checked c : escape_checks c = true.
Proof.
  assert (H : forallb escape_checks all_bytes = true) by (vm_compute; reflexivity).
  rewrite forallb_forall in H. apply H, list_elem_of_In, elem_all_bytes.
Qed.
Lemma unescape_escape_byte c l : path_unescape (escape_byte c ++ l) = (c ::.) <$> path_unescape l.
Proof.
  pose proof (escape_checked c) as H. unfold escape_checks in H. unfold escape_byte in *. destruct (segment_byte c) eqn:E.
  - apply segment_byte_plain in E as [E _]. cbn. by rewrite bool_decide_eq_false_2.
  - cbn [app path_unescape]. rewrite bool_decide_eq_true_2 by done.
    destruct (unhex _) as [x|]; [|done]. destruct (unhex _) as [y|]; [|done].
    apply andb_true_iff in H as [->%bool_decide_eq_true _]. done.
Qed.
Lemma escape_byte_no_slash c : slash ∉ escape_byte c.
Proof.
  pose proof (escape_checked c) as H. unfold escape_checks in H. destruct (segment_byte c) eqn:E.
  - unfold escape_byte. rewrite E. apply segment_byte_plain in E as [_ E]. set_solver.
  - destruct (unhex _); [|done]. destruct (unhex _); [|done].
    apply andb_true_iff in H as [_ H%negb_true_iff]. by apply bool_decide_eq_false in H.
Qed.

(** What is escaped is a single segment and reads back. *)
Lemma unescape_escape s : PathUnescape (PathEscape s) = Some s.
Proof.
  unfold PathUnescape, PathEscape. rewrite to_of_list.
  assert (H : path_unescape (flat_map escape_byte (to_list s)) = Some (to_list s)); [|rewrite H; cbn; by rewrite of_to_list].
  induction (to_list s) as [|c l IH]; [done|]. cbn [flat_map]. by rewrite unescape_escape_byte, IH.
Qed.
Lemma escape_no_slash s : slash ∉ to_list (PathEscape s).
Proof.
  unfold PathEscape. rewrite to_of_list. induction (to_list s) as [|c l IH]; [apply not_elem_of_nil|].
  cbn [flat_map]. rewrite elem_of_app. intros [H|H]; [by apply escape_byte_no_slash in H|done].
Qed.
Lemma escape_inj s t : PathEscape s = PathEscape t → s = t.
Proof. intros H. apply (f_equal PathUnescape) in H. rewrite !unescape_escape in H. congruence. Qed.

(** * [http.ServeMux] *)

(** A pattern: a method and the segments of a path, which are literal or a
    wildcard for one segment. *)
Inductive Segment := Lit (s : string) | Wild (name : string).
Record Pattern := { pat_Method : string; pat_Segments : list Segment }.

Definition parseSegment (s : list ascii) : Segment :=
  match s with
  | c :: rest => if bool_decide (c = "{"%char) then Wild (of_list (take (length rest - 1) rest)) else Lit (of_list s)
  | [] => Lit ""
  end.
(** [METHOD /path]. *)
Definition parsePattern (s : string) : option Pattern :=
  match cut_l (to_list " ") (to_list s) with
  | Some (method, c :: path) =>
      if bool_decide (c = slash) then
        Some {| pat_Method := of_list method; pat_Segments := parseSegment <$> split_byte slash path |}
      else None
  | _ => None
  end.

Definition cleanPath (p : string) : string :=
  match to_list p with
  | [] => "/"
  | c :: _ =>
      let p := if bool_decide (c = slash) then p else "/" +:+ p in
      let np := Clean p in
      if bool_decide (last (to_list p) = Some slash) && negb (bool_decide (np = "/")) then np +:+ "/" else np
  end.

(** A segment with invalid escapes is left as it is. *)
Definition pathUnescape (l : list ascii) : string := default (of_list l) (PathUnescape (of_list l)).

(** The values of the wildcards.  A segment that is empty, at a trailing slash,
    or reads as a slash matches no wildcard. *)
Fixpoint matchSegments (ps : list Segment) (segs : list (list ascii)) : option (list (string * string)) :=
  match ps, segs with
  | [], [] => Some []
  | Lit s :: ps', seg :: segs' => if bool_decide (pathUnescape seg = s) then matchSegments ps' segs' else None
  | Wild name :: ps', seg :: segs' =>
      if bool_decide (seg = []) || bool_decide (pathUnescape seg = "/") then None
      else ((name, pathUnescape seg) ::.) <$> matchSegments ps' segs'
  | _, _ => None
  end.
Definition matchPath (p : Pattern) (path : string) : option (list (string * string)) :=
  match to_list path with
  | c :: rest => if bool_decide (c = slash) then matchSegments (pat_Segments p) (split_byte slash rest) else None
  | [] => None
  end.
(** A GET pattern also matches HEAD. *)
Definition matchMethod (p : Pattern) (method : string) : bool :=
  bool_decide (pat_Method p = method) || (bool_decide (method = "HEAD") && bool_decide (pat_Method p = "GET")).

Inductive Routed (H : Type) :=
| Handled (h : H) (values : list (string * string))
| Redirected (path : string)
| MethodNotAllowed
| NotFoundHandler.
Arguments Handled {H} h values.
Arguments Redirected {H} path.
Arguments MethodNotAllowed {H}.
Arguments NotFoundHandler {H}.

(** The handler for a method and an escaped path, for patterns none of which
    ends in a slash and no two of which match the same request. *)
Fixpoint find_route {H} (table : list (Pattern * H)) (method path : string) : option (H * list (string * string)) :=
  match table with
  | [] => None
  | (p, h) :: table' =>
      match matchPath p path with
      | Some vs => if matchMethod p method then Some (h, vs) else find_route table' method path
      | None => find_route table' method path
      end
  end.
Definition findHandler {H} (table : list (Pattern * H)) (method escapedPath : string) : Routed H :=
  let path := if bool_decide (method = "CONNECT") then escapedPath else cleanPath escapedPath in
  if negb (bool_decide (path = escapedPath)) then Redirected path
  else match find_route table method path with
       | Some (h, vs) => Handled h vs
       | None => if existsb (λ ph, match matchPath ph.1 path with Some _ => true | None => false end) table
                 then MethodNotAllowed else NotFoundHandler
       end.
