(* ===== verification/Objects.v ===== *)
(** The Kubernetes objects the controllers read and write, with the fields the
    code uses.  The types belong to the API packages the code imports
    (apimachinery, core/v1, batch/v1, Gateway API, Flux, Konfidence); string
    constants of the Konfidence API whose values are not part of the repository
    are the parameters of class [Konfidence]. *)
From S2P Require Import Prelude GoBytes GoStrings.
Local Open Scope Z_scope.

(** * Object metadata *)

Record NamespacedName := NN { nn_Namespace : string; nn_Name : string }.
#[export] Instance NamespacedName_eq_dec : EqDecision NamespacedName.
Proof. solve_decision. Defined.
#[export] Instance NamespacedName_countable : Countable NamespacedName.
Proof.
  refine (inj_countable' (λ k, (nn_Namespace k, nn_Name k)) (λ p, NN p.1 p.2) _).
  by intros [].
Defined.

Record OwnerReference := {
  or_APIVersion : string;
  or_Kind : string;
  or_Name : string;
  or_Controller : bool;
}.
#[export] Instance OwnerReference_eq_dec : EqDecision OwnerReference.
Proof. solve_decision. Defined.

(** Times are nanoseconds; a zero [metav1.Time] is [None]. *)
Record ObjectMeta := {
  om_Name : string;
  om_Namespace : string;
  om_Labels : gmap string string;
  om_Annotations : gmap string string;
  om_Finalizers : list string;
  om_DeletionTimestamp : option Z;
  om_CreationTimestamp : option Z;
  om_Generation : Z;
  om_UID : string;
  om_ResourceVersion : string;
  om_OwnerReferences : list OwnerReference;
}.
#[export] Instance ObjectMeta_eq_dec : EqDecision ObjectMeta.
Proof. solve_decision. Defined.

Definition new_meta (ns name : string) (labels : gmap string string) : ObjectMeta := {|
  om_Name := name; om_Namespace := ns; om_Labels := labels; om_Annotations := ∅;
  om_Finalizers := []; om_DeletionTimestamp := None; om_CreationTimestamp := None;
  om_Generation := 0; om_UID := ""; om_ResourceVersion := ""; om_OwnerReferences := [];
|}.
Definition om_key (m : ObjectMeta) : NamespacedName := NN (om_Namespace m) (om_Name m).
Definition om_set_finalizers (f : list string) (m : ObjectMeta) : ObjectMeta := {|
  om_Name := om_Name m; om_Namespace := om_Namespace m; om_Labels := om_Labels m;
  om_Annotations := om_Annotations m; om_Finalizers := f;
  om_DeletionTimestamp := om_DeletionTimestamp m; om_CreationTimestamp := om_CreationTimestamp m;
  om_Generation := om_Generation m; om_UID := om_UID m;
  om_ResourceVersion := om_ResourceVersion m; om_OwnerReferences := om_OwnerReferences m;
|}.
Definition om_set_owners (r : list OwnerReference) (m : ObjectMeta) : ObjectMeta := {|
  om_Name := om_Name m; om_Namespace := om_Namespace m; om_Labels := om_Labels m;
  om_Annotations := om_Annotations m; om_Finalizers := om_Finalizers m;
  om_DeletionTimestamp := om_DeletionTimestamp m; om_CreationTimestamp := om_CreationTimestamp m;
  om_Generation := om_Generation m; om_UID := om_UID m;
  om_ResourceVersion := om_ResourceVersion m; om_OwnerReferences := r;
|}.

(** A Go map lookup: a missing key reads as the zero value. *)
Definition map_get (m : gmap string string) (k : string) : string := default "" (m !! k).

(** [metav1.Time.IsZero] on a timestamp. *)
Definition time_IsZero (t : option Z) : bool := match t with Some _ => false | None => true end.

(** * Conditions *)

Inductive ConditionStatus := ConditionTrue | ConditionFalse | ConditionUnknown.
#[export] Instance ConditionStatus_eq_dec : EqDecision ConditionStatus.
Proof. solve_decision. Defined.

Record Condition := {
  c_Type : string;
  c_Status : ConditionStatus;
  c_Reason : string;
  c_Message : string;
  c_ObservedGeneration : Z;
  c_LastTransitionTime : option Z;
}.
#[export] Instance Condition_eq_dec : EqDecision Condition.
Proof. solve_decision. Defined.

(** * Konfidence API constants *)

Class Konfidence := {
  VectorDataReadyCondition : string;
  VectorDataReasonMaterialized : string;
  TaskFailed : string;
  TaskSucceeded : string;
  TaskExecutionKind : string;
  GroupVersion : string;
  ActivationTaskExecutionFailed : string;
  ActivationTaskExecutionInProgress : string;
  ActivationTaskExecutionSucceeded : string;
  DeploymentTargetReadyCondition : string;
  StalledCondition : string;
  AppHealthyCondition : string;
  ArtifactDeployedCondition : string;
  ArtifactFetchedCondition : string;
  ArtifactDeploymentReadyCondition : string;
  DeploymentResultCreatedCondition : string;
  ArtifactVersionAnnotation : string;
  ArtifactHashAnnotation : string;
  (** The condition types of an ActivationTaskExecution are distinct. *)
  activation_conditions_distinct :
    NoDup [ActivationTaskExecutionFailed; ActivationTaskExecutionInProgress; ActivationTaskExecutionSucceeded];
  (** The condition types of an ArtifactDeployment are distinct and not empty. *)
  artifact_conditions_distinct :
    NoDup [""; StalledCondition; AppHealthyCondition; ArtifactDeployedCondition; ArtifactFetchedCondition;
           ArtifactDeploymentReadyCondition; DeploymentResultCreatedCondition];
}.

(** Constants of the Gateway API. *)
Class GatewayAPI := {
  GatewayConditionAccepted : string;
  GatewayConditionProgrammed : string;
  GatewayAddressRoutabilityCluster : string;
  HTTPProtocolType : string;
}.

(** * Konfidence objects *)

(** [runtime.RawExtension]: the raw JSON bytes. *)
Definition RawExtension := string.

Record DeploymentResult := {
  dr_Name : string;
  dr_Type : string;
  dr_Spec : RawExtension;
}.
#[export] Instance DeploymentResult_eq_dec : EqDecision DeploymentResult.
Proof. solve_decision. Defined.

(** A Go map as the list of its entries in the order a [range] loop visits
    them.  Go leaves that order open; keys are distinct. *)
Definition ResultsMap := list (string * list DeploymentResult).

Record VectorData := {
  vd_Meta : ObjectMeta;
  vd_Features : option RawExtension;
  vd_Authored : option RawExtension;
  vd_DeploymentResults : ResultsMap;
  vd_Conditions : list Condition;
}.
#[export] Instance VectorData_eq_dec : EqDecision VectorData.
Proof. solve_decision. Defined.
Record TaskExecution := {
  te_Meta : ObjectMeta;
  te_Type : string;
  te_Spec : RawExtension;
  te_Conditions : list Condition;
}.
#[export] Instance TaskExecution_eq_dec : EqDecision TaskExecution.
Proof. solve_decision. Defined.
Record ActivationTaskExecution := {
  ate_Meta : ObjectMeta;
  ate_Type : string;
  ate_VectorActivation : string;
  ate_Spec : RawExtension;
  ate_Conditions : list Condition;
}.
#[export] Instance ActivationTaskExecution_eq_dec : EqDecision ActivationTaskExecution.
Proof. solve_decision. Defined.
Record VectorActivation := {
  va_Meta : ObjectMeta;
  va_Stage : string;
  va_StageVersion : string;
  va_VectorDeployment : string;
}.
#[export] Instance VectorActivation_eq_dec : EqDecision VectorActivation.
Proof. solve_decision. Defined.
(** [Status.ActiveStageVersion] is a pointer to a reference by name. *)
Record Stage := {
  st_Meta : ObjectMeta;
  st_ActiveStageVersion : option string;
}.
#[export] Instance Stage_eq_dec : EqDecision Stage.
Proof. solve_decision. Defined.
Record StageVersion := { sv_Meta : ObjectMeta }.
#[export] Instance StageVersion_eq_dec : EqDecision StageVersion.
Proof. solve_decision. Defined.
Record VectorDeployment := {
  vdep_Meta : ObjectMeta;
  vdep_DeploymentResults : ResultsMap;
}.
#[export] Instance VectorDeployment_eq_dec : EqDecision VectorDeployment.
Proof. solve_decision. Defined.

(** * Core and batch objects *)

Record ConfigMap := {
  cm_Meta : ObjectMeta;
  cm_Immutable : option bool;
  cm_Data : gmap string string;
}.
#[export] Instance ConfigMap_eq_dec : EqDecision ConfigMap.
Proof. solve_decision. Defined.

Inductive Protocol := ProtocolTCP | ProtocolUDP | ProtocolSCTP | ProtocolOther (p : string).
#[export] Instance Protocol_eq_dec : EqDecision Protocol.
Proof. solve_decision. Defined.
Record ServicePort := {
  sp_Name : string;
  sp_Protocol : Protocol;
  sp_Port : Z;
}.
#[export] Instance ServicePort_eq_dec : EqDecision ServicePort.
Proof. solve_decision. Defined.
Record Service := {
  svc_Meta : ObjectMeta;
  svc_Ports : list ServicePort;
}.
#[export] Instance Service_eq_dec : EqDecision Service.
Proof. solve_decision. Defined.
Record Secret := {
  sec_Meta : ObjectMeta;
  sec_Data : gmap string string;
}.
#[export] Instance Secret_eq_dec : EqDecision Secret.
Proof. solve_decision. Defined.

(** pkg/deploymentresult/service_spec.go: the payload of an http-k8s-service
    deployment result. *)
Definition TypeHTTPK8sService : string := "http-k8s-service".
Record ServiceSpec := {
  ss_Namespace : string;
  ss_K8sName : string;
  ss_ServicePorts : list ServicePort;
  ss_IngressExposedPortName : string;
}.

(** [batchv1.JobSpec] is carried opaquely, in serialised form. *)
Record JobSpec := { js_Doc : string }.
#[export] Instance JobSpec_eq_dec : EqDecision JobSpec.
Proof. solve_decision. Defined.
Inductive JobConditionType := JobComplete | JobFailed | JobConditionOther (t : string).
#[export] Instance JobConditionType_eq_dec : EqDecision JobConditionType.
Proof. solve_decision. Defined.
Record JobCondition := { jc_Type : JobConditionType; jc_Status : ConditionStatus }.
#[export] Instance JobCondition_eq_dec : EqDecision JobCondition.
Proof. solve_decision. Defined.
Record Job := {
  job_Meta : ObjectMeta;
  job_Spec : JobSpec;
  job_Conditions : list JobCondition;
}.
#[export] Instance Job_eq_dec : EqDecision Job.
Proof. solve_decision. Defined.

(** * Gateway API objects *)

Record HTTPHeader := { hh_Name : string; hh_Value : string }.
#[export] Instance HTTPHeader_eq_dec : EqDecision HTTPHeader.
Proof. solve_decision. Defined.
Record ParentReference := { pr_Name : string; pr_Namespace : option string }.
#[export] Instance ParentReference_eq_dec : EqDecision ParentReference.
Proof. solve_decision. Defined.
(** A rule: its matches (each a conjunction of exact header matches), the
    request-header filters, and the backends (name and port). *)
Record HTTPHeaderFilter := { hf_Set : list HTTPHeader; hf_Remove : list string }.
#[export] Instance HTTPHeaderFilter_eq_dec : EqDecision HTTPHeaderFilter.
Proof. solve_decision. Defined.
Record BackendRef := { be_Name : string; be_Port : option Z }.
#[export] Instance BackendRef_eq_dec : EqDecision BackendRef.
Proof. solve_decision. Defined.
Record HTTPRouteRule := {
  rr_Matches : list (list HTTPHeader);
  rr_Filters : list HTTPHeaderFilter;
  rr_BackendRefs : list BackendRef;
}.
#[export] Instance HTTPRouteRule_eq_dec : EqDecision HTTPRouteRule.
Proof. solve_decision. Defined.
Record HTTPRoute := {
  rt_Meta : ObjectMeta;
  rt_ParentRefs : list ParentReference;
  rt_Rules : list HTTPRouteRule;
}.
#[export] Instance HTTPRoute_eq_dec : EqDecision HTTPRoute.
Proof. solve_decision. Defined.
Record Listener := { ls_Name : string; ls_Protocol : string; ls_Port : Z }.
#[export] Instance Listener_eq_dec : EqDecision Listener.
Proof. solve_decision. Defined.
Record GatewayStatusAddress := { ga_Value : string; ga_Routability : option string }.
#[export] Instance GatewayStatusAddress_eq_dec : EqDecision GatewayStatusAddress.
Proof. solve_decision. Defined.
(** [gw_SpecAddresses] holds the routability of each requested address. *)
Record Gateway := {
  gw_Meta : ObjectMeta;
  gw_ClassName : string;
  gw_SpecAddresses : list string;
  gw_Listeners : list Listener;
  gw_Conditions : list Condition;
  gw_StatusAddresses : list GatewayStatusAddress;
}.
#[export] Instance Gateway_eq_dec : EqDecision Gateway.
Proof. solve_decision. Defined.
Record GatewayClass := { gc_Meta : ObjectMeta }.
#[export] Instance GatewayClass_eq_dec : EqDecision GatewayClass.
Proof. solve_decision. Defined.

(** * Artifact deployments and deployment targets *)

Record OCMResource := {
  ocm_Name : string;
  ocm_Type : string;
  ocm_Content : RawExtension;
}.
#[export] Instance OCMResource_eq_dec : EqDecision OCMResource.
Proof. solve_decision. Defined.
(** [Status.DeploymentResults] distinguishes a nil slice ([None]) from an
    empty one, as [reflect.DeepEqual] does. *)
Record ArtifactDeployment := {
  ad_Meta : ObjectMeta;
  ad_ArtifactType : string;
  ad_Resources : list OCMResource;
  ad_Conditions : list Condition;
  ad_DeploymentResults : option (list DeploymentResult);
}.
#[export] Instance ArtifactDeployment_eq_dec : EqDecision ArtifactDeployment.
Proof. solve_decision. Defined.
(** [Spec.Parameters] is a pointer to a typed reference. *)
Record Parameters := { pa_APIGroup : string; pa_Kind : string; pa_Name : string }.
#[export] Instance Parameters_eq_dec : EqDecision Parameters.
Proof. solve_decision. Defined.
Record DeploymentTarget := {
  dt_Meta : ObjectMeta;
  dt_ArtifactType : string;
  dt_Parameters : option Parameters;
  dt_Conditions : list Condition;
}.
#[export] Instance DeploymentTarget_eq_dec : EqDecision DeploymentTarget.
Proof. solve_decision. Defined.

(** * Flux objects *)

Record SourceReference := { sr_Kind : string; sr_Namespace : string; sr_Name : string }.
#[export] Instance SourceReference_eq_dec : EqDecision SourceReference.
Proof. solve_decision. Defined.
Record HelmRepositorySpec := {
  hrs_Interval : Z;
  hrs_URL : string;
  hrs_Insecure : bool;
  hrs_SecretRef : option string;
  hrs_Type : string;
}.
#[export] Instance HelmRepositorySpec_eq_dec : EqDecision HelmRepositorySpec.
Proof. solve_decision. Defined.
Record HelmRepository := {
  hr_Meta : ObjectMeta;
  hr_Spec : HelmRepositorySpec;
}.
#[export] Instance HelmRepository_eq_dec : EqDecision HelmRepository.
Proof. solve_decision. Defined.
Record HelmReleaseSpec := {
  hls_Interval : Z;
  hls_SourceRef : SourceReference;
  hls_Chart : string;
  hls_Version : string;
  hls_ReleaseName : string;
  hls_KubeConfig : option string;
  hls_TargetNamespace : string;
  hls_StorageNamespace : string;
  hls_DriftDetection : string;
  hls_InstallTimeout : Z;
  hls_CommonLabels : gmap string string;
}.
#[export] Instance HelmReleaseSpec_eq_dec : EqDecision HelmReleaseSpec.
Proof. solve_decision. Defined.
Record HelmRelease := {
  hl_Meta : ObjectMeta;
  hl_Spec : HelmReleaseSpec;
  hl_Conditions : list Condition;
}.
#[export] Instance HelmRelease_eq_dec : EqDecision HelmRelease.
Proof. solve_decision. Defined.
Record HelmChart := {
  hc_Meta : ObjectMeta;
  hc_Conditions : list Condition;
}.
#[export] Instance HelmChart_eq_dec : EqDecision HelmChart.
Proof. solve_decision. Defined.
Record OCIRepositorySpec := {
  ocs_Interval : Z;
  ocs_URL : string;
  ocs_Insecure : bool;
  ocs_SecretRef : option string;
  ocs_Tag : string;
}.
#[export] Instance OCIRepositorySpec_eq_dec : EqDecision OCIRepositorySpec.
Proof. solve_decision. Defined.
Record OCIRepository := {
  oc_Meta : ObjectMeta;
  oc_Spec : OCIRepositorySpec;
  oc_Conditions : list Condition;
}.
#[export] Instance OCIRepository_eq_dec : EqDecision OCIRepository.
Proof. solve_decision. Defined.
Record KustomizationSpec := {
  kus_Interval : Z;
  kus_SourceRef : SourceReference;
  kus_Path : string;
  kus_KubeConfig : option string;
  kus_TargetNamespace : string;
  kus_NameSuffix : string;
  kus_Prune : bool;
  kus_Wait : bool;
  kus_CommonLabels : gmap string string;
}.
#[export] Instance KustomizationSpec_eq_dec : EqDecision KustomizationSpec.
Proof. solve_decision. Defined.
Record Kustomization := {
  ku_Meta : ObjectMeta;
  ku_Spec : KustomizationSpec;
  ku_Conditions : list Condition;
}.
#[export] Instance Kustomization_eq_dec : EqDecision Kustomization.
Proof. solve_decision. Defined.
