(* ===== verification/Client.v ===== *)
(** The outside world of the controllers: the Kubernetes API client of
    controller-runtime, the status-condition helpers of apimachinery, the
    clock, the event recorder and the random generator.  None of this code is
    part of the repository: the calls are the effects of [prog], the condition
    helpers are the interface [MetaConditions] with their documented laws. *)
From S2P Require Import Prelude GoBytes GoStrings Objects.
Local Open Scope Z_scope.

(** * Errors *)

(** An error answer of the API server: its status reason and message. *)
Inductive StatusReason := NotFound | AlreadyExists | OtherReason (r : string).
#[export] Instance StatusReason_eq_dec : EqDecision StatusReason.
Proof. solve_decision. Defined.
Record ApiError := { ae_Reason : StatusReason; ae_Message : string }.

Definition IsNotFound (e : ApiError) : bool := bool_decide (ae_Reason e = NotFound).
Definition IsAlreadyExists (e : ApiError) : bool := bool_decide (ae_Reason e = AlreadyExists).

(** Go errors: an API error, a message, or an error wrapped by [fmt.Errorf]
    with [%w] after its prefix. *)
Inductive GoError :=
| EApi (e : ApiError)
| ENew (msg : string)
| EWrap (prefix : string) (e : GoError)
| EJoin (prefix : string) (e1 e2 : GoError).

Fixpoint Error (e : GoError) : string :=
  match e with
  | EApi e => ae_Message e
  | ENew m => m
  | EWrap p e => p +:+ ": " +:+ Error e
  | EJoin p e1 e2 => p +:+ ": " +:+ Error e1 +:+ "; " +:+ Error e2
  end.

(** * Calls *)

Inductive kind :=
| KVectorData | KConfigMap | KTaskExecution | KJob
| KActivationTaskExecution | KVectorActivation | KStage | KStageVersion | KVectorDeployment
| KHTTPRoute | KGateway | KGatewayClass
| KArtifactDeployment | KService | KSecret | KDeploymentTarget
| KHelmRepository | KHelmRelease | KHelmChart | KOCIRepository | KKustomization.
Definition kind_dec (k k' : kind) : {k = k'} + {k ≠ k'}.
Proof. decide equality. Defined.
#[export] Instance kind_eq_dec : EqDecision kind := kind_dec.

Definition obj (k : kind) : Type :=
  match k with
  | KVectorData => VectorData
  | KConfigMap => ConfigMap
  | KTaskExecution => TaskExecution
  | KJob => Job
  | KActivationTaskExecution => ActivationTaskExecution
  | KVectorActivation => VectorActivation
  | KStage => Stage
  | KStageVersion => StageVersion
  | KVectorDeployment => VectorDeployment
  | KHTTPRoute => HTTPRoute
  | KGateway => Gateway
  | KGatewayClass => GatewayClass
  | KArtifactDeployment => ArtifactDeployment
  | KService => Service
  | KSecret => Secret
  | KDeploymentTarget => DeploymentTarget
  | KHelmRepository => HelmRepository
  | KHelmRelease => HelmRelease
  | KHelmChart => HelmChart
  | KOCIRepository => OCIRepository
  | KKustomization => Kustomization
  end.

Definition obj_meta {k : kind} : obj k → ObjectMeta :=
  match k with
  | KVectorData => vd_Meta
  | KConfigMap => cm_Meta
  | KTaskExecution => te_Meta
  | KJob => job_Meta
  | KActivationTaskExecution => ate_Meta
  | KVectorActivation => va_Meta
  | KStage => st_Meta
  | KStageVersion => sv_Meta
  | KVectorDeployment => vdep_Meta
  | KHTTPRoute => rt_Meta
  | KGateway => gw_Meta
  | KGatewayClass => gc_Meta
  | KArtifactDeployment => ad_Meta
  | KService => svc_Meta
  | KSecret => sec_Meta
  | KDeploymentTarget => dt_Meta
  | KHelmRepository => hr_Meta
  | KHelmRelease => hl_Meta
  | KHelmChart => hc_Meta
  | KOCIRepository => oc_Meta
  | KKustomization => ku_Meta
  end.
Definition obj_set_meta {k : kind} : ObjectMeta → obj k → obj k :=
  match k return ObjectMeta → obj k → obj k with
  | KVectorData => λ m o, {| vd_Meta := m; vd_Features := vd_Features o;
      vd_Authored := vd_Authored o; vd_DeploymentResults := vd_DeploymentResults o;
      vd_Conditions := vd_Conditions o |}
  | KConfigMap => λ m o, {| cm_Meta := m; cm_Immutable := cm_Immutable o; cm_Data := cm_Data o |}
  | KTaskExecution => λ m o, {| te_Meta := m; te_Type := te_Type o; te_Spec := te_Spec o;
      te_Conditions := te_Conditions o |}
  | KJob => λ m o, {| job_Meta := m; job_Spec := job_Spec o; job_Conditions := job_Conditions o |}
  | KActivationTaskExecution => λ m o, {| ate_Meta := m; ate_Type := ate_Type o;
      ate_VectorActivation := ate_VectorActivation o; ate_Spec := ate_Spec o;
      ate_Conditions := ate_Conditions o |}
  | KVectorActivation => λ m o, {| va_Meta := m; va_Stage := va_Stage o;
      va_StageVersion := va_StageVersion o; va_VectorDeployment := va_VectorDeployment o |}
  | KStage => λ m o, {| st_Meta := m; st_ActiveStageVersion := st_ActiveStageVersion o |}
  | KStageVersion => λ m o, {| sv_Meta := m |}
  | KVectorDeployment => λ m o, {| vdep_Meta := m;
      vdep_DeploymentResults := vdep_DeploymentResults o |}
  | KHTTPRoute => λ m o, {| rt_Meta := m; rt_ParentRefs := rt_ParentRefs o; rt_Rules := rt_Rules o |}
  | KGateway => λ m o, {| gw_Meta := m; gw_ClassName := gw_ClassName o;
      gw_SpecAddresses := gw_SpecAddresses o; gw_Listeners := gw_Listeners o;
      gw_Conditions := gw_Conditions o; gw_StatusAddresses := gw_StatusAddresses o |}
  | KGatewayClass => λ m o, {| gc_Meta := m |}
  | KArtifactDeployment => λ m o, {| ad_Meta := m; ad_ArtifactType := ad_ArtifactType o;
      ad_Resources := ad_Resources o; ad_Conditions := ad_Conditions o;
      ad_DeploymentResults := ad_DeploymentResults o |}
  | KService => λ m o, {| svc_Meta := m; svc_Ports := svc_Ports o |}
  | KSecret => λ m o, {| sec_Meta := m; sec_Data := sec_Data o |}
  | KDeploymentTarget => λ m o, {| dt_Meta := m; dt_ArtifactType := dt_ArtifactType o;
      dt_Parameters := dt_Parameters o; dt_Conditions := dt_Conditions o |}
  | KHelmRepository => λ m o, {| hr_Meta := m; hr_Spec := hr_Spec o |}
  | KHelmRelease => λ m o, {| hl_Meta := m; hl_Spec := hl_Spec o; hl_Conditions := hl_Conditions o |}
  | KHelmChart => λ m o, {| hc_Meta := m; hc_Conditions := hc_Conditions o |}
  | KOCIRepository => λ m o, {| oc_Meta := m; oc_Spec := oc_Spec o; oc_Conditions := oc_Conditions o |}
  | KKustomization => λ m o, {| ku_Meta := m; ku_Spec := ku_Spec o; ku_Conditions := ku_Conditions o |}
  end.
Definition obj_key {k : kind} (o : obj k) : NamespacedName := om_key (obj_meta o).

(** The list options of the code: a label, or the job-owner field index. *)
Inductive Selector := SelAll | SelLabel (key value : string) | SelOwner (name : string).

Inductive EventType := EventTypeNormal | EventTypeWarning.

(** [Patch] and [StatusPatch] carry the object the merge patch is computed
    from and the modified object; an object-valued answer is the object the
    client writes back into the caller's variable. *)
Inductive clientE : Type → Type :=
| Get (k : kind) (key : NamespacedName) : clientE (result ApiError (obj k))
| List (k : kind) (ns : string) (sel : Selector) : clientE (result ApiError (list (obj k)))
| Create (k : kind) (o : obj k) : clientE (result ApiError (obj k))
| Update (k : kind) (o : obj k) : clientE (result ApiError (obj k))
| Patch (k : kind) (old new : obj k) : clientE (result ApiError (obj k))
| StatusPatch (k : kind) (old new : obj k) : clientE (result ApiError (obj k))
| Delete (k : kind) (key : NamespacedName) : clientE (result ApiError unit)
| Now : clientE Z
| RandString (n : nat) : clientE string
| Eventf (about : NamespacedName) (t : EventType) (reason note : string) : clientE unit.

Abbreviation Prog := (prog clientE).

(** [ctrl.Result]; a zero [RequeueAfter] asks for no requeue. *)
Record Result := { RequeueAfter : Z }.
Definition no_requeue : Result := {| RequeueAfter := 0 |}.

Definition Outcome : Type := result GoError Result.
Definition done_ok : Prog Outcome := Ret (Ok no_requeue).
Definition fail_with (e : GoError) : Prog Outcome := Ret (Err e).

(** [client.IgnoreNotFound] on the outcome of a [Get] or [Delete]. *)
Definition IgnoreNotFound (e : ApiError) : Outcome :=
  if IsNotFound e then Ok no_requeue else Err (EApi e).

(** * Reading a run *)

Inductive verb := VGet | VList | VCreate | VUpdate | VPatch | VStatusPatch | VDelete.
#[export] Instance verb_eq_dec : EqDecision verb.
Proof. solve_decision. Defined.

(** The API request of an observed call: its verb, kind and key. *)
Definition request (o : obs clientE) : option (verb * kind * NamespacedName) :=
  match o with
  | Did e _ =>
      match e with
      | Get k key => Some (VGet, k, key)
      | List k ns _ => Some (VList, k, NN ns "")
      | Create k o => Some (VCreate, k, obj_key o)
      | Update k o => Some (VUpdate, k, obj_key o)
      | Patch k old new => Some (VPatch, k, obj_key new)
      | StatusPatch k old new => Some (VStatusPatch, k, obj_key new)
      | Delete k key => Some (VDelete, k, key)
      | Now | RandString _ | Eventf _ _ _ _ => None
      end
  end.

Definition is_write (v : verb) : bool :=
  match v with VGet | VList => false | _ => true end.
(** [o] is a request that changes objects of kind [k]. *)
Definition writes (k : kind) (o : obs clientE) : Prop :=
  match request o with Some (v, k', _) => k' = k ∧ is_write v = true | None => False end.
(** A call that changes nothing. *)
Definition reads (o : obs clientE) : Prop := ∀ k, ¬ writes k o.
Definition mutates (o : obs clientE) : Prop := ∃ k, writes k o.
Lemma reads_whenever (P : list (obs clientE) → obs clientE → Prop) l : Forall reads l → whenever mutates P l.
Proof.
  intros H. apply whenever_all. eapply Forall_impl; [exact H|]. intros o Ho [k Hw]. by apply Ho in Hw.
Qed.
(** [o] is a request with the given verb and kind. *)
Definition requests (v : verb) (k : kind) (o : obs clientE) : Prop :=
  match request o with Some (v', k', _) => v' = v ∧ k' = k | None => False end.

(** The outcome of an observed call. *)
Definition outcome (o : obs clientE) : option (result ApiError unit) :=
  match o with
  | Did e x =>
      match e in clientE X return X → option (result ApiError unit) with
      | Get _ _ | Create _ _ | Update _ _ | Patch _ _ _ | StatusPatch _ _ _ => λ r,
          Some (match r with Ok _ => Ok () | Err e => Err e end)
      | List _ _ _ => λ r, Some (match r with Ok _ => Ok () | Err e => Err e end)
      | Delete _ _ => λ r, Some r
      | _ => λ _, None
      end x
  end.
Definition succeeded (o : obs clientE) : Prop := outcome o = Some (Ok ()).
(** The object is known to be absent after [o]: it was deleted, or was not there. *)
Definition gone (o : obs clientE) : Prop :=
  match outcome o with
  | Some (Ok _) => True
  | Some (Err e) => IsNotFound e = true
  | None => False
  end.

Definition cast {k k' : kind} (E : k' = k) (o : obj k') : obj k := eq_rect k' obj o k E.
Lemma kind_dec_refl k : kind_dec k k = left eq_refl.
Proof. by destruct k. Qed.
(** The object of kind [k] an observed call was sent with. *)
Definition sent (k : kind) (o : obs clientE) : option (obj k) :=
  match o with
  | Did e _ =>
      match e with
      | Create k' o | Update k' o | Patch k' _ o | StatusPatch k' _ o =>
          match kind_dec k' k with left E => Some (cast E o) | right _ => None end
      | _ => None
      end
  end.
Lemma sent_writes k o x : sent k o = Some x → writes k o.
Proof.
  destruct o as [X e a]. destruct e; cbn; try done; destruct (kind_dec _ _) as [->|]; done.
Qed.
(** The object of kind [k] an observed call was answered with. *)
Definition answered (k : kind) (o : obs clientE) : option (obj k) :=
  match o with
  | Did e x =>
      match e in clientE X return X → option (obj k) with
      | Get k' _ | Create k' _ | Update k' _ | Patch k' _ _ | StatusPatch k' _ _ => λ r,
          match r with
          | Ok o => match kind_dec k' k with left E => Some (cast E o) | right _ => None end
          | Err _ => None
          end
      | _ => λ _, None
      end x
  end.

(** An object of kind [k] with [P] is known to be stored: a write sent it and
    succeeded, or it was read. *)
Definition stored (k : kind) (P : obj k → Prop) (o : obs clientE) : Prop :=
  ∃ n, P n ∧ ((sent k o = Some n ∧ succeeded o) ∨ (requests VGet k o ∧ answered k o = Some n)).

(** The objects of kind [k] a list call was answered with. *)
Definition listed (k : kind) (o : obs clientE) : option (list (obj k)) :=
  match o with
  | Did e x =>
      match e in clientE X return X → option (list (obj k)) with
      | List k' _ _ => λ r,
          match r with
          | Ok l => match kind_dec k' k with
                    | left E => Some (eq_rect k' (λ k, list (obj k)) l k E)
                    | right _ => None
                    end
          | Err _ => None
          end
      | _ => λ _, None
      end x
  end.

(** The last version of an object of kind [k] that was seen. *)
Definition latest (k : kind) (tr : list (obs clientE)) : option (obj k) := last (omap (answered k) tr).
(** The object was looked up and is not there. *)
Definition foundAbsent (k : kind) (key : NamespacedName) (o : obs clientE) : Prop :=
  request o = Some (VGet, k, key) ∧ ∃ e, outcome o = Some (Err e) ∧ IsNotFound e = true.

(** What the API server's answers are documented to satisfy: a read returns
    the object asked for; a write answers with the written object, under the
    same key, a patch of the finalizers with the list it has set (anything else
    may have been changed by others in between); the random generator returns a
    string of the length asked for.  A run is considered with this as a
    hypothesis only where a theorem says so. *)
Definition well_answered (o : obs clientE) : Prop :=
  match o with
  | Did e x =>
      match e in clientE X return X → Prop with
      | Get k key => λ r, match r with Ok o => obj_key o = key | Err _ => True end
      | Patch k old new => λ r,
          match r with
          | Ok o => obj_key o = obj_key new ∧ om_Finalizers (obj_meta o) = om_Finalizers (obj_meta new)
          | Err _ => True
          end
      | StatusPatch k _ new | Create k new | Update k new => λ r,
          match r with Ok o => obj_key o = obj_key new | Err _ => True end
      | RandString n => λ s, len s = n
      | _ => λ _, True
      end x
  end.

(** * Finalizers

    [controllerutil.AddFinalizer] and [RemoveFinalizer]: they change the
    finalizer list only. *)

Definition ContainsFinalizer (m : ObjectMeta) (f : string) : bool :=
  bool_decide (f ∈ om_Finalizers m).

Lemma contains_finalizer_same m m' f :
  om_Finalizers m = om_Finalizers m' → ContainsFinalizer m f = ContainsFinalizer m' f.
Proof. unfold ContainsFinalizer. by intros ->. Qed.

(** The object at [key] is stored without the finalizer [f]. *)
Definition releases (k : kind) (f : string) (key : NamespacedName) (o : obs clientE) : Prop :=
  ∃ x : obj k, sent k o = Some x ∧ obj_key x = key ∧ ContainsFinalizer (obj_meta x) f = false ∧ succeeded o.
(** The object at [key] is seen with the finalizer [f]. *)
Definition sawGuard (k : kind) (f : string) (key : NamespacedName) (o : obs clientE) : Prop :=
  ∃ x : obj k, answered k o = Some x ∧ obj_key x = key ∧ ContainsFinalizer (obj_meta x) f = true.

#[export] Instance releases_dec k f key o : Decision (releases k f key o).
Proof.
  unfold releases, succeeded. destruct (sent k o) as [x|]; [|right; by intros (x & E & _)].
  destruct (decide (obj_key x = key)) as [Ek|Ek]; [|right; intros (x' & E & E' & _); congruence].
  destruct (ContainsFinalizer (obj_meta x) f) eqn:Ef;
    [right; intros (x' & E & _ & E' & _); congruence|].
  destruct (outcome o) as [[[]|e]|]; [left; by exists x|right; intros (x' & _ & _ & _ & E); congruence..].
Defined.

Lemma sent_key k o v k' key (x : obj k) : sent k o = Some x → request o = Some (v, k', key) → obj_key x = key.
Proof. destruct o as [X e a]. destruct e; cbn; try done; destruct (kind_dec _ _) as [->|]; cbn; congruence. Qed.

Class Finalizers := {
  AddFinalizer : ObjectMeta → string → ObjectMeta;
  RemoveFinalizer : ObjectMeta → string → ObjectMeta;
  add_finalizer_same m f : ∃ l, AddFinalizer m f = om_set_finalizers l m;
  remove_finalizer_same m f : ∃ l, RemoveFinalizer m f = om_set_finalizers l m;
  elem_add_finalizer m f g :
    g ∈ om_Finalizers (AddFinalizer m f) ↔ g = f ∨ g ∈ om_Finalizers m;
  elem_remove_finalizer m f g :
    g ∈ om_Finalizers (RemoveFinalizer m f) ↔ g ≠ f ∧ g ∈ om_Finalizers m;
}.

Section finalizers.
Context `{Finalizers}.

Lemma contains_add_finalizer m f : ContainsFinalizer (AddFinalizer m f) f = true.
Proof. unfold ContainsFinalizer. rewrite bool_decide_eq_true, elem_add_finalizer. by left. Qed.
Lemma contains_remove_finalizer m f : ContainsFinalizer (RemoveFinalizer m f) f = false.
Proof. unfold ContainsFinalizer. rewrite bool_decide_eq_false, elem_remove_finalizer. by intros []. Qed.
Lemma add_finalizer_key m f : om_key (AddFinalizer m f) = om_key m.
Proof. by destruct (add_finalizer_same m f) as [l ->]. Qed.
Lemma add_finalizer_deletion m f :
  om_DeletionTimestamp (AddFinalizer m f) = om_DeletionTimestamp m.
Proof. by destruct (add_finalizer_same m f) as [l ->]. Qed.
Lemma remove_finalizer_key m f : om_key (RemoveFinalizer m f) = om_key m.
Proof. by destruct (remove_finalizer_same m f) as [l ->]. Qed.
End finalizers.

(** * Owner references

    [controllerutil.SetControllerReference]: it fails, or adds the owner as
    controller and changes nothing else of the metadata.  The owner's API
    version is the one the scheme has for its kind. *)
Class OwnerReferences := {
  owner_api_version : string → string;
  SetControllerReference : string → ObjectMeta → ObjectMeta → result GoError ObjectMeta;
  set_controller_spec kind owner m m' :
    om_OwnerReferences m = [] →
    SetControllerReference kind owner m = Ok m' →
    ∃ r, m' = om_set_owners [r] m ∧ or_Controller r = true ∧ or_Kind r = kind ∧
         or_Name r = om_Name owner ∧ or_APIVersion r = owner_api_version kind;
}.

(** * Status conditions *)

(** The helpers of [k8s.io/apimachinery/pkg/api/meta] with their documented
    behaviour.  [SetStatusCondition] reads the clock when the new condition
    carries no transition time; the reading is its first argument. *)
Class MetaConditions := {
  SetStatusCondition : Z → list Condition → Condition → list Condition;
  RemoveStatusCondition : list Condition → string → list Condition;
  FindStatusCondition : list Condition → string → option Condition;
  (** A set condition is found with the new status, reason, message and
      generation. *)
  find_set_eq now cs c :
    ∃ t, FindStatusCondition (SetStatusCondition now cs c) (c_Type c) = Some
      {| c_Type := c_Type c; c_Status := c_Status c; c_Reason := c_Reason c;
         c_Message := c_Message c; c_ObservedGeneration := c_ObservedGeneration c;
         c_LastTransitionTime := t |};
  (** Conditions of other types are untouched. *)
  find_set_ne now cs c t :
    t ≠ c_Type c → FindStatusCondition (SetStatusCondition now cs c) t = FindStatusCondition cs t;
  find_remove_eq cs t : FindStatusCondition (RemoveStatusCondition cs t) t = None;
  find_remove_ne cs t t' :
    t' ≠ t → FindStatusCondition (RemoveStatusCondition cs t) t' = FindStatusCondition cs t';
  (** A condition that only repeats what is stored changes nothing: the
      transition time moves with the status only. *)
  set_same now cs c old :
    FindStatusCondition cs (c_Type c) = Some old →
    c_Status old = c_Status c → c_Reason old = c_Reason c → c_Message old = c_Message c →
    c_ObservedGeneration old = c_ObservedGeneration c →
    SetStatusCondition now cs c = cs;
  find_type cs t c : FindStatusCondition cs t = Some c → c_Type c = t;
}.

Section conditions.
Context `{MetaConditions}.

(** [meta.IsStatusConditionTrue]. *)
Definition IsStatusConditionTrue (cs : list Condition) (t : string) : bool :=
  match FindStatusCondition cs t with
  | Some c => bool_decide (c_Status c = ConditionTrue)
  | None => false
  end.

Lemma is_true_set_eq now cs c :
  IsStatusConditionTrue (SetStatusCondition now cs c) (c_Type c) =
  bool_decide (c_Status c = ConditionTrue).
Proof. unfold IsStatusConditionTrue. destruct (find_set_eq now cs c) as [t ->]. done. Qed.
Lemma is_true_set_ne now cs c t :
  t ≠ c_Type c → IsStatusConditionTrue (SetStatusCondition now cs c) t = IsStatusConditionTrue cs t.
Proof. intros Hne. unfold IsStatusConditionTrue. by rewrite find_set_ne. Qed.
Lemma is_true_remove_eq cs t : IsStatusConditionTrue (RemoveStatusCondition cs t) t = false.
Proof. unfold IsStatusConditionTrue. by rewrite find_remove_eq. Qed.
Lemma is_true_remove_ne cs t t' :
  t' ≠ t → IsStatusConditionTrue (RemoveStatusCondition cs t) t' = IsStatusConditionTrue cs t'.
Proof. intros Hne. unfold IsStatusConditionTrue. by rewrite find_remove_ne. Qed.
End conditions.

Create Rewrite HintDb cond.
#[export] Hint Rewrite @is_true_set_eq @is_true_remove_eq @find_remove_eq
  @contains_add_finalizer @contains_remove_finalizer
  @add_finalizer_key @remove_finalizer_key @add_finalizer_deletion : cond.

(** * Tactics for runs *)

(** Closes facts about single observed calls. *)
Ltac obs_hyps :=
  repeat match goal with
  | |- ¬ _ => let H := fresh in intro H
  | H : ∃ _, _ |- _ => destruct H
  | H : _ ∧ _ |- _ => destruct H
  | H : _ ∨ _ |- _ => destruct H
  end.
Ltac obs_goal :=
  repeat match goal with
  | |- _ ∧ _ => split
  | |- ∃ _, _ => eexists
  end;
  first [done | reflexivity | eassumption | congruence
        | left; solve [obs_goal] | right; solve [obs_goal]].
Ltac obs_side :=
  obs_hyps; unfold gone, succeeded in *; cbn in *; obs_hyps; simplify_eq/=;
  autorewrite with cond in *; cbn in *; try done; try congruence; try solve [obs_goal].

(** Spells out what [well_answered] says of a concrete run. *)
Ltac answers_of Hwa :=
  rewrite ?Forall_cons in Hwa; cbn in Hwa; unfold obj_key in Hwa; cbn in Hwa; obs_hyps;
  autorewrite with cond in *.

(** Goes through the positions of a concrete run at which a call with [Ho] can
    be. *)
Ltac positions before Ho :=
  repeat (destruct before as [|? before]; simplify_eq/=; try (by destruct Ho)).

(** Closes [Forall] over a concrete run of a property of writes, for runs that
    do not write. *)
Ltac no_writes :=
  repeat (apply Forall_cons; split); try done;
  intros; intro; unfold writes in *; cbn in *; obs_hyps; done.

(** The same for [reads]. *)
Ltac reads_walk := repeat (apply Forall_cons; split); try done; intros ? ?; cbn in *; obs_hyps; done.

(** Finds a call of a concrete run for which [tac] proves the claim. *)
Ltac find_obs tac :=
  first [ apply Exists_cons_hd; solve [tac] | apply Exists_cons_tl; find_obs tac ].

(** Decides [preceded P Q tr] on a concrete run, call by call. *)
Ltac preceded_walk side :=
  repeat lazymatch goal with
  | |- preceded _ _ [] => apply preceded_nil
  | |- preceded _ _ (_ :: _) =>
      first [ apply preceded_hit; [solve [side]|solve [side]]
            | apply preceded_miss; [solve [side]|] ]
  end.

(** * Reference implementations

    Concrete functions with the laws above; they show that the interfaces can
    be met, and let examples run. *)

Definition ref_finalizers : Finalizers.
Proof.
  refine {| AddFinalizer m f := if ContainsFinalizer m f then m
                                else om_set_finalizers (om_Finalizers m ++ [f]) m;
            RemoveFinalizer m f := om_set_finalizers (filter (.≠ f) (om_Finalizers m)) m |}.
  - intros m f. destruct (ContainsFinalizer m f); [|by eexists].
    exists (om_Finalizers m). by destruct m.
  - intros m f. by eexists.
  - intros m f g. unfold ContainsFinalizer. case_bool_decide; cbn; set_solver.
  - intros m f g. cbn. rewrite list_elem_of_filter. done.
Defined.

Definition ref_owners (gv : string → string) : OwnerReferences.
Proof.
  refine {| owner_api_version := gv;
    SetControllerReference kind owner m :=
      if existsb or_Controller (om_OwnerReferences m) then Err (ENew "already owned")
      else Ok (om_set_owners (om_OwnerReferences m ++
        [{| or_APIVersion := gv kind; or_Kind := kind; or_Name := om_Name owner;
            or_Controller := true |}]) m) |}.
  intros kind owner m m' Hm. rewrite Hm. intros [= <-]. by eexists.
Defined.

Definition merge_condition (now : Z) (old new : Condition) : Condition := {|
  c_Type := c_Type new; c_Status := c_Status new; c_Reason := c_Reason new;
  c_Message := c_Message new; c_ObservedGeneration := c_ObservedGeneration new;
  c_LastTransitionTime :=
    if bool_decide (c_Status old = c_Status new) then c_LastTransitionTime old
    else Some (default now (c_LastTransitionTime new)) |}.
Fixpoint set_condition (now : Z) (cs : list Condition) (c : Condition) : list Condition :=
  match cs with
  | [] => [{| c_Type := c_Type c; c_Status := c_Status c; c_Reason := c_Reason c;
              c_Message := c_Message c; c_ObservedGeneration := c_ObservedGeneration c;
              c_LastTransitionTime := Some (default now (c_LastTransitionTime c)) |}]
  | d :: cs' => if bool_decide (c_Type d = c_Type c) then merge_condition now d c :: cs'
                else d :: set_condition now cs' c
  end.
Fixpoint find_condition (cs : list Condition) (t : string) : option Condition :=
  match cs with
  | [] => None
  | d :: cs' => if bool_decide (c_Type d = t) then Some d else find_condition cs' t
  end.
Definition remove_condition (cs : list Condition) (t : string) : list Condition :=
  filter (λ c, c_Type c ≠ t) cs.

Definition ref_conditions : MetaConditions.
Proof.
  refine {| SetStatusCondition := set_condition;
            RemoveStatusCondition := remove_condition;
            FindStatusCondition := find_condition |}.
  - intros now cs c. induction cs as [|d cs [t IH]]; cbn.
    + rewrite bool_decide_eq_true_2 by done. by eexists.
    + case_bool_decide; cbn.
      * rewrite bool_decide_eq_true_2 by done. by eexists.
      * rewrite bool_decide_eq_false_2 by done. by exists t.
  - intros now cs c t Hne. induction cs as [|d cs IH]; cbn.
    + by rewrite bool_decide_eq_false_2.
    + case_bool_decide as E; cbn.
      * rewrite !bool_decide_eq_false_2 by congruence. done.
      * by rewrite IH.
  - intros cs t. unfold remove_condition. induction cs as [|d cs IH]; [done|].
    rewrite filter_cons. case_decide; [|done]. cbn. by rewrite bool_decide_eq_false_2.
  - intros cs t t' Hne. unfold remove_condition. induction cs as [|d cs IH]; [done|].
    rewrite filter_cons. case_decide as E; cbn.
    + by rewrite IH.
    + rewrite IH. by rewrite bool_decide_eq_false_2 by congruence.
  - intros now cs c old Hf H1 H2 H3 H4. induction cs as [|d cs IH]; cbn in *; [done|].
    case_bool_decide as E; [|by rewrite IH]. simplify_eq. f_equal. unfold merge_condition.
    rewrite bool_decide_eq_true_2 by done. destruct old; cbn in *. by subst.
  - intros cs t c. induction cs as [|d cs IH]; cbn; [done|].
    case_bool_decide; [|done]. by intros [= ->].
Defined.
