(* ===== verification/Histories.v ===== *)
(** Concurrent runs: the history of calls that many programs, started at any
    time and interleaved call by call, have made together with calls from
    elsewhere.  Every run of the history is a run of its program, so what the
    components prove of single runs holds within a history. *)
From S2P Require Import Prelude.

Module Histories.

(** Positions of a history. *)
Lemma mid_lookup {A} (l1 l2 : list A) x : (l1 ++ x :: l2) !! length l1 = Some x.
Proof. by rewrite list_lookup_middle. Qed.
Lemma lookup_before {A} (l1 l2 : list A) n x : l1 !! n = Some x → (l1 ++ l2) !! n = Some x ∧ (n < length l1)%nat.
Proof. intros H. split; [by apply lookup_app_l_Some|by eapply lookup_lt_Some]. Qed.
Lemma lookup_after {A} (l1 l2 : list A) x n y :
  (l1 ++ x :: l2) !! n = Some y → (length l1 < n)%nat → y ∈ l2.
Proof.
  intros H Hn. rewrite cons_middle, app_assoc, lookup_app_r in H by (rewrite length_app; cbn; lia).
  by eapply list_elem_of_lookup_2.
Qed.

Section histories.
Context {E : Type → Type} {R role : Type}.
(** The program each role runs, and the calls others may make. *)
Context (program : role → prog E R) (outside : obs E → Prop).

(** A call with the run that made it, [None] for a call from elsewhere. *)
Abbreviation event := (option nat * obs E)%type.
Abbreviation pool := (list (role * prog E R)).

Inductive history : list event → pool → Prop :=
| history_nil : history [] []
| history_start h ps ρ : history h ps → history h (ps ++ [(ρ, program ρ)])
| history_call h ps i ρ X (e : E X) k x :
    history h ps → ps !! i = Some (ρ, Vis e k) →
    history (h ++ [(Some i, Did e x)]) (<[i := (ρ, k x)]> ps)
| history_outside h ps o : history h ps → outside o → history (h ++ [(None, o)]) ps.

Fixpoint callsOf (i : nat) (h : list event) : list (obs E) :=
  match h with
  | [] => []
  | (j, o) :: h' => if bool_decide (j = Some i) then o :: callsOf i h' else callsOf i h'
  end.

Lemma callsOf_app i h h' : callsOf i (h ++ h') = callsOf i h ++ callsOf i h'.
Proof. induction h as [|[j o] h IH]; [done|]. cbn. case_bool_decide; [|done]. cbn. by rewrite IH. Qed.
Lemma callsOf_mid i h o h' : callsOf i (h ++ (Some i, o) :: h') = callsOf i h ++ o :: callsOf i h'.
Proof. rewrite callsOf_app. cbn. by rewrite bool_decide_eq_true_2. Qed.
Lemma callsOf_exists i (P : obs E → Prop) h :
  Exists P (callsOf i h) → ∃ h1 o h2, h = h1 ++ (Some i, o) :: h2 ∧ P o.
Proof.
  induction h as [|[j o] h IH]; cbn; [by intros ?%Exists_nil|].
  case_bool_decide as Ej; [subst j; rewrite Exists_cons; intros [Ho|H]|intros H].
  - by exists [], o, h.
  - destruct (IH H) as (h1 & o' & h2 & -> & Ho). by exists ((Some i, o) :: h1), o', h2.
  - destruct (IH H) as (h1 & o' & h2 & -> & Ho). by exists ((j, o) :: h1), o', h2.
Qed.
Lemma callsOf_forall i (P : obs E → Prop) h : Forall (λ c, P c.2) h → Forall P (callsOf i h).
Proof. induction 1 as [|[j o] h Ho _ IH]; cbn; [done|]. case_bool_decide; [by constructor|done]. Qed.

(** The calls of a run continue as its program does, *)
Lemma history_continues h ps : history h ps →
  (∀ i, ps !! i = None → callsOf i h = []) ∧
  (∀ i ρ p tr r, ps !! i = Some (ρ, p) → execs p tr r → execs (program ρ) (callsOf i h ++ tr) r).
Proof.
  induction 1 as [|h ps ρ _ [IH0 IH]|h ps j ρ X e k x _ [IH0 IH] Hj|h ps o _ [IH0 IH] Ho].
  - split; [done|]. intros i ρ p tr r. by rewrite lookup_nil.
  - split.
    + intros i Hi%lookup_ge_None_1. rewrite length_app in Hi. apply IH0, lookup_ge_None_2. lia.
    + intros i ρ' p tr r. rewrite lookup_app_Some. intros [Hi|[Hlen Hi]] Hp; [by eapply IH|].
      apply list_lookup_singleton_Some in Hi as [_ [= <- <-]].
      by rewrite IH0 by (apply lookup_ge_None_2; lia).
  - split.
    + intros i Hi. rewrite callsOf_app. cbn. case_bool_decide as E'; simplify_eq.
      * rewrite list_lookup_insert_eq in Hi; [done|]. by eapply lookup_lt_Some.
      * rewrite app_nil_r. apply IH0. by rewrite list_lookup_insert_ne in Hi by congruence.
    + intros i ρ' p tr r Hi Hp. rewrite callsOf_app. cbn. case_bool_decide as E'; simplify_eq.
      * rewrite list_lookup_insert_eq in Hi by (by eapply lookup_lt_Some). simplify_eq.
        rewrite <-app_assoc. eapply IH; [exact Hj|]. cbn. eauto.
      * rewrite list_lookup_insert_ne in Hi by congruence. rewrite app_nil_r. by eapply IH.
  - split.
    + intros i Hi. rewrite callsOf_app. cbn. rewrite app_nil_r. by apply IH0.
    + intros i ρ p tr r Hi Hp. rewrite callsOf_app. cbn. rewrite app_nil_r. by eapply IH.
Qed.

(** and what is not a run's is from outside. *)
Lemma history_outside_calls h ps o : history h ps → (None, o) ∈ h → outside o.
Proof.
  induction 1 as [|h ps ρ _ IH|h ps j ρ X e k x _ IH Hj|h ps o' _ IH Ho]; [by intros ?%elem_of_nil|done|..];
    (intros [H|H]%elem_of_app; [by apply IH|]); apply list_elem_of_singleton in H; congruence.
Qed.

Context (good : obs E → Prop) (answerable : ∀ X (e : E X), ∃ x, good (Did e x)).

Lemma execs_good {A} (p : prog E A) : ∃ tr r, execs p tr r ∧ Forall good tr.
Proof.
  induction p as [r|X e k IH]; [by exists [], r|].
  destruct (answerable X e) as [x Hx]. destruct (IH x) as (tr & r & H & Hg).
  exists (Did e x :: tr), r. cbn. split; [eauto|by constructor].
Qed.

(** A call of a history, seen from the run that makes it: the calls of that run
    up to it and beyond are a run of its program. *)
Lemma history_run h ps h1 i o h2 :
  history h ps → Forall (λ c, good c.2) h → h = h1 ++ (Some i, o) :: h2 →
  ∃ ρ p after r, ps !! i = Some (ρ, p) ∧ execs (program ρ) (callsOf i h1 ++ o :: after) r ∧
    Forall good (callsOf i h1 ++ o :: after).
Proof.
  intros Hh Hg ->. destruct (history_continues _ _ Hh) as [H0 H].
  destruct (ps !! i) as [[ρ p]|] eqn:Ei.
  - destruct (execs_good p) as (tr & r & Hp & Htr). pose proof (H _ _ _ _ _ Ei Hp) as Hrun.
    rewrite callsOf_mid, <-app_assoc in Hrun. cbn in Hrun.
    exists ρ, p, (callsOf i h2 ++ tr), r. split_and!; [done..|].
    apply (callsOf_forall i) in Hg. rewrite callsOf_mid in Hg. rewrite app_comm_cons, app_assoc.
    by apply Forall_app.
  - specialize (H0 i Ei). rewrite callsOf_mid in H0. by destruct (callsOf i h1).
Qed.

(** Runs taken by a schedule against a server, one call per entry. *)
Fixpoint interleave {S} (server : ∀ X, E X → S → X * S) (sched : list nat) (ps : pool) (s : S) :
    list event * pool * S :=
  match sched with
  | [] => ([], ps, s)
  | i :: sched' =>
      match ps !! i with
      | Some (ρ, Vis e k) =>
          let xs := server _ e s in
          let rest := interleave server sched' (<[i := (ρ, k xs.1)]> ps) xs.2 in
          ((Some i, Did e xs.1) :: rest.1.1, rest.1.2, rest.2)
      | _ => interleave server sched' ps s
      end
  end.

Lemma interleave_history {S} (server : ∀ X, E X → S → X * S) sched h ps s :
  history h ps →
  history (h ++ (interleave server sched ps s).1.1) (interleave server sched ps s).1.2.
Proof.
  revert h ps s. induction sched as [|i sched IH]; intros h ps s Hh; cbn; [by rewrite app_nil_r|].
  destruct (ps !! i) as [[ρ [r|X e k]]|] eqn:Ei; [by apply IH| |by apply IH]. cbn.
  rewrite cons_middle, app_assoc. apply IH. by eapply history_call.
Qed.
Lemma interleave_good {S} (server : ∀ X, E X → S → X * S) (inv : S → Prop) sched ps s :
  (∀ X e s, inv s → good (Did e (server X e s).1) ∧ inv (server X e s).2) → inv s →
  Forall (λ c, good c.2) (interleave server sched ps s).1.1.
Proof.
  intros Hs. revert ps s. induction sched as [|i sched IH]; intros ps s Hi; cbn; [constructor|].
  destruct (ps !! i) as [[ρ [r|X e k]]|]; [by apply IH| |by apply IH]. cbn.
  destruct (Hs X e s Hi). constructor; [done|]. by apply IH.
Qed.
Lemma interleave_invariant {S} (server : ∀ X, E X → S → X * S) (inv : S → Prop) sched ps s :
  (∀ X e s, inv s → good (Did e (server X e s).1) ∧ inv (server X e s).2) → inv s →
  inv (interleave server sched ps s).2.
Proof.
  intros Hs. revert ps s. induction sched as [|i sched IH]; intros ps s Hi; cbn; [done|].
  destruct (ps !! i) as [[ρ [r|X e k]]|]; [by apply IH| |by apply IH]. cbn. apply IH. by apply Hs.
Qed.
Definition started (ρs : list role) : pool := (λ ρ, (ρ, program ρ)) <$> ρs.
Lemma started_history ρs : history [] (started ρs).
Proof.
  induction ρs as [|ρ ρs IH] using rev_ind; [constructor|]. unfold started. rewrite fmap_app. by apply history_start.
Qed.
Lemma interleave_started {S} (server : ∀ X, E X → S → X * S) sched ρs s :
  history (interleave server sched (started ρs) s).1.1 (interleave server sched (started ρs) s).1.2.
Proof. exact (interleave_history server sched [] (started ρs) s (started_history ρs)). Qed.
End histories.

Section events.
Context {E : Type → Type} {R role : Type}.
Abbreviation event := (option nat * obs E)%type.
Abbreviation pool := (list (role * prog E R)).

(** The work queue of a controller: no call of one run for a role comes between
    two calls of another run for it. *)
Definition serial (h : list event) (ps : pool) : Prop :=
  ∀ ρ i j p q a b c o1 o2 o3, i ≠ j → ps !! i = Some (ρ, p) → ps !! j = Some (ρ, q) →
    (a < b)%nat → (b < c)%nat →
    h !! a = Some (Some j, o1) → h !! b = Some (Some i, o2) → h !! c = Some (Some j, o3) → False.
(** Two runs one after the other are serial. *)
Lemma serial_two (h0 h1 : list event) ps :
  Forall (λ c, c.1 ∈ [Some 0; None])%nat h0 → Forall (λ c, c.1 ∈ [Some 1; None])%nat h1 → serial (h0 ++ h1) ps.
Proof.
  intros H0 H1 ρ i j p q a b c o1 o2 o3 Hij _ _ Hab Hbc Ha Hb Hc. rewrite Forall_lookup in H0, H1.
  assert (Hw : ∀ n i o, (h0 ++ h1) !! n = Some (Some i, o) →
    (n < length h0)%nat ∧ i = 0%nat ∨ (length h0 ≤ n)%nat ∧ i = 1%nat).
  { intros n i' o. rewrite lookup_app_Some. intros [H|[Hl H]]; [left|right].
    - split; [by eapply lookup_lt_Some|]. apply H0 in H. cbn in H. set_solver.
    - split; [done|]. apply H1 in H. cbn in H. set_solver. }
  apply Hw in Ha, Hb, Hc. lia.
Qed.

(** [P] happened, and no [Q] since. *)
Definition since (P Q : obs E → Prop) (h : list event) : Prop :=
  ∃ h1 c h2, h = h1 ++ c :: h2 ∧ P c.2 ∧ Forall (λ c, ¬ Q c.2) h2.

(** * Objects kept under a finalizer

    One run stores an object after it saw a guard on the object's owner, another
    takes the guard off after it removed the object. *)
Section guarded.
Context (saw stores removes releases : obs E → Prop) `{!∀ o, Decision (releases o)}.

(** The run [j] overtook the run [i], which stored the object that is there
    now: [i] saw the guard before [j] took it off and stored the object after [j]
    had removed it, and nobody removed it since. *)
Definition overtaken (h : list event) : Prop :=
  ∃ i j seen stored removed released o1 o2 o3 o4,
    h !! seen = Some (Some i, o1) ∧ saw o1 ∧
    h !! stored = Some (Some i, o2) ∧ stores o2 ∧
    h !! removed = Some (Some j, o3) ∧ removes o3 ∧
    h !! released = Some (Some j, o4) ∧ releases o4 ∧
    (seen < stored)%nat ∧ (removed < released)%nat ∧ (seen < released)%nat ∧ (removed < stored)%nat ∧
    (∀ n c, (stored < n)%nat → h !! n = Some c → ¬ removes c.2).

(** When every store comes from a run that saw the guard, and every release
    from a run that removed the object, a stored object is still guarded, or it
    was overtaken. *)
Lemma guarded_or_overtaken h :
  (∀ h1 c h2, h = h1 ++ c :: h2 → stores c.2 → ∃ i a o, c.1 = Some i ∧ h1 !! a = Some (Some i, o) ∧ saw o) →
  (∀ h1 c h2, h = h1 ++ c :: h2 → releases c.2 → ∃ j a o, c.1 = Some j ∧ h1 !! a = Some (Some j, o) ∧ removes o) →
  (∀ o, stores o → ¬ removes o) →
  since stores removes h → since saw releases h ∨ overtaken h.
Proof.
  intros Hstores Hreleases Hapart (h1 & c & h2 & Eh & Hst & Hno).
  destruct (Hstores _ _ _ Eh Hst) as (i & seen & o1 & Hc & Hsaw & H1). destruct c as [? o2]. cbn in Hc, Hst. subst.
  apply list_elem_of_split_length in Hsaw as (a & b & -> & Ea).
  destruct (decide (Exists (λ c, releases c.2) (b ++ (Some i, o2) :: h2))) as [Hrel|Hrel].
  2: { left. exists a, (Some i, o1), (b ++ (Some i, o2) :: h2). split_and!; [by rewrite <-app_assoc|done|].
       by apply not_Exists_Forall in Hrel; [|apply _]. }
  right. apply list.Exists_exists in Hrel as (c & Hin & Hr). apply list_elem_of_split in Hin as (x & y & Exy).
  assert (Eh : (a ++ (Some i, o1) :: b) ++ (Some i, o2) :: h2 = (a ++ (Some i, o1) :: x) ++ c :: y)
    by (rewrite <-!app_assoc; cbn; by rewrite Exy).
  destruct (Hreleases _ _ _ Eh Hr) as (j & removed & o3 & Hj & Hrem & H3).
  destruct c as [? o4]. cbn in Hj, Hr. subst. apply (lookup_before _ ((Some j, o4) :: y)) in Hrem as [Hrem Hlt].
  assert (Hne : (removed < length (a ++ (Some i, o1) :: b))%nat).
  { rewrite <-Eh in Hrem. destruct (Nat.lt_trichotomy removed (length (a ++ (Some i, o1) :: b))) as [?|[->|Hgt]]; [done|..].
    - rewrite mid_lookup in Hrem. simplify_eq. by destruct (Hapart _ Hst).
    - apply lookup_after in Hrem; [|done]. rewrite list.Forall_forall in Hno. by destruct (Hno _ Hrem). }
  exists i, j, (length a), (length (a ++ (Some i, o1) :: b)), removed, (length (a ++ (Some i, o1) :: x)), o1, o2, o3, o4.
  split_and!; try done.
  - rewrite <-app_assoc. exact (mid_lookup a _ _).
  - by rewrite mid_lookup.
  - by rewrite Eh.
  - by rewrite Eh, mid_lookup.
  - rewrite length_app. cbn. lia.
  - rewrite length_app. cbn. lia.
  - intros n c Hn Hc. apply lookup_after in Hc; [|done]. rewrite list.Forall_forall in Hno. by apply Hno.
Qed.
End guarded.
End events.
End Histories.
