(* ===== verification/ControllerUtil.v ===== *)
(** Clients as values, and [controllerutil.CreateOrUpdate] of
    controller-runtime: an interface with its documented behaviour, as the
    relation between the runs of the mutate function and the runs of the whole
    call, and a reference implementation. *)
From S2P Require Import Prelude GoBytes GoStrings Objects Client.
Local Open Scope Z_scope.

(** * Clients *)

(** A [client.Client]: how each call is carried out.  The control-plane client
    sends it to the API server. *)
Definition KubeClient : Type := ∀ X, clientE X → Prog X.
Definition localClient : KubeClient := λ X e, trigger e.

Lemma execs_local {X} (e : clientE X) tr x : execs (localClient X e) tr x ↔ tr = [Did e x].
Proof. cbn. naive_solver. Qed.

(** * Times

    [time.Time] in nanoseconds since the Unix epoch; the zero time is the start
    of the year 1.  [Sub] saturates at the limits of an int64. *)
Definition zero_time : Z := -62135596800 * 10 ^ 9.
Definition time_of (t : option Z) : Z := default zero_time t.
Definition maxDuration : Z := 2 ^ 63 - 1.
Definition minDuration : Z := - 2 ^ 63.
Definition time_Sub (a b : Z) : Z := Z.max minDuration (Z.min maxDuration (a - b)).
Definition Second : Z := 10 ^ 9.
Definition Minute : Z := 60 * Second.

Lemma time_Sub_gt a b d : minDuration ≤ d < maxDuration → d < time_Sub a b ↔ d < a - b.
Proof. unfold time_Sub. lia. Qed.

(** * CreateOrUpdate *)

Inductive OperationResult := OperationResultNone | OperationResultCreated | OperationResultUpdated.
Definition opString (r : OperationResult) : string :=
  match r with
  | OperationResultNone => "unchanged"
  | OperationResultCreated => "created"
  | OperationResultUpdated => "updated"
  end.

Section create_or_update.
Context (c : KubeClient) (k : kind) (seed : obj k) (mutate : obj k → Prog (result GoError (obj k))).

Definition write_result (op : OperationResult) (r : result ApiError (obj k)) :
    result GoError (OperationResult * obj k) :=
  match r with Ok o => Ok (op, o) | Err e => Err (EApi e) end.

(** The documented runs: the object is read; the mutate function is applied to
    what was found, or to the given object when nothing was; the result is
    created, or updated when it differs.  A failing mutate function, or one that
    moves the object to another key, ends the call before anything is written. *)
Inductive created_or_updated :
    list (obs clientE) → result GoError (OperationResult * obj k) → Prop :=
| cou_get_failed t e :
    execs (c _ (Get k (obj_key seed))) t (Err e) → IsNotFound e = false →
    created_or_updated t (Err (EApi e))
| cou_mutate_failed t t' x base err :
    execs (c _ (Get k (obj_key seed))) t x →
    match x with Ok o => base = o | Err e => IsNotFound e = true ∧ base = seed end →
    execs (mutate base) t' (Err err) →
    created_or_updated (t ++ t') (Err err)
| cou_moved t t' x base o err :
    execs (c _ (Get k (obj_key seed))) t x →
    match x with Ok o => base = o | Err e => IsNotFound e = true ∧ base = seed end →
    execs (mutate base) t' (Ok o) → obj_key o ≠ obj_key seed →
    created_or_updated (t ++ t') (Err err)
| cou_created t t' t'' e o r :
    execs (c _ (Get k (obj_key seed))) t (Err e) → IsNotFound e = true →
    execs (mutate seed) t' (Ok o) → obj_key o = obj_key seed →
    execs (c _ (Create k o)) t'' r →
    created_or_updated (t ++ t' ++ t'') (write_result OperationResultCreated r)
| cou_unchanged t t' old :
    execs (c _ (Get k (obj_key seed))) t (Ok old) →
    execs (mutate old) t' (Ok old) →
    created_or_updated (t ++ t') (Ok (OperationResultNone, old))
| cou_updated t t' t'' old o r :
    execs (c _ (Get k (obj_key seed))) t (Ok old) →
    execs (mutate old) t' (Ok o) → o ≠ old → obj_key o = obj_key seed →
    execs (c _ (Update k o)) t'' r →
    created_or_updated (t ++ t' ++ t'') (write_result OperationResultUpdated r).
End create_or_update.

Class ControllerUtil := {
  CreateOrUpdate : ∀ (c : KubeClient) (k : kind),
    obj k → (obj k → Prog (result GoError (obj k))) → Prog (result GoError (OperationResult * obj k));
  create_or_update_runs c k seed mutate tr r :
    execs (CreateOrUpdate c k seed mutate) tr r → created_or_updated c k seed mutate tr r;
}.

(** ** What a call does through the control-plane client *)

Section runs.
Context (k : kind) (seed : obj k) (mutate : obj k → Prog (result GoError (obj k))).
Context (tr : list (obs clientE)) (r : result GoError (OperationResult * obj k)).
Hypothesis Hrun : created_or_updated localClient k seed mutate tr r.

(** When the mutate function only reads, the one write is that of an object it
    returned, under the given key: of the given object when it is created, and
    when it is updated, of the object that was read, which it changed. *)
Lemma cou_writes :
  (∀ base t m, execs (mutate base) t m → Forall reads t) →
  whenever mutates (λ before o, ∃ v base t new,
    (v = VCreate ∧ base = seed ∨
     v = VUpdate ∧ new ≠ base ∧
       Exists (λ ob, request ob = Some (VGet, k, obj_key seed) ∧ answered k ob = Some base) before) ∧
    request o = Some (v, k, obj_key seed) ∧ sent k o = Some new ∧ execs (mutate base) t (Ok new)) tr.
Proof.
  intros Hm.
  destruct Hrun as [t e Hg He|t t' x base err Hg Hx H|t t' x base o err Hg Hx H Hk
    |t t' t'' e o w Hg He H Hk Hw|t t' old Hg H|t t' t'' old o w Hg H Hne Hk Hw];
    apply execs_local in Hg as ->; try apply execs_local in Hw as ->; try apply Hm in H as Hr.
  1-3, 5: apply reads_whenever; rewrite ?Forall_app; repeat split; try done; reads_walk.
  all: repeat apply whenever_app; [apply reads_whenever; reads_walk|by apply reads_whenever|].
  all: intros l1 ob l2 El _; destruct l1 as [|? l1]; [|by destruct l1]; injection El as <- <-.
  - eexists VCreate, seed, t', o. cbn. rewrite Hk, kind_dec_refl. by split_and!; [left|..].
  - eexists VUpdate, old, t', o. cbn. rewrite Hk, kind_dec_refl. split_and!; try done. right.
    split_and!; [done..|]. cbn. apply Exists_cons_hd. cbn. by rewrite kind_dec_refl.
Qed.

(** A call that succeeds returns an object the API server answered with, *)
Lemma cou_answered op o :
  r = Ok (op, o) → Exists (λ ob, answered k ob = Some o) tr.
Proof.
  intros E. destruct Hrun as [| | |t t' t'' e n [w|] Hg He H Hk Hw|t t' old Hg H|t t' t'' old n [w|] Hg H Hne Hk Hw];
    simplify_eq/=; rewrite !Exists_app.
  - apply execs_local in Hw as ->. do 2 right. constructor. cbn. by rewrite kind_dec_refl.
  - apply execs_local in Hg as ->. left. constructor. cbn. by rewrite kind_dec_refl.
  - apply execs_local in Hw as ->. do 2 right. constructor. cbn. by rewrite kind_dec_refl.
Qed.

(** and then an object the mutate function returned is stored. *)
Lemma cou_stored (P : obj k → Prop) :
  (∀ base t new, execs (mutate base) t (Ok new) → P new) → is_ok r = true →
  Exists (stored k (λ n, P n)) tr.
Proof.
  intros HP E. destruct Hrun as [| | |t t' t'' e n [w|] Hg He H Hk Hw|t t' old Hg H|t t' t'' old n [w|] Hg H Hne Hk Hw];
    simplify_eq/=; rewrite !Exists_app; apply HP in H.
  - apply execs_local in Hw as ->. do 2 right. constructor. exists n. split; [done|]. left. cbn.
    by rewrite kind_dec_refl.
  - apply execs_local in Hg as ->. left. constructor. exists old. split; [done|]. right. cbn.
    by rewrite kind_dec_refl.
  - apply execs_local in Hw as ->. do 2 right. constructor. exists n. split; [done|]. left. cbn.
    by rewrite kind_dec_refl.
Qed.
End runs.

(** The runs of a [CreateOrUpdate] of the control-plane client whose mutate
    function makes no calls of its own. *)
Inductive applied (k : kind) (seed : obj k) (f : obj k → obj k) :
    list (obs clientE) → result GoError (OperationResult * obj k) → Prop :=
| app_get_failed e :
    IsNotFound e = false →
    applied k seed f [Did (Get k (obj_key seed)) (Err e)] (Err (EApi e))
| app_created e r :
    IsNotFound e = true →
    applied k seed f [Did (Get k (obj_key seed)) (Err e); Did (Create k (f seed)) r]
      (write_result k OperationResultCreated r)
| app_unchanged old :
    f old = old →
    applied k seed f [Did (Get k (obj_key seed)) (Ok old)] (Ok (OperationResultNone, old))
| app_updated old r :
    f old ≠ old →
    applied k seed f [Did (Get k (obj_key seed)) (Ok old); Did (Update k (f old)) r]
      (write_result k OperationResultUpdated r).

Lemma create_or_update_pure `{ControllerUtil} k seed (f : obj k → obj k) tr r :
  (∀ o, obj_key (f o) = obj_key o) →
  Forall well_answered tr →
  execs (CreateOrUpdate localClient k seed (λ o, Ret (Ok (f o)))) tr r → applied k seed f tr r.
Proof.
  intros Hf Hwa Hrun. apply create_or_update_runs in Hrun.
  destruct Hrun as [t e Hg He|t t' x base err Hg Hx Hm|t t' x base o err Hg Hx Hm Hk
    |t t' t'' e o r Hg He Hm Hk Hw|t t' old Hg Hm|t t' t'' old o r Hg Hm Hne Hk Hw].
  - apply execs_local in Hg as ->. by constructor.
  - cbn in Hm. naive_solver.
  - destruct Hk. cbn in Hm. destruct Hm as [-> [= ->]]. rewrite Hf.
    apply execs_local in Hg as ->. destruct x as [o'|e]; [subst base|naive_solver].
    by apply Forall_cons in Hwa as [Hwa _].
  - apply execs_local in Hg as ->. apply execs_local in Hw as ->.
    cbn in Hm. destruct Hm as [-> [= ->]]. by constructor.
  - apply execs_local in Hg as ->. cbn in Hm. destruct Hm as [-> [= E]]. by constructor.
  - apply execs_local in Hg as ->. apply execs_local in Hw as ->.
    cbn in Hm. destruct Hm as [-> [= ->]]. by constructor.
Qed.

(** Such a call writes only the object with the given key, with the contents the
    mutate function gives it, *)
Lemma applied_writes k seed (f : obj k → obj k) tr r :
  (∀ o, obj_key (f o) = obj_key o) → applied k seed f tr r → Forall well_answered tr →
  Forall (λ o, ∀ k', writes k' o → k' = k ∧ ∃ v base, (v = VCreate ∨ v = VUpdate) ∧
    request o = Some (v, k, obj_key seed) ∧ sent k o = Some (f base)) tr.
Proof.
  intros Hf H Hwa. destruct H as [e He|e r He|old Ho|old r Ho]; repeat (apply Forall_cons; split);
    try done; intros k' [<- Hw]; try done; (split; [done|]).
  - exists VCreate, seed. cbn. rewrite kind_dec_refl, Hf. by split_and!; [left|..].
  - exists VUpdate, old. cbn. rewrite kind_dec_refl, Hf. apply Forall_cons in Hwa as [Hk _].
    cbn in Hk. rewrite Hk. by split_and!; [right|..].
Qed.

(** and when it succeeds the object is stored with those contents. *)
Definition settled {k} (key : NamespacedName) (f : obj k → obj k) (o : obs clientE) : Prop :=
  (∃ v base, (v = VCreate ∨ v = VUpdate) ∧ request o = Some (v, k, key) ∧ sent k o = Some (f base) ∧ succeeded o) ∨
  (∃ old, request o = Some (VGet, k, key) ∧ answered k o = Some old ∧ f old = old).

Lemma applied_settled k seed (f : obj k → obj k) tr r :
  (∀ o, obj_key (f o) = obj_key o) → applied k seed f tr r → Forall well_answered tr →
  is_ok r = true → Exists (settled (obj_key seed) f) tr.
Proof.
  intros Hf H Hwa Hok. destruct H as [e He|e [o|e'] He|old Ho|old [o|e'] Ho]; try done.
  - apply Exists_cons_tl, Exists_cons_hd. left. exists VCreate, seed. cbn. rewrite kind_dec_refl, Hf.
    by split_and!; [left|..].
  - apply Exists_cons_hd. right. exists old. cbn. by rewrite kind_dec_refl.
  - apply Exists_cons_tl, Exists_cons_hd. left. exists VUpdate, old. cbn. rewrite kind_dec_refl, Hf.
    apply Forall_cons in Hwa as [Hk _]. cbn in Hk. rewrite Hk. by split_and!; [right|..].
Qed.

(** * Reference implementation *)

#[export] Instance obj_eq_dec (k : kind) : EqDecision (obj k).
Proof. destruct k; cbn; apply _. Defined.

Definition ref_create_or_update (c : KubeClient) (k : kind) (seed : obj k)
    (mutate : obj k → Prog (result GoError (obj k))) : Prog (result GoError (OperationResult * obj k)) :=
  g ← c _ (Get k (obj_key seed));
  match g with
  | Err e =>
      if IsNotFound e then
        m ← mutate seed;
        match m with
        | Err err => Ret (Err err)
        | Ok o =>
            if bool_decide (obj_key o = obj_key seed) then
              w ← c _ (Create k o); Ret (write_result k OperationResultCreated w)
            else Ret (Err (ENew "MutateFn cannot mutate object name and/or object namespace"))
        end
      else Ret (Err (EApi e))
  | Ok old =>
      m ← mutate old;
      match m with
      | Err err => Ret (Err err)
      | Ok o =>
          if bool_decide (o = old) then Ret (Ok (OperationResultNone, old))
          else if bool_decide (obj_key o = obj_key seed) then
            w ← c _ (Update k o); Ret (write_result k OperationResultUpdated w)
          else Ret (Err (ENew "MutateFn cannot mutate object name and/or object namespace"))
      end
  end.

Definition ref_controllerutil : ControllerUtil.
Proof.
  refine {| CreateOrUpdate := ref_create_or_update |}.
  intros c k seed mutate tr r. unfold ref_create_or_update.
  intros (t & t2 & x & -> & Hg & H)%execs_bind. destruct x as [old|e].
  - apply execs_bind in H as (t' & t3 & m & -> & Hm & H). destruct m as [o|err].
    + case_bool_decide as Eo.
      * cbn in H. destruct H as [-> ->]. subst o. rewrite app_nil_r. by apply cou_unchanged.
      * case_bool_decide as Ek.
        -- apply execs_bind in H as (t4 & t5 & w & -> & Hw & [-> ->]). rewrite app_nil_r.
           by eapply cou_updated.
        -- cbn in H. destruct H as [-> ->]. rewrite app_nil_r. by eapply cou_moved.
    + cbn in H. destruct H as [-> ->]. rewrite app_nil_r. by eapply cou_mutate_failed.
  - destruct (IsNotFound e) eqn:Ee.
    + apply execs_bind in H as (t' & t3 & m & -> & Hm & H). destruct m as [o|err].
      * case_bool_decide as Ek.
        -- apply execs_bind in H as (t4 & t5 & w & -> & Hw & [-> ->]). rewrite app_nil_r.
           by eapply cou_created.
        -- cbn in H. destruct H as [-> ->]. rewrite app_nil_r.
           by eapply (cou_moved c k seed mutate t t' (Err e) seed).
      * cbn in H. destruct H as [-> ->]. rewrite app_nil_r.
        by eapply (cou_mutate_failed c k seed mutate t t' (Err e) seed).
    + cbn in H. destruct H as [-> ->]. rewrite app_nil_r. by apply cou_get_failed.
Defined.
