(* ===== verification/FakeApi.v ===== *)
(** An in-memory API server: a handler for the client calls that keeps one
    store per kind, with the documented semantics of reads, writes, deletion
    with finalizers and removal when the last finalizer goes.  Examples and
    witnesses run the controllers against it, and reachability theorems exhibit
    runs on it; no theorem about all runs depends on it. *)
From S2P Require Import Prelude GoBytes GoStrings Objects Client.
Local Open Scope Z_scope.

Record FakeState := {
  fs_objects : ∀ k : kind, gmap NamespacedName (obj k);
  fs_clock : Z;
}.
Definition empty_cluster : FakeState := {| fs_objects k := ∅; fs_clock := 0 |}.

Definition fs_update (k : kind) (f : gmap NamespacedName (obj k) → gmap NamespacedName (obj k))
    (s : FakeState) : FakeState := {|
  fs_objects k' :=
    match kind_dec k k' with
    | left E => eq_rect k (λ k, gmap NamespacedName (obj k)) (f (fs_objects s k)) k' E
    | right _ => fs_objects s k'
    end;
  fs_clock := fs_clock s |}.
Definition put {k : kind} (o : obj k) (s : FakeState) : FakeState :=
  fs_update k <[obj_key o := o]> s.
Definition at_time (now : Z) (s : FakeState) : FakeState :=
  {| fs_objects := fs_objects s; fs_clock := now |}.

Definition stamp_created (now : Z) (m : ObjectMeta) : ObjectMeta := {|
  om_Name := om_Name m; om_Namespace := om_Namespace m; om_Labels := om_Labels m;
  om_Annotations := om_Annotations m; om_Finalizers := om_Finalizers m;
  om_DeletionTimestamp := om_DeletionTimestamp m; om_CreationTimestamp := Some now;
  om_Generation := 1; om_UID := "uid"; om_ResourceVersion := "1";
  om_OwnerReferences := om_OwnerReferences m |}.
Definition stamp_deleted (now : Z) (m : ObjectMeta) : ObjectMeta := {|
  om_Name := om_Name m; om_Namespace := om_Namespace m; om_Labels := om_Labels m;
  om_Annotations := om_Annotations m; om_Finalizers := om_Finalizers m;
  om_DeletionTimestamp := Some now; om_CreationTimestamp := om_CreationTimestamp m;
  om_Generation := om_Generation m; om_UID := om_UID m;
  om_ResourceVersion := om_ResourceVersion m; om_OwnerReferences := om_OwnerReferences m |}.

Definition not_found : ApiError := {| ae_Reason := NotFound; ae_Message := "not found" |}.
Definition already_exists : ApiError :=
  {| ae_Reason := AlreadyExists; ae_Message := "already exists" |}.

Definition selected (sel : Selector) (m : ObjectMeta) : bool :=
  match sel with
  | SelAll => true
  | SelLabel k v => bool_decide (om_Labels m !! k = Some v)
  | SelOwner n => existsb (λ r, or_Controller r && bool_decide (or_Name r = n)) (om_OwnerReferences m)
  end.

Definition fake (X : Type) (e : clientE X) : FakeState → X * FakeState :=
  match e in clientE X return FakeState → X * FakeState with
  | Get k key => λ s,
      match fs_objects s k !! key with
      | Some o => (Ok o, s)
      | None => (Err not_found, s)
      end
  | List k ns sel => λ s,
      (Ok (filter (λ o, om_Namespace (obj_meta o) = ns ∧ selected sel (obj_meta o) = true)
             (map_to_list (fs_objects s k)).*2), s)
  | Create k o => λ s,
      match fs_objects s k !! obj_key o with
      | Some _ => (Err already_exists, s)
      | None => let o' := obj_set_meta (stamp_created (fs_clock s) (obj_meta o)) o in
                (Ok o', put o' s)
      end
  | Update k o => λ s,
      match fs_objects s k !! obj_key o with
      | Some _ => (Ok o, put o s)
      | None => (Err not_found, s)
      end
  | Patch k old new => λ s,
      match fs_objects s k !! obj_key new with
      | Some _ =>
          if negb (time_IsZero (om_DeletionTimestamp (obj_meta new))) &&
             (length (om_Finalizers (obj_meta new)) =? 0)%nat
          then (Ok new, fs_update k (delete (obj_key new)) s)
          else (Ok new, put new s)
      | None => (Err not_found, s)
      end
  | StatusPatch k old new => λ s,
      match fs_objects s k !! obj_key new with
      | Some _ => (Ok new, put new s)
      | None => (Err not_found, s)
      end
  | Delete k key => λ s,
      match fs_objects s k !! key with
      | None => (Err not_found, s)
      | Some o =>
          if (length (om_Finalizers (obj_meta o)) =? 0)%nat
          then (Ok (), fs_update k (delete key) s)
          else (Ok (), put (obj_set_meta (stamp_deleted (fs_clock s) (obj_meta o)) o) s)
      end
  | Now => λ s, (fs_clock s, s)
  | RandString n => λ s, (of_list (replicate n "x"%char), s)
  | Eventf _ _ _ _ => λ s, ((), s)
  end.

(** Sample values of the Konfidence API constants. *)
Definition sample_konfidence : Konfidence.
Proof.
  refine {|
  VectorDataReadyCondition := "Ready";
  VectorDataReasonMaterialized := "Materialized";
  TaskFailed := "Failed";
  TaskSucceeded := "Succeeded";
  TaskExecutionKind := "TaskExecution";
  GroupVersion := "konfidence.cloud/v1alpha1";
  ActivationTaskExecutionFailed := "Failed";
  ActivationTaskExecutionInProgress := "InProgress";
  ActivationTaskExecutionSucceeded := "Succeeded";
  DeploymentTargetReadyCondition := "Ready";
  StalledCondition := "Stalled";
  AppHealthyCondition := "AppHealthy";
  ArtifactDeployedCondition := "ArtifactDeployed";
  ArtifactFetchedCondition := "ArtifactFetched";
  ArtifactDeploymentReadyCondition := "Ready";
  DeploymentResultCreatedCondition := "DeploymentResultCreated";
  ArtifactVersionAnnotation := "konfidence.cloud/artifact-version";
  ArtifactHashAnnotation := "konfidence.cloud/artifact-hash";
|}.
  all: apply (bool_decide_unpack _); vm_compute; exact I.
Defined.

(** * The in-memory server answers as documented *)

(** Every stored object is stored under its own key. *)
Definition consistent (s : FakeState) : Prop :=
  ∀ k key o, fs_objects s k !! key = Some o → obj_key o = key.

Lemma fs_update_same k f s : fs_objects (fs_update k f s) k = f (fs_objects s k).
Proof. cbn. by rewrite kind_dec_refl. Qed.
Lemma fs_update_other k k' f s : k ≠ k' → fs_objects (fs_update k f s) k' = fs_objects s k'.
Proof. intros Hne. cbn. by destruct (kind_dec k k'). Qed.

Lemma consistent_update k f s :
  consistent s →
  (∀ key o, f (fs_objects s k) !! key = Some o → fs_objects s k !! key = Some o ∨ obj_key o = key) →
  consistent (fs_update k f s).
Proof.
  intros Hs Hf k' key o. destruct (kind_dec k k') as [<-|Hne].
  - rewrite fs_update_same. intros [H|H]%Hf; eauto.
  - rewrite fs_update_other by done. apply Hs.
Qed.
Lemma consistent_put {k} (o : obj k) s : consistent s → consistent (put o s).
Proof.
  intros Hs. apply consistent_update; [done|]. intros key o'.
  rewrite lookup_insert_Some. naive_solver.
Qed.
Lemma consistent_delete k key s : consistent s → consistent (fs_update k (delete key) s).
Proof.
  intros Hs. apply consistent_update; [done|]. intros key' o'.
  rewrite lookup_delete_Some. naive_solver.
Qed.
Lemma consistent_empty : consistent empty_cluster.
Proof. intros k key o. cbn. by rewrite lookup_empty. Qed.

Lemma obj_meta_set_meta k m (o : obj k) : obj_meta (obj_set_meta m o) = m.
Proof. by destruct k. Qed.

Lemma fake_call X (e : clientE X) s :
  consistent s → well_answered (Did e (fake X e s).1) ∧ consistent (fake X e s).2.
Proof.
  intros Hs. destruct e; cbn -[put fs_update]; repeat klo_case; cbn -[put fs_update];
    (split; [|first [exact Hs | by apply consistent_put | by apply consistent_delete]]);
    simplify_eq/=; try done.
  - by eapply Hs.
  - unfold obj_key. by rewrite obj_meta_set_meta.
  - by rewrite len_of_list, length_replicate.
Qed.

(** All runs against it satisfy [well_answered]. *)
Lemma fake_answers {R} (p : Prog R) s : consistent s → Forall well_answered (calls fake p s).
Proof.
  revert s. induction p as [r|X e k IH]; intros s Hs; cbn; [done|].
  destruct (fake_call X e s Hs). constructor; [done|]. by apply IH.
Qed.

Lemma run_consistent {R} (p : Prog R) s : consistent s → consistent (run fake p s).2.
Proof.
  revert s. induction p as [r|X e k IH]; intros s Hs; cbn; [done|]. destruct (fake_call X e s Hs). by apply IH.
Qed.

(** Every call can be answered as documented. *)
Lemma client_answers X (e : clientE X) : ∃ x, well_answered (Did e x).
Proof.
  destruct e; cbn; try (by exists (Err not_found)); try (by exists 0); try (by exists ()).
  exists (of_list (replicate n "x"%char)). by rewrite len_of_list, length_replicate.
Qed.

#[export] Hint Resolve consistent_empty consistent_put consistent_delete fake_answers : klo.

(** The values of the Gateway API constants. *)
Definition gateway_api_v1 : GatewayAPI := {|
  GatewayConditionAccepted := "Accepted";
  GatewayConditionProgrammed := "Programmed";
  GatewayAddressRoutabilityCluster := "Cluster";
  HTTPProtocolType := "HTTP";
|}.
