(* ===== verification/TaskExecution.v ===== *)
(** The TaskExecution controller
    (internal/taskexecution/internal/controller/taskexecution_controller.go):
    it runs a TaskExecution as a Kubernetes Job and reports the Job's outcome
    on the TaskExecution. *)
From S2P Require Import Prelude GoBytes GoStrings Objects Client FakeApi.
Local Open Scope Z_scope.

Module TaskExecutionController.

(** * Names *)

Definition maxJobNameLen : Z := 63.

(** [None] is the panic of a slice with a negative bound. *)
Definition boundedJobName (base suffix : string) : option string :=
  let full := "-" +:+ suffix in
  let room := maxJobNameLen - Z.of_nat (len full) in
  if Z.of_nat (len base) >? room then
    cut ← slice_to base room;
    Some (TrimRight cut "-" +:+ full)
  else Some (base +:+ full).

(** * Jobs *)

(** The first condition that is Complete or Failed with status True. *)
Fixpoint finished_condition (l : list JobCondition) : option JobConditionType :=
  match l with
  | [] => None
  | c :: l' =>
      if (bool_decide (jc_Type c = JobComplete) || bool_decide (jc_Type c = JobFailed)) &&
         bool_decide (jc_Status c = ConditionTrue)
      then Some (jc_Type c)
      else finished_condition l'
  end.
Definition isJobFinished (job : Job) : option JobConditionType :=
  finished_condition (job_Conditions job).

Definition jobOwnerRefsContainKind (references : list OwnerReference) (kind : string) : bool :=
  existsb (λ ref, bool_decide (or_Kind ref = kind)) references.

Section controller.
Context `{KF : Konfidence, MC : MetaConditions, OW : OwnerReferences}.
(** [json.Unmarshal] of apimachinery into a [batchv1.JobSpec]. *)
Context (decodeJobSpec : string → result GoError JobSpec).

(** The index function of [SetupWithManager]: the name of the controlling
    TaskExecution. *)
Definition jobOwnerIndex (job : Job) : list string :=
  match List.find or_Controller (om_OwnerReferences (job_Meta job)) with
  | None => []
  | Some owner =>
      if negb (bool_decide (or_APIVersion owner = GroupVersion)) ||
         negb (bool_decide (or_Kind owner = TaskExecutionKind)) then []
      else [or_Name owner]
  end.

(** The event filter of [SetupWithManager]. *)
Definition taskExecutionFilter (o : TaskExecution + Job) : bool :=
  match o with
  | inl te => bool_decide (te_Type te = "k8s-job")
  | inr job => jobOwnerRefsContainKind (om_OwnerReferences (job_Meta job)) TaskExecutionKind
  end.

Definition constructJob (te : TaskExecution) : Prog (result GoError Job) :=
  match decodeJobSpec (te_Spec te) with
  | Err err => Ret (Err (EWrap "unable to unmarshal taskExecution spec" err))
  | Ok jobSpec =>
      suffix ← trigger (RandString 8);
      match boundedJobName (om_Name (te_Meta te)) suffix with
      | None => Ret (Err (ENew "slice bounds out of range"))
      | Some name =>
          match SetControllerReference TaskExecutionKind (te_Meta te)
                  (new_meta (om_Namespace (te_Meta te)) name ∅) with
          | Err err => Ret (Err (EWrap "unable to set controller reference for job" err))
          | Ok m => Ret (Ok {| job_Meta := m; job_Spec := jobSpec; job_Conditions := [] |})
          end
      end
  end.

Definition createOrGetJob (te : TaskExecution) : Prog (result GoError Job) :=
  jobs ← trigger (List KJob (om_Namespace (te_Meta te)) (SelOwner (om_Name (te_Meta te))));
  match jobs with
  | Err e => Ret (Err (EWrap "unable to list jobs" (EApi e)))
  | Ok [] =>
      j ← constructJob te;
      match j with
      | Err err => Ret (Err (EWrap "unable to construct job from template" err))
      | Ok newJob =>
          c ← trigger (Create KJob newJob);
          match c with
          | Err e => Ret (Err (EWrap "unable to create job" (EApi e)))
          | Ok created =>
              _ ← trigger (Eventf (om_key (te_Meta te)) EventTypeNormal "JobCreated"
                    ("Created Job " +:+ om_Name (job_Meta created) +:+ " for TaskExecution "
                     +:+ om_Name (te_Meta te)));
              Ret (Ok created)
          end
      end
  | Ok [job] => Ret (Ok job)
  | Ok _ => Ret (Err (ENew ("multiple matching jobs found for taskExecution: "
                            +:+ om_Name (te_Meta te))))
  end.

Definition te_set_conditions (cs : list Condition) (te : TaskExecution) : TaskExecution := {|
  te_Meta := te_Meta te; te_Type := te_Type te; te_Spec := te_Spec te; te_Conditions := cs |}.

(** The message of the condition for a Job that ended as [t]. *)
Definition taskMessage (te : TaskExecution) (t : JobConditionType) : string :=
  match t with
  | JobFailed => "Reconciling TaskExecution " +:+ om_Name (te_Meta te) +:+ " failed"
  | _ => "TaskExecution " +:+ om_Name (te_Meta te) +:+ " reconciled successfully"
  end.

Definition taskCondition (te : TaskExecution) (now : Z) (t message : string) : Condition := {|
  c_Type := t; c_Status := ConditionTrue; c_Reason := t; c_Message := message;
  c_ObservedGeneration := om_Generation (te_Meta te); c_LastTransitionTime := Some now |}.

(** The status patch at the end of [Reconcile], skipped when nothing changed. *)
Definition patchStatus (te te' : TaskExecution) : Prog Outcome :=
  if bool_decide (te_Conditions te' = te_Conditions te) then done_ok
  else
    r ← trigger (StatusPatch KTaskExecution te te');
    match r with
    | Err e => fail_with (EWrap "unable to update taskExecution status" (EApi e))
    | Ok _ => done_ok
    end.

Definition Reconcile (req : NamespacedName) : Prog Outcome :=
  g ← trigger (Get KTaskExecution req);
  match g with
  | Err e => Ret (IgnoreNotFound e)
  | Ok te =>
      j ← createOrGetJob te;
      match j with
      | Err err => fail_with err
      | Ok job =>
          match isJobFinished job with
          | None => done_ok
          | Some JobFailed =>
              now ← trigger Now;
              patchStatus te (te_set_conditions (SetStatusCondition now (te_Conditions te)
                (taskCondition te now TaskFailed (taskMessage te JobFailed))) te)
          | Some JobComplete =>
              now ← trigger Now;
              patchStatus te (te_set_conditions (SetStatusCondition now (te_Conditions te)
                (taskCondition te now TaskSucceeded (taskMessage te JobComplete))) te)
          | Some (JobConditionOther _) => patchStatus te te
          end
      end
  end.

(** ** Reading the runs *)

(** The conditions the run leaves on the TaskExecution: those of the status
    patch, or the ones that were read. *)
Definition storedConditions (te : TaskExecution) (tr : list (obs clientE)) : list Condition :=
  match omap (sent KTaskExecution) tr with
  | [] => te_Conditions te
  | te' :: _ => te_Conditions te'
  end.

(** A Job made for [te]: in its namespace, under a bounded name, running the
    decoded spec, and found by the index the controller lists by. *)
Definition jobFor (te : TaskExecution) (job : Job) : Prop :=
  om_Namespace (job_Meta job) = om_Namespace (te_Meta te) ∧
  (len (om_Name (job_Meta job)) ≤ 63)%nat ∧
  decodeJobSpec (te_Spec te) = Ok (job_Spec job) ∧
  jobOwnerIndex job = [om_Name (te_Meta te)].

(** The run found or created [job]. *)
Definition sawJob (job : Job) (o : obs clientE) : Prop :=
  listed KJob o = Some [job] ∨ (requests VCreate KJob o ∧ answered KJob o = Some job).

(** The condition a finished Job is reported as. *)
Definition reportedAs (t : JobConditionType) : option string :=
  match t with
  | JobComplete => Some TaskSucceeded
  | JobFailed => Some TaskFailed
  | JobConditionOther _ => None
  end.

(** [cs] reports the condition [t] for the generation of [te]. *)
Definition reports (te : TaskExecution) (cs : list Condition) (t : string) : Prop :=
  ∃ c, FindStatusCondition cs t = Some c ∧ c_Status c = ConditionTrue ∧ c_Reason c = t ∧
       c_ObservedGeneration c = om_Generation (te_Meta te).
End controller.

(** * Properties *)

Lemma TrimRight_prefix s c : ∃ t, s = TrimRight s c +:+ t.
Proof.
  unfold TrimRight. destruct (drop_while_end_split (λ x, bool_decide (x = c)) (to_list s))
    as (suf & Hs & _). exists (of_list suf). by rewrite <-of_list_app, <-Hs, of_to_list.
Qed.
Lemma TrimRight_last s c t : TrimRight s c ≠ t +:+ String c "".
Proof.
  unfold TrimRight. intros H. apply (f_equal to_list) in H. rewrite to_of_list, to_list_app in H.
  apply drop_while_end_last in H. by rewrite bool_decide_eq_false in H.
Qed.
Lemma TrimRight_len s c : (len (TrimRight s c) ≤ len s)%nat.
Proof. destruct (TrimRight_prefix s c) as [t Ht]. rewrite Ht at 2. rewrite len_app. lia. Qed.
Lemma slice_to_prefix s n t : slice_to s n = Some t → ∃ u, s = t +:+ u.
Proof.
  intros (_ & -> & _)%slice_to_Some. exists (of_list (drop (Z.to_nat n) (to_list s))).
  by rewrite <-of_list_app, take_drop, of_to_list.
Qed.

(** C23: [boundedJobName base suffix] is a prefix of [base], a dash and the
    suffix, at most 63 bytes long; the whole base is kept when it fits, and a
    shortened base never ends in a dash.  It panics exactly when the suffix
    alone leaves no room. *)
Theorem boundedJobName_spec (base suffix : string) :
  match boundedJobName base suffix with
  | None => (63 ≤ len suffix)%nat
  | Some name => ∃ kept rest,
      base = kept +:+ rest ∧ name = kept +:+ "-" +:+ suffix ∧ (len name ≤ 63)%nat ∧
      ((len base + len suffix ≤ 62)%nat → kept = base) ∧
      ((62 < len base + len suffix)%nat → ∀ t, kept ≠ t +:+ "-")
  end.
Proof.
  unfold boundedJobName, maxJobNameLen.
  assert (Hfull : len ("-" +:+ suffix) = S (len suffix)) by (by rewrite len_app).
  rewrite Hfull. destruct (Z.gtb_spec (Z.of_nat (len base)) (63 - Z.of_nat (S (len suffix)))) as [Hgt|Hle].
  - destruct (slice_to base (63 - Z.of_nat (S (len suffix)))) as [cut|] eqn:Ec; cbn.
    + destruct (slice_to_prefix _ _ _ Ec) as [u Hu]. pose proof (slice_to_Some _ _ _ Ec) as (Hr & _ & Hl).
      destruct (TrimRight_prefix cut "-") as [v Hv]. pose proof (TrimRight_len cut "-") as Hlen.
      exists (TrimRight cut "-"), (v +:+ u). split_and!.
      * by rewrite <-str_app_assoc, <-Hv.
      * done.
      * rewrite len_app, Hfull. lia.
      * lia.
      * intros _. apply TrimRight_last.
    + unfold slice_to in Ec. destruct (Z.leb_spec 0 (63 - Z.of_nat (S (len suffix)))); [|lia].
      destruct (Z.leb_spec (63 - Z.of_nat (S (len suffix))) (Z.of_nat (len base))); [done|lia].
  - exists base, "". split_and!; [by rewrite str_app_nil_r|done| |done|lia].
    rewrite len_app, Hfull. lia.
Qed.

Ltac te_runs H :=
  unfold Reconcile, createOrGetJob, constructJob, patchStatus, done_ok, fail_with in H; exec_steps H.

Section properties.
Context `{KF : Konfidence, MC : MetaConditions, OW : OwnerReferences}.
Context (decodeJobSpec : string → result GoError JobSpec).

Lemma boundedJobName_short base suffix name :
  boundedJobName base suffix = Some name → (len name ≤ 63)%nat.
Proof.
  unfold boundedJobName, maxJobNameLen. rewrite len_app. cbn [len String.length].
  intros H. klo_case.
  - apply bind_Some in H as (cut & Hc & [= <-]). pose proof (TrimRight_len cut "-").
    apply slice_to_Some in Hc as (? & _ & ?). rewrite !len_app. cbn [len String.length]. lia.
  - injection H as <-. rewrite !len_app. cbn [len String.length].
    rewrite Z.gtb_ltb in Heqb. apply Z.ltb_ge in Heqb. lia.
Qed.

Lemma constructed_job_for te spec suffix name m
  (Hgv : owner_api_version TaskExecutionKind = GroupVersion) :
  decodeJobSpec (te_Spec te) = Ok spec →
  boundedJobName (om_Name (te_Meta te)) suffix = Some name →
  SetControllerReference TaskExecutionKind (te_Meta te)
    (new_meta (om_Namespace (te_Meta te)) name ∅) = Ok m →
  jobFor decodeJobSpec te {| job_Meta := m; job_Spec := spec; job_Conditions := [] |}.
Proof.
  intros Hd Hn Hs. apply set_controller_spec in Hs as (r & -> & Hc & Hk & Hr & Hv); [|done].
  unfold jobFor, jobOwnerIndex. cbn. rewrite Hc. cbn.
  rewrite Hv, Hgv, Hk, Hr, !bool_decide_eq_true_2 by done. cbn.
  split_and!; [done|by eapply boundedJobName_short|done|done].
Qed.

(** The only Job writes of a run are the creation of at most one Job, made
    for the TaskExecution that was read, and only after the list of its Jobs
    came back empty; the new Job is one the same list finds. *)
Theorem task_creates_one_job req tr r
  (Hgv : owner_api_version TaskExecutionKind = GroupVersion)
  (Hrun : execs (Reconcile decodeJobSpec req) tr r) :
  Forall (λ o, writes KJob o → requests VCreate KJob o ∧
            ∃ te job, answered KTaskExecution <$> head tr = Some (Some te) ∧
                      sent KJob o = Some job ∧ jobFor decodeJobSpec te job) tr ∧
  (length (omap (sent KJob) tr) ≤ 1)%nat ∧
  preceded (λ o, listed KJob o = Some []) (requests VCreate KJob) tr.
Proof.
  te_runs Hrun; (split; [|split; [cbn; lia|preceded_walk obs_side]]); repeat (apply Forall_cons; split);
    try done; try (intros Hw; cbn in Hw; obs_hyps; done).
  all: intros _; split; [done|]; eexists _, _; (split_and!; [reflexivity|reflexivity|by eapply constructed_job_for]).
Qed.

Lemma finished_reported l t : finished_condition l = Some t → ∃ n, reportedAs t = Some n.
Proof.
  induction l as [|c l IH]; cbn; [done|]. klo_case; [|done]. intros [= <-].
  apply andb_true_iff in Heqb as [[H|H]%orb_true_iff _]; apply bool_decide_eq_true in H; rewrite H; by eexists.
Qed.

Lemma reports_set te now t msg :
  reports te (SetStatusCondition now (te_Conditions te) (taskCondition te now t msg)) t.
Proof.
  destruct (find_set_eq now (te_Conditions te) (taskCondition te now t msg)) as [x Hx].
  eexists. split; [exact Hx|done].
Qed.

(** Setting a condition again, at another time, changes nothing. *)
Lemma set_again te te' cs now now' t msg :
  om_Generation (te_Meta te') = om_Generation (te_Meta te) →
  let cs' := SetStatusCondition now cs (taskCondition te now t msg) in
  SetStatusCondition now' cs' (taskCondition te' now' t msg) = cs'.
Proof.
  intros Hg cs'. destruct (find_set_eq now cs (taskCondition te now t msg)) as [x Hx].
  eapply set_same; [exact Hx|done..|done].
Qed.

(** Reads off which call of a concrete run a property [Exists P tr] is about. *)
Ltac which_call H :=
  rewrite ?Exists_cons, Exists_nil in H; unfold sawJob in H; cbn in H; obs_hyps; simplify_eq/=; try done.

Lemma run_stores req tr r te job t :
  execs (Reconcile decodeJobSpec req) tr (Ok r) →
  answered KTaskExecution <$> head tr = Some (Some te) →
  Exists (sawJob job) tr → isJobFinished job = Some t →
  ∃ n now, reportedAs t = Some n ∧
    storedConditions te tr =
      SetStatusCondition now (te_Conditions te) (taskCondition te now n (taskMessage te t)).
Proof.
  intros Hrun Hte Hjob Hfin. te_runs Hrun; cbn in Hte; simplify_eq/=; which_call Hjob;
  try match goal with H : isJobFinished ?j = Some (JobConditionOther _) |- _ => by apply finished_reported in H as [] end;
  simplify_eq/=; eexists _, _; (split; [reflexivity|]); cbn;
  first [reflexivity | symmetry; by eapply bool_decide_eq_true].
Qed.

(** C20: when a run succeeds, a Job that is still running leaves the
    TaskExecution's status alone, and a finished one leaves exactly the matching
    condition, Succeeded or Failed, true for the current generation in the
    status, whether it had to be patched or was already there. *)
Theorem task_reports_outcome req tr r te job
  (Hrun : execs (Reconcile decodeJobSpec req) tr (Ok r))
  (Hte : answered KTaskExecution <$> head tr = Some (Some te))
  (Hjob : Exists (sawJob job) tr) :
  match isJobFinished job with
  | None => Forall (λ o, ¬ writes KTaskExecution o) tr
  | Some t => ∃ n, reportedAs t = Some n ∧ reports te (storedConditions te tr) n
  end.
Proof.
  destruct (isJobFinished job) as [t|] eqn:Hfin.
  - destruct (run_stores _ _ _ _ _ _ Hrun Hte Hjob Hfin) as (n & now & Hn & ->).
    exists n. split; [done|apply reports_set].
  - te_runs Hrun; cbn in Hte; simplify_eq/=; which_call Hjob; no_writes.
Qed.

(** A run that finds several Jobs for the TaskExecution fails without
    writing anything. *)
Theorem task_many_jobs_refused req tr r jobs
  (Hrun : execs (Reconcile decodeJobSpec req) tr r)
  (Hjobs : Exists (λ o, listed KJob o = Some jobs) tr) (Hmany : (1 < length jobs)%nat) :
  is_ok r = false ∧ Forall (λ o, ∀ k, ¬ writes k o) tr.
Proof.
  te_runs Hrun; which_call Hjobs; cbn in Hmany; try lia; (split; [done|no_writes]).
Qed.

(** C21: reconciling again is quiet: after a successful run has dealt with a
    finished Job, a run that finds the same Job and reads the TaskExecution with
    the status the first run left, at the same generation, succeeds and writes
    nothing. *)
Theorem task_reconcile_idempotent req tr r te job t req' tr' r' te'
  (Hrun : execs (Reconcile decodeJobSpec req) tr (Ok r))
  (Hte : answered KTaskExecution <$> head tr = Some (Some te))
  (Hjob : Exists (sawJob job) tr)
  (Hfin : isJobFinished job = Some t)
  (Hrun' : execs (Reconcile decodeJobSpec req') tr' r')
  (Hte' : answered KTaskExecution <$> head tr' = Some (Some te'))
  (Hname : om_Name (te_Meta te') = om_Name (te_Meta te))
  (Hgen : om_Generation (te_Meta te') = om_Generation (te_Meta te))
  (Hst : te_Conditions te' = storedConditions te tr)
  (Hjob' : Exists (λ o, listed KJob o = Some [job]) tr') :
  r' = Ok no_requeue ∧ Forall (λ o, ∀ k, ¬ writes k o) tr'.
Proof.
  destruct (run_stores _ _ _ _ _ _ Hrun Hte Hjob Hfin) as (n & now & Hn & Hcs).
  assert (Hmsg : taskMessage te' t = taskMessage te t) by (unfold taskMessage; by rewrite Hname).
  assert (Hset : ∀ now', SetStatusCondition now' (te_Conditions te')
            (taskCondition te' now' n (taskMessage te' t)) = te_Conditions te')
    by (intros now'; rewrite Hst, Hcs, Hmsg; by apply set_again).
  clear Hrun Hjob.
  te_runs Hrun'; cbn in Hte'; simplify_eq/=; which_call Hjob';
    try match goal with H : bool_decide _ = false |- _ =>
          apply bool_decide_eq_false in H; by destruct (H (Hset _)) end.
  all: split; [done|no_writes].
Qed.
End properties.

(** * Witnesses *)

Section witnesses.
#[local] Existing Instance sample_konfidence.
#[local] Existing Instance ref_conditions.
#[local] Instance sample_owners : OwnerReferences := ref_owners (λ _, GroupVersion).

Definition sample_decode (s : string) : result GoError JobSpec := Ok {| js_Doc := s |}.
Definition sample_te : TaskExecution := {|
  te_Meta := new_meta "ns" "migrate" ∅; te_Type := "k8s-job"; te_Spec := "{}"; te_Conditions := [] |}.
Definition sample_owner : OwnerReference := {|
  or_APIVersion := GroupVersion; or_Kind := TaskExecutionKind; or_Name := "migrate";
  or_Controller := true |}.
Definition sample_job (name : string) : Job := {|
  job_Meta := om_set_owners [sample_owner] (new_meta "ns" name ∅);
  job_Spec := {| js_Doc := "{}" |};
  job_Conditions := [{| jc_Type := JobComplete; jc_Status := ConditionTrue |}] |}.
Definition task_req : NamespacedName := NN "ns" "migrate".
Definition new_task : FakeState := put (k := KTaskExecution) sample_te empty_cluster.
Definition done_task : FakeState := put (k := KJob) (sample_job "migrate-a") new_task.
Definition reported_te : TaskExecution :=
  te_set_conditions (set_condition 7 [] (taskCondition sample_te 7 TaskSucceeded
    (taskMessage sample_te JobComplete))) sample_te.
Definition reported_task : FakeState := put (k := KTaskExecution) reported_te done_task.
Definition two_jobs : FakeState := put (k := KJob) (sample_job "migrate-b") done_task.

Definition task_calls (s : FakeState) := calls fake (Reconcile sample_decode task_req) s.
Lemma task_calls_run s : execs (Reconcile sample_decode task_req) (task_calls s)
  (run fake (Reconcile sample_decode task_req) s).1.
Proof. apply run_execs. Qed.

Lemma task_creates_one_job_witness :
  let tr := task_calls new_task in
  Forall (λ o, writes KJob o → requests VCreate KJob o ∧
            ∃ te job, answered KTaskExecution <$> head tr = Some (Some te) ∧
                      sent KJob o = Some job ∧ jobFor sample_decode te job) tr ∧
  (length (omap (sent KJob) tr) ≤ 1)%nat ∧
  preceded (λ o, listed KJob o = Some []) (requests VCreate KJob) tr.
Proof. exact (task_creates_one_job sample_decode _ _ _ eq_refl (task_calls_run new_task)). Defined.

Lemma done_task_ok : execs (Reconcile sample_decode task_req) (task_calls (at_time 7 done_task)) (Ok no_requeue).
Proof. exact (task_calls_run (at_time 7 done_task)). Qed.

Lemma done_task_saw : Exists (sawJob (sample_job "migrate-a")) (task_calls (at_time 7 done_task)).
Proof. apply Exists_cons_tl, Exists_cons_hd. left. vm_compute. reflexivity. Qed.

Lemma task_reports_outcome_witness :
  ∃ n, reportedAs JobComplete = Some n ∧
       reports sample_te (storedConditions sample_te (task_calls (at_time 7 done_task))) n.
Proof.
  exact (task_reports_outcome sample_decode _ _ _ sample_te (sample_job "migrate-a") done_task_ok eq_refl
    done_task_saw).
Defined.

Lemma task_many_jobs_refused_witness :
  Forall (λ o, ∀ k, ¬ writes k o) (task_calls two_jobs).
Proof.
  refine (proj2 (task_many_jobs_refused sample_decode _ _ _ [sample_job "migrate-a"; sample_job "migrate-b"]
    (task_calls_run two_jobs) _ _)); [|cbn; lia].
  apply Exists_cons_tl, Exists_cons_hd. vm_compute. reflexivity.
Defined.

Lemma task_reconcile_idempotent_witness :
  Forall (λ o, ∀ k, ¬ writes k o) (task_calls (at_time 9 reported_task)).
Proof.
  refine (proj2 (task_reconcile_idempotent sample_decode _ _ _ sample_te (sample_job "migrate-a") JobComplete
    _ _ _ reported_te done_task_ok eq_refl done_task_saw eq_refl
    (task_calls_run (at_time 9 reported_task)) eq_refl eq_refl eq_refl _ _)).
  - vm_compute. reflexivity.
  - apply Exists_cons_tl, Exists_cons_hd. vm_compute. reflexivity.
Defined.
End witnesses.
End TaskExecutionController.
