(* ===== verification/TaskNames.v ===== *)
(** The names of Jobs as Kubernetes object names: when the name
    [boundedJobName] gives a Job is one the API server accepts. *)
From S2P Require Import Prelude GoBytes GoStrings Objects Client FakeApi TaskExecution.
Import TaskExecutionController.
Local Open Scope Z_scope.

Module TaskNames.

(** * Object names

    Kubernetes names are lower-case RFC 1123 subdomains of at most 253 bytes:
    labels separated by dots, each of letters, digits and dashes that begins and
    ends with a letter or digit.  Three places of a reader recognise them: before
    a label, after a letter or digit, and after a dash. *)
Definition lowerAlnum (c : ascii) : bool :=
  let z := byteZ c in ((97 <=? z) && (z <=? 122)) || ((48 <=? z) && (z <=? 57)).

Inductive place := Start | Inside | Dash.
#[export] Instance place_eq_dec : EqDecision place.
Proof. solve_decision. Defined.
Definition advance (p : option place) (c : ascii) : option place :=
  match p with
  | None => None
  | Some p =>
      if lowerAlnum c then Some Inside
      else match p with
           | Start => None
           | Inside => if bool_decide (c = "-"%char) then Some Dash
                       else if bool_decide (c = "."%char) then Some Start else None
           | Dash => if bool_decide (c = "-"%char) then Some Dash else None
           end
  end.
Definition placeOf (l : list ascii) : option place := foldl advance (Some Start) l.
Definition rfc1123Subdomain (s : string) : bool :=
  bool_decide (placeOf (to_list s) = Some Inside) && (len s <=? 253)%nat.

Lemma placeOf_snoc l c : placeOf (l ++ [c]) = advance (placeOf l) c.
Proof. unfold placeOf. by rewrite foldl_app. Qed.
Lemma advance_none l : foldl advance None l = None.
Proof. by induction l. Qed.
Lemma placeOf_prefix l l' p : placeOf (l ++ l') = Some p → ∃ q, placeOf l = Some q.
Proof.
  unfold placeOf. rewrite foldl_app. destruct (foldl advance (Some Start) l) as [q|]; [by exists q|].
  by rewrite advance_none.
Qed.
(** A label that is not closed ends in a dash; one that has not begun follows a
    dot. *)
Lemma placeOf_last l p : placeOf l = Some p →
  match p with
  | Dash => ∃ t, l = t ++ ["-"%char]
  | Start => l = [] ∨ ∃ t, l = t ++ ["."%char]
  | Inside => ∀ t, l ≠ t ++ ["."%char]
  end.
Proof.
  destruct l as [|c l _] using rev_ind; [intros [= <-]; by left|]. rewrite placeOf_snoc. unfold advance.
  destruct (placeOf l) as [q|]; [|done]. destruct (lowerAlnum c) eqn:Ec.
  - intros [= <-] t [_ ->]%app_inj_tail. done.
  - destruct q; [done|..]; repeat case_bool_decide; subst; intros [= <-]; eauto.
Qed.
Lemma placeOf_alnum l s : Forall (λ c, lowerAlnum c = true) s → s ≠ [] → ∀ p, placeOf l = Some p → placeOf (l ++ s) = Some Inside.
Proof.
  intros Hs Hne p Hp. destruct s as [|c s _] using rev_ind; [done|]. apply Forall_app in Hs as [Hs Hc]. rewrite Forall_singleton in Hc.
  rewrite app_assoc, placeOf_snoc. unfold advance. rewrite Hc.
  assert (∃ q, placeOf (l ++ s) = Some q) as [q ->]; [|done]. clear Hne c Hc.
  induction s as [|c s IH] using rev_ind; [rewrite app_nil_r; by exists p|].
  apply Forall_app in Hs as [Hs Hc]. rewrite Forall_singleton in Hc. destruct (IH Hs) as [q Hq].
  rewrite app_assoc, placeOf_snoc, Hq. unfold advance. rewrite Hc. by eexists.
Qed.

(** A name is extended by a dash and letters exactly when it ends in a label. *)
Lemma extended_name kept suffix : kept ≠ "" → (∀ t, kept ≠ t +:+ "-") →
  (∃ q, placeOf (to_list kept) = Some q) → suffix ≠ "" → Forall (λ c, lowerAlnum c = true) (to_list suffix) →
  placeOf (to_list (kept +:+ "-" +:+ suffix)) = Some Inside ↔ ∀ t, kept ≠ t +:+ ".".
Proof.
  intros Hne Hdash [q Hq] Hs Ha. rewrite !to_list_app. change (to_list "-") with ["-"%char]. pose proof (placeOf_last _ _ Hq) as Hl. destruct q.
  - destruct Hl as [Hl|[t Ht]].
    + destruct Hne. by rewrite <-(of_to_list kept), Hl.
    + split.
      * rewrite app_assoc. intros [q Hq']%placeOf_prefix. rewrite placeOf_snoc, Hq in Hq'. done.
      * intros H. destruct (H (of_list t)). by rewrite <-(of_to_list kept), Ht, of_list_app.
  - split; [intros _ t Ht; apply (Hl (to_list t)); by rewrite Ht, to_list_app|intros _].
    rewrite app_assoc. eapply placeOf_alnum; [done| |by rewrite placeOf_snoc, Hq].
    intros E. destruct Hs. by rewrite <-(of_to_list suffix), E.
  - destruct Hl as [t Ht]. destruct (Hdash (of_list t)). by rewrite <-(of_to_list kept), Ht, of_list_app.
Qed.

(** A name neither ends nor begins with a dash. *)
Lemma name_no_dash base t : placeOf (to_list base) = Some Inside → base ≠ t +:+ "-".
Proof.
  intros H ->. rewrite to_list_app in H. change (to_list "-") with ["-"%char] in H. rewrite placeOf_snoc in H.
  destruct (placeOf (to_list t)) as [[]|]; done.
Qed.
Lemma trimmed_name base cut u : placeOf (to_list base) = Some Inside → base = cut +:+ u → cut ≠ "" → TrimRight cut "-" ≠ "".
Proof.
  intros H Hu Hc E. destruct (drop_while_end_split (λ x, bool_decide (x = "-"%char)) (to_list cut)) as (suf & Hs & Ha).
  apply (f_equal to_list) in E. unfold TrimRight in E. rewrite to_of_list in E. rewrite E in Hs. cbn in Hs.
  destruct suf as [|c suf]; [by destruct Hc; rewrite <-(of_to_list cut), Hs|].
  apply Forall_cons in Ha as [->%bool_decide_eq_true _].
  rewrite Hu, to_list_app, Hs in H. cbn in H. by rewrite advance_none in H.
Qed.

(** C22: a Job gets a valid name, except where its TaskExecution's name is cut
    after a dot.  For a TaskExecution with a valid object name and a random
    suffix of lower-case letters and digits, the name of the Job is the kept part
    of that name, a dash and the suffix, and the API server accepts it exactly
    when the kept part does not end in a dot; a name that is kept whole never
    does. *)
Theorem job_name_valid base suffix
  (Hbase : rfc1123Subdomain base = true) (Halnum : Forall (λ c, lowerAlnum c = true) (to_list suffix))
  (Hsuffix : suffix ≠ "") (Hlen : (len suffix ≤ 61)%nat) :
  ∃ kept, boundedJobName base suffix = Some (kept +:+ "-" +:+ suffix) ∧
    (rfc1123Subdomain (kept +:+ "-" +:+ suffix) = true ↔ ∀ t, kept ≠ t +:+ ".") ∧
    ((len base + len suffix ≤ 62)%nat → kept = base ∧ ∀ t, kept ≠ t +:+ ".").
Proof.
  apply andb_true_iff in Hbase as [Hin%bool_decide_eq_true Hb%Nat.leb_le].
  assert (Hvalid : ∀ kept, kept ≠ "" → (∀ t, kept ≠ t +:+ "-") → (∃ u, base = kept +:+ u) → (len kept + len suffix ≤ 252)%nat →
    rfc1123Subdomain (kept +:+ "-" +:+ suffix) = true ↔ ∀ t, kept ≠ t +:+ ".").
  { intros kept Hk Hd [u Hu] Hl. unfold rfc1123Subdomain. rewrite andb_true_iff, bool_decide_eq_true.
    rewrite extended_name by (done || (eapply placeOf_prefix; by rewrite <-to_list_app, <-Hu)).
    rewrite Nat.leb_le, !len_app. cbn. split; [by intros []|]. intros H. split; [done|lia]. }
  unfold boundedJobName, maxJobNameLen. assert (Hfull : len ("-" +:+ suffix) = S (len suffix)) by (by rewrite len_app).
  rewrite Hfull. destruct (Z.gtb_spec (Z.of_nat (len base)) (63 - Z.of_nat (S (len suffix)))) as [Hgt|Hle].
  - destruct (slice_to base (63 - Z.of_nat (S (len suffix)))) as [cut|] eqn:Ec.
    2: { unfold slice_to in Ec. destruct (Z.leb_spec 0 (63 - Z.of_nat (S (len suffix)))); [|lia].
         destruct (Z.leb_spec (63 - Z.of_nat (S (len suffix))) (Z.of_nat (len base))); [done|lia]. }
    destruct (slice_to_prefix _ _ _ Ec) as [u Hu]. apply slice_to_Some in Ec as (_ & _ & Hl).
    destruct (TrimRight_prefix cut "-") as [v Hv]. pose proof (TrimRight_len cut "-") as Ht.
    exists (TrimRight cut "-"). split_and!; [done| |lia]. apply Hvalid; [|by apply TrimRight_last| |lia].
    + eapply trimmed_name; [done|exact Hu|]. intros ->. cbn in Hl. lia.
    + exists (v +:+ u). by rewrite <-str_app_assoc, <-Hv.
  - exists base. assert (Hdot : ∀ t, base ≠ t +:+ ".").
    { intros t ->. apply (placeOf_last _ _ Hin (to_list t)). by rewrite to_list_app. }
    split_and!; [done| |done]. apply Hvalid; [by intros ->|intros t; by apply name_no_dash|exists ""; by rewrite str_app_nil_r|lia].
Qed.

Definition dotted_name : string := of_list (replicate 53 "a"%char) +:+ "." +:+ "migrate-orders".
Lemma job_name_valid_witness : ∃ kept,
  boundedJobName dotted_name "x7k2p9qd" = Some (kept +:+ "-x7k2p9qd") ∧
  rfc1123Subdomain (kept +:+ "-x7k2p9qd") = false.
Proof.
  destruct (job_name_valid dotted_name "x7k2p9qd" eq_refl ltac:(apply (bool_decide_unpack _); vm_compute; exact I)
    ltac:(discriminate) ltac:(vm_compute; lia)) as (kept & Hk & Hv & _).
  exists kept. split; [exact Hk|]. apply not_true_is_false. rewrite Hv. intros H.
  apply (H (of_list (replicate 53 "a"%char))).
  assert (E : boundedJobName dotted_name "x7k2p9qd" = Some ((of_list (replicate 53 "a"%char) +:+ ".") +:+ "-x7k2p9qd"))
    by (vm_compute; reflexivity).
  rewrite E in Hk. injection Hk as Hk. symmetry. exact (str_app_inj_r _ _ _ Hk).
Defined.
End TaskNames.
