(* ===== verification/TaskHistories.v ===== *)
(** The TaskExecution controller over many runs: how many Jobs a TaskExecution
    gets in the course of a history of reconciliations. *)
From S2P Require Import Prelude GoBytes GoStrings Objects Client Histories FakeApi TaskExecution.
Import Histories TaskExecutionController.
Local Open Scope Z_scope.

Module TaskHistories.

Abbreviation event := (option nat * obs clientE)%type.

Section system.
Context `{KF : Konfidence, MC : MetaConditions, OW : OwnerReferences}.
Context (decodeJobSpec : string → result GoError JobSpec).

(** The call creates the Job [key] of the TaskExecution [req]. *)
Definition createsJob (req key : NamespacedName) (o : obs clientE) : Prop :=
  requests VCreate KJob o ∧ succeeded o ∧
  ∃ job, sent KJob o = Some job ∧ obj_key (k := KJob) job = key ∧
    om_Namespace (job_Meta job) = nn_Namespace req ∧ jobOwnerIndex job = [nn_Name req].
(** The call deletes that Job, or stores it without that owner. *)
Definition takesJob (req key : NamespacedName) (o : obs clientE) : Prop :=
  succeeded o ∧
  (request o = Some (VDelete, KJob, key) ∨
   ∃ job, sent KJob o = Some job ∧ obj_key (k := KJob) job = key ∧ jobOwnerIndex job ≠ [nn_Name req]).
(** The call lists the Jobs of [req] and finds none. *)
Definition findsNoJob (req : NamespacedName) (o : obs clientE) : Prop :=
  o = Did (List KJob (nn_Namespace req) (SelOwner (nn_Name req))) (Ok []).

(** Jobs of TaskExecutions are created by this controller only. *)
Definition outside (o : obs clientE) : Prop := ∀ req key, ¬ createsJob req key o.
Abbreviation history := (history (Reconcile decodeJobSpec) outside).

(** Between the positions [a] and [b] the Job was taken. *)
Definition takenBetween (req key : NamespacedName) (h : list event) (a b : nat) : Prop :=
  ∃ d c, (a < d < b)%nat ∧ h !! d = Some c ∧ takesJob req key c.2.
(** A list is current: when it shows no Job, all that were created before have
    been taken. *)
Definition current (h : list event) : Prop :=
  ∀ req key a b c1 c2, (a < b)%nat → h !! a = Some c1 → h !! b = Some c2 →
    createsJob req key c1.2 → findsNoJob req c2.2 → takenBetween req key h a b.

(** A run creates a Job once, after a list without one. *)
Lemma created_after_empty_list req tr r before o after :
  owner_api_version TaskExecutionKind = GroupVersion →
  execs (Reconcile decodeJobSpec req) tr r → Forall well_answered tr → tr = before ++ o :: after →
  requests VCreate KJob o →
  (∃ job, sent KJob o = Some job ∧ om_Namespace (job_Meta job) = nn_Namespace req ∧ jobOwnerIndex job = [nn_Name req]) ∧
  Exists (findsNoJob req) before ∧ Forall (λ o, ¬ requests VCreate KJob o) before.
Proof.
  intros Hgv Hrun Hwa E Ho. te_runs Hrun; answers_of Hwa; try subst req;
    repeat (destruct before as [|? before]; simplify_eq/=; try (by destruct Ho)).
  all: (split; [|split; [by apply Exists_cons_tl, Exists_cons_hd|repeat constructor; by intros []]]).
  all: match goal with H : decodeJobSpec _ = Ok _ |- _ => eapply constructed_job_for in H as (? & _ & _ & ?); [|done..] end.
  all: eexists; split_and!; [reflexivity|done..].
Qed.

Section history.
Context (Hgv : owner_api_version TaskExecutionKind = GroupVersion).
Context h ps (Hh : history h ps) (Hwa : Forall (λ c, well_answered c.2) h).

Lemma created_by_run b c req key :
  h !! b = Some c → createsJob req key c.2 →
  ∃ i p, c.1 = Some i ∧ ps !! i = Some (req, p) ∧
    (∃ a o, (a < b)%nat ∧ h !! a = Some (Some i, o) ∧ findsNoJob req o) ∧
    (∀ a o, (a < b)%nat → h !! a = Some (Some i, o) → ¬ requests VCreate KJob o).
Proof.
  intros Hb Hc. apply list_elem_of_split_length in Hb as (h1 & h2 & Eh & ->). destruct c as [[i|] o]; cbn in Hc.
  2: { destruct (history_outside_calls _ _ _ _ o Hh) with req key; [rewrite Eh; apply elem_of_mid|done]. }
  destruct (history_run _ _ _ client_answers _ _ _ _ _ _ Hh Hwa Eh) as (req' & p & after & r & Hi & Hrun & Hg).
  destruct Hc as (Hreq & _ & job & Hs & _ & Hns & Hown).
  destruct (created_after_empty_list _ _ _ _ _ _ Hgv Hrun Hg eq_refl Hreq) as ((job' & Hs' & Hns' & Hown') & Hl & Hn).
  assert (req' = req) as -> by (destruct req, req'; cbn in *; congruence).
  exists i, p. split_and!; [done..| |].
  - apply callsOf_exists in Hl as (a & o' & b & -> & Ho'). exists (length a), o'.
    split_and!; [rewrite length_app; cbn; lia|rewrite Eh, <-app_assoc; exact (mid_lookup a _ _)|done].
  - intros a o' Ha Ho'. rewrite Eh, lookup_app_l in Ho' by done. apply list_elem_of_split_length in Ho' as (x & y & -> & _).
    rewrite callsOf_mid, Forall_app, Forall_cons in Hn. by destruct Hn as (_ & ? & _).
Qed.

(** C19: a TaskExecution gets one Job at a time.  In every history of
    reconciliations, of this and other TaskExecutions and interleaved with other
    users who create no Jobs for them, in which the runs for one TaskExecution
    do not overlap and lists are current (one that shows no Job comes after all
    Jobs created before it were deleted or disowned), a second Job is created
    for a TaskExecution only after the first was deleted or disowned. *)
Theorem one_job_per_task req k1 k2 a b c1 c2 (Hserial : serial h ps) (Hcurrent : current h) (Hab : (a < b)%nat)
  (Ha : h !! a = Some c1) (Hb : h !! b = Some c2) (H1 : createsJob req k1 c1.2) (H2 : createsJob req k2 c2.2) :
  takenBetween req k1 h a b.
Proof.
  destruct c1 as [w1 o1], c2 as [w2 o2].
  destruct (created_by_run _ _ _ _ Ha H1) as (i & p & Hi & Hpi & _).
  destruct (created_by_run _ _ _ _ Hb H2) as (j & q & Hj & Hpj & (l & o & Hl & Hol & Ho) & Hn). cbn in *. subst.
  destruct (decide (i = j)) as [->|Hij]; [by destruct (Hn a o1 Hab Ha); apply H1|].
  destruct (Nat.lt_trichotomy l a) as [Hla|[->|Hal]].
  - by destruct (Hserial req i j p q l a b o o1 o2).
  - rewrite Ha in Hol. simplify_eq.
  - destruct (Hcurrent req k1 a l _ _ Hal Ha Hol H1 Ho) as (d & c & Hd & Hc). exists d, c. split; [lia|done].
Qed.
End history.

End system.

(** * Lists that lag *)

Section witnesses.
#[local] Existing Instance sample_konfidence.
#[local] Existing Instance ref_conditions.
#[local] Existing Instance sample_owners.

Abbreviation sample_program := (Reconcile sample_decode).
Definition position_of (P : event → bool) (h : list event) : list nat := mjoin (imap (λ n c, if P c then [n] else []) h).
Lemma positions P h n c : h !! n = Some c → P c = true → n ∈ position_of P h.
Proof.
  intros Hn Hc. apply list_elem_of_join. exists [n]. split; [by apply list_elem_of_singleton|].
  apply list_elem_of_lookup. exists n. by rewrite list_lookup_imap, Hn; cbn; rewrite Hc.
Qed.
Definition creation (c : event) : bool := bool_decide ((λ r, (r.1).1) <$> request c.2 = Some VCreate).
Definition empty_list (c : event) : bool := bool_decide (length <$> listed KJob c.2 = Some 0%nat).
Lemma creation_spec req key (c : event) : createsJob req key c.2 → creation c = true.
Proof.
  intros [H _]. unfold requests in H. apply bool_decide_eq_true_2. destruct (request c.2) as [[[v k] key']|]; [|done].
  by destruct H as [-> ->].
Qed.
Lemma empty_list_spec req (c : event) : findsNoJob req c.2 → empty_list c = true.
Proof. intros E. unfold empty_list. by rewrite E. Qed.
Lemma creates_at (o : obs clientE) req job :
  request o = Some (VCreate, KJob, obj_key (k := KJob) job) → outcome o = Some (Ok ()) → sent KJob o = Some job →
  om_Namespace (job_Meta job) = nn_Namespace req → jobOwnerIndex job = [nn_Name req] → createsJob req (obj_key (k := KJob) job) o.
Proof. intros E Eo Es En Ei. split; [unfold requests; by rewrite E|]. split; [exact Eo|eauto 10]. Qed.
Definition owned_job (name : string) : Job := {|
  job_Meta := om_set_owners [sample_owner] (new_meta "ns" name ∅); job_Spec := {| js_Doc := "{}" |}; job_Conditions := [] |}.

(** A run that creates the Job, a user who deletes it, and a second run. *)
Definition job_key : NamespacedName := NN "ns" "migrate-xxxxxxxx".
Definition first_run := interleave fake (replicate 5 0)%nat (started sample_program [task_req; task_req]) new_task.
Definition deletion : event := (None, Did (Delete KJob job_key) (fake _ (Delete KJob job_key) first_run.2).1).
Definition second_run := interleave fake (replicate 5 1)%nat first_run.1.2 (fake _ (Delete KJob job_key) first_run.2).2.
Definition recreation : list event := first_run.1.1 ++ deletion :: second_run.1.1.
Definition event_at (n : nat) : event := default (None, Did Now 0) (recreation !! n).
Lemma recreation_history : history sample_program outside recreation second_run.1.2.
Proof.
  unfold recreation. rewrite cons_middle, app_assoc. apply interleave_history, history_outside; [apply interleave_started|].
  by intros req key [[] _].
Qed.
Lemma first_run_consistent : consistent first_run.2.
Proof. apply (interleave_invariant well_answered fake consistent); [intros X e s; apply fake_call|]. apply consistent_put, consistent_empty. Qed.
Lemma recreation_answers : Forall (λ c, well_answered c.2) recreation.
Proof.
  apply Forall_app. split; [|constructor].
  - apply (interleave_good well_answered fake consistent); [intros X e s; apply fake_call|]. apply consistent_put, consistent_empty.
  - apply fake_call, first_run_consistent.
  - apply (interleave_good well_answered fake consistent); [intros X e s; apply fake_call|]. apply fake_call, first_run_consistent.
Qed.
Lemma recreation_serial : serial recreation second_run.1.2.
Proof.
  apply serial_two; [apply (forall_map fst (.∈ [Some 0; None]%nat))|apply (forall_map fst (.∈ [Some 1; None]%nat))];
    apply (bool_decide_unpack _); vm_compute; exact I.
Qed.
Lemma creations : position_of creation recreation = [3;9]%nat.
Proof. vm_compute. reflexivity. Qed.
Lemma empty_lists : position_of empty_list recreation = [1;7]%nat.
Proof. vm_compute. reflexivity. Qed.
Lemma recreation_current : current recreation.
Proof.
  intros req key a b c1 c2 Hab Ha Hb Hc Hf.
  pose proof (positions _ _ _ _ Ha (creation_spec _ _ _ Hc)) as Pa.
  pose proof (positions _ _ _ _ Hb (empty_list_spec _ _ Hf)) as Pb.
  rewrite creations in Pa. rewrite empty_lists in Pb.
  assert (a = 3 ∧ b = 7)%nat as [-> ->] by (rewrite !elem_of_cons, !elem_of_nil in *; lia).
  exists 5%nat, deletion. split_and!; [lia..|vm_compute; reflexivity|]. split; [vm_compute; reflexivity|left].
  destruct Hc as (_ & _ & job & Hs & <- & _). vm_compute in Ha. simplify_eq. vm_compute in Hs. simplify_eq. reflexivity.
Qed.
Lemma created_at n : n = 3%nat ∨ n = 9%nat → createsJob task_req job_key (event_at n).2.
Proof. by intros [->| ->]; apply (creates_at _ _ (owned_job "migrate-xxxxxxxx")); vm_compute. Qed.

Lemma one_job_per_task_witness : takenBetween task_req job_key recreation 3 9.
Proof.
  refine (one_job_per_task sample_decode eq_refl _ _ recreation_history recreation_answers task_req job_key job_key
    3%nat 9%nat (event_at 3%nat) (event_at 9%nat) recreation_serial recreation_current _ _ _ _ _).
  - lia.
  - vm_compute. reflexivity.
  - vm_compute. reflexivity.
  - apply created_at. by left.
  - apply created_at. by right.
Defined.

(** The server as a cache shows it that has not seen any Job yet. *)
Definition lagging (X : Type) (e : clientE X) : FakeState → X * FakeState :=
  match e in clientE X return FakeState → X * FakeState with
  | List k ns sel => λ s, (Ok [], s)
  | RandString n => λ s, (of_list (replicate n (if decide (fs_objects s KJob = ∅) then "x" else "y")%char), s)
  | e => fake _ e
  end.
Lemma lagging_call X (e : clientE X) s :
  consistent s → well_answered (Did e (lagging X e s).1) ∧ consistent (lagging X e s).2.
Proof.
  destruct e; try apply fake_call; cbn; [done|]. intros Hs. split; [|done]. by rewrite len_of_list, length_replicate.
Qed.

(** A list that lags costs the TaskExecution.  The Jobs are looked up in a
    cache and created under random names: when the second run's list does not
    show the Job of the first yet, a second Job is created for the same
    TaskExecution, although the runs do not overlap, and from then on a run that
    sees both fails without writing anything. *)
Theorem lagging_list_duplicates : ∃ h ps cluster c1 c2,
  interleave lagging (replicate 5 0 ++ replicate 5 1)%nat (started sample_program [task_req; task_req]) new_task = (h, ps, cluster) ∧
  history sample_program outside h ps ∧ Forall (λ c, well_answered c.2) h ∧ serial h ps ∧
  h !! 3%nat = Some c1 ∧ h !! 8%nat = Some c2 ∧ createsJob task_req job_key c1.2 ∧ createsJob task_req (NN "ns" "migrate-yyyyyyyy") c2.2 ∧
  Forall (λ c, ¬ requests VDelete KJob c.2) h ∧
  is_ok (run fake (Reconcile sample_decode task_req) cluster).1 = false ∧
  Forall reads (calls fake (Reconcile sample_decode task_req) cluster).
Proof.
  set (res := interleave lagging _ _ _). set (at_ n := default (None, Did Now 0) (res.1.1 !! n) : event).
  exists res.1.1, res.1.2, res.2, (at_ 3%nat), (at_ 8%nat). split_and!.
  - by destruct res as [[??]?].
  - apply interleave_started.
  - apply (interleave_good well_answered lagging consistent); [intros X e s; apply lagging_call|].
    apply consistent_put, consistent_empty.
  - rewrite <-(take_drop 5 res.1.1).
    apply serial_two; [apply (forall_map fst (.∈ [Some 0; None]%nat))|apply (forall_map fst (.∈ [Some 1; None]%nat))];
      apply (bool_decide_unpack _); vm_compute; exact I.
  - vm_compute. reflexivity.
  - vm_compute. reflexivity.
  - apply (creates_at _ _ (owned_job "migrate-xxxxxxxx")); vm_compute; reflexivity.
  - apply (creates_at _ _ (owned_job "migrate-yyyyyyyy")); vm_compute; reflexivity.
  - apply Forall_impl with (λ c, (λ r, (r.1).1) <$> request c.2 ≠ Some VDelete).
    + apply (forall_map (λ c : event, (λ r, (r.1).1) <$> request c.2) (.≠ Some VDelete)), (bool_decide_unpack _). vm_compute. exact I.
    + intros c H H'. unfold requests in H'. destruct (request c.2) as [[[v k] key]|]; [|done]. by destruct H' as [-> ->].
  - vm_compute. reflexivity.
  - apply Forall_impl with (λ o, (λ r, is_write (r.1).1) <$> request o ≠ Some true).
    + apply (forall_map (λ o, (λ r, is_write (r.1).1) <$> request o) (.≠ Some true)), (bool_decide_unpack _). vm_compute. exact I.
    + intros o Ho k Hw. unfold writes in Hw. destruct (request o) as [[[v k'] key]|]; [|done].
      destruct Hw as [_ Hw]. apply Ho. cbn. by rewrite Hw.
Qed.
End witnesses.
End TaskHistories.
