(* ===== verification/RouterGateway.v ===== *)
(** The router Gateway of an activation
    (internal/activationexecution/internal/controller/router_gateway.go): it is
    provisioned when the landscape has none, and stage routes may attach only
    when it cannot be reached from outside the cluster. *)
From S2P Require Import Prelude GoBytes GoStrings Objects Client ControllerUtil FakeApi.
Local Open Scope Z_scope.

Module RouterGateway.

(** * Constants *)

Definition defaultGatewayName : string := "konfidence-router".
Definition labelProvisionedBy : string := "konfidence.cloud/provisioned-by".
Definition provisionedByOrchestrator : string := "kubernetes-landscape-orchestrator".

Definition routerGatewayReadyTimeout : Z := 5 * Minute.
Definition routerGatewayPollInterval : Z := 15 * Second.
Definition reasonWaitingForClusterAddress : string := "WaitingForClusterAddress".
Definition reasonGatewayClassNotFound : string := "GatewayClassNotFound".
Definition reasonRoutabilityNotPersisted : string := "RoutabilityNotPersisted".
Definition reasonGatewayNotAccepted : string := "GatewayNotAccepted".
Definition reasonAddressNotClusterRoutable : string := "AddressNotClusterRoutable".
Definition reasonGatewayNotReady : string := "GatewayNotReady".

(** * States *)

Inductive routerGatewayPhase := routerGatewayPending | routerGatewayReady | routerGatewayFailed.
#[export] Instance routerGatewayPhase_eq_dec : EqDecision routerGatewayPhase.
Proof. solve_decision. Defined.

Record routerGatewayState := {
  phase : routerGatewayPhase;
  reason : string;
  message : string;
  exposed : bool;
}.
Definition pendingState (r m : string) : routerGatewayState :=
  {| phase := routerGatewayPending; reason := r; message := m; exposed := false |}.
Definition failedState (r m : string) : routerGatewayState :=
  {| phase := routerGatewayFailed; reason := r; message := m; exposed := false |}.
Definition exposedState (r m : string) : routerGatewayState :=
  {| phase := routerGatewayFailed; reason := r; message := m; exposed := true |}.
Definition readyState : routerGatewayState :=
  {| phase := routerGatewayReady; reason := ""; message := ""; exposed := false |}.

Section gateway.
Context `{GA : GatewayAPI, MC : MetaConditions}.

(** * Inspecting a Gateway *)

Definition requestsClusterRoutability (gateway : Gateway) : bool :=
  forallb (λ r, bool_decide (r = GatewayAddressRoutabilityCluster)) (gw_SpecAddresses gateway) &&
  negb (bool_decide (gw_SpecAddresses gateway = [])).

Definition isClusterRoutable (gateway : Gateway) : bool :=
  if negb (requestsClusterRoutability gateway) || bool_decide (gw_StatusAddresses gateway = [])
  then false
  else forallb (λ a, bool_decide (ga_Routability a = Some GatewayAddressRoutabilityCluster))
         (gw_StatusAddresses gateway).

Definition addressValues (addresses : list GatewayStatusAddress) : string :=
  Join (ga_Value <$> addresses) ", ".

Definition newRouterGateway (namespace className : string) : Gateway := {|
  gw_Meta := new_meta namespace defaultGatewayName {[ labelProvisionedBy := provisionedByOrchestrator ]};
  gw_ClassName := className;
  gw_SpecAddresses := [GatewayAddressRoutabilityCluster];
  gw_Listeners := [{| ls_Name := "http"; ls_Protocol := HTTPProtocolType; ls_Port := 80 |}];
  gw_Conditions := []; gw_StatusAddresses := [] |}.

Definition evaluateRouterGateway (gateway : Gateway) (now : Z) : routerGatewayState :=
  let name := om_Namespace (gw_Meta gateway) +:+ "/" +:+ om_Name (gw_Meta gateway) in
  let className := gw_ClassName gateway in
  if negb (requestsClusterRoutability gateway) then
    exposedState reasonRoutabilityNotPersisted
      ("Gateway " +:+ name +:+ " lost spec.addresses[].routability; install the Gateway API experimental-channel CRDs v1.7.0 or later")
  else
    let accepted := FindStatusCondition (gw_Conditions gateway) GatewayConditionAccepted in
    match accepted with
    | Some {| c_Status := ConditionFalse; c_Reason := r; c_Message := m |} =>
        failedState reasonGatewayNotAccepted
          ("Gateway " +:+ name +:+ " was not accepted (" +:+ r +:+ "): " +:+ m)
    | _ =>
        if isClusterRoutable gateway then readyState
        else
          let programmed := IsStatusConditionTrue (gw_Conditions gateway) GatewayConditionProgrammed in
          if programmed && negb (bool_decide (gw_StatusAddresses gateway = [])) then
            exposedState reasonAddressNotClusterRoutable
              ("Gateway " +:+ name +:+ " is programmed with addresses " +:+
               addressValues (gw_StatusAddresses gateway) +:+
               " that are not cluster-routable; GatewayClass " +:+ className +:+
               " does not support GEP-5093")
          else if time_Sub now (time_of (om_CreationTimestamp (gw_Meta gateway))) >? routerGatewayReadyTimeout then
            failedState reasonGatewayNotReady
              ("Gateway " +:+ name +:+ " has no cluster-routable address after 5m0s; check that a controller serves GatewayClass "
               +:+ className)
          else pendingState reasonWaitingForClusterAddress
                 ("waiting for Gateway " +:+ name +:+ " to report a cluster-routable address")
    end.

Definition missingGatewayClassState (className : string) (startedAt now : Z) : routerGatewayState :=
  let msg := "GatewayClass " +:+ className +:+ " does not exist; set gatewayClassName to an installed class" in
  if time_Sub now startedAt >? routerGatewayReadyTimeout then failedState reasonGatewayClassNotFound msg
  else pendingState reasonGatewayClassNotFound msg.

(** * Provisioning *)

(** [client.IgnoreNotFound(c.Delete(ctx, gateway))]. *)
Definition deleteGateway (c : KubeClient) (namespace : string) (gateway : Gateway) : Prog (result GoError ()) :=
  d ← c _ (Delete KGateway (om_key (gw_Meta gateway)));
  match d with
  | Ok _ => Ret (Ok ())
  | Err e =>
      if IsNotFound e then Ret (Ok ())
      else Ret (Err (EWrap ("delete exposed Gateway " +:+ namespace +:+ "/" +:+ defaultGatewayName) (EApi e)))
  end.

Definition createRouterGateway (c : KubeClient) (namespace className : string) (startedAt now : Z) :
    Prog (result GoError routerGatewayState) :=
  gc ← c _ (Get KGatewayClass (NN "" className));
  match gc with
  | Err e =>
      if IsNotFound e then Ret (Ok (missingGatewayClassState className startedAt now))
      else Ret (Err (EWrap ("get GatewayClass " +:+ className) (EApi e)))
  | Ok _ =>
      let pending := pendingState reasonWaitingForClusterAddress
        ("created Gateway " +:+ namespace +:+ "/" +:+ defaultGatewayName +:+
         ", waiting for a cluster-routable address") in
      cr ← c _ (Create KGateway (newRouterGateway namespace className));
      match cr with
      | Err e =>
          if negb (IsAlreadyExists e) then
            Ret (Err (EWrap ("create Gateway " +:+ namespace +:+ "/" +:+ defaultGatewayName) (EApi e)))
          else Ret (Ok pending)
      | Ok gateway =>
          if negb (requestsClusterRoutability gateway) then
            d ← deleteGateway c namespace gateway;
            match d with
            | Err err => Ret (Err err)
            | Ok _ => Ret (Ok (evaluateRouterGateway gateway now))
            end
          else Ret (Ok pending)
      end
  end.

Definition ensureRouterGateway (c : KubeClient) (namespace className : string) (startedAt now : Z) :
    Prog (result GoError routerGatewayState) :=
  g ← c _ (Get KGateway (NN namespace defaultGatewayName));
  match g with
  | Err e =>
      if IsNotFound e then createRouterGateway c namespace className startedAt now
      else Ret (Err (EWrap ("get Gateway " +:+ namespace +:+ "/" +:+ defaultGatewayName) (EApi e)))
  | Ok gateway =>
      if negb (bool_decide (map_get (om_Labels (gw_Meta gateway)) labelProvisionedBy = provisionedByOrchestrator))
      then Ret (Ok readyState)
      else
        let state := evaluateRouterGateway gateway now in
        if exposed state then
          d ← deleteGateway c namespace gateway;
          match d with
          | Err err => Ret (Err err)
          | Ok _ => Ret (Ok state)
          end
        else Ret (Ok state)
  end.

(** * Reading the runs *)

(** The Gateway carries the orchestrator's label. *)
Definition provisioned (g : Gateway) : Prop :=
  map_get (om_Labels (gw_Meta g)) labelProvisionedBy = provisionedByOrchestrator.

(** The implementation has refused the Gateway. *)
Definition refused (g : Gateway) : Prop :=
  ∃ c, FindStatusCondition (gw_Conditions g) GatewayConditionAccepted = Some c ∧ c_Status c = ConditionFalse.

(** Every address is requested and assigned as cluster-routable. *)
Definition clusterOnly (g : Gateway) : Prop :=
  Forall (.= GatewayAddressRoutabilityCluster) (gw_SpecAddresses g) ∧ gw_SpecAddresses g ≠ [] ∧
  Forall (λ a, ga_Routability a = Some GatewayAddressRoutabilityCluster) (gw_StatusAddresses g) ∧
  gw_StatusAddresses g ≠ [].

(** The request for cluster routability is gone. *)
Definition lostRequest (g : Gateway) : Prop :=
  ¬ (Forall (.= GatewayAddressRoutabilityCluster) (gw_SpecAddresses g) ∧ gw_SpecAddresses g ≠ []).
(** The Gateway is programmed with an address that is not cluster-routable. *)
Definition servesPublic (g : Gateway) : Prop :=
  IsStatusConditionTrue (gw_Conditions g) GatewayConditionProgrammed = true ∧
  Exists (λ a, ga_Routability a ≠ Some GatewayAddressRoutabilityCluster) (gw_StatusAddresses g).
(** What the code takes for possibly reachable from outside the cluster; a
    Gateway that was refused, or has a public address but is not programmed, is
    not. *)
Definition takenForExposed (g : Gateway) : Prop := lostRequest g ∨ (¬ refused g ∧ servesPublic g).

(** Safe to attach routes to: the admin's Gateway, or ours, not refused (it may
    not have been accepted yet either) and cluster-only. *)
Definition attachable (g : Gateway) : Prop := provisioned g → ¬ refused g ∧ clusterOnly g.
End gateway.

(** * Properties *)

Section properties.
Context `{GA : GatewayAPI, MC : MetaConditions}.

Lemma requests_spec g :
  requestsClusterRoutability g = true ↔
  Forall (.= GatewayAddressRoutabilityCluster) (gw_SpecAddresses g) ∧ gw_SpecAddresses g ≠ [].
Proof.
  unfold requestsClusterRoutability. rewrite andb_true_iff, negb_true_iff, bool_decide_eq_false.
  by rewrite forallb_decide.
Qed.

Lemma routable_spec g : isClusterRoutable g = true ↔ clusterOnly g.
Proof.
  unfold isClusterRoutable, clusterOnly. pose proof (requests_spec g) as Hr.
  destruct (requestsClusterRoutability g); cbn; [|naive_solver].
  case_bool_decide as Hs; [naive_solver|].
  rewrite forallb_decide. naive_solver.
Qed.

Lemma not_routable g :
  isClusterRoutable g = false → requestsClusterRoutability g = true → gw_StatusAddresses g ≠ [] →
  Exists (λ a, ga_Routability a ≠ Some GatewayAddressRoutabilityCluster) (gw_StatusAddresses g).
Proof.
  intros Hc Hr Hs. unfold isClusterRoutable in Hc. rewrite Hr, bool_decide_eq_false_2 in Hc by done.
  cbn in Hc. apply (not_Forall_Exists _). intros Hall. enough (true = false) by done.
  rewrite <-Hc. symmetry. by apply forallb_decide.
Qed.

Lemma refused_dec g : {refused g} + {¬ refused g}.
Proof.
  unfold refused. destruct (FindStatusCondition _ _) as [c|]; [|right; naive_solver].
  destruct (decide (c_Status c = ConditionFalse)); [left|right]; naive_solver.
Qed.

(** The verdict on a Gateway that still requests cluster routability. *)
Lemma evaluate_refused g now :
  requestsClusterRoutability g = true → refused g →
  ∃ m, evaluateRouterGateway g now = failedState reasonGatewayNotAccepted m.
Proof.
  intros Hr ([t st r m og lt] & Hf & Hs). cbn in Hs. subst st.
  unfold evaluateRouterGateway. rewrite Hr, Hf. cbn. by eexists.
Qed.
Lemma evaluate_open g now :
  requestsClusterRoutability g = true → ¬ refused g →
  ∃ m1 m2 m3, evaluateRouterGateway g now =
    if isClusterRoutable g then readyState
    else if IsStatusConditionTrue (gw_Conditions g) GatewayConditionProgrammed &&
            negb (bool_decide (gw_StatusAddresses g = []))
    then exposedState reasonAddressNotClusterRoutable m1
    else if time_Sub now (time_of (om_CreationTimestamp (gw_Meta g))) >? routerGatewayReadyTimeout
    then failedState reasonGatewayNotReady m2
    else pendingState reasonWaitingForClusterAddress m3.
Proof.
  intros Hr Hn. unfold evaluateRouterGateway. rewrite Hr. cbn [negb].
  destruct (FindStatusCondition _ _) as [[t [] r m og lt]|] eqn:Ea; try (by eexists _, _, _).
  destruct Hn. unfold refused. eauto.
Qed.

Lemma exposed_by_address g :
  requestsClusterRoutability g = true → isClusterRoutable g = false →
  gw_StatusAddresses g ≠ [] ↔
  Exists (λ a, ga_Routability a ≠ Some GatewayAddressRoutabilityCluster) (gw_StatusAddresses g).
Proof.
  intros Hr Hc. split; [by apply not_routable|]. intros He Hn. rewrite Hn in He. by apply Exists_nil in He.
Qed.

(** Splits a run of the provisioning into its branches. *)
Ltac gw_runs H :=
  unfold ensureRouterGateway, createRouterGateway, deleteGateway in H; exec_steps H.

Lemma evaluate_ready g now :
  phase (evaluateRouterGateway g now) = routerGatewayReady → ¬ refused g ∧ clusterOnly g.
Proof.
  rewrite <-routable_spec. destruct (requestsClusterRoutability g) eqn:Er.
  - destruct (refused_dec g) as [Hf|Hf]; [destruct (evaluate_refused g now Er Hf) as [m ->]; done|].
    destruct (evaluate_open g now Er Hf) as (m1 & m2 & m3 & ->). by repeat case_match.
  - unfold evaluateRouterGateway. by rewrite Er.
Qed.

Lemma lost_spec g : lostRequest g ↔ requestsClusterRoutability g = false.
Proof. unfold lostRequest. rewrite <-requests_spec. by destruct (requestsClusterRoutability g). Qed.
Lemma cluster_not_public g : clusterOnly g → ¬ servesPublic g.
Proof. intros (_ & _ & Ha & _) [_ He]. by apply Exists_not_Forall in He. Qed.
Lemma public_spec g : requestsClusterRoutability g = true → isClusterRoutable g = false →
  IsStatusConditionTrue (gw_Conditions g) GatewayConditionProgrammed && negb (bool_decide (gw_StatusAddresses g = [])) = true ↔
  servesPublic g.
Proof.
  intros Hr Hc. unfold servesPublic. by rewrite <-(exposed_by_address g Hr Hc), andb_true_iff, negb_true_iff, bool_decide_eq_false.
Qed.
Lemma late_spec g now :
  (time_Sub now (time_of (om_CreationTimestamp (gw_Meta g))) >? routerGatewayReadyTimeout) = true ↔
  routerGatewayReadyTimeout < now - time_of (om_CreationTimestamp (gw_Meta g)).
Proof.
  rewrite Z.gtb_lt, time_Sub_gt; [done|]. unfold routerGatewayReadyTimeout, Minute, Second, minDuration, maxDuration. lia.
Qed.
Lemma evaluate_all (g : Gateway) (now : Z) :
  let st := evaluateRouterGateway g now in
  let late := routerGatewayReadyTimeout < now - time_of (om_CreationTimestamp (gw_Meta g)) in
  (lostRequest g ∧ phase st = routerGatewayFailed ∧ exposed st = true) ∨
  (¬ lostRequest g ∧ refused g ∧ phase st = routerGatewayFailed ∧ exposed st = false) ∨
  (¬ lostRequest g ∧ ¬ refused g ∧ clusterOnly g ∧ phase st = routerGatewayReady ∧ exposed st = false) ∨
  (¬ lostRequest g ∧ ¬ refused g ∧ ¬ clusterOnly g ∧ servesPublic g ∧ phase st = routerGatewayFailed ∧ exposed st = true) ∨
  (¬ lostRequest g ∧ ¬ refused g ∧ ¬ clusterOnly g ∧ ¬ servesPublic g ∧ late ∧ phase st = routerGatewayFailed ∧ exposed st = false) ∨
  (¬ lostRequest g ∧ ¬ refused g ∧ ¬ clusterOnly g ∧ ¬ servesPublic g ∧ ¬ late ∧ phase st = routerGatewayPending ∧ exposed st = false).
Proof.
  cbn zeta. rewrite lost_spec, <-late_spec, <-routable_spec. destruct (requestsClusterRoutability g) eqn:Er.
  2: { left. unfold evaluateRouterGateway. by rewrite Er. }
  right. destruct (refused_dec g) as [Hf|Hf]; [left; by destruct (evaluate_refused g now Er Hf) as [m ->]|right].
  destruct (evaluate_open g now Er Hf) as (m1 & m2 & m3 & ->). destruct (isClusterRoutable g) eqn:Ec; [by left|right].
  rewrite <-(public_spec g Er Ec). repeat case_match; naive_solver congruence.
Qed.

Lemma evaluate_exposed g now :
  exposed (evaluateRouterGateway g now) = true →
  phase (evaluateRouterGateway g now) = routerGatewayFailed ∧ takenForExposed g.
Proof. unfold takenForExposed. pose proof (evaluate_all g now). cbn zeta in *. naive_solver congruence. Qed.
Lemma evaluate_taken_for_exposed g now : takenForExposed g → exposed (evaluateRouterGateway g now) = true.
Proof.
  unfold takenForExposed. pose proof (evaluate_all g now). pose proof (cluster_not_public g). cbn zeta in *. naive_solver.
Qed.

Lemma evaluate_pruned g now :
  requestsClusterRoutability g = false →
  phase (evaluateRouterGateway g now) = routerGatewayFailed ∧ exposed (evaluateRouterGateway g now) = true.
Proof. intros Er. unfold evaluateRouterGateway. by rewrite Er. Qed.

Lemma missing_class_phase class st now :
  phase (missingGatewayClassState class st now) ≠ routerGatewayReady ∧
  exposed (missingGatewayClassState class st now) = false.
Proof. unfold missingGatewayClassState. by case_match. Qed.

(** C15: the decision of [evaluateRouterGateway] on a provisioned Gateway.  It
    is ready exactly when the implementation has not refused it (no Accepted
    condition says False) and every requested and assigned address is
    cluster-routable.  It has failed exactly when the request for cluster
    routability is gone, it was refused, it is programmed with an address that
    is not cluster-routable, or it has none after five minutes; it is marked
    exposed exactly when the request is gone, or when it was not refused and is
    programmed with such an address.  It is pending exactly in the remaining
    cases, for at most five minutes after its creation. *)
Theorem evaluate_spec (g : Gateway) (now : Z) :
  let st := evaluateRouterGateway g now in
  let age := now - time_of (om_CreationTimestamp (gw_Meta g)) in
  (phase st = routerGatewayReady ↔ ¬ refused g ∧ clusterOnly g) ∧
  (phase st = routerGatewayFailed ↔
     lostRequest g ∨ refused g ∨ servesPublic g ∨ ¬ clusterOnly g ∧ routerGatewayReadyTimeout < age) ∧
  (phase st = routerGatewayPending ↔
     ¬ lostRequest g ∧ ¬ refused g ∧ ¬ servesPublic g ∧ ¬ clusterOnly g ∧ age ≤ routerGatewayReadyTimeout) ∧
  (exposed st = true ↔ lostRequest g ∨ ¬ refused g ∧ servesPublic g).
Proof.
  cbn zeta. pose proof (evaluate_all g now) as H. pose proof (cluster_not_public g) as Hp.
  assert (Hl : clusterOnly g → ¬ lostRequest g) by (intros (? & ? & _) Hl; by apply Hl).
  cbn zeta in H. rewrite Z.le_ngt. destruct (phase _), (exposed _); naive_solver.
Qed.

(** A Gateway is reported as ready for routes only on the strength of a Gateway
    that has just been read: the admin's, or one of ours that is not refused and
    reachable through cluster-routable addresses only. *)
Lemma ready_gateway_run namespace class startedAt now tr st :
  execs (ensureRouterGateway localClient namespace class startedAt now) tr (Ok st) →
  phase st = routerGatewayReady →
  ∃ g, tr = [Did (Get KGateway (NN namespace defaultGatewayName)) (Ok g)] ∧
       attachable g.
Proof.
  intros Hrun Hready.
  gw_runs Hrun; try done; try (by destruct (missing_class_phase class startedAt now));
    rewrite ?negb_true_iff, ?negb_false_iff in *;
    try (match goal with H : exposed (evaluateRouterGateway _ _) = true |- _ =>
           apply evaluate_exposed in H; naive_solver congruence end);
    try (match goal with H : requestsClusterRoutability ?g = false |- _ =>
           destruct (evaluate_pruned g now H); congruence end).
  - eexists. split; [done|]. intros Hp. by apply bool_decide_eq_false in Heqb.
  - eexists. split; [done|]. intros _. by eapply evaluate_ready.
Qed.

(** The Gateway a run has to delete: one of ours that was read and may be
    exposed, or one it created whose request for cluster routability was lost. *)
Definition sawExposed (o : obs clientE) : Prop :=
  ∃ g, answered KGateway o = Some g ∧
       ((requests VGet KGateway o ∧ provisioned g ∧ takenForExposed g) ∨
        (requests VCreate KGateway o ∧ requestsClusterRoutability g = false)).

Ltac gw_side :=
  rewrite ?negb_true_iff, ?negb_false_iff, ?bool_decide_eq_true in *;
  unfold sawExposed; obs_hyps; unfold gone in *; cbn in *; obs_hyps; simplify_eq/=; try done;
  try solve [eexists; split; [done|by right]];
  try (match goal with H : exposed (evaluateRouterGateway _ _) = true |- _ =>
         apply evaluate_exposed in H as [? ?]; eexists; split; [done|left; split_and!; done] end).
Ltac gw_own_writes :=
  repeat (apply Forall_cons; split); try done; intros k Hw; cbn in Hw; obs_hyps; try done;
  subst; (eexists; split; [apply (f_equal (λ key, Some (_, KGateway, key))); first [reflexivity|eassumption]|auto]).

(** C16: an admin-provided Gateway is never written: when the Gateway that is
    read does not carry the orchestrator's label, that read is the whole run.
    All writes create or delete the router Gateway of the namespace, and one
    that is deleted was read labelled and taken for exposed (the request for
    cluster routability gone, or not refused and programmed with an address that
    is not cluster-routable), or was created in the same run and came back
    without the request for cluster routability. *)
Theorem only_own_gateways_written namespace class startedAt now tr r
  (Hrun : execs (ensureRouterGateway localClient namespace class startedAt now) tr r)
  (Hwa : Forall well_answered tr) :
  (∀ g, answered KGateway <$> head tr = Some (Some g) → ¬ provisioned g →
        length tr = 1%nat ∧ r = Ok readyState) ∧
  preceded sawExposed (requests VDelete KGateway) tr ∧
  Forall (λ o, ∀ k, writes k o →
    (∃ v, request o = Some (v, KGateway, NN namespace defaultGatewayName) ∧ (v = VCreate ∨ v = VDelete))) tr.
Proof.
  gw_runs Hrun; answers_of Hwa;
    (split; [intros g Hg Hp; cbn in Hg; simplify_eq/=|split; [preceded_walk gw_side|gw_own_writes]]); try done.
  all: destruct Hp; by apply negb_false_iff, bool_decide_eq_true in Heqb.
Qed.

(** A Gateway of ours that may be exposed does not survive: when a run
    returns a state for one it has read or created, the Gateway was deleted or
    found absent and the state is a failure. *)
Theorem exposed_gateway_deleted namespace class startedAt now tr st
  (Hrun : execs (ensureRouterGateway localClient namespace class startedAt now) tr (Ok st))
  (Hexp : Exists sawExposed tr) :
  phase st = routerGatewayFailed ∧
  Exists (λ o, ∃ key, request o = Some (VDelete, KGateway, key) ∧ gone o) tr.
Proof.
  gw_runs Hrun; unfold sawExposed in Hexp; rewrite ?Exists_cons, Exists_nil in Hexp; cbn in Hexp;
    obs_hyps; simplify_eq/=; unfold provisioned in *;
    rewrite ?negb_true_iff, ?negb_false_iff, ?bool_decide_eq_true, ?bool_decide_eq_false in *; try done; try congruence;
    try (match goal with H : takenForExposed _ |- _ => apply (evaluate_taken_for_exposed _ now) in H; congruence end).
  all: split; [first [by apply evaluate_pruned|by apply evaluate_exposed]|].
  all: find_obs ltac:(eexists; split; [reflexivity|unfold gone; cbn; done]).
Qed.
End properties.

(** * Witnesses *)

Section witnesses.
#[local] Existing Instance gateway_api_v1.
#[local] Existing Instance ref_conditions.

Definition sample_gateway (addrs : list string) (conds : list Condition)
    (status : list GatewayStatusAddress) : Gateway := {|
  gw_Meta := new_meta "landscape" defaultGatewayName {[ labelProvisionedBy := provisionedByOrchestrator ]};
  gw_ClassName := "istio"; gw_SpecAddresses := addrs; gw_Listeners := [];
  gw_Conditions := conds; gw_StatusAddresses := status |}.
Definition is_programmed : Condition := {|
  c_Type := "Programmed"; c_Status := ConditionTrue; c_Reason := "Programmed"; c_Message := "";
  c_ObservedGeneration := 1; c_LastTransitionTime := None |}.
Definition public_gateway : Gateway :=
  sample_gateway ["Cluster"] [is_programmed] [{| ga_Value := "1.2.3.4"; ga_Routability := None |}].
Definition ensure (s : FakeState) :=
  calls fake (ensureRouterGateway localClient "landscape" "istio" 0 0) s.
Lemma ensure_run s :
  execs (ensureRouterGateway localClient "landscape" "istio" 0 0) (ensure s)
    (run fake (ensureRouterGateway localClient "landscape" "istio" 0 0) s).1.
Proof. apply run_execs. Qed.
Definition with_gateway (g : Gateway) : FakeState := put (k := KGateway) g empty_cluster.

Lemma only_own_gateways_written_witness :
  preceded sawExposed (requests VDelete KGateway) (ensure (with_gateway public_gateway)).
Proof.
  refine (proj1 (proj2 (only_own_gateways_written "landscape" "istio" 0 0 _ _
    (ensure_run (with_gateway public_gateway)) _))).
  apply fake_answers, consistent_put, consistent_empty.
Defined.

Lemma exposed_gateway_deleted_witness :
  Exists (λ o, ∃ key, request o = Some (VDelete, KGateway, key) ∧ gone o) (ensure (with_gateway public_gateway)).
Proof.
  refine (proj2 (exposed_gateway_deleted "landscape" "istio" 0 0 _ (evaluateRouterGateway public_gateway 0)
    (ensure_run (with_gateway public_gateway)) _)).
  apply Exists_cons_hd. exists public_gateway. split; [reflexivity|left; split_and!; try reflexivity; try done].
  right. split; [intros (c & H & _); discriminate H|]. split; [reflexivity|by apply Exists_cons_hd].
Defined.
End witnesses.
End RouterGateway.
