(* ===== verification/RouteRules.v ===== *)
(** The route rules of an activation (buildRouteRules and
    parseGatewayRouteConfig of activation_task_execution_controller.go): one
    header-matched rule per exposed http-k8s-service deployment result. *)
From Stdlib Require Import Sorting.Sorted.
From stdpp Require Import sorting.
From S2P Require Import Prelude GoBytes GoStrings GoSort Objects Client.
Local Open Scope Z_scope.

Module RouteRules.

Definition headerStage : string := "x-konfidence-stage".
Definition headerService : string := "x-konfidence-service".
Definition headerRoutingKey : string := "x-konfidence-routing-key".
Definition annotationExposedPortName : string := "konfidence.cloud/exposed-port-name".
Definition defaultGatewayName : string := "konfidence-router".

(** * Configuration *)

Record gatewayRouteConfig := {
  GatewayName : string;
  GatewayNamespace : string;
  GatewayClassName : string;
  provisionsGateway : bool;
}.

(** The fields [json.Unmarshal] fills in. *)
Record gatewayRouteFields := { gf_Name : string; gf_Namespace : string; gf_ClassName : string }.

Section config.
Context (unmarshalConfig : string → result GoError gatewayRouteFields).

Definition parseGatewayRouteConfig (ate : ActivationTaskExecution) : result GoError gatewayRouteConfig :=
  let raw := ate_Spec ate in
  let fields := if negb (bool_decide (raw = "")) then unmarshalConfig raw
                else Ok {| gf_Name := ""; gf_Namespace := ""; gf_ClassName := "" |} in
  match fields with
  | Err err => Err (EWrap "parse gateway-route config" err)
  | Ok f => Ok {|
      GatewayName := if bool_decide (gf_Name f = "") then defaultGatewayName else gf_Name f;
      GatewayNamespace := gf_Namespace f;
      GatewayClassName := gf_ClassName f;
      provisionsGateway := negb (bool_decide (gf_ClassName f = "")) && bool_decide (gf_Name f = "") &&
                           bool_decide (gf_Namespace f = "") |}
  end.
End config.

(** * Rules *)

Record routeTarget := { tg_name : string; tg_service : string; tg_port : Z }.

Section rules.
Context `{U : Unicode, SS : SortSlice}.
(** [json.Unmarshal] into a [deploymentresult.ServiceSpec]. *)
Context (decodeServiceSpec : string → result GoError ServiceSpec).

(** The body of the inner loop: nothing for a result that is skipped. *)
Definition resultTarget (r : DeploymentResult) : result GoError (option routeTarget) :=
  if negb (bool_decide (dr_Type r = TypeHTTPK8sService)) then Ok None
  else
    match decodeServiceSpec (dr_Spec r) with
    | Err err => Err (EWrap ("decode ServiceSpec for deployment result " +:+ Quote (dr_Name r)) err)
    | Ok spec =>
        if bool_decide (ss_IngressExposedPortName spec = "") then Ok None
        else
          let missing := Err (ENew ("deployment result " +:+ Quote (dr_Name r) +:+
            " references Service port " +:+ Quote (ss_IngressExposedPortName spec) +:+
            ", but the port is missing or not TCP; set Service annotation " +:+
            Quote annotationExposedPortName +:+ " to the name of a TCP port")) in
          match List.find (λ p, bool_decide (sp_Name p = ss_IngressExposedPortName spec)) (ss_ServicePorts spec) with
          | None => missing
          | Some p =>
              if negb (bool_decide (sp_Protocol p = ProtocolTCP)) then missing
              else Ok (Some {| tg_name := dr_Name r; tg_service := ss_K8sName spec; tg_port := sp_Port p |})
          end
    end.

Fixpoint collectTargets (results : list DeploymentResult) : result GoError (list routeTarget) :=
  match results with
  | [] => Ok []
  | r :: rest =>
      t ← resultTarget r;
      ts ← collectTargets rest;
      Ok (match t with Some t => t :: ts | None => ts end)
  end.

Definition ruleFor (stage routingKey : string) (t : routeTarget) : HTTPRouteRule := {|
  rr_Matches := [[{| hh_Name := headerStage; hh_Value := stage |};
                  {| hh_Name := headerService; hh_Value := tg_name t |}]];
  rr_Filters := [{| hf_Set := [{| hh_Name := headerRoutingKey; hh_Value := routingKey |}];
                    hf_Remove := [headerStage; headerService] |}];
  rr_BackendRefs := [{| be_Name := tg_service t; be_Port := Some (tg_port t) |}] |}.

Definition target_less (a b : routeTarget) : bool := string_ltb (tg_name a) (tg_name b).

(** The results in the order the nested loops visit them. *)
Definition allResults (m : ResultsMap) : list DeploymentResult := concat (m.*2).

Definition buildRouteRules (stage : string) (vd : VectorDeployment) : result GoError (list HTTPRouteRule) :=
  targets ← collectTargets (allResults (vdep_DeploymentResults vd));
  Ok (ruleFor stage (om_Name (vdep_Meta vd)) <$> sort_Slice target_less targets).

(** ** Specification *)

(** [r] asks to be routed, as target [t]: it is an http-k8s-service result whose
    payload names an exposed port, and the first port of that name speaks TCP. *)
Definition exposes (r : DeploymentResult) (t : routeTarget) : Prop :=
  dr_Type r = TypeHTTPK8sService ∧
  ∃ spec before p after,
    decodeServiceSpec (dr_Spec r) = Ok spec ∧ ss_IngressExposedPortName spec ≠ "" ∧
    ss_ServicePorts spec = before ++ p :: after ∧
    Forall (λ q, sp_Name q ≠ ss_IngressExposedPortName spec) before ∧
    sp_Name p = ss_IngressExposedPortName spec ∧ sp_Protocol p = ProtocolTCP ∧
    t = {| tg_name := dr_Name r; tg_service := ss_K8sName spec; tg_port := sp_Port p |}.

(** [r] is of another type, or names no port to expose. *)
Definition unrouted (r : DeploymentResult) : Prop :=
  dr_Type r = TypeHTTPK8sService →
  ∃ spec, decodeServiceSpec (dr_Spec r) = Ok spec ∧ ss_IngressExposedPortName spec = "".

(** [r] can be handled: routed, or left out. *)
Definition routable (r : DeploymentResult) : Prop := unrouted r ∨ ∃ t, exposes r t.

(** Gateway API semantics of a rule: one of its matches has all its headers in
    the request with exactly the given values. *)
Definition ruleMatches (headers : gmap string string) (rule : HTTPRouteRule) : Prop :=
  Exists (Forall (λ h, headers !! hh_Name h = Some (hh_Value h))) (rr_Matches rule).
(** The headers a rule passes on: each filter sets its headers and then removes
    the ones it names. *)
Definition forwarded (rule : HTTPRouteRule) (headers : gmap string string) : gmap string string :=
  foldl (λ hs f, foldl (λ hs name, delete name hs) (foldl (λ hs h, <[hh_Name h := hh_Value h]> hs) hs (hf_Set f)) (hf_Remove f))
    headers (rr_Filters rule).
(** What is documented of the rule of a target: it takes the requests for the
    stage and the result, replaces the routing key by the active vector, keeps
    the two headers it matched from the backend, and leads to the result's
    Service port. *)
Record documentedRule (stage vector : string) (t : routeTarget) (rule : HTTPRouteRule) : Prop := {
  dr_matches headers : ruleMatches headers rule ↔
    headers !! "x-konfidence-stage" = Some stage ∧ headers !! "x-konfidence-service" = Some (tg_name t);
  dr_forwards headers : forwarded rule headers =
    <["x-konfidence-routing-key" := vector]> (delete "x-konfidence-stage" (delete "x-konfidence-service" headers));
  dr_backend : rr_BackendRefs rule = [{| be_Name := tg_service t; be_Port := Some (tg_port t) |}];
}.
End rules.

(** * Properties *)

Lemma find_first {A} (f : A → bool) l x :
  List.find f l = Some x ↔ ∃ l1 l2, l = l1 ++ x :: l2 ∧ Forall (λ y, f y = false) l1 ∧ f x = true.
Proof.
  induction l as [|y l IH]; cbn.
  - split; [done|]. by intros ([] & ? & ? & _).
  - destruct (f y) eqn:E.
    + split; [intros [= ->]; by exists [], l|].
      intros ([|z l1] & l2 & ? & Hl & Hx); simplify_eq/=; [done|]. inversion Hl; congruence.
    + rewrite IH. split.
      * intros (l1 & l2 & -> & Hl & Hx). exists (y :: l1), l2. by repeat constructor.
      * intros ([|z l1] & l2 & ? & Hl & Hx); simplify_eq/=; [congruence|]. inversion Hl; eauto 10.
Qed.

Section properties.
Context `{U : Unicode, SS : SortSlice}.
Context (decodeServiceSpec : string → result GoError ServiceSpec).

Abbreviation resultTarget := (resultTarget decodeServiceSpec).
Abbreviation collectTargets := (collectTargets decodeServiceSpec).
Abbreviation exposes := (exposes decodeServiceSpec).
Abbreviation unrouted := (unrouted decodeServiceSpec).
Abbreviation routable := (routable decodeServiceSpec).
Abbreviation buildRouteRules := (buildRouteRules decodeServiceSpec).

Lemma exposes_find r t :
  exposes r t ↔ dr_Type r = TypeHTTPK8sService ∧
  ∃ spec p, decodeServiceSpec (dr_Spec r) = Ok spec ∧ ss_IngressExposedPortName spec ≠ "" ∧
    List.find (λ p, bool_decide (sp_Name p = ss_IngressExposedPortName spec)) (ss_ServicePorts spec) = Some p ∧
    sp_Protocol p = ProtocolTCP ∧
    t = {| tg_name := dr_Name r; tg_service := ss_K8sName spec; tg_port := sp_Port p |}.
Proof.
  unfold RouteRules.exposes. setoid_rewrite find_first. setoid_rewrite bool_decide_eq_true. split.
  - intros (Ht & spec & l1 & p & l2 & Hd & Hn & El & Hl & Hp & Hpr & ->). split; [done|].
    exists spec, p. split_and!; [done|done| |done|done]. exists l1, l2. split_and!; [done| |done].
    eapply Forall_impl; [exact Hl|]. intros q Hq. by apply bool_decide_eq_false.
  - intros (Ht & spec & p & Hd & Hn & (l1 & l2 & El & Hl & Hp) & Hpr & ->). split; [done|].
    exists spec, l1, p, l2. split_and!; [done|done|done| |done|done|done].
    eapply Forall_impl; [exact Hl|]. intros q Hq. by apply bool_decide_eq_false in Hq.
Qed.

Lemma resultTarget_exposes r t : resultTarget r = Ok (Some t) ↔ exposes r t.
Proof.
  rewrite exposes_find. unfold RouteRules.resultTarget.
  case_bool_decide as Ht; cbn; [|split; [done|by intros [? _]]].
  destruct (decodeServiceSpec (dr_Spec r)) as [spec|err]; [|split; [done|by intros (_ & ? & ? & ? & _)]].
  case_bool_decide as Hn; [split; [done|by intros (_ & ? & ? & [= <-] & ? & _)]|].
  destruct (List.find _ _) as [p|] eqn:Ef; [case_bool_decide as Hp; cbn|].
  - split; [intros [= <-]; split; [done|]; by exists spec, p|].
    intros (_ & ? & p' & [= <-] & _ & Hf & _ & ->). by simplify_eq.
  - split; [done|]. intros (_ & ? & p' & [= <-] & _ & Hf & ? & _). by simplify_eq.
  - split; [done|]. intros (_ & ? & p' & [= <-] & _ & Hf & _). by simplify_eq.
Qed.
Lemma resultTarget_unrouted r : resultTarget r = Ok None ↔ unrouted r.
Proof.
  unfold RouteRules.resultTarget, RouteRules.unrouted.
  case_bool_decide as Ht; cbn; [|done].
  destruct (decodeServiceSpec (dr_Spec r)) as [spec|err];
    [|split; [done|intros H; destruct (H Ht) as (? & ? & _); done]].
  case_bool_decide as Hn; [split; [intros _ _; by exists spec|done]|].
  split; [repeat case_match; done|].
  intros H. by destruct (H Ht) as (? & [= <-] & ?).
Qed.

Lemma resultTarget_ok r : is_ok (resultTarget r) = true ↔ routable r.
Proof.
  unfold RouteRules.routable. rewrite <-resultTarget_unrouted. setoid_rewrite <-resultTarget_exposes.
  destruct (resultTarget r) as [[t|]|err]; cbn; split; try done; eauto. by intros [?|[? ?]].
Qed.

(** The target of a result, if it has one. *)
Definition targetOf (r : DeploymentResult) : option routeTarget :=
  match resultTarget r with Ok t => t | Err _ => None end.

(** The targets are those of the exposed results, in order; collecting fails
    exactly when some result can be neither routed nor left out. *)
Lemma collectTargets_spec l ts :
  collectTargets l = Ok ts ↔ Forall routable l ∧ ts = omap targetOf l.
Proof.
  revert ts. induction l as [|r l IH]; intros ts; cbn.
  - split; [intros [= <-]; by split; [constructor|]|by intros [_ ->]].
  - rewrite Forall_cons, <-resultTarget_ok. unfold targetOf.
    rewrite result_bind_Ok. setoid_rewrite result_bind_Ok. setoid_rewrite IH.
    destruct (resultTarget r) as [o|err]; cbn; [|naive_solver]. split.
    + intros (o' & [= <-] & ts' & (Hl & ->) & [= <-]). by destruct o.
    + intros ((_ & Hl) & ->). exists o. split; [done|]. eexists. split; [done|]. by destruct o.
Qed.

Lemma elem_of_targets (l : list DeploymentResult) t : t ∈ omap targetOf l ↔ ∃ r, r ∈ l ∧ exposes r t.
Proof.
  rewrite list_elem_of_omap. unfold targetOf. setoid_rewrite <-resultTarget_exposes.
  f_equiv. intros r. f_equiv. by destruct (resultTarget r) as [[|]|]; naive_solver.
Qed.

Lemma collectTargets_perm l l' ts :
  l ≡ₚ l' → collectTargets l = Ok ts → ∃ ts', collectTargets l' = Ok ts' ∧ ts ≡ₚ ts'.
Proof.
  intros Hp (Hl & ->)%collectTargets_spec. eexists. split.
  - apply collectTargets_spec. split; [by rewrite <-Hp|reflexivity].
  - by rewrite Hp.
Qed.

Lemma targets_sorted ts :
  StronglySorted (λ a b, string_ltb (tg_name b) (tg_name a) = false) (sort_Slice target_less ts).
Proof.
  apply sort_Slice_sorted; unfold target_less.
  - intros a. apply string_ltb_irrefl.
  - intros a b c. apply string_ltb_trans.
  - intros a b c. apply string_ltb_cotrans.
Qed.

(** Sorting by distinct names leaves no freedom. *)
Lemma targets_unique l1 l2 :
  StronglySorted (λ a b, string_ltb (tg_name b) (tg_name a) = false) l1 →
  StronglySorted (λ a b, string_ltb (tg_name b) (tg_name a) = false) l2 →
  NoDup (tg_name <$> l1) → l1 ≡ₚ l2 → l1 = l2.
Proof. apply sorted_keys_unique. Qed.

(** Building the rules fails exactly on a result that is of the routed
    type but whose payload does not decode, or whose exposed port is missing or
    not TCP. *)
Lemma route_rules_ok stage vd :
  is_ok (buildRouteRules stage vd) = true ↔ Forall routable (allResults (vdep_DeploymentResults vd)).
Proof.
  unfold RouteRules.buildRouteRules.
  destruct (collectTargets (allResults (vdep_DeploymentResults vd))) as [ts|err] eqn:E; cbn.
  - by apply collectTargets_spec in E as [Hall _].
  - split; [done|]. intros Hall. assert (Hc : collectTargets (allResults (vdep_DeploymentResults vd)) =
      Ok (omap targetOf (allResults (vdep_DeploymentResults vd)))) by (by apply collectTargets_spec). congruence.
Qed.

Lemma matches_rule headers stage key t :
  ruleMatches headers (ruleFor stage key t) ↔
  headers !! headerStage = Some stage ∧ headers !! headerService = Some (tg_name t).
Proof.
  unfold ruleMatches. cbn. rewrite Exists_cons, Exists_nil, !Forall_cons, Forall_nil. cbn. naive_solver.
Qed.
Lemma rule_documented stage key t : documentedRule stage key t (ruleFor stage key t).
Proof.
  split; [intros headers; exact (matches_rule headers stage key t)| |done].
  intros headers. unfold forwarded. cbn.
  rewrite !(delete_insert_ne _ _ headerRoutingKey) by done. f_equal. apply delete_delete.
Qed.

(** C17: the rules are built exactly when every deployment result can be routed
    or left out (it is of another type, or names no port to expose); they are
    then one rule per exposed result, sorted by result name.  Each rule takes
    the requests that carry the stage and the result's name in the two headers,
    overwrites the routing key with the vector deployment's name, removes the
    two match headers, and leads to the result's Service port. *)
Theorem route_rules_spec stage vd :
  (is_ok (buildRouteRules stage vd) = true ↔ Forall routable (allResults (vdep_DeploymentResults vd))) ∧
  ∀ rules, buildRouteRules stage vd = Ok rules →
  ∃ ts, StronglySorted (λ a b, string_ltb (tg_name b) (tg_name a) = false) ts ∧
        ts ≡ₚ omap targetOf (allResults (vdep_DeploymentResults vd)) ∧
        (∀ t, t ∈ ts ↔ ∃ r, r ∈ allResults (vdep_DeploymentResults vd) ∧ exposes r t) ∧
        Forall2 (documentedRule stage (om_Name (vdep_Meta vd))) ts rules.
Proof.
  split; [apply route_rules_ok|]. intros rules Hrules. unfold RouteRules.buildRouteRules in Hrules.
  apply result_bind_Ok in Hrules as (ts & (Hall & ->)%collectTargets_spec & [= <-]).
  eexists. split_and!; [apply targets_sorted|apply sort_Slice_perm|..].
  - intros t. by rewrite sort_Slice_perm, elem_of_targets.
  - apply Forall2_fmap_r, Forall_Forall2_diag, Forall_true. intros t. apply rule_documented.
Qed.

(** The rules do not depend on the order in which Go visits the
    deployment-result map, provided the exposed results have distinct names. *)
Theorem route_rules_order_independent stage vd vd'
  (Hname : om_Name (vdep_Meta vd) = om_Name (vdep_Meta vd'))
  (Hperm : vdep_DeploymentResults vd ≡ₚ vdep_DeploymentResults vd')
  (Hnd : NoDup (tg_name <$> omap targetOf (allResults (vdep_DeploymentResults vd)))) :
  ∀ rules, buildRouteRules stage vd = Ok rules ↔ buildRouteRules stage vd' = Ok rules.
Proof.
  assert (Hall : allResults (vdep_DeploymentResults vd) ≡ₚ allResults (vdep_DeploymentResults vd'))
    by (unfold allResults; by rewrite Hperm).
  assert (Hts : sort_Slice target_less (omap targetOf (allResults (vdep_DeploymentResults vd))) =
                sort_Slice target_less (omap targetOf (allResults (vdep_DeploymentResults vd')))).
  { apply targets_unique; [apply targets_sorted..|by rewrite sort_Slice_perm|].
    by rewrite !sort_Slice_perm, Hall. }
  intros rules. unfold RouteRules.buildRouteRules. rewrite !result_bind_Ok.
  setoid_rewrite collectTargets_spec. rewrite <-Hname. split.
  - intros (? & (Hf & ->) & [= <-]). eexists. split; [split; [by rewrite <-Hall|done]|]. by rewrite Hts.
  - intros (? & (Hf & ->) & [= <-]). eexists. split; [split; [by rewrite Hall|done]|]. by rewrite Hts.
Qed.


(** A configuration that provisions the Gateway attaches the routes to that
    very Gateway: the default name in the landscape's own namespace. *)
Lemma provisioning_config unmarshal ate config :
  parseGatewayRouteConfig unmarshal ate = Ok config → provisionsGateway config = true →
  GatewayName config = defaultGatewayName ∧ GatewayNamespace config = "" ∧ GatewayClassName config ≠ "".
Proof.
  unfold parseGatewayRouteConfig. intros H Hp. repeat case_match; simplify_eq/=.
  all: rewrite !andb_true_iff, negb_true_iff, !bool_decide_eq_true, bool_decide_eq_false in Hp;
    destruct Hp as [[Hc Hn] Hns]; by rewrite ?bool_decide_eq_true_2.
Qed.
End properties.

(** * Witnesses *)

Section witnesses.
#[local] Existing Instance caseless_unicode.
#[local] Existing Instance ref_sort.

Definition sample_port : ServicePort := {| sp_Name := "http"; sp_Protocol := ProtocolTCP; sp_Port := 8080 |}.
(** Payloads are written as the exposed port name. *)
Definition sample_decodeService (s : string) : result GoError ServiceSpec :=
  Ok {| ss_Namespace := "ns"; ss_K8sName := "svc"; ss_ServicePorts := [sample_port];
        ss_IngressExposedPortName := s |}.
Definition sample_entry (comp name port : string) : string * list DeploymentResult :=
  (comp, [{| dr_Name := name; dr_Type := TypeHTTPK8sService; dr_Spec := port |}]).
Definition sample_vdep (m : ResultsMap) : VectorDeployment :=
  {| vdep_Meta := new_meta "ns" "vector-1" ∅; vdep_DeploymentResults := m |}.
Definition vdep_a : VectorDeployment :=
  sample_vdep [sample_entry "shop" "web" "http"; sample_entry "orders" "api" "http"; sample_entry "db" "db" ""].
Definition vdep_b : VectorDeployment :=
  sample_vdep [sample_entry "orders" "api" "http"; sample_entry "shop" "web" "http"; sample_entry "db" "db" ""].
Definition sample_target (name : string) : routeTarget :=
  {| tg_name := name; tg_service := "svc"; tg_port := 8080 |}.
Definition rules_a : list HTTPRouteRule :=
  [ruleFor "dev" "vector-1" (sample_target "api"); ruleFor "dev" "vector-1" (sample_target "web")].

Lemma build_a : buildRouteRules sample_decodeService "dev" vdep_a = Ok rules_a.
Proof. vm_compute. reflexivity. Qed.

Lemma route_rules_spec_witness : ∃ ts,
  (∀ t, t ∈ ts ↔ ∃ r, r ∈ allResults (vdep_DeploymentResults vdep_a) ∧ exposes sample_decodeService r t) ∧
  Forall2 (documentedRule "dev" "vector-1") ts rules_a.
Proof.
  destruct (proj2 (route_rules_spec sample_decodeService "dev" vdep_a) rules_a build_a) as (ts & _ & _ & H1 & H2).
  exists ts. exact (conj H1 H2).
Defined.

Lemma route_rules_order_independent_witness :
  buildRouteRules sample_decodeService "dev" vdep_a = Ok rules_a ↔
  buildRouteRules sample_decodeService "dev" vdep_b = Ok rules_a.
Proof.
  refine (route_rules_order_independent sample_decodeService "dev" vdep_a vdep_b eq_refl _ _ rules_a).
  - apply Permutation_swap.
  - apply (bool_decide_unpack _). vm_compute. exact I.
Defined.

End witnesses.
End RouteRules.
