(* ===== verification/LandscapeClient.v ===== *)
(** The landscape client provider
    (internal/activationexecution/internal/controller/landscape_client.go):
    which client routes are applied with, how the target of a landscape is
    chosen, and the cache of remote clients. *)
From S2P Require Import Prelude GoBytes GoStrings Objects Client ControllerUtil FakeApi.
Local Open Scope Z_scope.

Module LandscapeClient.

Record LandscapeClientProvider := { lp_Local : KubeClient }.

(** [ClientFor] short-circuits to the control-plane client. *)
Definition ClientFor (p : LandscapeClientProvider) (ns : string) : result GoError KubeClient :=
  Ok (lp_Local p).

Definition controlPlane : LandscapeClientProvider := {| lp_Local := localClient |}.

(** ** Resolving the target of a landscape *)

Section targets.
Context `{KF : Konfidence, MC : MetaConditions, U : Unicode}.

Definition sameConnection (a b : DeploymentTarget) : bool :=
  match dt_Parameters a, dt_Parameters b with
  | Some p, Some q =>
      bool_decide (pa_APIGroup p = pa_APIGroup q) && bool_decide (pa_Kind p = pa_Kind q) &&
      bool_decide (pa_Name p = pa_Name q)
  | _, _ => false
  end.

Definition readyTarget (artifactType : string) (t : DeploymentTarget) : bool :=
  (bool_decide (artifactType = "") || bool_decide (dt_ArtifactType t = artifactType)) &&
  IsStatusConditionTrue (dt_Conditions t) DeploymentTargetReadyCondition.

(** The choice among the listed targets. *)
Definition chooseTarget (ns artifactType : string) (items : list DeploymentTarget) :
    result GoError DeploymentTarget :=
  match List.filter (readyTarget artifactType) items with
  | [] => Err (ENew ("no ready DeploymentTarget in namespace " +:+ Quote ns +:+
                     " for routing (artifactType " +:+ Quote artifactType +:+ ")"))
  | first :: rest =>
      if forallb (sameConnection first) rest then Ok first
      else Err (ENew ("multiple ready DeploymentTargets with different connections in namespace " +:+
                      Quote ns +:+ "; set artifactType in the activation registration spec"))
  end.

Definition resolveTarget (ns artifactType : string) : Prog (result GoError DeploymentTarget) :=
  l ← trigger (List KDeploymentTarget ns SelAll);
  match l with
  | Err e => Ret (Err (EWrap ("list DeploymentTargets in namespace " +:+ Quote ns) (EApi e)))
  | Ok items => Ret (chooseTarget ns artifactType items)
  end.

(** ** The cache of remote clients *)

Definition acceptedKubeconfigKeys : list string := ["value"; "value.yaml"].

Fixpoint kubeconfig_of (keys : list string) (data : gmap string string) : option string :=
  match keys with
  | [] => None
  | k :: keys' => match data !! k with Some d => Some d | None => kubeconfig_of keys' data end
  end.
Definition kubeconfigFromSecret (s : Secret) : result GoError string :=
  match kubeconfig_of acceptedKubeconfigKeys (sec_Data s) with
  | Some d => Ok d
  | None => Err (ENew ("secret " +:+ Quote (om_Name (sec_Meta s)) +:+
                       " contains no kubeconfig: expected one of [value value.yaml]"))
  end.

(** A client is known by the kubeconfig it was built from. *)
Context (RemoteClient : Type).
(** [clientcmd.RESTConfigFromKubeConfig] followed by [client.New]. *)
Context (RestConfig : Type).
Context (restConfigFrom : string → result GoError RestConfig).
Context (newClient : RestConfig → result GoError RemoteClient).

Record cachedClient := { cc_resourceVersion : string; cc_client : RemoteClient }.

Definition remoteClient (cacheKey : string) (s : Secret) (cache : gmap string cachedClient) :
    result GoError RemoteClient * gmap string cachedClient :=
  let build :=
    match kubeconfigFromSecret s with
    | Err err => (Err err, cache)
    | Ok kubeconfig =>
        match restConfigFrom kubeconfig with
        | Err err => (Err (EWrap ("invalid kubeconfig in secret " +:+ Quote (om_Name (sec_Meta s))) err), cache)
        | Ok rc =>
            match newClient rc with
            | Err err => (Err (EWrap ("build client for secret " +:+ Quote (om_Name (sec_Meta s))) err), cache)
            | Ok cl =>
                (Ok cl, <[cacheKey := {| cc_resourceVersion := om_ResourceVersion (sec_Meta s);
                                         cc_client := cl |}]> cache)
            end
        end
    end in
  match cache !! cacheKey with
  | Some cached =>
      if bool_decide (cc_resourceVersion cached = om_ResourceVersion (sec_Meta s))
      then (Ok (cc_client cached), cache)
      else build
  | None => build
  end.
End targets.

(** * Properties *)

Section properties.
Context `{KF : Konfidence, MC : MetaConditions, U : Unicode}.

Lemma sameConnection_spec a b :
  sameConnection a b = true ↔ dt_Parameters a ≠ None ∧ dt_Parameters b = dt_Parameters a.
Proof.
  unfold sameConnection. destruct (dt_Parameters a) as [[g k n]|], (dt_Parameters b) as [[g' k' n']|]; cbn;
    try naive_solver.
  rewrite !andb_true_iff, !bool_decide_eq_true. split; [|naive_solver]. intros [[-> ->] ->]. done.
Qed.

(** The target of a landscape is chosen only when it is unambiguous: it is
    the first ready target of the artifact type asked for, and every other one
    has the same connection.  In particular two ready targets without
    parameters (local ones) are refused. *)
Theorem chosen_target ns artifactType items t :
  chooseTarget ns artifactType items = Ok t ↔
  ∃ rest, List.filter (readyTarget artifactType) items = t :: rest ∧
    (rest ≠ [] → dt_Parameters t ≠ None) ∧ Forall (λ u, dt_Parameters u = dt_Parameters t) rest.
Proof.
  unfold chooseTarget. destruct (List.filter _ items) as [|first rest]; [naive_solver|].
  assert (Hall : forallb (sameConnection first) rest = true ↔
    (rest ≠ [] → dt_Parameters first ≠ None) ∧ Forall (λ u, dt_Parameters u = dt_Parameters first) rest).
  { induction rest as [|u rest IH]; cbn [forallb]; [naive_solver|].
    rewrite andb_true_iff, sameConnection_spec, IH, Forall_cons. naive_solver. }
  destruct (forallb (sameConnection first) rest) eqn:E.
  - split; [intros [= <-]; exists rest; by rewrite <-Hall|]. by intros (? & [= -> ->] & _).
  - split; [done|]. intros (? & [= <- <-] & H). by apply Hall in H.
Qed.

Context {RemoteClient RestConfig : Type}.
Context (restConfigFrom : string → result GoError RestConfig).
Context (newClient : RestConfig → result GoError RemoteClient).

(** [content key rv]: the kubeconfig the Secret behind [key] holds at resource
    version [rv].  A cached client was built from it. *)
Definition coherent (content : string → string → string) (cache : gmap string (cachedClient RemoteClient)) : Prop :=
  map_Forall (λ key c, ∃ rc, restConfigFrom (content key (cc_resourceVersion _ c)) = Ok rc ∧
                             newClient rc = Ok (cc_client _ c)) cache.

(** C24: the client cache is coherent and transparent: whatever the cache, a
    client that is returned was built from the kubeconfig the Secret holds now,
    the cache stays coherent, and asking again for the unchanged Secret returns
    the same client without building one. *)
Theorem remote_client_current content cache key s cl cache'
  (Hco : coherent content cache)
  (Hs : ∀ kc, kubeconfigFromSecret s = Ok kc → kc = content key (om_ResourceVersion (sec_Meta s)))
  (Hrun : remoteClient RemoteClient RestConfig restConfigFrom newClient key s cache = (Ok cl, cache')) :
  coherent content cache' ∧
  (∃ rc, restConfigFrom (content key (om_ResourceVersion (sec_Meta s))) = Ok rc ∧ newClient rc = Ok cl) ∧
  (∀ rcf nc, remoteClient RemoteClient RestConfig rcf nc key s cache' = (Ok cl, cache')).
Proof.
  unfold remoteClient in Hrun. destruct (cache !! key) as [c|] eqn:Ec;
    [case_bool_decide as Erv; [injection Hrun as <- <-|]|].
  { split_and!; [done| |]; [rewrite <-Erv; exact (Hco key c Ec)|].
    intros rcf nc. unfold remoteClient. by rewrite Ec, bool_decide_eq_true_2. }
  all: destruct (kubeconfigFromSecret s) as [kc|] eqn:Ek; [|done];
    destruct (restConfigFrom kc) as [rc|] eqn:Er; [|done];
    destruct (newClient rc) as [cl'|] eqn:En; [|done];
    injection Hrun as <- <-; rewrite (Hs _ eq_refl) in Er.
  all: split_and!; [intros k' c' Hk; apply lookup_insert_Some in Hk as [[<- <-]|[_ Hk]]; [cbn; eauto|by apply Hco]|eauto|].
  all: intros rcf nc; unfold remoteClient; rewrite lookup_insert_eq; cbn; by rewrite bool_decide_eq_true_2.
Qed.
End properties.

Section witnesses.
#[local] Existing Instance caseless_unicode.

Definition sample_secret : Secret := {|
  sec_Meta := stamp_created 0 (new_meta "ns" "kubeconfig" ∅); sec_Data := {[ "value.yaml" := "cluster-a" ]} |}.
Lemma remote_client_current_witness :
  ∃ rc, Ok (E := GoError) "cluster-a" = Ok rc ∧ Ok (E := GoError) rc = Ok "cluster-a".
Proof.
  refine (proj1 (proj2 (remote_client_current (RemoteClient := string) (RestConfig := string) Ok Ok
    (λ _ _, "cluster-a") ∅ "ns/kubeconfig" sample_secret "cluster-a"
    {[ "ns/kubeconfig" := {| cc_resourceVersion := "1"; cc_client := "cluster-a" |} ]} _ _ _))).
  - apply map_Forall_empty.
  - intros kc H. vm_compute in H. congruence.
  - vm_compute. reflexivity.
Defined.
End witnesses.
End LandscapeClient.
