(* ===== verification/Activation.v ===== *)
(** The ActivationTaskExecution controller
    (internal/activationexecution/internal/controller/activation_task_execution_controller.go):
    on activation it maintains the HTTPRoute of a stage.  This file holds the
    operations, ActivationProps.v their properties. *)
From S2P Require Import Prelude GoBytes GoStrings GoSort Objects Client ControllerUtil FakeApi RouterGateway RouteRules LandscapeClient.
Local Open Scope Z_scope.

Module Activation.
Import LandscapeClient RouterGateway RouteRules.

Definition TypeGatewayRoute : string := "gateway-route.konfidence.cloud".
Definition stageRouteFinalizer : string := "konfidence.cloud/gateway-route-cleanup".
Definition stageRouteNamePrefix : string := "konfidence-stage-".
Definition StageRouteName (stage : string) : string := stageRouteNamePrefix +:+ stage.

Definition ate_set_conditions (cs : list Condition) (ate : ActivationTaskExecution) :
    ActivationTaskExecution := {|
  ate_Meta := ate_Meta ate; ate_Type := ate_Type ate; ate_VectorActivation := ate_VectorActivation ate;
  ate_Spec := ate_Spec ate; ate_Conditions := cs |}.
Definition st_set_meta (m : ObjectMeta) (s : Stage) : Stage :=
  {| st_Meta := m; st_ActiveStageVersion := st_ActiveStageVersion s |}.

(** The event filter of [SetupWithManager]. *)
Definition activationTaskExecutionFilter (o : option ActivationTaskExecution) : bool :=
  match o with
  | Some ate => bool_decide (ate_Type ate = TypeGatewayRoute)
  | None => false
  end.

(** [metav1.Time.Before]. *)
Definition time_Before (a b : option Z) : bool := time_of a <? time_of b.

Section controller.
Context `{KF : Konfidence, MC : MetaConditions, FZ : Finalizers, GA : GatewayAPI}.
Context `{U : Unicode, SS : SortSlice, CU : ControllerUtil}.
Context (unmarshalConfig : string → result GoError gatewayRouteFields).
Context (decodeServiceSpec : string → result GoError ServiceSpec).
Context (landscape : LandscapeClientProvider).

Definition isSuperseded (namespace : string) (va : VectorActivation) : Prog (result GoError bool) :=
  s ← trigger (Get KStage (NN namespace (va_Stage va)));
  match s with
  | Err e => if IsNotFound e then Ret (Ok true)
             else Ret (Err (EWrap ("get Stage " +:+ va_Stage va) (EApi e)))
  | Ok stage =>
      match st_ActiveStageVersion stage with
      | None => Ret (Ok false)
      | Some active =>
          if bool_decide (active = va_StageVersion va) then Ret (Ok false)
          else
            m ← trigger (Get KStageVersion (NN namespace (va_StageVersion va)));
            match m with
            | Err e => if IsNotFound e then Ret (Ok true)
                       else Ret (Err (EWrap ("get StageVersion " +:+ va_StageVersion va) (EApi e)))
            | Ok mine =>
                a ← trigger (Get KStageVersion (NN namespace active));
                match a with
                | Err e => if IsNotFound e then Ret (Ok false)
                           else Ret (Err (EWrap ("get active StageVersion " +:+ active) (EApi e)))
                | Ok activeSV =>
                    Ret (Ok (time_Before (om_CreationTimestamp (sv_Meta mine))
                               (om_CreationTimestamp (sv_Meta activeSV))))
                end
            end
      end
  end.

Definition ensureStageFinalizer (namespace stageName : string) : Prog (result GoError ()) :=
  s ← trigger (Get KStage (NN namespace stageName));
  match s with
  | Err e => Ret (Err (EWrap ("get Stage " +:+ stageName) (EApi e)))
  | Ok stage =>
      if ContainsFinalizer (st_Meta stage) stageRouteFinalizer then Ret (Ok ())
      else
        p ← trigger (Patch KStage stage (st_set_meta (AddFinalizer (st_Meta stage) stageRouteFinalizer) stage));
        match p with
        | Err e => Ret (Err (EWrap ("add route finalizer to Stage " +:+ stageName) (EApi e)))
        | Ok _ => Ret (Ok ())
        end
  end.

Definition parentRef (config : gatewayRouteConfig) : ParentReference := {|
  pr_Name := GatewayName config;
  pr_Namespace := if negb (bool_decide (GatewayNamespace config = "")) then Some (GatewayNamespace config)
                  else None |}.

Definition setRouteSpec (config : gatewayRouteConfig) (rules : list HTTPRouteRule) (route : HTTPRoute) :
    HTTPRoute := {|
  rt_Meta := rt_Meta route; rt_ParentRefs := [parentRef config]; rt_Rules := rules |}.

Definition emptyRoute (namespace stage : string) : HTTPRoute := {|
  rt_Meta := new_meta namespace (StageRouteName stage) ∅; rt_ParentRefs := []; rt_Rules := [] |}.

Definition applyStageRoute (c : KubeClient) (namespace stage : string) (config : gatewayRouteConfig)
    (rules : list HTTPRouteRule) : Prog (result GoError ()) :=
  r ← CreateOrUpdate c KHTTPRoute (emptyRoute namespace stage)
        (λ route, Ret (Ok (setRouteSpec config rules route)));
  match r with
  | Err err => Ret (Err (EWrap ("apply HTTPRoute for stage " +:+ stage) err))
  | Ok _ => Ret (Ok ())
  end.

Definition gatewayCondition (ate : ActivationTaskExecution) (t : string) (st : routerGatewayState) : Condition := {|
  c_Type := t; c_Status := ConditionTrue; c_Reason := reason st; c_Message := message st;
  c_ObservedGeneration := om_Generation (ate_Meta ate); c_LastTransitionTime := None |}.

Definition reportRouterGateway (ate : ActivationTaskExecution) (st : routerGatewayState) :
    Prog (ActivationTaskExecution * Result) :=
  if bool_decide (phase st = routerGatewayPending) then
    now ← trigger Now;
    Ret (ate_set_conditions (SetStatusCondition now (ate_Conditions ate)
           (gatewayCondition ate ActivationTaskExecutionInProgress st)) ate,
         {| RequeueAfter := routerGatewayPollInterval |})
  else
    now ← trigger Now;
    _ ← trigger (Eventf (om_key (ate_Meta ate)) EventTypeWarning (reason st) (message st));
    Ret (ate_set_conditions
           (SetStatusCondition now
              (RemoveStatusCondition (ate_Conditions ate) ActivationTaskExecutionInProgress)
              (gatewayCondition ate ActivationTaskExecutionFailed st)) ate,
         no_requeue).

Definition succeededCondition (ate : ActivationTaskExecution) (now : Z) : Condition := {|
  c_Type := ActivationTaskExecutionSucceeded; c_Status := ConditionTrue;
  c_Reason := ActivationTaskExecutionSucceeded;
  c_Message := "Successfully reconciled ActivationTaskExecution " +:+ om_Name (ate_Meta ate);
  c_ObservedGeneration := om_Generation (ate_Meta ate); c_LastTransitionTime := Some now |}.

Definition markSucceeded (ate : ActivationTaskExecution) : Prog ActivationTaskExecution :=
  now ← trigger Now;
  Ret (ate_set_conditions
         (SetStatusCondition now (RemoveStatusCondition (ate_Conditions ate) ActivationTaskExecutionInProgress)
            (succeededCondition ate now)) ate).

(** Every step of [reconcileActivationTaskExecution] returns the execution as
    it has been changed in memory, with the outcome. *)
Definition Step : Type := Prog (ActivationTaskExecution * Outcome).
Definition failed (ate : ActivationTaskExecution) (err : GoError) : Step := Ret (ate, Err err).
Definition succeed (ate : ActivationTaskExecution) : Step :=
  ate' ← markSucceeded ate; Ret (ate', Ok no_requeue).

(** The branch without routable results: the stage's route is removed. *)
Definition removeRoute (namespace : string) (ate : ActivationTaskExecution) (va : VectorActivation) : Step :=
  match ClientFor landscape namespace with
  | Err err => failed ate (EWrap "resolve landscape client" err)
  | Ok c =>
      d ← c _ (Delete KHTTPRoute (NN namespace (StageRouteName (va_Stage va))));
      match d with
      | Err e => if IsNotFound e then succeed ate
                 else failed ate (EWrap ("delete HTTPRoute for stage " +:+ va_Stage va) (EApi e))
      | Ok _ => succeed ate
      end
  end.

(** The last part: the route is applied and the success recorded. *)
Definition publishRoute (c : KubeClient) (namespace : string) (ate : ActivationTaskExecution)
    (va : VectorActivation) (config : gatewayRouteConfig) (rules : list HTTPRouteRule) : Step :=
  a ← applyStageRoute c namespace (va_Stage va) config rules;
  match a with
  | Err err => failed ate err
  | Ok _ =>
      _ ← trigger (Eventf (om_key (ate_Meta ate)) EventTypeNormal "RouteApplied"
                     ("Applied HTTPRoute for stage " +:+ va_Stage va));
      succeed ate
  end.

(** The branch with rules: finalizer, Gateway, route. *)
Definition installRoute (namespace : string) (ate : ActivationTaskExecution) (va : VectorActivation)
    (config : gatewayRouteConfig) (rules : list HTTPRouteRule) : Step :=
  f ← ensureStageFinalizer namespace (va_Stage va);
  match f with
  | Err err => failed ate err
  | Ok _ =>
      match ClientFor landscape namespace with
      | Err err => failed ate (EWrap "resolve landscape client" err)
      | Ok c =>
          if provisionsGateway config then
            now ← trigger Now;
            g ← ensureRouterGateway c namespace (GatewayClassName config)
                  (time_of (om_CreationTimestamp (ate_Meta ate))) now;
            match g with
            | Err err => failed ate err
            | Ok st =>
                if negb (bool_decide (phase st = routerGatewayReady)) then
                  r ← reportRouterGateway ate st; Ret (r.1, Ok r.2)
                else publishRoute c namespace ate va config rules
            end
          else publishRoute c namespace ate va config rules
      end
  end.

Definition reconcileActivationTaskExecution (req : NamespacedName) (ate : ActivationTaskExecution) : Step :=
  if IsStatusConditionTrue (ate_Conditions ate) ActivationTaskExecutionFailed then Ret (ate, Ok no_requeue)
  else
    v ← trigger (Get KVectorActivation (NN (nn_Namespace req) (ate_VectorActivation ate)));
    match v with
    | Err e => failed ate (EWrap "unable to fetch vectorActivation" (EApi e))
    | Ok va =>
        sup ← isSuperseded (nn_Namespace req) va;
        match sup with
        | Err err => failed ate err
        | Ok true => succeed ate
        | Ok false =>
            match parseGatewayRouteConfig unmarshalConfig ate with
            | Err err => failed ate err
            | Ok config =>
                d ← trigger (Get KVectorDeployment (NN (nn_Namespace req) (va_VectorDeployment va)));
                match d with
                | Err e => failed ate (EWrap ("failed to get VectorDeployment " +:+ va_VectorDeployment va) (EApi e))
                | Ok vd =>
                    match buildRouteRules decodeServiceSpec (va_Stage va) vd with
                    | Err err => failed ate err
                    | Ok [] => removeRoute (nn_Namespace req) ate va
                    | Ok rules => installRoute (nn_Namespace req) ate va config rules
                    end
                end
            end
        end
    end.

Definition Reconcile (req : NamespacedName) : Prog Outcome :=
  g ← trigger (Get KActivationTaskExecution req);
  match g with
  | Err e => Ret (IgnoreNotFound e)
  | Ok ate =>
      s ← reconcileActivationTaskExecution req ate;
      if negb (bool_decide (ate_Conditions s.1 = ate_Conditions ate)) then
        p ← trigger (StatusPatch KActivationTaskExecution ate s.1);
        match p with
        | Err patchError =>
            match s.2 with
            | Err err =>
                Ret (Err (EJoin "unable to update activationTaskExecution status" (EApi patchError)
                       (EWrap "an error occurred while reconciling activationTaskExecution" err)))
            | Ok _ => Ret (Err (EWrap "unable to update activationTaskExecution status" (EApi patchError)))
            end
        | Ok _ => Ret s.2
        end
      else Ret s.2
  end.
End controller.
End Activation.
