(* ===== verification/ActivationProps.v ===== *)
(** Properties of the ActivationTaskExecution controller: which calls a run
    makes, in which order, and what it leaves in the status, whatever the API
    server answers. *)
From S2P Require Import Prelude GoBytes GoStrings GoSort Objects Client ControllerUtil FakeApi.
From S2P Require Import RouterGateway RouteRules LandscapeClient Activation.
Import RouterGateway RouteRules LandscapeClient Activation.
Local Open Scope Z_scope.

(** * Reading the runs *)

(** The call stores a route. *)
Definition appliesRoute (o : obs clientE) : Prop :=
  requests VCreate KHTTPRoute o ∨ requests VUpdate KHTTPRoute o.

(** The Stage was seen carrying the route finalizer. *)
Definition sawStageFinalizer (ns stage : string) : obs clientE → Prop :=
  sawGuard KStage stageRouteFinalizer (NN ns stage).

Definition stageVersionsRead (tr : list (obs clientE)) : list StageVersion := omap (answered KStageVersion) tr.

(** A Stage that is written carries the route finalizer. *)
Definition keepsStageFinalizer (o : obs clientE) : Prop :=
  ∀ s, sent KStage o = Some s → ContainsFinalizer (st_Meta s) stageRouteFinalizer = true.
(** Neither a StageVersion that was read, nor a write to the execution, nor one
    that takes the finalizer off a Stage. *)
Definition aside (o : obs clientE) : Prop :=
  answered KStageVersion o = None ∧ ¬ writes KActivationTaskExecution o ∧ keepsStageFinalizer o.

Lemma applies_writes o : appliesRoute o → writes KHTTPRoute o.
Proof.
  unfold appliesRoute, requests, writes. destruct (request o) as [[[v k] key]|]; [|tauto].
  by intros [[-> ->]|[-> ->]].
Qed.
Lemma reads_no_routes l : Forall reads l → Forall (λ o, ¬ appliesRoute o) l.
Proof.
  intros H. eapply Forall_impl; [exact H|]. intros o Ho Ha. by apply (Ho KHTTPRoute), applies_writes.
Qed.

Lemma versions_app a b : stageVersionsRead (a ++ b) = stageVersionsRead a ++ stageVersionsRead b.
Proof. apply omap_app. Qed.
Lemma aside_versions l : Forall aside l → stageVersionsRead l = [].
Proof.
  unfold stageVersionsRead. induction l as [|o l IH]; [done|]. intros [[Ho _] Hl]%Forall_cons.
  cbn. rewrite Ho. by apply IH.
Qed.
Ltac aside_walk :=
  repeat (apply Forall_cons; split); try done;
  (split; [done|split; [intro; cbn in *; obs_hyps; done|intros ?; cbn; intros; simplify_eq/=; try apply contains_add_finalizer]]).

Section properties.
Context `{KF : Konfidence, MC : MetaConditions, FZ : Finalizers, GA : GatewayAPI}.
Context `{U : Unicode, SS : SortSlice, CU : ControllerUtil}.
Context (unmarshalConfig : string → result GoError gatewayRouteFields).
Context (decodeServiceSpec : string → result GoError ServiceSpec).

Abbreviation Reconcile := (Reconcile unmarshalConfig decodeServiceSpec controlPlane).
Abbreviation reconcileActivationTaskExecution :=
  (reconcileActivationTaskExecution unmarshalConfig decodeServiceSpec controlPlane).
Abbreviation installRoute := (installRoute controlPlane).
Abbreviation removeRoute := (removeRoute controlPlane).
Abbreviation parseGatewayRouteConfig := (parseGatewayRouteConfig unmarshalConfig).
Abbreviation buildRouteRules := (buildRouteRules decodeServiceSpec).

(** ** Runs of the parts *)

Lemma isSuperseded_reads ns va tr r :
  execs (isSuperseded ns va) tr r → Forall reads tr.
Proof. intros H. unfold isSuperseded in H. exec_steps H; reads_walk. Qed.

(** The evidence on which an execution is skipped. *)
Definition supersededEvidence (ns : string) (va : VectorActivation) (tr : list (obs clientE)) : Prop :=
  Exists (λ o, request o = Some (VGet, KStage, NN ns (va_Stage va)) ∧ ∃ e, outcome o = Some (Err e) ∧ IsNotFound e = true) tr ∨
  Exists (λ o, request o = Some (VGet, KStageVersion, NN ns (va_StageVersion va)) ∧ ∃ e, outcome o = Some (Err e) ∧ IsNotFound e = true) tr ∨
  ∃ mine active, stageVersionsRead tr = [mine; active] ∧
    time_Before (om_CreationTimestamp (sv_Meta mine)) (om_CreationTimestamp (sv_Meta active)) = true.

Lemma isSuperseded_true ns va tr :
  execs (isSuperseded ns va) tr (Ok true) → supersededEvidence ns va tr.
Proof.
  intros H. unfold isSuperseded in H. unfold supersededEvidence. exec_steps H; try done.
  - right; right. eexists _, _. split; [reflexivity|done].
  - right; left. find_obs ltac:(split; [done|by eexists]).
  - left. find_obs ltac:(split; [done|by eexists]).
Qed.

Lemma isSuperseded_false ns va tr mine active :
  execs (isSuperseded ns va) tr (Ok false) → stageVersionsRead tr = [mine; active] →
  time_Before (om_CreationTimestamp (sv_Meta mine)) (om_CreationTimestamp (sv_Meta active)) = false.
Proof. intros H. unfold isSuperseded in H. exec_steps H; try done; cbn; by intros [= <- <-]. Qed.

Lemma ensureStageFinalizer_runs ns stage tr r :
  execs (ensureStageFinalizer ns stage) tr r → Forall well_answered tr →
  Forall (λ o, ¬ appliesRoute o) tr ∧ stageVersionsRead tr = [] ∧
  (r = Ok () → Exists (sawStageFinalizer ns stage) tr).
Proof.
  intros H Hwa. unfold ensureStageFinalizer in H. exec_steps H; answers_of Hwa;
    (split; [repeat (apply Forall_cons; split); try done; intros [Hq|Hq]; cbn in Hq; obs_hyps; done|]);
    (split; [done|]); try done; intros _.
  - find_obs ltac:(eexists; split_and!; done).
  - apply Exists_cons_tl, Exists_cons_hd. exists a0. split_and!; [done|unfold obj_key; cbn; congruence|].
    rewrite (contains_finalizer_same _ (AddFinalizer (st_Meta a) stageRouteFinalizer)) by done.
    apply contains_add_finalizer.
Qed.

Lemma applyStageRoute_runs ns stage config rules tr r :
  execs (applyStageRoute localClient ns stage config rules) tr r → Forall well_answered tr →
  ∃ x, applied KHTTPRoute (emptyRoute ns stage) (setRouteSpec config rules) tr x ∧ is_ok r = is_ok x.
Proof.
  intros H Hwa. unfold applyStageRoute in H. exec_bind H t x H1. apply Forall_app in Hwa as [Hwa _].
  apply create_or_update_pure in H1; [|done|done]. exists x.
  destruct x as [[]|]; exec_steps H; by rewrite app_nil_r.
Qed.

Lemma succeed_runs ate tr res :
  execs (succeed ate) tr res →
  ∃ now, tr = [Did Now now] ∧
    res = (ate_set_conditions
             (SetStatusCondition now (RemoveStatusCondition (ate_Conditions ate) ActivationTaskExecutionInProgress)
                (succeededCondition ate now)) ate, Ok no_requeue).
Proof. intros H. unfold succeed, markSucceeded in H. exec_steps H. by eexists. Qed.

(** ** The whole reconciliation

    The ways a run can go before it comes to the route. *)
Inductive activationRun (req : NamespacedName) (ate : ActivationTaskExecution) :
    list (obs clientE) → ActivationTaskExecution * Outcome → Prop :=
| run_terminal :
    IsStatusConditionTrue (ate_Conditions ate) ActivationTaskExecutionFailed = true →
    activationRun req ate [] (ate, Ok no_requeue)
| run_stopped tr err :
    Forall reads tr → activationRun req ate tr (ate, Err err)
| run_superseded pre va t res :
    Forall reads pre → Exists (λ o, answered KVectorActivation o = Some va) pre →
    supersededEvidence (nn_Namespace req) va pre →
    execs (succeed ate) t res → activationRun req ate (pre ++ t) res
| run_remove pre va vd t res :
    Forall reads pre → Exists (λ o, answered KVectorActivation o = Some va) pre →
    Exists (λ o, answered KVectorDeployment o = Some vd) pre → buildRouteRules (va_Stage va) vd = Ok [] →
    (∀ mine active, stageVersionsRead pre = [mine; active] →
       time_Before (om_CreationTimestamp (sv_Meta mine)) (om_CreationTimestamp (sv_Meta active)) = false) →
    execs (removeRoute (nn_Namespace req) ate va) t res → activationRun req ate (pre ++ t) res
| run_install pre va vd config rules t res :
    Forall reads pre → Exists (λ o, answered KVectorActivation o = Some va) pre →
    Exists (λ o, answered KVectorDeployment o = Some vd) pre →
    (∀ mine active, stageVersionsRead pre = [mine; active] →
       time_Before (om_CreationTimestamp (sv_Meta mine)) (om_CreationTimestamp (sv_Meta active)) = false) →
    parseGatewayRouteConfig ate = Ok config →
    buildRouteRules (va_Stage va) vd = Ok rules → rules ≠ [] →
    execs (installRoute (nn_Namespace req) ate va config rules) t res →
    activationRun req ate (pre ++ t) res.

(** The calls before the route: the activation, the supersession check [ts]
    and the vector deployment. *)
Definition preamble (req : NamespacedName) (ate : ActivationTaskExecution) (va : VectorActivation)
    (ts : list (obs clientE)) (d : result ApiError VectorDeployment) : list (obs clientE) :=
  Did (Get KVectorActivation (NN (nn_Namespace req) (ate_VectorActivation ate))) (Ok va) ::
  ts ++ [Did (Get KVectorDeployment (NN (nn_Namespace req) (va_VectorDeployment va))) d].

Lemma preamble_reads req ate va ts d : Forall reads ts → Forall reads (preamble req ate va ts d).
Proof.
  intros H. apply Forall_cons. split; [intros ? ?; cbn in *; obs_hyps; done|].
  apply Forall_app. split; [done|reads_walk].
Qed.
Lemma preamble_versions req ate va ts d : stageVersionsRead (preamble req ate va ts d) = stageVersionsRead ts.
Proof. unfold preamble, stageVersionsRead. cbn. rewrite omap_app. by destruct d; cbn; rewrite app_nil_r. Qed.

Lemma route_runs req ate va ts vd config t res :
  execs (isSuperseded (nn_Namespace req) va) ts (Ok false) → parseGatewayRouteConfig ate = Ok config →
  execs match buildRouteRules (va_Stage va) vd with
        | Err err => failed ate err
        | Ok [] => removeRoute (nn_Namespace req) ate va
        | Ok rules => installRoute (nn_Namespace req) ate va config rules
        end t res →
  activationRun req ate (preamble req ate va ts (Ok vd) ++ t) res.
Proof.
  intros Hs Ec H. pose proof (preamble_reads req ate va ts (Ok vd) (isSuperseded_reads _ _ _ _ Hs)) as Hr.
  assert (Hva : Exists (λ o, answered KVectorActivation o = Some va) (preamble req ate va ts (Ok vd))) by (by left).
  assert (Hn : ∀ mine active, stageVersionsRead (preamble req ate va ts (Ok vd)) = [mine; active] →
       time_Before (om_CreationTimestamp (sv_Meta mine)) (om_CreationTimestamp (sv_Meta active)) = false)
    by (intros mine active; rewrite preamble_versions; by eapply isSuperseded_false).
  assert (Hvd : Exists (λ o, answered KVectorDeployment o = Some vd) (preamble req ate va ts (Ok vd)))
    by (apply Exists_cons_tl, Exists_app; right; by left).
  destruct (buildRouteRules (va_Stage va) vd) as [[|rule rules]|err] eqn:Er.
  - by eapply run_remove.
  - by eapply run_install.
  - destruct H as [-> ->]. rewrite app_nil_r. by apply run_stopped.
Qed.

Lemma reconcile_runs req ate tr res :
  execs (reconcileActivationTaskExecution req ate) tr res → activationRun req ate tr res.
Proof.
  unfold Activation.reconcileActivationTaskExecution. intros H.
  destruct (IsStatusConditionTrue _ _) eqn:Ef; [cbn in H; destruct H as [-> ->]; by constructor|].
  apply execs_bind in H as (t1 & t2 & v & -> & (x & ? & -> & [-> ->]) & H).
  destruct x as [va|e]; [|destruct H as [-> ->]; apply run_stopped; reads_walk].
  exec_bind H ts sup Hs. pose proof (isSuperseded_reads _ _ _ _ Hs) as Hrs. rewrite app_assoc.
  assert (Hva : Forall reads (Did (Get KVectorActivation (NN (nn_Namespace req) (ate_VectorActivation ate))) (Ok va) :: ts))
    by (apply Forall_cons; split; [intros ? ?; cbn in *; obs_hyps; done|done]).
  destruct sup as [[|]|err]; [| |destruct H as [-> ->]; rewrite app_nil_r; by apply run_stopped].
  - eapply run_superseded; [done|by left| |done].
    apply isSuperseded_true in Hs. unfold supersededEvidence in *. cbn [app]. rewrite !Exists_cons. tauto.
  - destruct (parseGatewayRouteConfig ate) as [config|err] eqn:Ec;
      [|destruct H as [-> ->]; rewrite app_nil_r; by apply run_stopped].
    apply execs_bind in H as (t3 & t4 & d & -> & (y & ? & -> & [-> ->]) & H).
    rewrite app_assoc. change (activationRun req ate (preamble req ate va ts y ++ t4) res).
    destruct y as [vd|e]; [by eapply route_runs|].
    destruct H as [-> ->]. rewrite app_nil_r. apply run_stopped. by apply preamble_reads.
Qed.

(** The runs of the branch with rules, up to the route. *)
Inductive installRun (ns : string) (ate : ActivationTaskExecution) (va : VectorActivation)
    (config : gatewayRouteConfig) (rules : list HTTPRouteRule) :
    list (obs clientE) → ActivationTaskExecution * Outcome → Prop :=
| inst_failed tr err :
    Forall (λ o, ¬ appliesRoute o) tr → installRun ns ate va config rules tr (ate, Err err)
| inst_waiting t t' st res :
    Forall (λ o, ¬ appliesRoute o) t → phase st ≠ routerGatewayReady →
    execs (reportRouterGateway ate st) t' res →
    installRun ns ate va config rules (t ++ t') (res.1, Ok res.2)
| inst_published t t' res :
    Forall (λ o, ¬ appliesRoute o) t →
    Exists (sawStageFinalizer ns (va_Stage va)) t →
    (provisionsGateway config = true →
     Exists (λ o, ∃ g, request o = Some (VGet, KGateway, NN ns RouterGateway.defaultGatewayName) ∧
                       answered KGateway o = Some g ∧ attachable g) t) →
    execs (publishRoute localClient ns ate va config rules) t' res →
    installRun ns ate va config rules (t ++ t') res.

Lemma ensureRouterGateway_no_route ns class st now tr r :
  execs (ensureRouterGateway localClient ns class st now) tr r → Forall (λ o, ¬ appliesRoute o) tr.
Proof.
  intros H. unfold ensureRouterGateway, createRouterGateway, deleteGateway in H. exec_steps H; repeat (apply Forall_cons; split); try done;
    intros [Hq|Hq]; cbn in Hq; obs_hyps; done.
Qed.

Lemma install_runs ns ate va config rules tr res :
  execs (installRoute ns ate va config rules) tr res → Forall well_answered tr →
  installRun ns ate va config rules tr res.
Proof.
  unfold Activation.installRoute. intros H Hwa.
  exec_bind H tf f Hf. apply Forall_app in Hwa as [Hwf Hwa].
  destruct (ensureStageFinalizer_runs _ _ _ _ Hf Hwf) as (Hnf & _ & Hsf).
  destruct f as [[]|err]; [|destruct H as [-> ->]; rewrite app_nil_r; by constructor].
  specialize (Hsf eq_refl). cbn [ClientFor controlPlane lp_Local] in H.
  destruct (provisionsGateway config) eqn:Ep; [|by eapply inst_published; [..|congruence|done]].
  apply execs_bind in H as (t1 & t2 & now & -> & (x & ? & -> & [-> ->]) & H).
  exec_bind H tg g Hg. pose proof (ensureRouterGateway_no_route _ _ _ _ _ _ Hg) as Hng.
  rewrite !app_assoc.
  assert (Hn : Forall (λ o, ¬ appliesRoute o) ((tf ++ [Did Now x]) ++ tg)).
  { rewrite !Forall_app. split_and!; [done| |done]. constructor; [|done]. by intros [[]|[]]. }
  destruct g as [st|err]; [|destruct H as [-> ->]; rewrite app_nil_r; by constructor].
  case_bool_decide as Eph; cbn [negb] in H.
  - eapply inst_published; [done|rewrite !Exists_app; auto| |done]. intros _.
    destruct (ready_gateway_run _ _ _ _ _ _ Hg Eph) as (gw & -> & Hgw).
    apply Exists_app. right. left. by exists gw.
  - apply execs_bind in H as (t3 & t4 & res' & -> & Hrep & [-> ->]). rewrite app_nil_r.
    by eapply inst_waiting.
Qed.

Lemma publish_runs ns ate va config rules tr res :
  execs (publishRoute localClient ns ate va config rules) tr res → Forall well_answered tr →
  ∃ ta tb x, tr = ta ++ tb ∧ Forall reads tb ∧
    applied KHTTPRoute (emptyRoute ns (va_Stage va)) (setRouteSpec config rules) ta x ∧
    (is_ok x = false → ∃ err, res = (ate, Err err)) ∧
    (is_ok x = true → ∃ t, execs (succeed ate) t res).
Proof.
  unfold publishRoute. intros H Hwa. exec_bind H ta a Ha. apply Forall_app in Hwa as [Hwa _].
  destruct (applyStageRoute_runs _ _ _ _ _ _ Ha Hwa) as (x & Hx & Eok).
  destruct a as [[]|err]; cbn in Eok.
  - apply execs_bind in H as (t1 & t2 & u & -> & (y & ? & -> & [-> ->]) & H).
    eexists ta, _, x. split_and!; [done| |done|by destruct x|eauto].
    destruct (succeed_runs _ _ _ H) as (now & -> & _). reads_walk.
  - destruct H as [-> ->]. exists ta, [], x. split_and!; [done|constructor|done|eauto|by destruct x].
Qed.

Lemma outer_runs req tr r :
  execs (Reconcile req) tr r →
  (∃ e, tr = [Did (Get KActivationTaskExecution req) (Err e)] ∧ r = IgnoreNotFound e) ∨
  ∃ ate t res p, tr = Did (Get KActivationTaskExecution req) (Ok ate) :: t ++ p ∧
    activationRun req ate t res ∧
    ((p = [] ∧ ate_Conditions res.1 = ate_Conditions ate ∧ r = res.2) ∨
     ∃ x, p = [Did (StatusPatch KActivationTaskExecution ate res.1) x] ∧
          ate_Conditions res.1 ≠ ate_Conditions ate ∧ (is_ok x = true → r = res.2) ∧ (is_ok x = false → is_ok r = false)).
Proof.
  unfold Activation.Reconcile. intros H.
  apply execs_bind in H as (t1 & t2 & g & -> & (x & ? & -> & [-> ->]) & H).
  destruct x as [ate|e]; [|destruct H as [-> ->]; left; by eexists].
  right. exec_bind H t res Hres. apply reconcile_runs in Hres. eexists ate, t, res, _.
  split; [reflexivity|]. split; [done|].
  case_bool_decide as Ec; cbn [negb] in H; [destruct H as [-> ->]; by left|].
  right. apply execs_bind in H as (t3 & t4 & y & -> & (z & ? & -> & [-> ->]) & H).
  exists z. destruct z as [o|e]; [destruct H as [-> ->]; by split_and!|].
  destruct res as [ate' [|]]; destruct H as [-> ->]; by split_and!.
Qed.

(** The route [o] stores, and what the run had established by then in [before]. *)
Record routeApplied (req : NamespacedName) (tr before : list (obs clientE)) (o : obs clientE)
    (ate : ActivationTaskExecution) (va : VectorActivation) (config : gatewayRouteConfig) : Prop := {
  ra_ate : answered KActivationTaskExecution <$> head tr = Some (Some ate);
  ra_va : Exists (λ o, answered KVectorActivation o = Some va) before;
  ra_config : parseGatewayRouteConfig ate = Ok config;
  ra_route : ∃ vd rules base v,
    Exists (λ o, answered KVectorDeployment o = Some vd) before ∧
    buildRouteRules (va_Stage va) vd = Ok rules ∧ rules ≠ [] ∧
    request o = Some (v, KHTTPRoute, NN (nn_Namespace req) (StageRouteName (va_Stage va))) ∧
    sent KHTTPRoute o = Some (setRouteSpec config rules base);
  ra_finalizer : Exists (sawStageFinalizer (nn_Namespace req) (va_Stage va)) before;
  ra_gateway : provisionsGateway config = true →
    Exists (λ o, ∃ g, request o = Some (VGet, KGateway, NN (nn_Namespace req) RouterGateway.defaultGatewayName) ∧
                      answered KGateway o = Some g ∧ attachable g) before;
}.

Lemma install_applies ns ate va config rules t res l1 o l2 :
  installRun ns ate va config rules t res → Forall well_answered t → t = l1 ++ o :: l2 → appliesRoute o →
  (∃ v base, request o = Some (v, KHTTPRoute, NN ns (StageRouteName (va_Stage va))) ∧
             sent KHTTPRoute o = Some (setRouteSpec config rules base)) ∧
  Exists (sawStageFinalizer ns (va_Stage va)) l1 ∧
  (provisionsGateway config = true →
    Exists (λ o, ∃ g, request o = Some (VGet, KGateway, NN ns RouterGateway.defaultGatewayName) ∧
                      answered KGateway o = Some g ∧ attachable g) l1).
Proof.
  intros [t' err Hn|t1 t2 st res' Hn Hph Hrep|t1 t2 res' Hn Hfin Hgw Hpub] Hwa E Ho.
  - rewrite Forall_forall in Hn. destruct (Hn o); [|done]. rewrite E. apply elem_of_mid.
  - apply (split_after appliesRoute) in E as (l & -> & E); [|done|done].
    unfold reportRouterGateway in Hrep. exec_steps Hrep; exfalso.
    all: repeat (destruct l as [|? l]; simplify_eq/=; try (by destruct Ho as [[]|[]])).
  - apply (split_after appliesRoute) in E as (l & -> & E); [|done|done].
    apply Forall_app in Hwa as [_ Hwa].
    destruct (publish_runs _ _ _ _ _ _ _ Hpub Hwa) as (ta & tb & x & -> & Hr & Ha & _ & _).
    apply Forall_app in Hwa as [Hwa _]. apply applied_writes in Ha; [|done|done].
    split; [|split; [apply Exists_app; by left|intros Hp; apply Exists_app; left; by apply Hgw]].
    assert (Ho' : o ∈ ta ++ tb) by (rewrite E; apply elem_of_mid). apply elem_of_app in Ho' as [Ho'|Ho'].
    + rewrite Forall_forall in Ha. destruct (Ha _ Ho' KHTTPRoute) as (_ & v & base & _ & Hreq & Hs);
        [by apply applies_writes|]. by exists v, base.
    + rewrite Forall_forall in Hr. destruct (Hr _ Ho' KHTTPRoute). by apply applies_writes.
Qed.

Lemma remove_no_route ns ate va t res :
  execs (removeRoute ns ate va) t res → Forall (λ o, ¬ appliesRoute o) t.
Proof.
  unfold Activation.removeRoute, succeed, markSucceeded. cbn. intros H. exec_steps H;
    repeat (apply Forall_cons; split); try done; intros [Hq|Hq]; cbn in Hq; obs_hyps; done.
Qed.

(** A route is stored only after everything above has been established. *)
Lemma reconcile_applies req tr r before o after :
  execs (Reconcile req) tr r → Forall well_answered tr → tr = before ++ o :: after → appliesRoute o →
  ∃ ate va config, routeApplied req tr before o ate va config.
Proof.
  intros Hrun Hwa E Ho. destruct (outer_runs _ _ _ Hrun) as [(e & -> & _)|(ate & t & res & p & -> & Hact & Hp)].
  { destruct before as [|? []]; simplify_eq/=. by destruct Ho as [[]|[]]. }
  assert (Hpr : Forall (λ o, ¬ appliesRoute o) p).
  { destruct Hp as [(-> & _)|(x & -> & _)]; repeat constructor. intros [[]|[]]; done. }
  change (?x :: ?l ++ p) with ([x] ++ l ++ p) in E.
  apply (split_after appliesRoute) in E as (b & -> & E); [|constructor; [by intros [[]|[]]|done]|done].
  apply Forall_cons in Hwa as [_ Hwa]. apply Forall_app in Hwa as [Hwa _].
  assert (Hnot : ¬ Forall (λ o, ¬ appliesRoute o) t).
  { intros Hn. assert (Hall : Forall (λ o, ¬ appliesRoute o) (t ++ p)) by (by apply Forall_app).
    rewrite E, Forall_forall in Hall. apply (Hall o); [apply elem_of_mid|done]. }
  destruct Hact as [Hf|tr' err Hr|pre va t' res Hr Hva Hs Ht|pre va vd t' res Hr Hva Hvd Hb Hs Ht
    |pre va vd config rules t' res Hr Hva Hvd Hs Hc Hb Hne Ht].
  - destruct Hnot. constructor.
  - destruct Hnot. by apply reads_no_routes.
  - destruct Hnot. apply Forall_app. split; [by apply reads_no_routes|].
    destruct (succeed_runs _ _ _ Ht) as (now & -> & _). apply reads_no_routes. reads_walk.
  - destruct Hnot. apply Forall_app. split; [by apply reads_no_routes|]. by eapply remove_no_route.
  - rewrite <-app_assoc in E. apply (split_after appliesRoute) in E as (l & -> & E);
      [|by apply reads_no_routes|done].
    apply Forall_app in Hwa as [_ Hwa].
    assert (∃ l2, t' = l ++ o :: l2) as [l2 El].
    { apply app_eq_app in E as (k & [[E1 E2]|[E1 E2]]).
      - destruct k as [|y k]; simplify_eq/=; [|by exists k].
        rewrite Forall_forall in Hpr. destruct (Hpr o); [by left|done].
      - rewrite Forall_forall in Hpr. destruct (Hpr o); [rewrite E2; apply elem_of_mid|done]. }
    destruct (install_applies _ _ _ _ _ _ _ _ _ _ (install_runs _ _ _ _ _ _ _ Ht Hwa) Hwa El Ho)
      as ((v & base & Hreq & Hsent) & Hfin & Hgw).
    exists ate, va, config. split; [done|..].
    + rewrite !Exists_app. auto.
    + done.
    + exists vd, rules, base, v. split_and!; try done. rewrite !Exists_app. auto.
    + rewrite !Exists_app. auto.
    + intros Hprov. rewrite !Exists_app. auto.
Qed.

(** A route is stored only for the stage of the VectorActivation that was
    read, under the stage's own name, and only after that Stage was seen with
    the cleanup finalizer; so every route has a controller that removes it. *)
Theorem route_applied_under_finalizer req tr r
  (Hrun : execs (Reconcile req) tr r) (Hwa : Forall well_answered tr) :
  whenever appliesRoute (λ before o,
    ∃ va v, Exists (λ o, answered KVectorActivation o = Some va) before ∧
      request o = Some (v, KHTTPRoute, NN (nn_Namespace req) (StageRouteName (va_Stage va))) ∧
      Exists (sawStageFinalizer (nn_Namespace req) (va_Stage va)) before) tr.
Proof.
  intros before o after E Ho.
  destruct (reconcile_applies _ _ _ _ _ _ Hrun Hwa E Ho) as (ate & va & config & [_ Hva _ (vd & rules & base & v & H) Hf _]).
  exists va, v. naive_solver.
Qed.

(** C11: when the configuration asks the orchestrator to provision the Gateway,
    a route is stored only after the router Gateway of the landscape was read
    and found safe (the admin's, or ours, requested and assigned cluster-routable
    addresses only and not refused by its implementation, though it may not have
    been accepted yet), and the route attaches to that Gateway. *)
Theorem route_needs_safe_gateway req tr r ate config
  (Hrun : execs (Reconcile req) tr r) (Hwa : Forall well_answered tr)
  (Hate : answered KActivationTaskExecution <$> head tr = Some (Some ate))
  (Hconfig : parseGatewayRouteConfig ate = Ok config) (Hprov : provisionsGateway config = true) :
  whenever appliesRoute (λ before o,
    Exists (λ o, ∃ g, request o = Some (VGet, KGateway, NN (nn_Namespace req) RouterGateway.defaultGatewayName) ∧
                      answered KGateway o = Some g ∧ attachable g) before ∧
    ∃ route, sent KHTTPRoute o = Some route ∧
      rt_ParentRefs route = [{| pr_Name := RouterGateway.defaultGatewayName; pr_Namespace := None |}]) tr.
Proof.
  intros before o after E Ho.
  destruct (reconcile_applies _ _ _ _ _ _ Hrun Hwa E Ho)
    as (ate' & va & config' & [Hate' _ Hc' (vd & rules & base & v & _ & _ & _ & _ & Hs) _ Hg]).
  assert (ate' = ate) as -> by congruence. assert (config' = config) as -> by congruence.
  split; [by apply Hg|]. eexists. split; [exact Hs|].
  destruct (provisioning_config _ _ _ Hconfig Hprov) as (Hn & Hns & _). cbn. unfold parentRef.
  by rewrite Hn, Hns, bool_decide_eq_true_2.
Qed.

(** The route that is stored is made of the rules built for the vector
    deployment that was read, which are not empty. *)
Theorem route_carries_rules req tr r
  (Hrun : execs (Reconcile req) tr r) (Hwa : Forall well_answered tr) :
  whenever appliesRoute (λ before o,
    ∃ va vd route, Exists (λ o, answered KVectorActivation o = Some va) before ∧
      Exists (λ o, answered KVectorDeployment o = Some vd) before ∧
      sent KHTTPRoute o = Some route ∧
      buildRouteRules (va_Stage va) vd = Ok (rt_Rules route) ∧ rt_Rules route ≠ []) tr.
Proof.
  intros before o after E Ho.
  destruct (reconcile_applies _ _ _ _ _ _ Hrun Hwa E Ho)
    as (ate & va & config & [_ Hva _ (vd & rules & base & v & Hvd & Hb & Hne & _ & Hs) _ _]).
  by eexists va, vd, _.
Qed.

(** *** What the route branches leave alone *)

Lemma succeed_aside ate t res : execs (succeed ate) t res → Forall aside t.
Proof. intros (now & -> & _)%succeed_runs. aside_walk. Qed.

Lemma remove_aside ns ate va t res : execs (removeRoute ns ate va) t res → Forall aside t.
Proof.
  unfold Activation.removeRoute, succeed, markSucceeded. cbn. intros H. exec_steps H; aside_walk.
Qed.

Lemma publish_aside ns ate va config rules t res :
  execs (publishRoute localClient ns ate va config rules) t res → Forall well_answered t → Forall aside t.
Proof.
  unfold publishRoute. intros H Hwa. exec_bind H ta a Ha. apply Forall_app in Hwa as [Hwa _].
  destruct (applyStageRoute_runs _ _ _ _ _ _ Ha Hwa) as (x & Hx & _).
  apply Forall_app. split; [destruct Hx as [|? []| |? []]; aside_walk|].
  destruct a as [[]|err]; [|destruct H as [-> _]; constructor].
  apply execs_bind in H as (t1 & t2 & u & -> & (y & ? & -> & [-> ->]) & H).
  apply Forall_app. split; [aside_walk|by eapply succeed_aside].
Qed.

Lemma install_aside ns ate va config rules t res :
  execs (installRoute ns ate va config rules) t res → Forall well_answered t → Forall aside t.
Proof.
  unfold Activation.installRoute. intros H Hwa. exec_bind H tf f Hf. apply Forall_app in Hwa as [_ Hwa].
  apply Forall_app. split; [unfold ensureStageFinalizer in Hf; exec_steps Hf; aside_walk|].
  destruct f as [[]|err]; [|destruct H as [-> _]; constructor]. cbn [ClientFor controlPlane lp_Local] in H.
  destruct (provisionsGateway config); [|by eapply publish_aside].
  apply execs_bind in H as (t1 & t2 & now & -> & (x & ? & -> & [-> ->]) & H).
  exec_bind H tg g Hg. rewrite !Forall_app in Hwa. destruct Hwa as (_ & _ & Hwa). rewrite !Forall_app. split_and!.
  - aside_walk.
  - unfold ensureRouterGateway, createRouterGateway, deleteGateway in Hg. exec_steps Hg; aside_walk.
  - destruct g as [st|err]; [|destruct H as [-> _]; constructor].
    case_bool_decide; cbn [negb] in H; [by eapply publish_aside|].
    unfold reportRouterGateway in H. exec_steps H; aside_walk.
Qed.

(** C12: a stale execution never touches the cluster: when the run read the
    StageVersion it activates and a strictly newer active one, the only write it
    can make is the patch of the status of the execution it reconciles, which
    changes nothing but its conditions. *)
Theorem stale_activation_writes_status_only req tr r mine active
  (Hrun : execs (Reconcile req) tr r) (Hwa : Forall well_answered tr)
  (Hread : stageVersionsRead tr = [mine; active])
  (Hstale : time_Before (om_CreationTimestamp (sv_Meta mine)) (om_CreationTimestamp (sv_Meta active)) = true) :
  Forall (λ o, mutates o → request o = Some (VStatusPatch, KActivationTaskExecution, req) ∧
    ∃ ate cs, answered KActivationTaskExecution <$> head tr = Some (Some ate) ∧
      sent KActivationTaskExecution o = Some (ate_set_conditions cs ate)) tr.
Proof.
  destruct (outer_runs _ _ _ Hrun) as [(e & -> & _)|(ate & t & res & p & -> & Hact & Hp)]; [done|].
  apply Forall_cons in Hwa as [Hkey Hwa]. apply Forall_app in Hwa as [Hwa _]. cbn in Hkey.
  assert (Hp2 : stageVersionsRead p = []) by (by destruct Hp as [(-> & _)|([] & -> & _)]).
  change (stageVersionsRead (t ++ p) = [mine; active]) in Hread. rewrite versions_app, Hp2, app_nil_r in Hread.
  cut (Forall reads t ∧ ∃ cs, res.1 = ate_set_conditions cs ate).
  { intros [Hr [cs Hcs]]. assert (Hno : ∀ o, reads o → ¬ mutates o) by (intros o Ho [k Hk]; by destruct (Ho k)).
    apply Forall_cons. split; [intros [k Hk]; cbn in Hk; by destruct Hk|]. apply Forall_app. split.
    - eapply Forall_impl; [exact Hr|]. intros o Ho Hm. by destruct (Hno _ Ho).
    - destruct Hp as [(-> & _)|(x & -> & _)]; constructor; [|constructor]. intros _. rewrite Hcs. cbn. split; [by rewrite <-Hkey|]. eauto. }
  destruct Hact as [Hf|tr' err Hr|pre va t' res Hr Hva Hs Ht|pre va vd t' res Hr Hva Hvd Hb Hs Ht
    |pre va vd config rules t' res Hr Hva Hvd Hs Hc Hb Hne Ht].
  - split; [constructor|]. exists (ate_Conditions ate). by destruct ate.
  - split; [done|]. exists (ate_Conditions ate). by destruct ate.
  - destruct (succeed_runs _ _ _ Ht) as (now & -> & ->). split; [|by eexists]. apply Forall_app. split; [done|reads_walk].
  - apply remove_aside, aside_versions in Ht. rewrite versions_app, Ht, app_nil_r in Hread.
    specialize (Hs _ _ Hread). congruence.
  - apply Forall_app in Hwa as [_ Hwa]. apply install_aside, aside_versions in Ht; [|done].
    rewrite versions_app, Ht, app_nil_r in Hread. specialize (Hs _ _ Hread). congruence.
Qed.

(** ** The status a run leaves *)

(** Waiting for the Gateway, polled again; or finished, one way or the other,
    and no longer in progress. *)
Definition outcomeOk (cs : list Condition) (r : Result) : Prop :=
  (RequeueAfter r = routerGatewayPollInterval ∧
   IsStatusConditionTrue cs ActivationTaskExecutionInProgress = true) ∨
  (r = no_requeue ∧ FindStatusCondition cs ActivationTaskExecutionInProgress = None ∧
   (IsStatusConditionTrue cs ActivationTaskExecutionSucceeded = true ∨
    IsStatusConditionTrue cs ActivationTaskExecutionFailed = true)).

Lemma activation_conditions_ne :
  ActivationTaskExecutionInProgress ≠ ActivationTaskExecutionSucceeded ∧
  ActivationTaskExecutionInProgress ≠ ActivationTaskExecutionFailed ∧
  ActivationTaskExecutionSucceeded ≠ ActivationTaskExecutionFailed.
Proof.
  pose proof activation_conditions_distinct as H. rewrite !NoDup_cons, !elem_of_cons in H. naive_solver.
Qed.

Lemma succeed_outcome ate t res :
  execs (succeed ate) t res → ∃ r, res.2 = Ok r ∧ outcomeOk (ate_Conditions res.1) r ∧
    IsStatusConditionTrue (ate_Conditions res.1) ActivationTaskExecutionSucceeded = true.
Proof.
  intros (now & -> & ->)%succeed_runs. destruct activation_conditions_ne as (Hps & _ & _).
  assert (Hs : IsStatusConditionTrue (SetStatusCondition now
      (RemoveStatusCondition (ate_Conditions ate) ActivationTaskExecutionInProgress) (succeededCondition ate now))
      ActivationTaskExecutionSucceeded = true) by exact (is_true_set_eq _ _ (succeededCondition ate now)).
  eexists. split; [done|]. split; [|done]. right. split; [done|]. split; [|by left]. cbn.
  rewrite find_set_ne by done. apply find_remove_eq.
Qed.

Lemma report_outcome ate st t res :
  execs (reportRouterGateway ate st) t res → phase st ≠ routerGatewayReady →
  outcomeOk (ate_Conditions res.1) res.2 ∧
  (IsStatusConditionTrue (ate_Conditions res.1) ActivationTaskExecutionSucceeded = true →
   IsStatusConditionTrue (ate_Conditions ate) ActivationTaskExecutionSucceeded = true).
Proof.
  intros H Hph. destruct activation_conditions_ne as (Hps & Hpf & Hsf). unfold reportRouterGateway in H. exec_steps H.
  - split; [left; split; [done|]; exact (is_true_set_eq _ _ (gatewayCondition ate _ st))|].
    cbn. by rewrite is_true_set_ne.
  - split; [right; split; [done|]; split|]; cbn.
    + rewrite find_set_ne by done. apply find_remove_eq.
    + right. exact (is_true_set_eq _ _ (gatewayCondition ate _ st)).
    + rewrite is_true_set_ne by done. by rewrite is_true_remove_ne.
Qed.

Lemma publish_outcome ns ate va config rules t res r :
  execs (publishRoute localClient ns ate va config rules) t res → Forall well_answered t → res.2 = Ok r →
  outcomeOk (ate_Conditions res.1) r ∧
  Exists (settled (k := KHTTPRoute) (NN ns (StageRouteName (va_Stage va))) (setRouteSpec config rules)) t.
Proof.
  intros H Hwa Hr. destruct (publish_runs _ _ _ _ _ _ _ H Hwa) as (ta & tb & x & -> & _ & Ha & Hbad & Hgood).
  apply Forall_app in Hwa as [Hwa _].
  destruct (is_ok x) eqn:Ex; [|destruct Hbad as [err ->]; done].
  destruct Hgood as [t Ht]; [done|]. destruct (succeed_outcome _ _ _ Ht) as (r' & Hr' & Ho & _).
  rewrite Hr in Hr'. injection Hr' as <-. split; [done|]. apply Exists_app. left.
  by apply (applied_settled KHTTPRoute (emptyRoute ns (va_Stage va))) in Ha.
Qed.

(** The stage's route is as it should be: the vector deployment that was read
    has routable results and the route is stored with their rules, or it has
    none and the route is gone. *)
Definition routeSettled (ns : string) (ate : ActivationTaskExecution) (va : VectorActivation)
    (tr : list (obs clientE)) : Prop :=
  ∃ vd, Exists (λ o, answered KVectorDeployment o = Some vd) tr ∧
  (buildRouteRules (va_Stage va) vd = Ok [] ∧
   Exists (λ o, request o = Some (VDelete, KHTTPRoute, NN ns (StageRouteName (va_Stage va))) ∧ gone o) tr ∨
   ∃ config rules, parseGatewayRouteConfig ate = Ok config ∧ buildRouteRules (va_Stage va) vd = Ok rules ∧ rules ≠ [] ∧
    Exists (settled (k := KHTTPRoute) (NN ns (StageRouteName (va_Stage va))) (setRouteSpec config rules)) tr).
Lemma settled_more ns ate va l l' : routeSettled ns ate va l → routeSettled ns ate va (l' ++ l).
Proof.
  intros (vd & Hvd & [[Hb Hd]|(config & rules & ? & ? & ? & Hd)]); exists vd; rewrite !Exists_app; (split; [by right|]).
  - left. auto.
  - right. exists config, rules. rewrite !Exists_app. auto.
Qed.
Lemma superseded_more ns va l l' : stageVersionsRead l' = [] → supersededEvidence ns va l → supersededEvidence ns va (l' ++ l).
Proof. unfold supersededEvidence. rewrite !Exists_app, versions_app. intros ->. cbn. tauto. Qed.

Lemma remove_outcome ns ate va t res r :
  execs (removeRoute ns ate va) t res → res.2 = Ok r →
  outcomeOk (ate_Conditions res.1) r ∧
  Exists (λ o, request o = Some (VDelete, KHTTPRoute, NN ns (StageRouteName (va_Stage va))) ∧ gone o) t.
Proof.
  intros H Hr. unfold Activation.removeRoute in H. cbn [ClientFor controlPlane lp_Local] in H.
  apply execs_bind in H as (t1 & t2 & d & -> & (x & ? & -> & [-> ->]) & H).
  assert (Hsucc : execs (succeed ate) t2 res → outcomeOk (ate_Conditions res.1) r).
  { intros (r' & Hr' & Ho & _)%succeed_outcome. congruence. }
  destruct x as [[]|e]; [split; [by apply Hsucc|]; by left|].
  destruct (IsNotFound e) eqn:Ee; [split; [by apply Hsucc|]; by left|].
  destruct H as [-> ->]. done.
Qed.

(** What an error-free reconciliation of an execution that has not failed
    leaves, by branch. *)
Lemma activation_branches req ate t res r :
  activationRun req ate t res → Forall well_answered t → res.2 = Ok r →
  IsStatusConditionTrue (ate_Conditions ate) ActivationTaskExecutionFailed = false →
  outcomeOk (ate_Conditions res.1) r ∧
  (IsStatusConditionTrue (ate_Conditions res.1) ActivationTaskExecutionSucceeded = true →
   IsStatusConditionTrue (ate_Conditions ate) ActivationTaskExecutionSucceeded = true ∨
   ∃ va, Exists (λ o, answered KVectorActivation o = Some va) t ∧
     (supersededEvidence (nn_Namespace req) va t ∨ routeSettled (nn_Namespace req) ate va t)).
Proof.
  intros Hact Hwa Hr Hnf. destruct Hact as [Hf|tr' err Hrd|pre va t' res Hrd Hva Hs Ht|pre va vd t' res Hrd Hva Hvd Hb Hs Ht
    |pre va vd config rules t' res Hrd Hva Hvd Hs Hc Hb Hne Ht]; [congruence|done|..].
  - destruct (succeed_outcome _ _ _ Ht) as (r' & Hr' & Ho & _). assert (r' = r) as -> by congruence.
    split; [done|]. intros _. right. exists va. split; [apply Exists_app; by left|]. left.
    unfold supersededEvidence in *. rewrite !Exists_app, versions_app, (aside_versions t'), app_nil_r by
      (by eapply succeed_aside). tauto.
  - destruct (remove_outcome _ _ _ _ _ _ Ht Hr) as [Ho Hd]. split; [done|]. intros _. right. exists va.
    split; [apply Exists_app; by left|]. right. exists vd. rewrite !Exists_app. split; [by left|]. left. auto.
  - apply Forall_app in Hwa as [_ Hwa].
    destruct (install_runs _ _ _ _ _ _ _ Ht Hwa) as [t'' err Hn|t1 t2 st res' Hn Hph Hrep|t1 t2 res' Hn Hfin Hgw Hpub].
    + done.
    + destruct (report_outcome _ _ _ _ Hrep Hph) as [Ho Hsu]. cbn in Hr. injection Hr as <-. auto.
    + apply Forall_app in Hwa as [_ Hwa]. destruct (publish_outcome _ _ _ _ _ _ _ _ Hpub Hwa Hr) as [Ho Hset].
      split; [done|]. intros _. right. exists va. split; [apply Exists_app; by left|]. right.
      exists vd. rewrite Exists_app. split; [by left|]. right. exists config, rules. rewrite !Exists_app. split_and!; auto.
Qed.

(** Until its status is written, the execution is not, and no Stage loses the
    finalizer. *)
Lemma activation_calls req ate t res :
  activationRun req ate t res → Forall well_answered t →
  Forall (λ o, ¬ writes KActivationTaskExecution o ∧ keepsStageFinalizer o) t.
Proof.
  intros Hact Hwa.
  assert (Hrd : ∀ l, Forall reads l → Forall (λ o, ¬ writes KActivationTaskExecution o ∧ keepsStageFinalizer o) l).
  { intros l Hl. eapply Forall_impl; [exact Hl|]. intros o Ho. split; [apply Ho|].
    intros s Hs. apply sent_writes in Hs. by destruct (Ho KStage). }
  assert (Has : ∀ l, Forall aside l → Forall (λ o, ¬ writes KActivationTaskExecution o ∧ keepsStageFinalizer o) l)
    by (intros l Hl; eapply Forall_impl; [exact Hl|]; by intros o (_ & ? & ?)).
  destruct Hact as [Hf|tr' err Hr|pre va t' res Hr Hva Hs Ht|pre va vd t' res Hr Hva Hvd Hb Hs Ht
    |pre va vd config rules t' res Hr Hva Hvd Hs Hc Hb Hne Ht]; [constructor|by apply Hrd|..];
    apply Forall_app; (split; [by apply Hrd|apply Has]).
  - by eapply succeed_aside.
  - by eapply remove_aside.
  - apply Forall_app in Hwa as [_ Hwa]. by eapply install_aside.
Qed.
Lemma activation_sends req ate t res :
  activationRun req ate t res → Forall well_answered t → Forall (λ o, sent KActivationTaskExecution o = None) t.
Proof.
  intros Hact Hwa. eapply Forall_impl; [exact (activation_calls _ _ _ _ Hact Hwa)|]. intros o [Ho _].
  destruct (sent KActivationTaskExecution o) as [x|] eqn:E; [|done]. by apply sent_writes in E.
Qed.
Lemma reconcile_keeps_finalizers req tr r :
  execs (Reconcile req) tr r → Forall well_answered tr → Forall keepsStageFinalizer tr.
Proof.
  intros Hrun Hwa. destruct (outer_runs _ _ _ Hrun) as [(e & -> & _)|(ate & t & res & p & -> & Hact & Hp)].
  - by repeat constructor.
  - apply Forall_cons in Hwa as [_ Hwa]. apply Forall_app in Hwa as [Hwa _]. constructor; [done|].
    apply Forall_app. split.
    + eapply Forall_impl; [exact (activation_calls _ _ _ _ Hact Hwa)|]. by intros o [_ Ho].
    + destruct Hp as [(-> & _)|(x & -> & _)]; by repeat constructor.
Qed.

(** The shape of an error-free run. *)
Lemma ok_run req tr r ate :
  execs (Reconcile req) tr (Ok r) → Forall well_answered tr →
  answered KActivationTaskExecution <$> head tr = Some (Some ate) →
  ∃ t res p, tr = Did (Get KActivationTaskExecution req) (Ok ate) :: t ++ p ∧ activationRun req ate t res ∧
    Forall well_answered t ∧ res.2 = Ok r ∧
    ((p = [] ∧ ate_Conditions res.1 = ate_Conditions ate) ∨
     ∃ o, p = [Did (StatusPatch KActivationTaskExecution ate res.1) (Ok o)]).
Proof.
  intros Hrun Hwa Hate.
  destruct (outer_runs _ _ _ Hrun) as [(e & -> & _)|(ate' & t & res & p & -> & Hact & Hp)]; [done|].
  cbn in Hate. injection Hate as ->. apply Forall_cons in Hwa as [_ Hwa]. apply Forall_app in Hwa as [Hwa _].
  exists t, res, p. split_and!; [done..| |].
  - destruct Hp as [(_ & _ & E)|([o|e] & _ & _ & E & E')]; [done|symmetry; by apply E|by specialize (E' eq_refl)].
  - destruct Hp as [(? & ? & E)|([o|e] & ? & _ & E & E')]; [by left|right; by exists o|by specialize (E' eq_refl)].
Qed.

(** C14: every error-free run on an execution that has not failed leaves it
    either in progress, to be polled again, or finished: succeeded or failed and
    no longer in progress, with no further poll.  The status that says so is the
    one that was read, and then nothing is patched, or one that was stored. *)
Theorem activation_outcome req tr r ate
  (Hrun : execs (Reconcile req) tr (Ok r)) (Hwa : Forall well_answered tr)
  (Hate : answered KActivationTaskExecution <$> head tr = Some (Some ate))
  (Hnf : IsStatusConditionTrue (ate_Conditions ate) ActivationTaskExecutionFailed = false) :
  ∃ a, outcomeOk (ate_Conditions a) r ∧
    (ate_Conditions a = ate_Conditions ate ∧ Forall (λ o, sent KActivationTaskExecution o = None) tr ∨
     Exists (λ o, requests VStatusPatch KActivationTaskExecution o ∧
                  sent KActivationTaskExecution o = Some a ∧ succeeded o) tr).
Proof.
  destruct (ok_run _ _ _ _ Hrun Hwa Hate) as (t & res & p & -> & Hact & Hwt & Hr & Hp).
  destruct (activation_branches _ _ _ _ _ Hact Hwt Hr Hnf) as [Ho _]. exists res.1. split; [done|].
  destruct Hp as [(-> & E)|(o & ->)].
  - left. split; [done|]. rewrite app_nil_r. constructor; [done|]. by eapply activation_sends.
  - right. apply Exists_cons_tl, Exists_app. right. by left.
Qed.

(** A failed execution is final: a run that reads one makes no other
    call and asks for no requeue. *)
Theorem failed_activation_is_final req tr r ate
  (Hrun : execs (Reconcile req) tr r)
  (Hate : answered KActivationTaskExecution <$> head tr = Some (Some ate))
  (Hf : IsStatusConditionTrue (ate_Conditions ate) ActivationTaskExecutionFailed = true) :
  tr = [Did (Get KActivationTaskExecution req) (Ok ate)] ∧ r = Ok no_requeue.
Proof.
  unfold Activation.Reconcile in Hrun.
  apply execs_bind in Hrun as (t1 & t2 & g & -> & (x & ? & -> & [-> ->]) & H).
  destruct x as [ate'|e]; [|done]. cbn in Hate. injection Hate as ->.
  unfold Activation.reconcileActivationTaskExecution in H. rewrite Hf in H. cbn in H.
  rewrite bool_decide_eq_true_2 in H by done. cbn in H. destruct H as [-> ->]. done.
Qed.

(** A run that ends in an error leaves the execution as it was read. *)
Lemma activation_errs req ate t a err :
  activationRun req ate t (a, Err err) → Forall well_answered t → a = ate.
Proof.
  intros H Hwa. inversion H as [|tr' err' Hr|pre va t' res Hr Hva Hs Ht|pre va vd t' res Hr Hva Hvd Hb Hs Ht
    |pre va vd config rules t' res Hr Hva Hvd Hs Hc Hb Hne Ht]; subst; [done|..].
  - by apply succeed_runs in Ht as (now & _ & [= _ ?]).
  - unfold Activation.removeRoute in Ht. cbn [ClientFor controlPlane lp_Local] in Ht.
    apply execs_bind in Ht as (t1 & t2 & d & -> & (x & ? & -> & [-> ->]) & Ht).
    destruct x as [[]|e]; [by apply succeed_runs in Ht as (now & _ & [= _ ?])|].
    destruct (IsNotFound e); [by apply succeed_runs in Ht as (now & _ & [= _ ?])|]. by destruct Ht as [-> [= -> _]].
  - apply Forall_app in Hwa as [_ Hwa]. apply install_runs in Ht; [|done]. inversion Ht as [| |t1 t2 res' Hn Hfin Hgw Hpub]; subst; [done|].
    apply Forall_app in Hwa as [_ Hwa]. destruct (publish_runs _ _ _ _ _ _ _ Hpub Hwa) as (ta & tb & x & -> & _ & _ & Hbad & Hgood).
    destruct (is_ok x) eqn:Ex; [|destruct Hbad as [err' [= -> _]]; done].
    destruct Hgood as [t' Ht']; [done|]. by apply succeed_runs in Ht' as (now & _ & [= _ ?]).
Qed.

End properties.

(** * Witnesses *)

Section witnesses.
#[local] Existing Instance caseless_unicode.
#[local] Existing Instance sample_konfidence.
#[local] Existing Instance gateway_api_v1.
#[local] Existing Instance ref_conditions.
#[local] Existing Instance ref_finalizers.
#[local] Existing Instance ref_sort.
#[local] Existing Instance ref_controllerutil.

Definition sample_unmarshal (s : string) : result GoError gatewayRouteFields :=
  Ok {| gf_Name := ""; gf_Namespace := ""; gf_ClassName := s |}.
Definition sample_config : gatewayRouteConfig := {|
  GatewayName := RouteRules.defaultGatewayName; GatewayNamespace := ""; GatewayClassName := "istio";
  provisionsGateway := true |}.
Definition activation (cs : list Condition) : ActivationTaskExecution := {|
  ate_Meta := new_meta "landscape" "act-1" ∅; ate_Type := TypeGatewayRoute; ate_VectorActivation := "va-1";
  ate_Spec := "istio"; ate_Conditions := cs |}.
Definition sample_va : VectorActivation := {|
  va_Meta := new_meta "landscape" "va-1" ∅; va_Stage := "dev"; va_StageVersion := "dev-1";
  va_VectorDeployment := "vector-1" |}.
Definition sample_stage (active : option string) : Stage :=
  {| st_Meta := new_meta "landscape" "dev" ∅; st_ActiveStageVersion := active |}.
Definition stage_version (name : string) (created : Z) : StageVersion :=
  {| sv_Meta := stamp_created created (new_meta "landscape" name ∅) |}.
Definition good_gateway : Gateway :=
  sample_gateway ["Cluster"] [is_programmed] [{| ga_Value := "10.0.0.1"; ga_Routability := Some "Cluster" |}].
Definition landscape_vdep : VectorDeployment :=
  {| vdep_Meta := new_meta "landscape" "vector-1" ∅; vdep_DeploymentResults := vdep_DeploymentResults vdep_a |}.
Definition landscape_with (active : option string) (cs : list Condition) : FakeState :=
  put (k := KActivationTaskExecution) (activation cs)
    (put (k := KVectorActivation) sample_va
      (put (k := KStage) (sample_stage active)
        (put (k := KStageVersion) (stage_version "dev-1" 1)
          (put (k := KStageVersion) (stage_version "dev-2" 2)
            (put (k := KVectorDeployment) landscape_vdep
              (put (k := KGateway) good_gateway empty_cluster)))))).
Definition act_req : NamespacedName := NN "landscape" "act-1".
Definition activate := Reconcile sample_unmarshal sample_decodeService controlPlane act_req.
Definition act_calls (s : FakeState) : list (obs clientE) := calls fake activate s.
Lemma act_run s : execs activate (act_calls s) (run fake activate s).1.
Proof. apply run_execs. Qed.
Lemma act_answers active cs : Forall well_answered (act_calls (landscape_with active cs)).
Proof. apply fake_answers. repeat apply consistent_put. apply consistent_empty. Qed.
Definition fresh_run : list (obs clientE) := act_calls (landscape_with None []).
Lemma fresh_run_ok : execs activate fresh_run (Ok no_requeue).
Proof.
  assert (E : (run fake activate (landscape_with None [])).1 = Ok no_requeue) by (vm_compute; reflexivity).
  rewrite <-E. apply act_run.
Qed.

Lemma route_applied_under_finalizer_witness :
  whenever appliesRoute (λ before o,
    ∃ va v, Exists (λ o, answered KVectorActivation o = Some va) before ∧
      request o = Some (v, KHTTPRoute, NN "landscape" (StageRouteName (va_Stage va))) ∧
      Exists (sawStageFinalizer "landscape" (va_Stage va)) before) fresh_run.
Proof. exact (route_applied_under_finalizer _ _ _ _ _ fresh_run_ok (act_answers None [])). Defined.

Lemma route_needs_safe_gateway_witness :
  whenever appliesRoute (λ before o,
    Exists (λ o, ∃ g, request o = Some (VGet, KGateway, NN "landscape" RouterGateway.defaultGatewayName) ∧
                      answered KGateway o = Some g ∧ attachable g) before ∧
    ∃ route, sent KHTTPRoute o = Some route ∧
      rt_ParentRefs route = [{| pr_Name := RouterGateway.defaultGatewayName; pr_Namespace := None |}]) fresh_run.
Proof.
  exact (route_needs_safe_gateway _ _ _ _ _ (activation []) sample_config fresh_run_ok (act_answers None [])
    eq_refl eq_refl eq_refl).
Defined.

Lemma route_carries_rules_witness :
  whenever appliesRoute (λ before o,
    ∃ va vd route, Exists (λ o, answered KVectorActivation o = Some va) before ∧
      Exists (λ o, answered KVectorDeployment o = Some vd) before ∧
      sent KHTTPRoute o = Some route ∧
      buildRouteRules sample_decodeService (va_Stage va) vd = Ok (rt_Rules route) ∧ rt_Rules route ≠ []) fresh_run.
Proof. exact (route_carries_rules _ _ _ _ _ fresh_run_ok (act_answers None [])). Defined.

Lemma stale_activation_writes_status_only_witness :
  Forall (λ o, mutates o → request o = Some (VStatusPatch, KActivationTaskExecution, act_req) ∧
    ∃ ate cs, Some (Some (activation [])) = Some (Some ate) ∧
      sent KActivationTaskExecution o = Some (ate_set_conditions cs ate)) (act_calls (landscape_with (Some "dev-2") [])).
Proof.
  exact (stale_activation_writes_status_only _ _ _ _ _ (stage_version "dev-1" 1) (stage_version "dev-2" 2)
    (act_run (landscape_with (Some "dev-2") [])) (act_answers (Some "dev-2") []) eq_refl eq_refl).
Defined.

Lemma activation_outcome_witness :
  ∃ a, outcomeOk (ate_Conditions a) no_requeue ∧
    (ate_Conditions a = [] ∧ Forall (λ o, sent KActivationTaskExecution o = None) fresh_run ∨
     Exists (λ o, requests VStatusPatch KActivationTaskExecution o ∧
                  sent KActivationTaskExecution o = Some a ∧ succeeded o) fresh_run).
Proof.
  exact (activation_outcome _ _ _ _ _ (activation []) fresh_run_ok (act_answers None []) eq_refl eq_refl).
Defined.


Definition failed_condition : Condition := gatewayCondition (activation []) ActivationTaskExecutionFailed
  (failedState reasonGatewayNotReady "").
Lemma failed_activation_is_final_witness :
  act_calls (landscape_with None [failed_condition]) =
  [Did (Get KActivationTaskExecution act_req) (Ok (activation [failed_condition]))].
Proof.
  exact (proj1 (failed_activation_is_final _ _ _ _ _ (activation [failed_condition])
    (act_run (landscape_with None [failed_condition])) eq_refl eq_refl)).
Defined.
End witnesses.
