(* ===== verification/StageRouteCleanup.v ===== *)
(** The stage-route cleanup controller
    (internal/activationexecution/internal/controller/stage_route_cleanup_controller.go):
    it deletes a stage's HTTPRoute before the Stage goes. *)
From S2P Require Import Prelude GoBytes GoStrings Objects Client ControllerUtil FakeApi RouterGateway RouteRules LandscapeClient Activation.
Local Open Scope Z_scope.

Module StageRouteCleanup.
Import LandscapeClient Activation.

Section controller.
Context `{FZ : Finalizers}.
Context (landscape : LandscapeClientProvider).

Definition deleteStageRoute (namespace stage : string) : Prog (result GoError ()) :=
  match ClientFor landscape namespace with
  | Err err => Ret (Err (EWrap ("resolve landscape client for stage " +:+ stage +:+ " cleanup") err))
  | Ok c =>
      d ← c _ (Delete KHTTPRoute (NN namespace (StageRouteName stage)));
      match d with
      | Err e => if IsNotFound e then Ret (Ok ())
                 else Ret (Err (EWrap ("delete HTTPRoute for stage " +:+ stage) (EApi e)))
      | Ok _ => Ret (Ok ())
      end
  end.

Definition Reconcile (req : NamespacedName) : Prog Outcome :=
  g ← trigger (Get KStage req);
  match g with
  | Err e => Ret (IgnoreNotFound e)
  | Ok stage =>
      if time_IsZero (om_DeletionTimestamp (st_Meta stage)) ||
         negb (ContainsFinalizer (st_Meta stage) stageRouteFinalizer) then done_ok
      else
        d ← deleteStageRoute (nn_Namespace req) (om_Name (st_Meta stage));
        match d with
        | Err err => fail_with err
        | Ok _ =>
            p ← trigger (Patch KStage stage (st_set_meta (RemoveFinalizer (st_Meta stage) stageRouteFinalizer) stage));
            match p with
            | Err e => fail_with (EWrap ("remove route finalizer from Stage " +:+ om_Name (st_Meta stage)) (EApi e))
            | Ok _ => done_ok
            end
        end
  end.
End controller.

(** * Properties *)

(** The call takes the route finalizer off a Stage. *)
Definition dropsStageFinalizer (o : obs clientE) : Prop :=
  requests VPatch KStage o ∧ ∃ s, sent KStage o = Some s ∧ ContainsFinalizer (st_Meta s) stageRouteFinalizer = false.

Section properties.
Context `{FZ : Finalizers}.

Lemma StageRouteName_inj s s' : StageRouteName s = StageRouteName s' → s = s'.
Proof. unfold StageRouteName. apply (inj _). Qed.

Lemma key_name m req : om_key m = req → om_Name m = nn_Name req.
Proof. by intros <-. Qed.

Ltac cleanup_runs H := unfold Reconcile, deleteStageRoute, done_ok, fail_with in H; exec_steps H.

(** What a run of the controller writes: the stage's route is deleted, and then
    the finalizer taken off the Stage. *)
Lemma cleanup_writes req tr r :
  execs (Reconcile controlPlane req) tr r → Forall well_answered tr →
  preceded (λ o, request o = Some (VDelete, KHTTPRoute, NN (nn_Namespace req) (StageRouteName (nn_Name req))) ∧ gone o)
    dropsStageFinalizer tr ∧
  Forall (λ o, ∀ k, writes k o →
    request o = Some (VDelete, KHTTPRoute, NN (nn_Namespace req) (StageRouteName (nn_Name req))) ∨
    request o = Some (VPatch, KStage, req)) tr.
Proof.
  intros Hrun Hwa. cleanup_runs Hrun; answers_of Hwa;
    repeat match goal with H : om_key (st_Meta ?s) = req |- _ => rewrite (key_name _ _ H) end;
    (split; [preceded_walk ltac:(unfold dropsStageFinalizer; obs_side)|]);
    repeat (apply Forall_cons; split); try done; intros k Hw; cbn in Hw; obs_hyps; try done;
    first [left; reflexivity | right; cbn; unfold obj_key; cbn; autorewrite with cond; congruence].
Qed.

(** An error-free run on a Stage under deletion that carries the finalizer
    removes the route and then the finalizer; any other Stage is left alone. *)
Theorem stage_cleanup req tr r stage
  (Hrun : execs (Reconcile controlPlane req) tr (Ok r))
  (Hst : answered KStage <$> head tr = Some (Some stage)) :
  if negb (time_IsZero (om_DeletionTimestamp (st_Meta stage))) &&
     ContainsFinalizer (st_Meta stage) stageRouteFinalizer
  then Exists (λ o, request o = Some (VDelete, KHTTPRoute, NN (nn_Namespace req) (StageRouteName (om_Name (st_Meta stage)))) ∧ gone o) tr ∧
       Exists (λ o, dropsStageFinalizer o ∧ succeeded o) tr
  else tr = [Did (Get KStage req) (Ok stage)].
Proof.
  cleanup_runs Hrun; cbn in Hst; simplify_eq/=;
    try match goal with H : time_IsZero _ || negb _ = _ |- _ =>
          apply (f_equal negb) in H; rewrite negb_orb, negb_involutive in H; rewrite H; cbn end; try done.
  all: split; [find_obs ltac:(split; [reflexivity|unfold gone; cbn; done])|].
  all: find_obs ltac:(split; [split; [done|eexists; split; [reflexivity|apply contains_remove_finalizer]]|done]).
Qed.
End properties.

(** * Witnesses *)

Section witnesses.
#[local] Existing Instance ref_finalizers.

Definition leaving_stage : Stage := {|
  st_Meta := stamp_deleted 5 (om_set_finalizers [stageRouteFinalizer] (new_meta "landscape" "dev" ∅));
  st_ActiveStageVersion := None |}.
Definition leaving_cluster : FakeState := put (k := KStage) leaving_stage empty_cluster.
Definition cleanup_calls := calls fake (Reconcile controlPlane (NN "landscape" "dev")) leaving_cluster.
Lemma cleanup_run : execs (Reconcile controlPlane (NN "landscape" "dev")) cleanup_calls (Ok no_requeue).
Proof.
  assert (E : (run fake (Reconcile controlPlane (NN "landscape" "dev")) leaving_cluster).1 = Ok no_requeue)
    by (vm_compute; reflexivity).
  rewrite <-E. apply run_execs.
Qed.

Lemma stage_cleanup_witness :
  Exists (λ o, request o = Some (VDelete, KHTTPRoute, NN "landscape" "konfidence-stage-dev") ∧ gone o) cleanup_calls ∧
  Exists (λ o, dropsStageFinalizer o ∧ succeeded o) cleanup_calls.
Proof. exact (stage_cleanup _ _ _ leaving_stage cleanup_run eq_refl). Defined.
End witnesses.
End StageRouteCleanup.
