(* ===== verification/StageRoutes.v ===== *)
(** The two controllers of a stage's HTTPRoute together: activations store the
    route under the Stage's finalizer, the cleanup controller removes the route
    and then the finalizer.  Any number of their reconciliations run at the same
    time, interleaved call by call with each other and with other users of the
    cluster. *)
From S2P Require Import Prelude GoBytes GoStrings GoSort Objects Client Histories ControllerUtil FakeApi.
From S2P Require Import RouterGateway RouteRules LandscapeClient Activation ActivationProps StageRouteCleanup.
Import Histories RouterGateway RouteRules LandscapeClient Activation StageRouteCleanup.
Local Open Scope Z_scope.

Module StageRoutes.

(** * Reading a history *)

Abbreviation event := (option nat * obs clientE)%type.

(** The stage's route is stored by the call. *)
Definition storesRoute (ns stage : string) (o : obs clientE) : Prop :=
  appliesRoute o ∧ (∃ v, request o = Some (v, KHTTPRoute, NN ns (StageRouteName stage))) ∧ succeeded o.
(** After the call it is known not to be there. *)
Definition removesRoute (ns stage : string) (o : obs clientE) : Prop :=
  request o = Some (VDelete, KHTTPRoute, NN ns (StageRouteName stage)) ∧ gone o.
(** The Stage is stored without the finalizer. *)
Definition releasesStage (ns stage : string) : obs clientE → Prop :=
  releases KStage stageRouteFinalizer (NN ns stage).

Definition routeStored (ns stage : string) : list event → Prop :=
  since (storesRoute ns stage) (removesRoute ns stage).
Definition stageHeld (ns stage : string) : list event → Prop :=
  since (sawStageFinalizer ns stage) (releasesStage ns stage).

(** The controllers a run belongs to. *)
Inductive role := Activates (req : NamespacedName) | CleansUp (req : NamespacedName).

(** Others neither store the routes of stages nor take the finalizer off a
    Stage: both belong to these controllers. *)
Definition outside (o : obs clientE) : Prop :=
  ∀ ns stage, ¬ storesRoute ns stage o ∧ ¬ releasesStage ns stage o.

(** A cleanup overtook an activation. *)
Definition overtaken (ns stage : string) : list event → Prop :=
  Histories.overtaken (sawStageFinalizer ns stage) (storesRoute ns stage)
    (removesRoute ns stage) (releasesStage ns stage).

Section system.
Context `{KF : Konfidence, MC : MetaConditions, FZ : Finalizers, GA : GatewayAPI}.
Context `{U : Unicode, SS : SortSlice, CU : ControllerUtil}.
Context (unmarshalConfig : string → result GoError gatewayRouteFields).
Context (decodeServiceSpec : string → result GoError ServiceSpec).

Definition program (ρ : role) : Prog Outcome :=
  match ρ with
  | Activates req => Activation.Reconcile unmarshalConfig decodeServiceSpec controlPlane req
  | CleansUp req => StageRouteCleanup.Reconcile controlPlane req
  end.
Abbreviation history := (history program outside).

(** A route comes from an activation that has seen the finalizer, *)
Lemma stored_by_activation h ps h1 c h2 ns stage :
  history h ps → Forall (λ c, well_answered c.2) h → h = h1 ++ c :: h2 → storesRoute ns stage c.2 →
  ∃ i saw o1, c.1 = Some i ∧ h1 !! saw = Some (Some i, o1) ∧ sawStageFinalizer ns stage o1.
Proof.
  intros Hh Hwa Eh Hst. destruct c as [[i|] o]; cbn in *.
  2: { destruct (history_outside_calls _ _ _ _ o Hh) with ns stage as [Hn _]; [rewrite Eh; apply elem_of_mid|done]. }
  destruct (history_run _ _ _ client_answers _ _ _ _ _ _ Hh Hwa Eh) as (ρ & p & after & r & _ & Hrun & Hg).
  destruct Hst as (Ha & (v & Hreq) & _). destruct ρ as [req|req]; cbn in Hrun.
  - destruct (reconcile_applies _ _ _ _ _ _ _ _ Hrun Hg eq_refl Ha)
      as (ate & va & config & [_ _ _ (vd & rules & base & v' & _ & _ & _ & Hreq' & _) Hf _]).
    rewrite Hreq in Hreq'.
    assert (ns = nn_Namespace req ∧ StageRouteName stage = StageRouteName (va_Stage va)) as [-> Hs] by (split; congruence).
    apply StageRouteName_inj in Hs as ->.
    apply callsOf_exists in Hf as (a & o1 & b & -> & Hf). exists i, (length a), o1. by rewrite mid_lookup.
  - destruct (cleanup_writes _ _ _ Hrun Hg) as [_ Hw]. rewrite Forall_forall in Hw.
    destruct (Hw o (elem_of_mid _ _ _) KHTTPRoute (applies_writes _ Ha)) as [E|E];
      rewrite E in Hreq; simplify_eq; unfold appliesRoute, requests in Ha; rewrite E in Ha; naive_solver.
Qed.

(** and the finalizer goes with a cleanup run that has removed the route. *)
Lemma released_by_cleanup h ps h1 c h2 ns stage :
  history h ps → Forall (λ c, well_answered c.2) h → h = h1 ++ c :: h2 → releasesStage ns stage c.2 →
  ∃ j removed o3, c.1 = Some j ∧ h1 !! removed = Some (Some j, o3) ∧ removesRoute ns stage o3.
Proof.
  intros Hh Hwa Eh Hrel. destruct c as [[j|] o]; cbn in *.
  2: { destruct (history_outside_calls _ _ _ _ o Hh) with ns stage as [_ Hn]; [rewrite Eh; apply elem_of_mid|done]. }
  destruct (history_run _ _ _ client_answers _ _ _ _ _ _ Hh Hwa Eh) as (ρ & p & after & r & _ & Hrun & Hg).
  destruct Hrel as (s & Hs & Hk & Hf & _). destruct ρ as [req|req]; cbn in Hrun.
  - pose proof (reconcile_keeps_finalizers _ _ _ _ _ Hrun Hg) as Hkeep. rewrite Forall_forall in Hkeep.
    pose proof (Hkeep o (elem_of_mid _ _ _) s Hs). cbn in Hf. congruence.
  - destruct (cleanup_writes _ _ _ Hrun Hg) as [Hp Hw]. rewrite Forall_forall in Hw.
    destruct (Hw o (elem_of_mid _ _ _) KStage (sent_writes _ _ _ Hs)) as [E|E].
    + apply sent_writes in Hs. unfold writes in Hs. rewrite E in Hs. by destruct Hs.
    + assert (req = NN ns stage) as -> by (rewrite <-Hk; symmetry; by eapply sent_key).
      destruct (callsOf_exists _ _ _ (Hp _ _ _ eq_refl ltac:(split; [unfold requests; by rewrite E|eauto])))
        as (a & o3 & b & -> & H3). exists j, (length a), o3. by rewrite mid_lookup.
Qed.

(** C10: a stored route has a keeper.  In every interleaving of activations and
    cleanups with each other and with other users of the cluster, while the
    route of a stage is stored, its Stage has been seen with the finalizer and
    not been released since, so that it cannot go without a cleanup; unless the
    route that is stored now came too late: its activation saw the finalizer
    before a cleanup took it off and stored the route after that cleanup had
    removed it, and nobody removed the route since. *)
Theorem stored_route_is_held h ps ns stage
  (Hh : history h ps) (Hwa : Forall (λ c, well_answered c.2) h) (Hstored : routeStored ns stage h) :
  stageHeld ns stage h ∨ overtaken ns stage h.
Proof.
  apply (guarded_or_overtaken _ (storesRoute ns stage) (removesRoute ns stage) _); [..|done].
  - intros h1 c h2 Eh Hc. by eapply stored_by_activation.
  - intros h1 c h2 Eh Hc. by eapply released_by_cleanup.
  - intros o ([H|H] & _) [E _]; unfold requests in H; rewrite E in H; by destruct H.
Qed.
End system.

(** * The race *)

Section witnesses.
#[local] Existing Instance caseless_unicode.
#[local] Existing Instance sample_konfidence.
#[local] Existing Instance gateway_api_v1.
#[local] Existing Instance ref_conditions.
#[local] Existing Instance ref_finalizers.
#[local] Existing Instance ref_sort.
#[local] Existing Instance ref_controllerutil.

Definition stage_req : NamespacedName := NN "landscape" "dev".
Definition sample_program : role → Prog Outcome := program sample_unmarshal sample_decodeService.
Definition leaving_landscape : FakeState := put (k := KStage) leaving_stage (landscape_with None []).
(** The activation up to its look at the route, the whole cleanup, and the rest
    of the activation. *)
Definition race := interleave fake (replicate 8 0 ++ replicate 3 1 ++ replicate 5 0)%nat
  (started sample_program [Activates act_req; CleansUp stage_req]) leaving_landscape.
Lemma race_history : history sample_program outside race.1.1 race.1.2.
Proof. exact (interleave_started _ _ fake _ _ _). Qed.
Lemma race_answers : Forall (λ c, well_answered c.2) race.1.1.
Proof.
  apply (interleave_good well_answered fake consistent); [intros X e s; apply fake_call|].
  repeat apply consistent_put. apply consistent_empty.
Qed.

(** The race is real.  An activation that runs while the Stage is being
    deleted stores the route after the cleanup: both runs end without an error,
    the Stage is gone and the route stays, with no finalizer left to remove it. *)
Theorem orphan_route_reachable : ∃ h ps cluster,
  interleave fake (replicate 8 0 ++ replicate 3 1 ++ replicate 5 0)%nat
    (started sample_program [Activates act_req; CleansUp stage_req]) leaving_landscape = (h, ps, cluster) ∧
  history sample_program outside h ps ∧ Forall (λ c, well_answered c.2) h ∧
  ps = [(Activates act_req, Ret (Ok no_requeue)); (CleansUp stage_req, Ret (Ok no_requeue))] ∧
  fs_objects cluster KStage !! stage_req = None ∧
  is_Some (fs_objects cluster KHTTPRoute !! NN "landscape" (StageRouteName "dev")).
Proof.
  exists race.1.1, race.1.2, race.2. split_and!.
  - unfold race. by destruct (interleave _ _ _ _) as [[h ps] s].
  - exact race_history.
  - exact race_answers.
  - vm_compute. reflexivity.
  - vm_compute. reflexivity.
  - vm_compute. by eexists.
Qed.

Lemma stored_at ns stage h h1 c h2 :
  h = h1 ++ c :: h2 → request c.2 = Some (VCreate, KHTTPRoute, NN ns (StageRouteName stage)) →
  outcome c.2 = Some (Ok ()) →
  Some (VDelete, KHTTPRoute, NN ns (StageRouteName stage)) ∉ (λ c, request c.2) <$> h2 → routeStored ns stage h.
Proof.
  intros Eh E Eo Es. exists h1, c, h2. split_and!; [done| |].
  - split; [left; unfold requests; by rewrite E|]. split; [eauto|done].
  - apply Forall_forall. intros c' Hc [Hreq _]. apply Es. rewrite <-Hreq. by apply (list_elem_of_fmap_2 (λ c, request c.2)).
Qed.
Lemma race_stored : routeStored "landscape" "dev" race.1.1.
Proof.
  apply (stored_at _ _ _ (take 11 race.1.1) (default (None, Did Now 0) (race.1.1 !! 11%nat)) (drop 12 race.1.1)).
  - vm_compute. reflexivity.
  - vm_compute. reflexivity.
  - vm_compute. reflexivity.
  - apply (bool_decide_unpack _). vm_compute. exact I.
Qed.
Lemma stored_route_is_held_witness : stageHeld "landscape" "dev" race.1.1 ∨ overtaken "landscape" "dev" race.1.1.
Proof. exact (stored_route_is_held _ _ _ _ "landscape" "dev" race_history race_answers race_stored). Defined.
End witnesses.
End StageRoutes.
