(* ===== verification/FluxUtils.v ===== *)
(** Helpers of the Flux deployer: resource names and labels
    (internal/fluxdeployer/internal/fluxcd/utils/utils.go), and the name suffix,
    registry flags and pull secrets of a deployment
    (internal/fluxdeployer/internal/fluxcd/reconciler/utils.go). *)
From S2P Require Import Prelude GoBytes GoStrings Objects Client.
Local Open Scope Z_scope.

Module FluxUtils.

(** * Resource names *)

Definition lower_alnum (r : Z) : bool := in_range 97 122 r || in_range 48 57 r.
(** The class [[a-z0-9-]]. *)
Definition name_rune (r : Z) : bool := lower_alnum r || (r =? 45).
Definition not_alnum (c : ascii) : bool := negb (lower_alnum (byteZ c)).
Definition maxNameLen : nat := 63.

Section names.
Context `{U : Unicode}.

(** [strings.ToLower]: rune by rune, an invalid byte counting as U+FFFD. *)
Definition ToLower (s : string) : string :=
  of_list (utf8_of (lower_rune <$> runes (to_list s))).

(** [reg.ReplaceAllString(name, "-")] for [[^a-z0-9-]]: every other rune becomes
    a dash. *)
Definition replaceOthers (s : string) : string :=
  of_list ((λ r, if name_rune r then Zbyte r else "-"%char) <$> runes (to_list s)).

(** The trimming functions look at runes, but every byte of a rune outside ASCII
    is outside [a-z0-9] as well, so trimming by bytes is the same. *)
Definition SanitizeK8sResourceName (name : string) : string :=
  let name := ToLower name in
  let name := replaceOthers name in
  let name := of_list (drop_while not_alnum (to_list name)) in
  let name := of_list (drop_while_end not_alnum (to_list name)) in
  if (maxNameLen <? len name)%nat then of_list (take maxNameLen (to_list name)) else name.
End names.

(** * Labels and URLs *)

Definition GetKonfidenceLabel (m : ObjectMeta) (label : string) : result GoError string :=
  let value := map_get (om_Labels m) ("konfidence.cloud/" +:+ label) in
  if bool_decide (value = "") then Err (ENew ("label " +:+ label +:+ " not found in metadata"))
  else Ok value.

Definition removeProtocol (u : string) : string :=
  match SplitN2 u "//" with
  | [_; rest] => rest
  | _ => u
  end.
Definition ParseHostnameWithPortFromURL (u : string) : result GoError string :=
  match SplitN2 (removeProtocol u) "/" with
  | [] => Err (ENew ("invalid URL: " +:+ u))
  | host :: _ => Ok host
  end.

(** * Per-deployment settings *)

Definition maxKustomizationNameSuffixLength : nat := 36.
Definition conditionTypeReady : string := "Ready".
Definition DefaultConfigMapName : string := "flux-deployer-configuration".

Definition isInsecure (d : ArtifactDeployment) : bool :=
  match GetKonfidenceLabel (ad_Meta d) "registry-insecure" with
  | Err _ => false
  | Ok label => bool_decide (ParseBool label = Some true)
  end.

Section settings.
Context `{U : Unicode, KF : Konfidence}.

Definition buildKustomizationNameSuffix (d : ArtifactDeployment) : string :=
  let ann := om_Annotations (ad_Meta d) in
  let version := map_get ann ArtifactVersionAnnotation in
  let hash := map_get ann ArtifactHashAnnotation in
  let full := version +:+ "-" +:+ hash in
  if (len full + 1 <=? maxKustomizationNameSuffixLength)%nat
  then "-" +:+ SanitizeK8sResourceName full
  else "-" +:+ SanitizeK8sResourceName hash.

(** Code of the konfidence module: [url.ExtractHostname],
    [secret.GetSecretByConfigMap] and [sanitize.ResourceName]. *)
Context (ExtractHostname : string → result GoError string).
Context (GetSecretByConfigMap : string → string → Prog (result GoError string)).
Context (ResourceName : string → string).

Definition getSecretRef (d : ArtifactDeployment) (repository : string) : Prog (result GoError (option string)) :=
  let skipAuth :=
    match GetKonfidenceLabel (ad_Meta d) "registry-skip-auth" with
    | Err _ => false
    | Ok label => bool_decide (ParseBool label = Some true)
    end in
  if skipAuth then Ret (Ok None)
  else
    match ExtractHostname repository with
    | Err err => Ret (Err (EWrap "failed to extract domain from registry url" err))
    | Ok domain =>
        if bool_decide (domain = "") then Ret (Ok None)
        else
          s ← GetSecretByConfigMap DefaultConfigMapName domain;
          match s with
          | Err err => Ret (Err err)
          | Ok name =>
              if negb (bool_decide (name = "")) then Ret (Ok (Some name))
              else
                let secretName := ResourceName domain in
                g ← trigger (Get KSecret (NN (om_Namespace (ad_Meta d)) secretName));
                match g with
                | Err e =>
                    if IsNotFound e then Ret (Ok None)
                    else Ret (Err (EWrap ("failed to get pull secret " +:+ Quote secretName) (EApi e)))
                | Ok _ => Ret (Ok (Some secretName))
                end
          end
    end.
End settings.

(** * Properties *)

(** A DNS-1123 label of at most 63 characters, or nothing at all. *)
Definition dns_label (s : string) : Prop :=
  Forall (λ c, name_rune (byteZ c) = true) (to_list s) ∧
  (∀ c l, to_list s = c :: l → lower_alnum (byteZ c) = true) ∧
  (∀ c l, to_list s = l ++ [c] → lower_alnum (byteZ c) = true) ∧
  (len s ≤ 63)%nat.

Lemma name_rune_ascii r : name_rune r = true → 45 ≤ r ≤ 122.
Proof.
  unfold name_rune, lower_alnum. rewrite !orb_true_iff, !in_range_spec, Z.eqb_eq. lia.
Qed.
Lemma alnum_name_rune r : lower_alnum r = true → name_rune r = true.
Proof. unfold name_rune. by intros ->. Qed.
Lemma name_rune_lower `{Unicode} r : name_rune r = true → lower_rune r = r.
Proof.
  intros Hr. pose proof (name_rune_ascii _ Hr). unfold lower_rune, ascii_lower.
  rewrite (proj2 (Z.leb_le r 127)) by lia.
  destruct (in_range 65 90 r) eqn:E; [|done]. apply in_range_spec in E.
  unfold name_rune, lower_alnum in Hr. rewrite !orb_true_iff, !in_range_spec, Z.eqb_eq in Hr. lia.
Qed.

Section properties.
Context `{U : Unicode}.

Lemma replaceOthers_runes s : Forall (λ c, name_rune (byteZ c) = true) (to_list (replaceOthers s)).
Proof.
  unfold replaceOthers. rewrite to_of_list, Forall_fmap. apply Forall_true. intros r. cbn.
  destruct (name_rune r) eqn:E; [|done]. pose proof (name_rune_ascii _ E). by rewrite byteZ_Zbyte by lia.
Qed.

(** The untruncated result: a run of name characters between alphanumerics. *)
Definition trimmed (s : string) : list ascii :=
  drop_while_end not_alnum (drop_while not_alnum (to_list (replaceOthers (ToLower s)))).

Lemma sanitize_trimmed s : SanitizeK8sResourceName s = of_list (take 63 (trimmed s)).
Proof.
  unfold SanitizeK8sResourceName, trimmed, maxNameLen. rewrite !to_of_list, !len_of_list. case_match eqn:E; [done|].
  apply Nat.ltb_ge in E. by rewrite take_ge.
Qed.

Lemma trimmed_runes s : Forall (λ c, name_rune (byteZ c) = true) (trimmed s).
Proof.
  pose proof (replaceOthers_runes (ToLower s)) as H. unfold trimmed.
  destruct (drop_while_split not_alnum (to_list (replaceOthers (ToLower s)))) as (pre & E & _).
  rewrite E in H. apply Forall_app in H as [_ H].
  destruct (drop_while_end_split not_alnum (drop_while not_alnum (to_list (replaceOthers (ToLower s))))) as (suf & E' & _).
  rewrite E' in H. by apply Forall_app in H as [H _].
Qed.
Lemma trimmed_head s c l : trimmed s = c :: l → lower_alnum (byteZ c) = true.
Proof.
  unfold trimmed. set (k := drop_while not_alnum _) in *. intros H.
  destruct (drop_while_end_split not_alnum k) as (suf & E & _). rewrite H in E.
  unfold k in E. apply drop_while_head in E. unfold not_alnum in E. by apply negb_false_iff in E.
Qed.
Lemma trimmed_last s c l : trimmed s = l ++ [c] → lower_alnum (byteZ c) = true.
Proof. unfold trimmed. intros H. apply drop_while_end_last in H. unfold not_alnum in H. by apply negb_false_iff in H. Qed.

Lemma length_trimmed s : (length (trimmed s) ≤ len s)%nat.
Proof.
  unfold trimmed. etransitivity; [apply length_drop_while_end|].
  destruct (drop_while_split not_alnum (to_list (replaceOthers (ToLower s)))) as (pre & E & _).
  apply (f_equal length) in E. rewrite length_app in E.
  unfold replaceOthers, ToLower in *. rewrite !to_of_list, !length_fmap, runes_recoded, length_fmap, length_fmap in *.
  pose proof (length_runes (to_list s)). rewrite length_to_list in *. lia.
Qed.

(** Strings of name characters pass the first two steps unchanged. *)
Lemma names_unchanged s :
  Forall (λ c, name_rune (byteZ c) = true) (to_list s) → replaceOthers (ToLower s) = s.
Proof.
  intros H. assert (Ha : Forall (λ c, byteZ c ≤ 127) (to_list s)).
  { eapply Forall_impl; [exact H|]. intros c Hc. apply name_rune_ascii in Hc. lia. }
  assert (Hlow : ToLower s = s).
  { unfold ToLower. rewrite <-(of_to_list s) at 2. f_equal. rewrite runes_ascii by done.
    clear Ha. induction H as [|c l Hc _ IH]; [done|]. cbn [fmap list_fmap].
    change (encode_rune (lower_rune (byteZ c)) ++ utf8_of (lower_rune <$> (byteZ <$> l)) = c :: l).
    rewrite IH, name_rune_lower by done. rewrite encode_rune_ascii; [done|].
    apply name_rune_ascii in Hc. lia. }
  rewrite Hlow. unfold replaceOthers. rewrite <-(of_to_list s) at 2. f_equal. rewrite runes_ascii by done.
  clear Ha Hlow. induction H as [|c l Hc _ IH]; [done|]. cbn. rewrite Hc, Zbyte_byteZ. by f_equal.
Qed.

Lemma sanitize_fixed s : SanitizeK8sResourceName s = s ↔ dns_label s.
Proof.
  rewrite sanitize_trimmed. split.
  - intros Hs. assert (Hl : to_list s = take 63 (trimmed s)) by (rewrite <-Hs at 1; apply to_of_list).
    assert (Hlen : (len s ≤ 63)%nat) by (rewrite <-length_to_list, Hl, length_take; lia).
    pose proof (length_trimmed s) as Hle. rewrite take_ge in Hl by lia.
    unfold dns_label. rewrite Hl. split_and!; [apply trimmed_runes|intros c l; apply trimmed_head
      |intros c l; apply trimmed_last|done].
  - intros (Hr & Hh & Ht & Hlen). unfold trimmed. rewrite names_unchanged by done.
    rewrite drop_while_id; [|intros c l Hl; unfold not_alnum; by rewrite (Hh _ _ Hl)].
    rewrite drop_while_end_id; [|intros c l Hl; unfold not_alnum; by rewrite (Ht _ _ Hl)].
    rewrite take_ge; [apply of_to_list|]. by rewrite length_to_list.
Qed.

(** [SanitizeK8sResourceName] yields at most 63 characters of [a-z0-9-]
    starting with an alphanumeric one, at most as many as the input has bytes; it
    ends with an alphanumeric one unless it was cut off; and the names it leaves
    unchanged are exactly the DNS-1123 labels. *)
Theorem sanitize_spec s :
  let r := SanitizeK8sResourceName s in
  (Forall (λ c, name_rune (byteZ c) = true) (to_list r) ∧ (len r ≤ 63)%nat ∧ (len r ≤ len s)%nat) ∧
  (∀ c l, to_list r = c :: l → lower_alnum (byteZ c) = true) ∧
  ((len r < 63)%nat → ∀ c l, to_list r = l ++ [c] → lower_alnum (byteZ c) = true) ∧
  (r = s ↔ dns_label s).
Proof.
  cbn zeta. rewrite sanitize_trimmed.
  assert (Hlen : (len (of_list (take 63 (trimmed s))) ≤ 63)%nat)
    by (rewrite len_of_list, length_take; lia).
  split_and!.
  - rewrite to_of_list. apply Forall_take, trimmed_runes.
  - done.
  - rewrite len_of_list, length_take. pose proof (length_trimmed s). lia.
  - intros c l. rewrite to_of_list. destruct (trimmed s) as [|d k] eqn:E; [done|].
    intros [= -> _]. by eapply trimmed_head.
  - rewrite to_of_list, len_of_list, length_take. intros Hlt c l Hl.
    rewrite take_ge in Hl by lia. by eapply trimmed_last.
  - rewrite <-sanitize_trimmed. apply sanitize_fixed.
Qed.

(** Truncation can leave a trailing dash, so the result is not always the
    DNS-1123 label the function is meant to produce, and sanitizing it again
    changes it. *)
Theorem sanitize_trailing_dash :
  let s := of_list (replicate 62 "a"%char ++ ["-"%char; "b"%char]) in
  let r := SanitizeK8sResourceName s in
  ¬ dns_label r ∧ SanitizeK8sResourceName r ≠ r.
Proof.
  cbn zeta. set (s := of_list _). assert (E : SanitizeK8sResourceName s = of_list (replicate 62 "a"%char ++ ["-"%char])).
  { rewrite sanitize_trimmed. unfold trimmed. rewrite names_unchanged; [vm_compute; reflexivity|].
    unfold s. rewrite to_of_list. apply Forall_app. split; [by apply Forall_replicate|by repeat constructor]. }
  rewrite E. assert (Hn : ¬ dns_label (of_list (replicate 62 "a"%char ++ ["-"%char]))).
  { intros (_ & _ & Hlast & _). specialize (Hlast "-"%char (replicate 62 "a"%char)).
    rewrite to_of_list in Hlast. specialize (Hlast eq_refl). discriminate Hlast. }
  split; [done|]. intros Hr. by apply Hn, sanitize_fixed.
Qed.
End properties.

Section suffix.
Context `{U : Unicode, KF : Konfidence}.

(** The name suffix of a Kustomization is a dash followed by name
    characters; it is at most 36 characters long whenever the artifact hash is at
    most 35 bytes, and always at most 64. *)
Theorem name_suffix_bounds d :
  let r := buildKustomizationNameSuffix d in
  (∃ t, r = "-" +:+ t ∧ Forall (λ c, name_rune (byteZ c) = true) (to_list t)) ∧
  (len r ≤ 64)%nat ∧
  ((len (map_get (om_Annotations (ad_Meta d)) ArtifactHashAnnotation) ≤ 35)%nat → (len r ≤ 36)%nat).
Proof.
  cbn zeta. unfold buildKustomizationNameSuffix, maxKustomizationNameSuffixLength.
  set (hash := map_get _ ArtifactHashAnnotation). set (full := _ +:+ "-" +:+ hash).
  assert (Hs : ∀ t, (len (SanitizeK8sResourceName t) ≤ 63)%nat ∧ (len (SanitizeK8sResourceName t) ≤ len t)%nat ∧
    Forall (λ c, name_rune (byteZ c) = true) (to_list (SanitizeK8sResourceName t))).
  { intros t. rewrite sanitize_trimmed, to_of_list, len_of_list, length_take. pose proof (length_trimmed t).
    split_and!; [lia|lia|apply Forall_take, trimmed_runes]. }
  destruct (Hs full) as (Hf1 & Hf2 & Hf3), (Hs hash) as (Hh1 & Hh2 & Hh3).
  case_match eqn:E; split_and!; rewrite ?len_app; cbn [len String.length]; try lia; try (by eexists).
  apply Nat.leb_le in E. lia.
Qed.
End suffix.
End FluxUtils.
