(* ===== verification/FluxMapper.v ===== *)
(** The mapping of OCM resources to Flux resources
    (internal/fluxdeployer/internal/fluxcd/mapper.go, and the resource types of
    flux_helm_reconciler.go and flux_kustomize_reconciler.go). *)
From S2P Require Import Prelude GoBytes GoStrings GoPaths Objects Client.
Local Open Scope Z_scope.

Module FluxMapper.

Record HelmChartResource := {
  hcr_OCMResource : OCMResource;
  hcr_Repository : string;
  hcr_ChartName : string;
  hcr_Version : string;
  hcr_Insecure : bool;
}.
Record KustomizeResource := {
  kr_OCMResource : OCMResource;
  kr_Repository : string;
  kr_Path : string;
  kr_Tag : string;
  kr_Insecure : bool;
}.

(** The structs the content is unmarshalled into. *)
Record HelmContent := { hct_HelmRepository : string; hct_HelmChart : string; hct_Version : string }.
Record OciContent := { oct_Type : string; oct_ImageReference : string }.

(** A parsed image reference of distribution/reference; it is a [NamedTagged]
    when it has a tag. *)
Record Reference := { ref_Domain : string; ref_Path : string; ref_Tag : option string }.

Definition splitScheme (imageReference : string) : string * bool :=
  if HasPrefix imageReference "http://" then (TrimPrefix imageReference "http://", true)
  else if HasPrefix imageReference "https://" then (TrimPrefix imageReference "https://", false)
  else (imageReference, false).

(** The chart name and version of a helm access. *)
Definition chartVersion (c : HelmContent) : string * string :=
  if Contains (hct_HelmChart c) ":" then
    let parts := Split (hct_HelmChart c) ":" in (default "" (parts !! 0%nat), default "" (parts !! 1%nat))
  else (hct_HelmChart c, hct_Version c).

Section mapper.
Context `{U : Unicode}.
(** [json.Unmarshal] of apimachinery into the three content structs, and
    [reference.Parse]. *)
Context (decodeAccessType : string → result GoError string).
Context (decodeHelmContent : string → result GoError HelmContent).
Context (decodeOciContent : string → result GoError OciContent).
Context (parseReference : string → result GoError Reference).

(** The reference of an image, which must carry a tag. *)
Definition taggedReference (imageReference : string) : result GoError (Reference * string * bool) :=
  let '(bareRef, insecure) := splitScheme imageReference in
  match parseReference bareRef with
  | Err err => Err (EWrap "unable to parse kustomizeImage reference" err)
  | Ok ref =>
      match ref_Tag ref with
      | None => Err (ENew ("imageReference must be in format " +:+ Quote "<repository-url>:<tag>" +:+ ", got "
                           +:+ Quote imageReference))
      | Some tag => Ok (ref, tag, insecure)
      end
  end.

Definition ToHelm (r : OCMResource) : result GoError HelmChartResource :=
  if negb (bool_decide (ocm_Type r = "helmChart")) then
    Err (ENew ("type '" +:+ ocm_Type r +:+ "' not parsable to HelmChartResource"))
  else
    match decodeAccessType (ocm_Content r) with
    | Err err => Err (EWrap "unable to unmarshal content to accessType wrapper" err)
    | Ok t =>
        if bool_decide (t = "helm") then
          match decodeHelmContent (ocm_Content r) with
          | Err err => Err (EWrap "unable to unmarshal content to HelmChartResource" err)
          | Ok c => Ok {| hcr_OCMResource := r; hcr_Repository := hct_HelmRepository c;
                          hcr_ChartName := (chartVersion c).1; hcr_Version := (chartVersion c).2;
                          hcr_Insecure := false |}
          end
        else if bool_decide (t = "ociArtifact") then
          match decodeOciContent (ocm_Content r) with
          | Err err => Err (EWrap "unable to unmarshal content to HelmChartResource" err)
          | Ok c =>
              match taggedReference (oct_ImageReference c) with
              | Err err => Err err
              | Ok (ref, tag, insecure) =>
                  Ok {| hcr_OCMResource := r;
                        hcr_Repository := "oci://" +:+ ref_Domain ref +:+ "/" +:+ Dir (ref_Path ref);
                        hcr_ChartName := Base (ref_Path ref); hcr_Version := tag; hcr_Insecure := insecure |}
              end
          end
        else Err (ENew ("type '" +:+ ocm_Type r +:+
                        "' not parsable to HelmChartResource (supported: helm, ociArtifact)"))
    end.

Definition ToKustomize (r : OCMResource) : result GoError KustomizeResource :=
  if negb (bool_decide (ocm_Type r = "kustomize")) then
    Err (ENew ("type '" +:+ ocm_Type r +:+ "' not parsable to KustomizeResource"))
  else
    match decodeOciContent (ocm_Content r) with
    | Err err => Err (EWrap "unable to unmarshal content to KustomizeResource" err)
    | Ok c =>
        if negb (bool_decide (oct_Type c = "ociArtifact")) then
          Err (ENew ("type '" +:+ oct_Type c +:+ "' not parsable to KustomizeResource"))
        else
          match taggedReference (oct_ImageReference c) with
          | Err err => Err err
          | Ok (ref, tag, insecure) =>
              Ok {| kr_OCMResource := r;
                    kr_Repository := "oci://" +:+ ref_Domain ref +:+ "/" +:+ ref_Path ref;
                    kr_Path := "./"; kr_Tag := tag; kr_Insecure := insecure |}
          end
    end.
End mapper.

(** * Properties *)

(** ** Resources *)

Lemma chart_with_version n v repo ver :
  ":"%char ∉ to_list n → ":"%char ∉ to_list v →
  chartVersion {| hct_HelmRepository := repo; hct_HelmChart := n +:+ ":" +:+ v; hct_Version := ver |} = (n, v).
Proof.
  intros Hn Hv. unfold chartVersion, Contains, Split. cbn [hct_HelmChart hct_Version].
  rewrite !to_list_app. change (to_list ":") with [":"%char]. cbn [app].
  rewrite bool_decide_eq_true_2 by apply elem_of_mid.
  rewrite split_byte_app, split_byte_single by done. cbn. by rewrite !of_to_list.
Qed.

Lemma splitScheme_spec img :
  splitScheme img =
    match strip_prefix "http://" img, strip_prefix "https://" img with
    | Some bare, _ => (bare, true)
    | None, Some bare => (bare, false)
    | None, None => (img, false)
    end.
Proof.
  unfold splitScheme, HasPrefix, TrimPrefix.
  destruct (strip_prefix "http://" img); [done|]. by destruct (strip_prefix "https://" img).
Qed.

Section properties.
Context `{U : Unicode}.
Context (decodeAccessType : string → result GoError string).
Context (decodeHelmContent : string → result GoError HelmContent).
Context (decodeOciContent : string → result GoError OciContent).
Context (parseReference : string → result GoError Reference).
Abbreviation ToHelm := (ToHelm decodeAccessType decodeHelmContent decodeOciContent parseReference).
Abbreviation ToKustomize := (ToKustomize decodeOciContent parseReference).

(** A Helm chart given as an OCI artifact keeps its location: for an image
    whose path has at least two components, the repository, a slash and the chart
    name spell the path of the image again, and the tag becomes the version. *)
Theorem helm_oci_location r c ref dir d base tag
  (Ht : ocm_Type r = "helmChart") (Ha : decodeAccessType (ocm_Content r) = Ok "ociArtifact")
  (Hc : decodeOciContent (ocm_Content r) = Ok c)
  (Hp : parseReference (splitScheme (oct_ImageReference c)).1 = Ok ref)
  (Htag : ref_Tag ref = Some tag)
  (Hdir : Forall plain dir) (Hd : plain d) (Hbase : plain base)
  (Hpath : ref_Path ref = of_list (under (dir ++ [d]) base)) :
  ∃ h, ToHelm r = Ok h ∧
    hcr_Repository h +:+ "/" +:+ hcr_ChartName h = "oci://" +:+ ref_Domain ref +:+ "/" +:+ ref_Path ref ∧
    hcr_Version h = tag ∧ hcr_Insecure h = (splitScheme (oct_ImageReference c)).2.
Proof.
  unfold FluxMapper.ToHelm, taggedReference. rewrite Ht, Ha, Hc. cbn.
  destruct (splitScheme (oct_ImageReference c)) as [bare insecure]. cbn in Hp |- *. rewrite Hp, Htag. cbn.
  eexists. split; [reflexivity|]. cbn. split; [|done].
  rewrite Hpath, dir_under, base_under by (done || apply Hbase).
  rewrite under_snoc, under_app, of_list_app. rewrite !str_app_assoc. do 3 f_equal.
Qed.

(** An image directly under the registry host has no directory part, and
    the repository of the chart ends in the component ".". *)
Theorem helm_oci_single_component r c ref tag
  (Ht : ocm_Type r = "helmChart") (Ha : decodeAccessType (ocm_Content r) = Ok "ociArtifact")
  (Hc : decodeOciContent (ocm_Content r) = Ok c)
  (Hp : parseReference (splitScheme (oct_ImageReference c)).1 = Ok ref)
  (Htag : ref_Tag ref = Some tag) (Hpath : plain (to_list (ref_Path ref))) :
  ∃ h, ToHelm r = Ok h ∧ hcr_Repository h = "oci://" +:+ ref_Domain ref +:+ "/." ∧
       hcr_ChartName h = ref_Path ref.
Proof.
  unfold FluxMapper.ToHelm, taggedReference. rewrite Ht, Ha, Hc. cbn.
  destruct (splitScheme (oct_ImageReference c)) as [bare insecure]. cbn in Hp |- *. rewrite Hp, Htag. cbn.
  eexists. split; [reflexivity|]. cbn. pose proof Hpath as (_ & _ & _ & Hs).
  assert (Hd : Dir (ref_Path ref) = ".").
  { unfold Dir, LastIndexByte. by rewrite (proj2 (last_index_None _ _) Hs). }
  assert (Hb : Base (ref_Path ref) = ref_Path ref).
  { pose proof (base_under [] _ Hpath) as H. change (under [] ?c) with c in H. by rewrite of_to_list in H. }
  by rewrite Hd, Hb.
Qed.
End properties.

(** * Witnesses *)

Section witnesses.
#[local] Existing Instance caseless_unicode.

Definition sample_chart : OCMResource := {| ocm_Name := "chart"; ocm_Type := "helmChart"; ocm_Content := "" |}.
Definition sample_content : OciContent :=
  {| oct_Type := "ociArtifact"; oct_ImageReference := "http://registry.local/charts/shop:1.2.3" |}.
Definition sample_reference (path : string) : Reference :=
  {| ref_Domain := "registry.local"; ref_Path := path; ref_Tag := Some "1.2.3" |}.
Definition no_helm (_ : string) : result GoError HelmContent := Err (ENew "no helm content").

Lemma plain_decide c :
  negb (bool_decide (c = [])) && negb (bool_decide (c = to_list ".")) && negb (bool_decide (c = to_list "..")) &&
  negb (bool_decide (slash ∈ c)) = true → plain c.
Proof. rewrite !andb_true_iff, !negb_true_iff, !bool_decide_eq_false. unfold plain. tauto. Qed.

Lemma helm_oci_location_witness :
  ∃ h, ToHelm (λ _, Ok "ociArtifact") no_helm (λ _, Ok sample_content) (λ _, Ok (sample_reference "charts/shop")) sample_chart = Ok h ∧
    hcr_Repository h +:+ "/" +:+ hcr_ChartName h = "oci://registry.local/charts/shop" ∧
    hcr_Version h = "1.2.3" ∧ hcr_Insecure h = true.
Proof.
  exact (helm_oci_location (λ _, Ok "ociArtifact") no_helm (λ _, Ok sample_content)
    (λ _, Ok (sample_reference "charts/shop")) sample_chart sample_content (sample_reference "charts/shop")
    [] (to_list "charts") (to_list "shop") "1.2.3" eq_refl eq_refl eq_refl eq_refl eq_refl
    (List.Forall_nil _) (plain_decide (to_list "charts") eq_refl) (plain_decide (to_list "shop") eq_refl) eq_refl).
Defined.

Lemma helm_oci_single_component_witness :
  ∃ h, ToHelm (λ _, Ok "ociArtifact") no_helm (λ _, Ok sample_content) (λ _, Ok (sample_reference "shop")) sample_chart = Ok h ∧
    hcr_Repository h = "oci://registry.local/." ∧ hcr_ChartName h = "shop".
Proof.
  exact (helm_oci_single_component (λ _, Ok "ociArtifact") no_helm (λ _, Ok sample_content)
    (λ _, Ok (sample_reference "shop")) sample_chart sample_content (sample_reference "shop") "1.2.3"
    eq_refl eq_refl eq_refl eq_refl eq_refl (plain_decide (to_list "shop") eq_refl)).
Defined.
End witnesses.
End FluxMapper.
