(* ===== verification/FluxReconcilers.v ===== *)
(** The Flux objects of an ArtifactDeployment: the configuration provider
    (internal/fluxdeployer/internal/controller/config_provider.go behind the
    interface of fluxcd/flux_config_provider.go) and the reconcilers of
    fluxcd/reconciler: HelmRepository, HelmRelease, OCIRepository and
    Kustomization. *)
From S2P Require Import Prelude GoBytes GoStrings Objects Client ControllerUtil FluxUtils FluxMapper.
Import FluxUtils FluxMapper.
Local Open Scope Z_scope.

(** Constants of the Flux API. *)
Class FluxAPI := {
  HelmRepositoryKind : string;
  OCIRepositoryKind : string;
  HelmRepositoryTypeOCI : string;
  DriftDetectionEnabled : string;
}.

(** * Configuration

    What the reconcilers ask of the configuration: durations in nanoseconds, the
    kubeconfig as the name of its Secret, none for the local cluster. *)
Class FluxConfigProvider := {
  GetReconcileInterval : string → Z;
  GetHelmInstallConfig : string → Z;
  GetHelmDriftDetectionMode : string → string;
  GetKubeConfigRef : string → string → Prog (result GoError (option string));
  GetTargetNamespace : string → string;
}.

Module ConfigProvider.
Section provider.
Context `{U : Unicode, FA : FluxAPI}.
(** [targethelpers.FindReady] of the konfidence module. *)
Context (FindReady : string → string → Prog (result GoError DeploymentTarget)).

(** The parameters name a Secret. *)
Definition secretParameters (p : Parameters) : bool :=
  negb (negb (bool_decide (pa_APIGroup p = "")) || negb (bool_decide (pa_Kind p = "Secret")) ||
        bool_decide (pa_Name p = "")).

Definition kubeConfigRef (target : DeploymentTarget) : result GoError (option string) :=
  match dt_Parameters target with
  | None => Ok None
  | Some params =>
      if negb (secretParameters params) then
        Err (ENew ("DeploymentTarget " +:+ Quote (om_Name (dt_Meta target)) +:+
                   " has invalid KLO kubeconfig parameters"))
      else Ok (Some (pa_Name params))
  end.

#[export] Instance configProvider : FluxConfigProvider := {|
  GetReconcileInterval _ := 10 * Second;
  GetHelmInstallConfig _ := 5 * Minute;
  GetHelmDriftDetectionMode _ := DriftDetectionEnabled;
  GetKubeConfigRef landscape artifactType :=
    t ← FindReady landscape artifactType;
    match t with
    | Err err => Ret (Err err)
    | Ok target => Ret (kubeConfigRef target)
    end;
  GetTargetNamespace landscape := landscape;
|}.
End provider.
End ConfigProvider.

Module FluxReconcilers.

Definition ArtifactDeploymentKind : string := "ArtifactDeployment".
Definition labelArtifactDeployment : string := "konfidence.cloud/artifact-deployment".

Definition ad_set_conditions (cs : list Condition) (d : ArtifactDeployment) : ArtifactDeployment := {|
  ad_Meta := ad_Meta d; ad_ArtifactType := ad_ArtifactType d; ad_Resources := ad_Resources d;
  ad_Conditions := cs; ad_DeploymentResults := ad_DeploymentResults d |}.

(** A reconciler returns the deployment as it has changed its status in memory,
    and whether the Flux object is ready. *)
Definition FluxStep : Type := Prog (ArtifactDeployment * result GoError bool).

Section reconcilers.
Context `{KF : Konfidence, MC : MetaConditions, OW : OwnerReferences, FA : FluxAPI, CP : FluxConfigProvider}.
Context `{U : Unicode, CU : ControllerUtil}.
Context (ExtractHostname : string → result GoError string).
Context (GetSecretByConfigMap : string → string → Prog (result GoError string)).
Context (ResourceName : string → string).
Abbreviation getSecretRef := (getSecretRef ExtractHostname GetSecretByConfigMap ResourceName).

Definition ns (d : ArtifactDeployment) : string := om_Namespace (ad_Meta d).
Definition name (d : ArtifactDeployment) : string := om_Name (ad_Meta d).

(** The owner reference is set on objects that have not been created yet. *)
Definition ownNew (what : string) (d : ArtifactDeployment) (m : ObjectMeta) : result GoError ObjectMeta :=
  if time_IsZero (om_CreationTimestamp m) then
    match SetControllerReference ArtifactDeploymentKind (ad_Meta d) m with
    | Err err => Err (EWrap ("failed to set owner reference on " +:+ what) err)
    | Ok m' => Ok m'
    end
  else Ok m.

(** The loops that map status conditions: the conditions [f] gives a type are
    copied onto the deployment under that type. *)
Definition mappedCondition (d : ArtifactDeployment) (now : Z) (t : string) (c : Condition) : Condition := {|
  c_Type := t; c_Status := c_Status c; c_Reason := c_Reason c; c_Message := c_Message c;
  c_ObservedGeneration := om_Generation (ad_Meta d); c_LastTransitionTime := Some now |}.
Fixpoint mapConditions (f : string → string) (d : ArtifactDeployment) (cs : list Condition) :
    Prog ArtifactDeployment :=
  match cs with
  | [] => Ret d
  | c :: cs' =>
      let t := f (c_Type c) in
      if negb (bool_decide (t = "")) then
        now ← trigger Now;
        mapConditions f (ad_set_conditions (SetStatusCondition now (ad_Conditions d) (mappedCondition d now t c)) d) cs'
      else mapConditions f d cs'
  end.

(** ** HelmRepository *)

Definition helmRepositorySpec (d : ArtifactDeployment) (res : HelmChartResource) (secretRef : option string) :
    HelmRepositorySpec := {|
  hrs_Interval := GetReconcileInterval (ns d);
  hrs_URL := hcr_Repository res;
  hrs_Insecure := isInsecure d || hcr_Insecure res;
  hrs_SecretRef := secretRef;
  hrs_Type := if HasPrefix (hcr_Repository res) "oci://" then HelmRepositoryTypeOCI else "" |}.

Definition mutateHelmRepository (d : ArtifactDeployment) (res : HelmChartResource) (o : HelmRepository) :
    Prog (result GoError HelmRepository) :=
  match ownNew "HelmRepository" d (hr_Meta o) with
  | Err err => Ret (Err err)
  | Ok m =>
      s ← getSecretRef d (hcr_Repository res);
      match s with
      | Err err => Ret (Err (EWrap "failed to resolve secretRef for Helm Repository" err))
      | Ok secretRef =>
          Ret (Ok {| hr_Meta := m; hr_Spec := helmRepositorySpec d res secretRef |})
      end
  end.

Definition newHelmRepository (d : ArtifactDeployment) : HelmRepository := {|
  hr_Meta := new_meta (ns d) (name d) ∅;
  hr_Spec := {| hrs_Interval := 0; hrs_URL := ""; hrs_Insecure := false; hrs_SecretRef := None; hrs_Type := "" |} |}.

Definition reconcileHelmRepository (d : ArtifactDeployment) (res : HelmChartResource) : FluxStep :=
  r ← CreateOrUpdate localClient KHelmRepository (newHelmRepository d) (mutateHelmRepository d res);
  match r with
  | Err err => Ret (d, Err (EWrap "failed to reconcile HelmRepository" err))
  | Ok (op, o) =>
      _ ← trigger (Eventf (om_key (ad_Meta d)) EventTypeNormal "HelmRepositoryReconciled"
                     ("HelmRepository " +:+ om_Name (hr_Meta o) +:+ " " +:+ opString op));
      Ret (d, Ok true)
  end.

(** ** HelmRelease *)

Definition mapHelmChartConditionType (t : string) : string :=
  if bool_decide (t = conditionTypeReady) then ArtifactFetchedCondition else "".
Definition mapHelmReleaseConditionType (t : string) : string :=
  if bool_decide (t = conditionTypeReady) then ArtifactDeployedCondition
  else if bool_decide (t = "Released") then AppHealthyCondition else "".

Definition helmReleaseSpec (d : ArtifactDeployment) (res : HelmChartResource) (kubeConfig : option string) :
    HelmReleaseSpec := {|
  hls_Interval := GetReconcileInterval (ns d);
  hls_SourceRef := {| sr_Kind := HelmRepositoryKind; sr_Namespace := ns d; sr_Name := name d |};
  hls_Chart := hcr_ChartName res; hls_Version := hcr_Version res;
  hls_ReleaseName := name d; hls_KubeConfig := kubeConfig;
  hls_TargetNamespace := GetTargetNamespace (ns d); hls_StorageNamespace := GetTargetNamespace (ns d);
  hls_DriftDetection := GetHelmDriftDetectionMode (ns d); hls_InstallTimeout := GetHelmInstallConfig (ns d);
  hls_CommonLabels := {[ labelArtifactDeployment := name d ]} |}.

Definition mutateHelmRelease (d : ArtifactDeployment) (res : HelmChartResource) (o : HelmRelease) :
    Prog (result GoError HelmRelease) :=
  match ownNew "HelmRelease" d (hl_Meta o) with
  | Err err => Ret (Err err)
  | Ok m =>
      k ← GetKubeConfigRef (ns d) (ad_ArtifactType d);
      match k with
      | Err err => Ret (Err err)
      | Ok kubeConfig =>
          Ret (Ok {| hl_Meta := m; hl_Spec := helmReleaseSpec d res kubeConfig; hl_Conditions := hl_Conditions o |})
      end
  end.

Definition newHelmRelease (d : ArtifactDeployment) : HelmRelease := {|
  hl_Meta := new_meta (ns d) (name d) ∅;
  hl_Spec := {| hls_Interval := 0; hls_SourceRef := {| sr_Kind := ""; sr_Namespace := ""; sr_Name := "" |};
    hls_Chart := ""; hls_Version := ""; hls_ReleaseName := ""; hls_KubeConfig := None;
    hls_TargetNamespace := ""; hls_StorageNamespace := ""; hls_DriftDetection := ""; hls_InstallTimeout := 0;
    hls_CommonLabels := ∅ |};
  hl_Conditions := [] |}.

Definition getHelmChart (d : ArtifactDeployment) : Prog (option HelmChart) :=
  g ← trigger (Get KHelmChart (NN (ns d) (ns d +:+ "-" +:+ name d)));
  match g with
  | Err _ => Ret None
  | Ok chart => Ret (Some chart)
  end.

Definition mapStatusConditionsFromHelmChart (d : ArtifactDeployment) (chart : HelmChart) :
    Prog (ArtifactDeployment * bool) :=
  d' ← mapConditions mapHelmChartConditionType d (hc_Conditions chart);
  Ret (d', IsStatusConditionTrue (hc_Conditions chart) conditionTypeReady).

Definition mapStatusConditionsFromHelmRelease (d : ArtifactDeployment) (release : HelmRelease) :
    Prog ArtifactDeployment :=
  mapConditions mapHelmReleaseConditionType d (hl_Conditions release).

Definition reconcileHelmRelease (d : ArtifactDeployment) (res : HelmChartResource) : FluxStep :=
  r ← CreateOrUpdate localClient KHelmRelease (newHelmRelease d) (mutateHelmRelease d res);
  match r with
  | Err err => Ret (d, Err (EWrap "failed to reconcile HelmRelease" err))
  | Ok (_, release) =>
      let isReady := IsStatusConditionTrue (hl_Conditions release) conditionTypeReady in
      c ← getHelmChart d;
      match c with
      | None => Ret (d, Ok isReady)
      | Some chart =>
          m ← mapStatusConditionsFromHelmChart d chart;
          if m.2 : bool then
            d' ← mapStatusConditionsFromHelmRelease m.1 release; Ret (d', Ok isReady)
          else Ret (m.1, Ok isReady)
      end
  end.

(** ** OCIRepository *)

Definition mapOCIRepositoryConditionType (t : string) : string :=
  if bool_decide (t = conditionTypeReady) then ArtifactFetchedCondition else "".
Definition mapStatusConditionsFromOCIRepository (d : ArtifactDeployment) (o : OCIRepository) : Prog ArtifactDeployment :=
  mapConditions mapOCIRepositoryConditionType d (oc_Conditions o).

Definition ociRepositorySpec (d : ArtifactDeployment) (res : KustomizeResource) (secretRef : option string) :
    OCIRepositorySpec := {|
  ocs_Interval := GetReconcileInterval (ns d);
  ocs_URL := kr_Repository res;
  ocs_Insecure := isInsecure d || kr_Insecure res;
  ocs_SecretRef := secretRef;
  ocs_Tag := kr_Tag res |}.

Definition mutateOCIRepository (d : ArtifactDeployment) (res : KustomizeResource) (o : OCIRepository) :
    Prog (result GoError OCIRepository) :=
  match ownNew "OCIRepository" d (oc_Meta o) with
  | Err err => Ret (Err err)
  | Ok m =>
      s ← getSecretRef d (kr_Repository res);
      match s with
      | Err err => Ret (Err (EWrap "failed to resolve secretRef for OCI Repository" err))
      | Ok secretRef =>
          Ret (Ok {| oc_Meta := m; oc_Spec := ociRepositorySpec d res secretRef; oc_Conditions := oc_Conditions o |})
      end
  end.

Definition newOCIRepository (d : ArtifactDeployment) : OCIRepository := {|
  oc_Meta := new_meta (ns d) (name d) ∅;
  oc_Spec := {| ocs_Interval := 0; ocs_URL := ""; ocs_Insecure := false; ocs_SecretRef := None; ocs_Tag := "" |};
  oc_Conditions := [] |}.

Definition reconcileOCIRepository (d : ArtifactDeployment) (res : KustomizeResource) : FluxStep :=
  r ← CreateOrUpdate localClient KOCIRepository (newOCIRepository d) (mutateOCIRepository d res);
  match r with
  | Err err => Ret (d, Err (EWrap "failed to reconcile OCIRepository" err))
  | Ok (op, o) =>
      _ ← trigger (Eventf (om_key (ad_Meta d)) EventTypeNormal "OCIRepositoryReconciled"
                     ("OCIRepository " +:+ om_Name (oc_Meta o) +:+ " " +:+ opString op));
      d' ← mapStatusConditionsFromOCIRepository d o;
      Ret (d', Ok (IsStatusConditionTrue (oc_Conditions o) conditionTypeReady))
  end.

(** ** Kustomization *)

Definition mapKustomizationConditionType (t : string) : string :=
  if bool_decide (t = conditionTypeReady) then ArtifactDeployedCondition
  else if bool_decide (t = "Healthy") then AppHealthyCondition else "".
Definition mapStatusConditionsFromKustomization (d : ArtifactDeployment) (o : Kustomization) : Prog ArtifactDeployment :=
  mapConditions mapKustomizationConditionType d (ku_Conditions o).

Definition kustomizationSpec (d : ArtifactDeployment) (res : KustomizeResource) (kubeConfig : option string) :
    KustomizationSpec := {|
  kus_Interval := GetReconcileInterval (ns d);
  kus_SourceRef := {| sr_Kind := OCIRepositoryKind; sr_Namespace := ns d; sr_Name := name d |};
  kus_Path := kr_Path res; kus_KubeConfig := kubeConfig;
  kus_TargetNamespace := GetTargetNamespace (ns d);
  kus_NameSuffix := buildKustomizationNameSuffix d;
  kus_Prune := true; kus_Wait := true;
  kus_CommonLabels := {[ labelArtifactDeployment := name d ]} |}.

Definition mutateKustomization (d : ArtifactDeployment) (res : KustomizeResource) (o : Kustomization) :
    Prog (result GoError Kustomization) :=
  match ownNew "Kustomization" d (ku_Meta o) with
  | Err err => Ret (Err err)
  | Ok m =>
      k ← GetKubeConfigRef (ns d) (ad_ArtifactType d);
      match k with
      | Err err => Ret (Err err)
      | Ok kubeConfig =>
          Ret (Ok {| ku_Meta := m; ku_Spec := kustomizationSpec d res kubeConfig; ku_Conditions := ku_Conditions o |})
      end
  end.

Definition newKustomization (d : ArtifactDeployment) : Kustomization := {|
  ku_Meta := new_meta (ns d) (name d) ∅;
  ku_Spec := {| kus_Interval := 0; kus_SourceRef := {| sr_Kind := ""; sr_Namespace := ""; sr_Name := "" |};
    kus_Path := ""; kus_KubeConfig := None; kus_TargetNamespace := ""; kus_NameSuffix := "";
    kus_Prune := false; kus_Wait := false; kus_CommonLabels := ∅ |};
  ku_Conditions := [] |}.

Definition reconcileKustomization (d : ArtifactDeployment) (res : KustomizeResource) : FluxStep :=
  r ← CreateOrUpdate localClient KKustomization (newKustomization d) (mutateKustomization d res);
  match r with
  | Err err => Ret (d, Err (EWrap "failed to reconcile Kustomization" err))
  | Ok (op, o) =>
      _ ← trigger (Eventf (om_key (ad_Meta d)) EventTypeNormal "ReconciledKustomization"
                     ("Kustomization " +:+ om_Name (ku_Meta o) +:+ " " +:+ opString op));
      d' ← mapStatusConditionsFromKustomization d o;
      Ret (d', Ok (IsStatusConditionTrue (ku_Conditions o) conditionTypeReady))
  end.
End reconcilers.
End FluxReconcilers.
