(* ===== verification/FluxProps.v ===== *)
(** Properties of the Flux reconcilers: which objects each of them writes, with
    which contents, what it may change in the status of the deployment, and that
    it succeeds when the Flux objects are there and healthy. *)
From S2P Require Import Prelude GoBytes GoStrings Objects Client ControllerUtil FluxUtils FluxMapper FluxReconcilers.
Import FluxUtils FluxMapper FluxReconcilers.
Local Open Scope Z_scope.

Module FluxProps.

Lemma reads_mono (l : list (obs clientE)) (Q : obs clientE → Prop) : Forall reads l → Forall (λ o, reads o ∨ Q o) l.
Proof. intros H. eapply Forall_impl; [exact H|]. auto. Qed.

Section flux.
Context `{KF : Konfidence, MC : MetaConditions, OW : OwnerReferences, FA : FluxAPI, CP : FluxConfigProvider}.
Context `{U : Unicode, CU : ControllerUtil}.

(** * Frame

    What no Flux reconciler changes of a deployment: everything but its
    conditions, and of those the three the status updaters own. *)
Record framed (d d' : ArtifactDeployment) : Prop := {
  fr_meta : ad_Meta d' = ad_Meta d;
  fr_type : ad_ArtifactType d' = ad_ArtifactType d;
  fr_resources : ad_Resources d' = ad_Resources d;
  fr_results : ad_DeploymentResults d' = ad_DeploymentResults d;
  fr_conditions t : t ∈ [StalledCondition; ArtifactDeploymentReadyCondition; DeploymentResultCreatedCondition] →
    FindStatusCondition (ad_Conditions d') t = FindStatusCondition (ad_Conditions d) t;
}.
#[export] Instance framed_preorder : PreOrder framed.
Proof.
  split.
  - intros d. by split.
  - intros d d' d'' [] []. split; [congruence..|]. intros t Ht. by rewrite fr_conditions1, fr_conditions0.
Qed.

Definition fluxType (t : string) : Prop :=
  t ∈ [ArtifactFetchedCondition; ArtifactDeployedCondition; AppHealthyCondition].

Lemma ad_conditions_ne t t' :
  fluxType t → t' ∈ [StalledCondition; ArtifactDeploymentReadyCondition; DeploymentResultCreatedCondition] → t' ≠ t.
Proof.
  pose proof artifact_conditions_distinct as H. rewrite !NoDup_cons, !not_elem_of_cons in H.
  unfold fluxType. rewrite !elem_of_cons, !elem_of_nil. destruct_and! H. intros ? ? ->. naive_solver.
Qed.

Lemma mapConditions_runs f d cs tr d' :
  (∀ t, f t = "" ∨ fluxType (f t)) → execs (mapConditions f d cs) tr d' → framed d d' ∧ Forall reads tr.
Proof.
  intros Hf. revert d tr. induction cs as [|c cs IH]; intros d tr H; cbn [mapConditions] in H.
  - destruct H as [-> ->]. by split; [reflexivity|].
  - case_bool_decide as E; cbn [negb] in H; [by apply IH|].
    cbn in H. destruct H as (now & t & -> & H). apply IH in H as [Hd Ht].
    split; [|by constructor; [intros ? []|]]. etrans; [|exact Hd].
    split; try done. intros u Hu. cbn. apply find_set_ne. cbn.
    apply ad_conditions_ne; [|done]. by destruct (Hf (c_Type c)).
Qed.

(** * Managed objects *)

Definition ownedBy (d : ArtifactDeployment) (m : ObjectMeta) : Prop :=
  ∃ r, om_OwnerReferences m = [r] ∧ or_Controller r = true ∧ or_Kind r = ArtifactDeploymentKind ∧
       or_Name r = om_Name (ad_Meta d).

(** The spec of a Flux object is replaced by a different one, and nothing else
    of an object that has been created. *)
Definition respecified {M S C} (meta : M → ObjectMeta) (spec : M → S) (status : M → C) (old new : M) : Prop :=
  status new = status old ∧
  (om_CreationTimestamp (meta old) ≠ None → meta new = meta old ∧ spec new ≠ spec old).
Definition updates (k : kind) : obj k → obj k → Prop :=
  match k return obj k → obj k → Prop with
  | KHelmRepository => respecified hr_Meta hr_Spec (λ _, ())
  | KHelmRelease => respecified hl_Meta hl_Spec hl_Conditions
  | KOCIRepository => respecified oc_Meta oc_Spec oc_Conditions
  | KKustomization => respecified ku_Meta ku_Spec ku_Conditions
  | _ => λ _ _, False
  end.

(** The call writes the object of kind [k] named after the deployment with
    contents satisfying [P]: a new object, controlled by the deployment, or one
    that was read before and has another spec. *)
Definition writesObject (k : kind) (P : obj k → Prop) (d : ArtifactDeployment)
    (before : list (obs clientE)) (o : obs clientE) : Prop :=
  ∃ v new, request o = Some (v, k, om_key (ad_Meta d)) ∧ sent k o = Some new ∧ P new ∧
    (v = VCreate ∧ ownedBy d (obj_meta new) ∨
     v = VUpdate ∧ ∃ old, updates k old new ∧
       Exists (λ ob, request ob = Some (VGet, k, om_key (ad_Meta d)) ∧ answered k ob = Some old) before).
(** The calls write nothing else. *)
Definition managed (k : kind) (P : obj k → Prop) (d : ArtifactDeployment) : list (obs clientE) → Prop :=
  whenever mutates (writesObject k P d).

Lemma writes_more k P d l l' o : writesObject k P d l' o → writesObject k P d (l ++ l') o.
Proof.
  intros (v & new & Hq & Hs & HP & Hv). exists v, new. split_and!; [done..|].
  destruct Hv as [?|(-> & old & Hu & Ho)]; [by left|right]. split; [done|]. exists old. split; [done|].
  apply Exists_app. by right.
Qed.
Lemma managed_app_reads k P d l l' : managed k P d l → Forall reads l' → managed k P d (l ++ l').
Proof. intros H Hr. apply whenever_app; [done|by apply reads_whenever]. Qed.

Lemma ownNew_owned what d m m' :
  om_CreationTimestamp m = None → om_OwnerReferences m = [] → ownNew what d m = Ok m' → ownedBy d m'.
Proof.
  unfold ownNew. intros -> Ho H. cbn in H. destruct (SetControllerReference _ _ _) as [m1|] eqn:E; [|done].
  simplify_eq. apply set_controller_spec in E as (r & -> & H1 & H2 & H3 & _); [|done]. by exists r.
Qed.

Lemma ownNew_kept what d m m' : ownNew what d m = Ok m' → om_CreationTimestamp m ≠ None → m' = m.
Proof. unfold ownNew. destruct (om_CreationTimestamp m); [by intros [= ->]|done]. Qed.

Lemma managed_intro k seed mutate (P : obj k → Prop) d t x :
  execs (CreateOrUpdate localClient k seed mutate) t x →
  obj_key seed = om_key (ad_Meta d) →
  (∀ base t m, execs (mutate base) t m → Forall reads t) →
  (∀ base t new, execs (mutate base) t (Ok new) → P new ∧ (new ≠ base → updates k base new)) →
  (∀ t new, execs (mutate seed) t (Ok new) → ownedBy d (obj_meta new)) →
  managed k P d t ∧ (is_ok x = true → Exists (stored k P) t) ∧
  (∀ op o, x = Ok (op, o) → Exists (λ ob, answered k ob = Some o) t).
Proof.
  intros H%create_or_update_runs Hk Hr HP Ho. split_and!.
  - intros l1 o l2 El Hw. pose proof (cou_writes _ _ _ _ _ H Hr) as Hc.
    destruct (Hc _ _ _ El Hw) as (v & base & u & new & Hv & Hq & Hs & Hm). rewrite Hk in Hq.
    destruct (HP _ _ _ Hm) as [HPn Hu]. exists v, new. split_and!; [done..|].
    destruct Hv as [[-> ->]|(-> & Hne & Hb)]; [left|right]; (split; [done|]); [by eapply Ho|].
    rewrite Hk in Hb. eauto.
  - intros Hx. eapply cou_stored; [done| |done]. intros base u new Hm. by apply (HP _ _ _ Hm).
  - intros op o ->. by eapply cou_answered.
Qed.

Lemma framed_spec d d' : framed d d' → ns d' = ns d ∧ name d' = name d.
Proof. intros H. unfold ns, name. by rewrite (fr_meta _ _ H). Qed.

(** * The four reconcilers *)

Context (ExtractHostname : string → result GoError string).
Context (GetSecretByConfigMap : string → string → Prog (result GoError string)).
Context (ResourceName : string → string).
(** The konfidence module's lookups only read. *)
Hypothesis secret_reads : ∀ cm domain t r, execs (GetSecretByConfigMap cm domain) t r → Forall reads t.
Hypothesis kubeconfig_reads : ∀ l a t r, execs (GetKubeConfigRef l a) t r → Forall reads t.

Lemma getSecretRef_reads d repo t r :
  execs (getSecretRef ExtractHostname GetSecretByConfigMap ResourceName d repo) t r → Forall reads t.
Proof.
  unfold getSecretRef. cbv zeta. intros H.
  lazymatch type of H with execs (if ?b then _ else _) _ _ => destruct b end; [by destruct H as [-> _]|].
  destruct (ExtractHostname repo) as [domain|e]; [|by destruct H as [-> _]].
  case_bool_decide; [by destruct H as [-> _]|].
  exec_bind H t1 x Hsec. apply secret_reads in Hsec. destruct x as [s|e].
  2:{ destruct H as [-> _]. by rewrite app_nil_r. }
  apply Forall_app. split; [done|]. exec_steps H; reads_walk.
Qed.

Definition helmRepositoryFor (d : ArtifactDeployment) (res : HelmChartResource) (o : HelmRepository) : Prop :=
  ∃ t secretRef, hr_Spec o = helmRepositorySpec d res secretRef ∧
    execs (getSecretRef ExtractHostname GetSecretByConfigMap ResourceName d (hcr_Repository res)) t (Ok secretRef).
Definition helmReleaseFor (d : ArtifactDeployment) (res : HelmChartResource) (o : HelmRelease) : Prop :=
  ∃ t kubeConfig, hl_Spec o = helmReleaseSpec d res kubeConfig ∧
    execs (GetKubeConfigRef (ns d) (ad_ArtifactType d)) t (Ok kubeConfig).
Definition ociRepositoryFor (d : ArtifactDeployment) (res : KustomizeResource) (o : OCIRepository) : Prop :=
  ∃ t secretRef, oc_Spec o = ociRepositorySpec d res secretRef ∧
    execs (getSecretRef ExtractHostname GetSecretByConfigMap ResourceName d (kr_Repository res)) t (Ok secretRef).
Definition kustomizationFor (d : ArtifactDeployment) (res : KustomizeResource) (o : Kustomization) : Prop :=
  ∃ t kubeConfig, ku_Spec o = kustomizationSpec d res kubeConfig ∧
    execs (GetKubeConfigRef (ns d) (ad_ArtifactType d)) t (Ok kubeConfig).

(** Runs of the mutate functions: the owner reference, a lookup that reads, and
    the new object. *)
Ltac mutate_cases H :=
  let m := fresh "m" in destruct (ownNew _ _ _) as [m|] eqn:?; [|by destruct H as [-> ?]];
  let t := fresh "t" in let x := fresh "x" in let H1 := fresh "Hlook" in
  exec_bind H t x H1; destruct x; destruct H as [-> ?]; rewrite ?app_nil_r; simplify_eq/=.

(** What they return is the object they were given, with another spec. *)
Ltac respec :=
  let Hne := fresh in let Hc := fresh in let Es := fresh in
  intros Hne; split; [done|]; intros Hc; cbn in *;
  match goal with H : ownNew _ _ _ = Ok ?m |- _ => apply ownNew_kept in H; [|done]; subst m end;
  split; [done|]; intros Es; apply Hne;
  match goal with |- _ = ?b => destruct b; cbn in *; congruence end.

Lemma helmRepository_step d res t d' r :
  execs (reconcileHelmRepository ExtractHostname GetSecretByConfigMap ResourceName d res) t (d', r) →
  framed d d' ∧ managed KHelmRepository (helmRepositoryFor d res) d t ∧
  (is_ok r = true → Exists (stored KHelmRepository (helmRepositoryFor d res)) t).
Proof.
  unfold reconcileHelmRepository. intros H. exec_bind H t1 x H1.
  apply (managed_intro KHelmRepository _ _ (helmRepositoryFor d res) d) in H1 as (Hm & Hs & _); [|done|..].
  - destruct x as [[op o]|e].
    + exec_steps H. split_and!; [reflexivity| |].
      * apply managed_app_reads; [done|reads_walk].
      * intros _. apply Exists_app. by left; apply Hs.
    + exec_steps H. rewrite app_nil_r. by split_and!; [reflexivity|..].
  - intros base u m Hu. unfold mutateHelmRepository in Hu. mutate_cases Hu; by eapply getSecretRef_reads.
  - intros base u new Hu. unfold mutateHelmRepository in Hu. mutate_cases Hu. split; [by eexists _, _|respec].
  - intros u new Hu. unfold mutateHelmRepository in Hu. mutate_cases Hu. eapply ownNew_owned; [| |eassumption]; done.
Qed.

Lemma helmRelease_step d res t d' r :
  execs (reconcileHelmRelease d res) t (d', r) →
  framed d d' ∧ managed KHelmRelease (helmReleaseFor d res) d t.
Proof.
  unfold reconcileHelmRelease. intros H. exec_bind H t1 x H1.
  apply (managed_intro KHelmRelease _ _ (helmReleaseFor d res) d) in H1 as (Hm & _ & _); [|done|..].
  - destruct x as [[op o]|e].
    2:{ exec_steps H. rewrite app_nil_r. by split; [reflexivity|]. }
    cut (framed d d' ∧ Forall reads tr).
    { intros [Hd Hr]. split; [done|]. by apply managed_app_reads. }
    cbn in H. destruct H as (g & t2 & -> & H). rewrite Forall_cons. cut (framed d d' ∧ Forall reads t2).
    { intros [Hd Hr]. split_and!; try done. by intros ? [? ?]. }
    destruct g as [chart|e]; [|exec_steps H; by split; [reflexivity|]].
    cbn [prog_bind] in H. fold (@prog_bind clientE) in H.
    exec_bind H t3 m Hc. unfold mapStatusConditionsFromHelmChart in Hc. exec_bind Hc t4 d1 Hc'.
    apply mapConditions_runs in Hc' as [Hd1 Hr1].
    2:{ intros u. unfold mapHelmChartConditionType, fluxType. case_bool_decide; [right; by left|by left]. }
    destruct Hc as [-> ->]. rewrite app_nil_r. cbn [fst snd] in H. case_match.
    + exec_bind H t5 d2 H2. destruct H as [-> [= -> ->]]. rewrite app_nil_r.
      unfold mapStatusConditionsFromHelmRelease in H2. apply mapConditions_runs in H2 as [Hd2 Hr2].
      2:{ intros u. unfold mapHelmReleaseConditionType, fluxType.
          repeat case_bool_decide; [right; right; by left|right; do 2 right; by left|by left]. }
      split; [by etrans|]. by apply Forall_app.
    + destruct H as [-> [= -> ->]]. rewrite app_nil_r. done.
  - intros base u m Hu. unfold mutateHelmRelease in Hu. mutate_cases Hu; by eapply kubeconfig_reads.
  - intros base u new Hu. unfold mutateHelmRelease in Hu. mutate_cases Hu. split; [by eexists _, _|respec].
  - intros u new Hu. unfold mutateHelmRelease in Hu. mutate_cases Hu. eapply ownNew_owned; [| |eassumption]; done.
Qed.
Lemma ociRepository_step d res t d' r :
  execs (reconcileOCIRepository ExtractHostname GetSecretByConfigMap ResourceName d res) t (d', r) →
  framed d d' ∧ managed KOCIRepository (ociRepositoryFor d res) d t ∧
  (is_ok r = true → Exists (stored KOCIRepository (ociRepositoryFor d res)) t) ∧
  (r = Ok true → Exists (λ ob, ∃ o, answered KOCIRepository ob = Some o ∧
     IsStatusConditionTrue (oc_Conditions o) conditionTypeReady = true) t).
Proof.
  unfold reconcileOCIRepository. intros H. exec_bind H t1 x H1.
  apply (managed_intro KOCIRepository _ _ (ociRepositoryFor d res) d) in H1 as (Hm & Hs & Ha); [|done|..].
  - destruct x as [[op o]|e].
    2:{ exec_steps H. rewrite app_nil_r. by split_and!; [reflexivity|..]. }
    cbn in H. destruct H as (u & t2 & -> & H). exec_bind H t3 d1 Hc.
    apply mapConditions_runs in Hc as [Hd Hr].
    2:{ intros v. unfold mapOCIRepositoryConditionType, fluxType. case_bool_decide; [right; by left|by left]. }
    destruct H as [-> [= -> ->]]. rewrite app_nil_r. split_and!; [done|..].
    + apply managed_app_reads; [done|]. by constructor; [intros ? []|].
    + intros _. apply Exists_app. left. by apply Hs.
    + intros [= Hy]. apply Exists_app. left. eapply Exists_impl; [by eapply Ha|]. cbn. eauto.
  - intros base u m Hu. unfold mutateOCIRepository in Hu. mutate_cases Hu; by eapply getSecretRef_reads.
  - intros base u new Hu. unfold mutateOCIRepository in Hu. mutate_cases Hu. split; [by eexists _, _|respec].
  - intros u new Hu. unfold mutateOCIRepository in Hu. mutate_cases Hu. eapply ownNew_owned; [| |eassumption]; done.
Qed.

Lemma kustomization_step d res t d' r :
  execs (reconcileKustomization d res) t (d', r) →
  framed d d' ∧ managed KKustomization (kustomizationFor d res) d t.
Proof.
  unfold reconcileKustomization. intros H. exec_bind H t1 x H1.
  apply (managed_intro KKustomization _ _ (kustomizationFor d res) d) in H1 as (Hm & _ & _); [|done|..].
  - destruct x as [[op o]|e].
    2:{ exec_steps H. rewrite app_nil_r. by split_and!; [reflexivity|..]. }
    cbn in H. destruct H as (u & t2 & -> & H). exec_bind H t3 d1 Hc.
    apply mapConditions_runs in Hc as [Hd Hr].
    2:{ intros v. unfold mapKustomizationConditionType, fluxType.
        repeat case_bool_decide; [right; right; by left|right; do 2 right; by left|by left]. }
    destruct H as [-> [= -> ->]]. rewrite app_nil_r. split; [done|].
    apply managed_app_reads; [done|]. by constructor; [intros ? []|].
  - intros base u m Hu. unfold mutateKustomization in Hu. mutate_cases Hu; by eapply kubeconfig_reads.
  - intros base u new Hu. unfold mutateKustomization in Hu. mutate_cases Hu. split; [by eexists _, _|respec].
  - intros u new Hu. unfold mutateKustomization in Hu. mutate_cases Hu. eapply ownNew_owned; [| |eassumption]; done.
Qed.

(** * Mapped conditions

    A condition list carries each type once, as the API requires; the condition
    of type [t] is then the one that is copied. *)
Lemma mapConditions_copies f d cs tr d' c :
  execs (mapConditions f d cs) tr d' → c ∈ cs → f (c_Type c) ≠ "" →
  (∀ c', c' ∈ cs → f (c_Type c') = f (c_Type c) → c' = c) →
  ∃ now, FindStatusCondition (ad_Conditions d') (f (c_Type c)) = Some now ∧
    c_Status now = c_Status c ∧ c_Reason now = c_Reason c ∧ c_Message now = c_Message c ∧
    c_ObservedGeneration now = om_Generation (ad_Meta d).
Proof.
  intros H Hc Hf Huniq.
  assert (Hkeep : ∀ cs d tr d', (∀ c', c' ∈ cs → f (c_Type c') = f (c_Type c) → c' = c) →
    execs (mapConditions f d cs) tr d' →
    (∃ now, FindStatusCondition (ad_Conditions d) (f (c_Type c)) = Some now ∧
      c_Status now = c_Status c ∧ c_Reason now = c_Reason c ∧ c_Message now = c_Message c ∧
      c_ObservedGeneration now = om_Generation (ad_Meta d)) ∨ c ∈ cs →
    ∃ now, FindStatusCondition (ad_Conditions d') (f (c_Type c)) = Some now ∧
      c_Status now = c_Status c ∧ c_Reason now = c_Reason c ∧ c_Message now = c_Message c ∧
      c_ObservedGeneration now = om_Generation (ad_Meta d)); [|by eapply Hkeep; [..|right]].
  clear cs d tr d' H Hc Huniq. induction cs as [|x cs IH]; intros d tr d' Huniq H Hor.
  - destruct H as [_ ->]. destruct Hor as [?|Hin]; [done|]. by apply elem_of_nil in Hin.
  - assert (Hu : ∀ c', c' ∈ cs → f (c_Type c') = f (c_Type c) → c' = c) by (intros; apply Huniq; [by right|done]).
    cbn [mapConditions] in H. case_bool_decide as E; cbn [negb] in H.
    + eapply IH; [done|exact H|]. destruct Hor as [?|[->|?]%elem_of_cons]; [by left|done|by right].
    + cbn in H. destruct H as (now & t & -> & H). apply IH in H; [done|done|].
      destruct (decide (f (c_Type x) = f (c_Type c))) as [Ex|Ex].
      * left. assert (x = c) as -> by (apply Huniq; [by left|done]). cbn.
        destruct (find_set_eq now (ad_Conditions d) (mappedCondition d now (f (c_Type c)) c)) as [tt Hfind].
        cbn in Hfind. rewrite Hfind. by eexists.
      * destruct Hor as [Hnow|[->|?]%elem_of_cons]; [|done|by right]. left. cbn.
        rewrite find_set_ne; [done|]. cbn. congruence.
Qed.

(** * Healthy Flux objects *)

(** Every call about objects of kind [k] is answered with one that has [P]. *)
Definition shows (k : kind) (P : obj k → Prop) (o : obs clientE) : Prop :=
  ∀ v key, request o = Some (v, k, key) → ∃ x, answered k o = Some x ∧ P x.
(** The object has been created and its condition list has the condition [t],
    once and true. *)
Definition isCreated (k : kind) (x : obj k) : Prop := om_CreationTimestamp (obj_meta x) ≠ None.
Definition trueOnce (t : string) (cs : list Condition) : Prop :=
  ∃ c, c ∈ cs ∧ c_Type c = t ∧ c_Status c = ConditionTrue ∧ ∀ c', c' ∈ cs → c_Type c' = t → c' = c.

(** Calls within a run. *)
Definition within (t tr : list (obs clientE)) : Prop := ∃ a b, tr = a ++ t ++ b.
Lemma within_mid a t b : within t (a ++ t ++ b).
Proof. by exists a, b. Qed.
Lemma within_l t b : within t (t ++ b).
Proof. by exists [], b. Qed.
Lemma within_r a t : within t (a ++ t).
Proof. exists a, []. by rewrite app_nil_r. Qed.
#[local] Instance within_trans : Transitive within.
Proof. intros t1 t2 t3 (a & b & ->) (a' & b' & ->). exists (a' ++ a), (b ++ b'). by rewrite !app_assoc. Qed.

Lemma cou_succeeds k seed mutate (P : obj k → Prop) tr r :
  execs (CreateOrUpdate localClient k seed mutate) tr r → Forall well_answered tr → Forall (shows k P) tr →
  (∀ base t m, P base → execs (mutate base) t m → within t tr → ∃ new, m = Ok new ∧ obj_key new = obj_key base) →
  ∃ op o, r = Ok (op, o) ∧ P o.
Proof.
  intros H%create_or_update_runs Hwa Hs Hm.
  destruct H as [t e Hg He|t t' x base err Hg Hx H|t t' x base o err Hg Hx H Hk
    |t t' t'' e o w Hg He H Hk Hw|t t' old Hg H|t t' t'' old o w Hg H Hne Hk Hw];
    apply execs_local in Hg as ->; rewrite ?Forall_app, ?Forall_cons in Hs, Hwa; destruct_and?;
    match goal with H : shows k P (Did (Get _ _) _) |- _ => destruct (H _ _ eq_refl) as (y & Hy & HP); cbn in Hy end; try done.
  - destruct x; [subst|done]. rewrite kind_dec_refl in Hy. simplify_eq. destruct (Hm _ _ _ HP H) as (? & ? & _); [|done].
    by apply within_r.
  - destruct x; [subst|done]. rewrite kind_dec_refl in Hy. simplify_eq. destruct (Hm _ _ _ HP H) as (n & [= ->] & E); [|].
    + by apply within_r.
    + destruct Hk. by rewrite E.
  - rewrite kind_dec_refl in Hy. simplify_eq. eauto.
  - apply execs_local in Hw as ->. rewrite Forall_singleton in *.
    match goal with H : shows k P (Did (Update _ _) _) |- _ => destruct (H _ _ eq_refl) as (z & Hz & HPz); cbn in Hz end.
    destruct w; [|done]. rewrite kind_dec_refl in Hz. simplify_eq. cbn. eauto.
Qed.

Lemma flux_types_distinct : AppHealthyCondition ≠ ArtifactDeployedCondition ∧ AppHealthyCondition ≠ "" ∧ ArtifactDeployedCondition ≠ "".
Proof.
  pose proof artifact_conditions_distinct as H. rewrite !NoDup_cons, !not_elem_of_cons in H. destruct_and! H. done.
Qed.

(** The mapping of a workload's conditions: [Ready] tells that it is deployed,
    another condition that it is healthy. *)
Lemma workload_healthy f other d cs tr d' :
  other ≠ conditionTypeReady →
  (∀ t, f t = if bool_decide (t = conditionTypeReady) then ArtifactDeployedCondition
              else if bool_decide (t = other) then AppHealthyCondition else "") →
  execs (mapConditions f d cs) tr d' → trueOnce conditionTypeReady cs → trueOnce other cs →
  IsStatusConditionTrue (ad_Conditions d') ArtifactDeployedCondition = true ∧
  IsStatusConditionTrue (ad_Conditions d') AppHealthyCondition = true.
Proof.
  destruct flux_types_distinct as (Hne & Hh & Hd). intros Ho Hf H (c & Hc & Et & Es & Hu) (c2 & Hc2 & Et2 & Es2 & Hu2).
  assert (Ef : f (c_Type c) = ArtifactDeployedCondition) by (rewrite Hf, Et; by rewrite bool_decide_eq_true_2).
  assert (Ef2 : f (c_Type c2) = AppHealthyCondition)
    by (rewrite Hf, Et2; by rewrite bool_decide_eq_false_2, bool_decide_eq_true_2).
  unfold IsStatusConditionTrue. split.
  - destruct (mapConditions_copies _ _ _ _ _ c H Hc) as (now & Hfind & Hst & _); [congruence| |].
    + intros c' Hin E. apply Hu; [done|]. rewrite Ef, Hf in E. repeat case_bool_decide; congruence.
    + rewrite Ef in Hfind. rewrite Hfind. apply bool_decide_eq_true_2. congruence.
  - destruct (mapConditions_copies _ _ _ _ _ c2 H Hc2) as (now & Hfind & Hst & _); [congruence| |].
    + intros c' Hin E. apply Hu2; [done|]. rewrite Ef2, Hf in E. repeat case_bool_decide; congruence.
    + rewrite Ef2 in Hfind. rewrite Hfind. apply bool_decide_eq_true_2. congruence.
Qed.

(** Each lookup that the calls contain resolves. *)
Definition secretResolves (d : ArtifactDeployment) (repo : string) (tr : list (obs clientE)) : Prop :=
  ∀ t s, execs (getSecretRef ExtractHostname GetSecretByConfigMap ResourceName d repo) t s → within t tr → is_ok s = true.
Definition kubeConfigResolves (d : ArtifactDeployment) (tr : list (obs clientE)) : Prop :=
  ∀ t s, execs (GetKubeConfigRef (ns d) (ad_ArtifactType d)) t s → within t tr → is_ok s = true.

(** A mutate function for an object that has been created succeeds with its
    lookup and keeps the metadata. *)
Ltac mutate_succeeds H Hlookup :=
  let Hx := fresh "Hx" in
  unfold ownNew in H; cbn in H;
  match type of H with context [om_CreationTimestamp ?m] => destruct (om_CreationTimestamp m) eqn:?; [|done] end;
  cbn in H; let t := fresh "t" in let x := fresh "x" in exec_bind H t x Hx;
  pose proof (Hlookup _ _ Hx ltac:(apply within_l));
  destruct x; [|done]; destruct H as [_ ->]; by eexists.

Lemma resolves_within {A} (p : Prog (result GoError A)) tr u :
  (∀ t s, execs p t s → within t tr → is_ok s = true) → within u tr →
  ∀ t s, execs p t s → within t u → is_ok s = true.
Proof. intros H Hu t s Ht Hin. eapply H; [done|]. by etrans. Qed.

Lemma helmRepository_succeeds d res t d' r :
  execs (reconcileHelmRepository ExtractHostname GetSecretByConfigMap ResourceName d res) t (d', r) →
  Forall well_answered t → Forall (shows KHelmRepository (isCreated KHelmRepository)) t →
  secretResolves d (hcr_Repository res) t → is_ok r = true.
Proof.
  unfold reconcileHelmRepository. intros H Hwa Hs Hl. exec_bind H t1 x H1. apply Forall_app in Hwa as [Hwa _], Hs as [Hs _].
  destruct (cou_succeeds KHelmRepository _ _ _ _ _ H1 Hwa Hs) as (op & o & -> & _); [|by exec_steps H].
  intros base u m Hb Hu Hin. unfold mutateHelmRepository in Hu.
  pose proof (resolves_within _ _ u Hl ltac:(etrans; [exact Hin|apply within_l])) as Hl'. mutate_succeeds Hu Hl'.
Qed.
Lemma ociRepository_succeeds d res t d' r :
  execs (reconcileOCIRepository ExtractHostname GetSecretByConfigMap ResourceName d res) t (d', r) →
  Forall well_answered t →
  Forall (shows KOCIRepository (λ x, isCreated KOCIRepository x ∧ IsStatusConditionTrue (oc_Conditions x) conditionTypeReady = true)) t →
  secretResolves d (kr_Repository res) t → r = Ok true.
Proof.
  unfold reconcileOCIRepository. intros H Hwa Hs Hl. exec_bind H t1 x H1. apply Forall_app in Hwa as [Hwa _], Hs as [Hs _].
  destruct (cou_succeeds KOCIRepository _ _ _ _ _ H1 Hwa Hs) as (op & o & -> & _ & Hr).
  - intros base u m [Hb _] Hu Hin. unfold mutateOCIRepository in Hu.
    pose proof (resolves_within _ _ u Hl ltac:(etrans; [exact Hin|apply within_l])) as Hl'. mutate_succeeds Hu Hl'.
  - cbn in H. destruct H as (u & t2 & -> & H). exec_bind H t3 d1 Hc. destruct H as [_ [= _ ->]]. by rewrite Hr.
Qed.

(** A workload whose object reports so is deployed and healthy. *)
Definition deployedAndHealthy (d : ArtifactDeployment) : Prop :=
  IsStatusConditionTrue (ad_Conditions d) ArtifactDeployedCondition = true ∧
  IsStatusConditionTrue (ad_Conditions d) AppHealthyCondition = true.

Lemma helmRelease_healthy d res t d' r :
  execs (reconcileHelmRelease d res) t (d', r) → Forall well_answered t →
  Forall (shows KHelmRelease (λ x, isCreated KHelmRelease x ∧
    trueOnce conditionTypeReady (hl_Conditions x) ∧ trueOnce "Released" (hl_Conditions x))) t →
  Forall (shows KHelmChart (λ x, IsStatusConditionTrue (hc_Conditions x) conditionTypeReady = true)) t →
  kubeConfigResolves d t → deployedAndHealthy d'.
Proof.
  unfold reconcileHelmRelease. intros H Hwa Hs Hch Hl. exec_bind H t1 x H1.
  apply Forall_app in Hwa as [Hwa _], Hs as [Hs _], Hch as [_ Hch].
  destruct (cou_succeeds KHelmRelease _ _ _ _ _ H1 Hwa Hs) as (op & o & -> & _ & Hr & Hh).
  - intros base u m [Hb _] Hu Hin. unfold mutateHelmRelease in Hu.
    pose proof (resolves_within _ _ u Hl ltac:(etrans; [exact Hin|apply within_l])) as Hl'. mutate_succeeds Hu Hl'.
  - cbn in H. destruct H as (g & t2 & -> & H). apply Forall_cons in Hch as [Hch _].
    destruct (Hch _ _ eq_refl) as (chart & Ec & Hready). cbn in Ec. destruct g as [chart'|]; [|done]. cbn in Ec. simplify_eq.
    cbn [prog_bind] in H. fold (@prog_bind clientE) in H.
    exec_bind H t3 m Hc. unfold mapStatusConditionsFromHelmChart in Hc. exec_bind Hc t4 d1 Hc'.
    destruct Hc as [-> ->]. cbn [fst snd] in H. rewrite Hready in H. exec_bind H t5 d2 H2. destruct H as [-> [= -> ->]].
    by eapply (workload_healthy mapHelmReleaseConditionType "Released").
Qed.
Lemma kustomization_healthy d res t d' r :
  execs (reconcileKustomization d res) t (d', r) → Forall well_answered t →
  Forall (shows KKustomization (λ x, isCreated KKustomization x ∧
    trueOnce conditionTypeReady (ku_Conditions x) ∧ trueOnce "Healthy" (ku_Conditions x))) t →
  kubeConfigResolves d t → deployedAndHealthy d'.
Proof.
  unfold reconcileKustomization. intros H Hwa Hs Hl. exec_bind H t1 x H1.
  apply Forall_app in Hwa as [Hwa _], Hs as [Hs _].
  destruct (cou_succeeds KKustomization _ _ _ _ _ H1 Hwa Hs) as (op & o & -> & _ & Hr & Hh).
  - intros base u m [Hb _] Hu Hin. unfold mutateKustomization in Hu.
    pose proof (resolves_within _ _ u Hl ltac:(etrans; [exact Hin|apply within_l])) as Hl'. mutate_succeeds Hu Hl'.
  - cbn in H. destruct H as (u & t2 & -> & H). exec_bind H t3 d1 Hc. destruct H as [-> [= -> ->]].
    by eapply (workload_healthy mapKustomizationConditionType "Healthy").
Qed.
End flux.
End FluxProps.
