(* ===== verification/ArtifactDeployment.v ===== *)
(** The ArtifactDeployment controllers of
    internal/fluxdeployer/internal/controller: the status updaters
    (deployment_result_status_updater.go, ready_condition_status_updater.go,
    behind the interface of status_updater.go) and the Helm and Kustomize
    reconcilers that drive the Flux reconcilers and patch the status. *)
From stdpp Require Import pretty.
From S2P Require Import Prelude GoBytes GoStrings Objects Client ControllerUtil FluxUtils FluxMapper FluxReconcilers.
Import FluxUtils FluxMapper FluxReconcilers.
Local Open Scope Z_scope.

Module ArtifactDeploymentController.

Definition ocmResourceTypeHelmChart : string := "helmChart".
Definition ocmResourceTypeKustomize : string := "kustomize".
Definition annotationDeploymentResult : string := "konfidence.cloud/deployment-result".
Definition annotationExposedPortName : string := "konfidence.cloud/exposed-port-name".
Definition artifactDeploymentStalledReasonExposePortNotFound : string := "ExposePortNotFound".
Definition artifactDeploymentStalledReasonExposePortUnsupportedProtocol : string :=
  "ExposePortUnsupportedProtocol".
Definition ArtifactTypeHelm : string := "helm.konfidence.cloud".
Definition ArtifactTypeKustomize : string := "kustomize.konfidence.cloud".
Definition artifactDeploymentRequeueInterval : Z := Minute.

(** [MutateStatus] of the interface [StatusUpdater]: the deployment with its
    status changed in memory, and the error. *)
Definition StatusUpdater : Type := ArtifactDeployment → Prog (ArtifactDeployment * result GoError unit).

Definition ad_set_results (rs : option (list DeploymentResult)) (d : ArtifactDeployment) : ArtifactDeployment := {|
  ad_Meta := ad_Meta d; ad_ArtifactType := ad_ArtifactType d; ad_Resources := ad_Resources d;
  ad_Conditions := ad_Conditions d; ad_DeploymentResults := rs |}.

(** * Exposed services *)

Definition protocolString (p : Protocol) : string :=
  match p with
  | ProtocolTCP => "TCP"
  | ProtocolUDP => "UDP"
  | ProtocolSCTP => "SCTP"
  | ProtocolOther p => p
  end.

Definition hasDeploymentResultName (s : Service) : bool :=
  negb (bool_decide (map_get (om_Annotations (svc_Meta s)) annotationDeploymentResult = "")).

Record exposureValidationError := { ev_reason : string; ev_message : string }.

Section services.
Context `{U : Unicode}.

Definition formatAvailablePorts (ports : list ServicePort) : string :=
  if (length ports =? 0)%nat then "none"
  else Join ((λ p, Quote (sp_Name p) +:+ "/" +:+ protocolString (sp_Protocol p)) <$> ports) ", ".

(** What the loop body finds wrong with one Service. *)
Definition validateService (s : Service) : option exposureValidationError :=
  if negb (hasDeploymentResultName s) then None
  else
    let selectedPort := map_get (om_Annotations (svc_Meta s)) annotationExposedPortName in
    if bool_decide (selectedPort = "") then None
    else
      match List.find (λ p, bool_decide (sp_Name p = selectedPort)) (svc_Ports s) with
      | None => Some {|
          ev_reason := artifactDeploymentStalledReasonExposePortNotFound;
          ev_message := "Service " +:+ Quote (om_Name (svc_Meta s)) +:+ ": annotation " +:+
            Quote annotationExposedPortName +:+ " names port " +:+ Quote selectedPort +:+
            ", but no Service port has that name (available ports: " +:+
            formatAvailablePorts (svc_Ports s) +:+ ")" |}
      | Some p =>
          if negb (bool_decide (sp_Protocol p = ProtocolTCP)) then Some {|
            ev_reason := artifactDeploymentStalledReasonExposePortUnsupportedProtocol;
            ev_message := "Service " +:+ Quote (om_Name (svc_Meta s)) +:+ ": annotation " +:+
              Quote annotationExposedPortName +:+ " names port " +:+ Quote selectedPort +:+
              ", which uses unsupported protocol " +:+ Quote (protocolString (sp_Protocol p)) +:+
              " (only TCP is supported)" |}
          else None
      end.

Fixpoint validateExposePorts (items : list Service) : option exposureValidationError :=
  match items with
  | [] => None
  | s :: rest =>
      match validateService s with
      | Some err => Some err
      | None => validateExposePorts rest
      end
  end.

(** [json.Marshal] of a [deploymentresult.ServiceSpec]. *)
Context (marshalServiceSpec : ServiceSpec → result GoError string).

Definition serviceSpecOf (s : Service) : ServiceSpec := {|
  ss_Namespace := om_Namespace (svc_Meta s);
  ss_K8sName := om_Name (svc_Meta s);
  ss_ServicePorts := svc_Ports s;
  ss_IngressExposedPortName := map_get (om_Annotations (svc_Meta s)) annotationExposedPortName |}.

(** The key of the map [seen]: name and type separated by a NUL byte. *)
Definition seenKey (resultName : string) : string :=
  resultName +:+ String "000"%char TypeHTTPK8sService.

Fixpoint mapServicesLoop (seen : gmap string string) (acc : list DeploymentResult) (items : list Service) :
    result GoError (list DeploymentResult) :=
  match items with
  | [] => Ok acc
  | s :: rest =>
      if negb (hasDeploymentResultName s) then mapServicesLoop seen acc rest
      else
        let resultName := map_get (om_Annotations (svc_Meta s)) annotationDeploymentResult in
        match seen !! seenKey resultName with
        | Some first =>
            Err (ENew ("services " +:+ Quote first +:+ " and " +:+ Quote (om_Name (svc_Meta s)) +:+
                       " both declare deployment result (name=" +:+ Quote resultName +:+ ", type=" +:+
                       Quote TypeHTTPK8sService +:+ "); the pair must be unique"))
        | None =>
            match marshalServiceSpec (serviceSpecOf s) with
            | Err err => Err (EWrap "failed to marshal deploymentResultServiceSpec" err)
            | Ok raw =>
                mapServicesLoop (<[seenKey resultName := om_Name (svc_Meta s)]> seen)
                  (acc ++ [{| dr_Name := resultName; dr_Type := TypeHTTPK8sService; dr_Spec := raw |}]) rest
            end
        end
  end.
Definition mapServicesToDeploymentResults (items : list Service) : result GoError (list DeploymentResult) :=
  mapServicesLoop ∅ [] items.
End services.

Section updaters.
Context `{KF : Konfidence, MC : MetaConditions, U : Unicode}.
Context (marshalServiceSpec : ServiceSpec → result GoError string).
(** [metav1.LabelSelectorAsSelector] of a single label and its value. *)
Context (LabelSelectorAsSelector : string → string → result GoError Selector).

Definition adCondition (d : ArtifactDeployment) (now : Z) (t : string) (s : ConditionStatus)
    (reason message : string) : Condition := {|
  c_Type := t; c_Status := s; c_Reason := reason; c_Message := message;
  c_ObservedGeneration := om_Generation (ad_Meta d); c_LastTransitionTime := Some now |}.

Definition setCondition (now : Z) (d : ArtifactDeployment) (c : Condition) : ArtifactDeployment :=
  ad_set_conditions (SetStatusCondition now (ad_Conditions d) c) d.

(** * DeploymentResultStatusUpdater *)

Definition setExposureValidationFailure (d : ArtifactDeployment) (err : exposureValidationError) :
    Prog ArtifactDeployment :=
  let d := ad_set_results None d in
  now ← trigger Now;
  Ret (foldl (λ d ts, setCondition now d (adCondition d now ts.1 ts.2 (ev_reason err) (ev_message err))) d
    [(DeploymentResultCreatedCondition, ConditionFalse);
     (ArtifactDeploymentReadyCondition, ConditionFalse);
     (StalledCondition, ConditionTrue)]).

Definition hasExposureValidationFailure (d : ArtifactDeployment) : bool :=
  match FindStatusCondition (ad_Conditions d) StalledCondition with
  | None => false
  | Some stalled =>
      if negb (bool_decide (c_Status stalled = ConditionTrue)) then false
      else bool_decide (c_Reason stalled = artifactDeploymentStalledReasonExposePortNotFound) ||
           bool_decide (c_Reason stalled = artifactDeploymentStalledReasonExposePortUnsupportedProtocol)
  end.

Definition fetchExposableServices (d : ArtifactDeployment) : Prog (result GoError (list Service)) :=
  match LabelSelectorAsSelector labelArtifactDeployment (SanitizeK8sResourceName (name d)) with
  | Err err => Ret (Err (EWrap "failed to create Selector" err))
  | Ok sel =>
      l ← trigger (List KService (ns d) sel);
      match l with
      | Err e => Ret (Err (EWrap "failed to list services by label selector" (EApi e)))
      | Ok items => Ret (Ok items)
      end
  end.

Definition DeploymentResult_MutateStatus : StatusUpdater := λ d,
  if hasExposureValidationFailure d then Ret (d, Ok ())
  else if negb (IsStatusConditionTrue (ad_Conditions d) ArtifactDeployedCondition) then Ret (d, Ok ())
  else
    l ← fetchExposableServices d;
    match l with
    | Err err => Ret (d, Err err)
    | Ok serviceList =>
        match validateExposePorts serviceList with
        | Some validationErr =>
            d' ← setExposureValidationFailure d validationErr;
            Ret (d', Ok ())
        | None =>
            match mapServicesToDeploymentResults marshalServiceSpec serviceList with
            | Err err => Ret (d, Err err)
            | Ok results =>
                let d := ad_set_results (Some results) d in
                now ← trigger Now;
                Ret (setCondition now d (adCondition d now DeploymentResultCreatedCondition ConditionTrue
                       DeploymentResultCreatedCondition "Successfully created DeploymentResult"), Ok ())
            end
        end
    end.

(** * ReadyConditionStatusUpdater *)

Definition ReadyCondition_MutateStatus : StatusUpdater := λ d,
  if IsStatusConditionTrue (ad_Conditions d) StalledCondition then Ret (d, Ok ())
  else if IsStatusConditionTrue (ad_Conditions d) AppHealthyCondition &&
          IsStatusConditionTrue (ad_Conditions d) DeploymentResultCreatedCondition then
    now ← trigger Now;
    Ret (setCondition now d (adCondition d now ArtifactDeploymentReadyCondition ConditionTrue
           ArtifactDeploymentReadyCondition "Successfully reconciled ArtifactDeployment"), Ok ())
  else Ret (d, Ok ()).
End updaters.

(** * The reconcilers *)

(** The fields of the reconciler structs that are interfaces.  [fr_Source] is the
    HelmRepository or OCIRepository reconciler, [fr_Workload] the HelmRelease or
    Kustomization reconciler. *)
Record Reconciler (R : Type) := {
  DeploymentResultStatusUpdater : StatusUpdater;
  ReadyConditionStatusUpdater : StatusUpdater;
  fr_Source : ArtifactDeployment → R → FluxStep;
  fr_Workload : ArtifactDeployment → R → FluxStep;
}.
Arguments DeploymentResultStatusUpdater {R} _.
Arguments ReadyConditionStatusUpdater {R} _.
Arguments fr_Source {R} _.
Arguments fr_Workload {R} _.
Definition HelmArtifactDeploymentReconciler : Type := Reconciler HelmChartResource.
Definition KustomizeArtifactDeploymentReconciler : Type := Reconciler KustomizeResource.

Section reconcile.
Context `{KF : Konfidence, MC : MetaConditions, U : Unicode}.
(** The method [ArtifactType] of an ArtifactDeployment, of the konfidence module. *)
Context (ArtifactType : ArtifactDeployment → string).

Definition resourcesOfType (t : string) (d : ArtifactDeployment) : list OCMResource :=
  List.filter (λ res, bool_decide (ocm_Type res = t)) (ad_Resources d).

(** The status patch, skipped when the status is what was read. *)
Definition patchStatus (original d : ArtifactDeployment) (r : Outcome) : Prog Outcome :=
  if negb (bool_decide ((ad_Conditions d, ad_DeploymentResults d) =
                        (ad_Conditions original, ad_DeploymentResults original))) then
    p ← trigger (StatusPatch KArtifactDeployment original d);
    match p with
    | Err e => fail_with (EWrap "unable to patch artifact deployment status" (EApi e))
    | Ok _ => Ret r
    end
  else Ret r.

(** More than one matching resource. *)
Definition refuse (resourceType reason : string) (n : nat) (d : ArtifactDeployment) : Prog Outcome :=
  let msg := "expected exactly one OCM resource of type " +:+ Quote resourceType +:+ ", found " +:+
             pretty n +:+ "; refusing to reconcile" in
  now ← trigger Now;
  patchStatus d (setCondition now d (adCondition d now ArtifactDeploymentReadyCondition ConditionFalse reason msg))
    (Err (ENew msg)).

(** The end of both reconcilers, from the state the Flux reconcilers leave: the
    errors of the updaters are only logged. *)
Definition finish {R} (r : Reconciler R) (original d : ArtifactDeployment) : Prog Outcome :=
  x ← DeploymentResultStatusUpdater r d;
  y ← ReadyConditionStatusUpdater r x.1;
  patchStatus original y.1 (Ok {| RequeueAfter := artifactDeploymentRequeueInterval |}).

(** The decoders of resource contents, parameters of the mapper. *)
Context (decodeAccessType : string → result GoError string).
Context (decodeHelmContent : string → result GoError HelmContent).
Context (decodeOciContent : string → result GoError OciContent).
Context (parseReference : string → result GoError Reference).

(** The Flux objects of the one matching resource; mapping errors and the errors
    of the Flux reconcilers are only logged. *)
Definition reconcileHelmChart (r : HelmArtifactDeploymentReconciler) (d : ArtifactDeployment) (res : OCMResource) :
    Prog ArtifactDeployment :=
  match ToHelm decodeAccessType decodeHelmContent decodeOciContent parseReference res with
  | Err _ => Ret d
  | Ok helmChartResource =>
      x ← fr_Source r d helmChartResource;
      match x with
      | (d, Err _) => Ret d
      | (d, Ok _) => y ← fr_Workload r d helmChartResource; Ret y.1
      end
  end.

Definition reconcileKustomize (r : KustomizeArtifactDeploymentReconciler) (d : ArtifactDeployment)
    (res : OCMResource) : Prog ArtifactDeployment :=
  match ToKustomize decodeOciContent parseReference res with
  | Err _ => Ret d
  | Ok kustomizeResource =>
      x ← fr_Source r d kustomizeResource;
      match x with
      | (d, Err _) => Ret d
      | (d, Ok true) => y ← fr_Workload r d kustomizeResource; Ret y.1
      | (d, Ok false) => Ret d
      end
  end.

(** [Reconcile] of both controllers, which differ in the artifact type they
    handle, the resource type they look for, the reason they refuse with and
    the Flux objects they manage. *)
Definition reconcileArtifact {R} (r : Reconciler R) (artifactType resourceType reason : string)
    (flux : ArtifactDeployment → OCMResource → Prog ArtifactDeployment) (req : NamespacedName) : Prog Outcome :=
  g ← trigger (Get KArtifactDeployment req);
  match g with
  | Err e =>
      if IsNotFound e then done_ok
      else fail_with (EWrap "failed to get artifact deployment object" (EApi e))
  | Ok deployment =>
      if negb (bool_decide (ArtifactType deployment = artifactType)) then done_ok
      else
        match resourcesOfType resourceType deployment with
        | [] => finish r deployment deployment
        | [ocmResource] => d ← flux deployment ocmResource; finish r deployment d
        | matches => refuse resourceType reason (length matches) deployment
        end
  end.

Definition HelmReconcile (r : HelmArtifactDeploymentReconciler) : NamespacedName → Prog Outcome :=
  reconcileArtifact r ArtifactTypeHelm ocmResourceTypeHelmChart "MultipleHelmChartResources" (reconcileHelmChart r).
Definition KustomizeReconcile (r : KustomizeArtifactDeploymentReconciler) : NamespacedName → Prog Outcome :=
  reconcileArtifact r ArtifactTypeKustomize ocmResourceTypeKustomize "MultipleKustomizeResources" (reconcileKustomize r).
End reconcile.

(** The structs as setup.go of fluxdeployer fills them in. *)
Section wiring.
Context `{KF : Konfidence, MC : MetaConditions, OW : OwnerReferences, FA : FluxAPI, CP : FluxConfigProvider}.
Context `{U : Unicode, CU : ControllerUtil}.
Context (ExtractHostname : string → result GoError string).
Context (GetSecretByConfigMap : string → string → Prog (result GoError string)).
Context (ResourceName : string → string).
Context (marshalServiceSpec : ServiceSpec → result GoError string).
Context (LabelSelectorAsSelector : string → string → result GoError Selector).

Definition helmReconciler : HelmArtifactDeploymentReconciler := {|
  DeploymentResultStatusUpdater := DeploymentResult_MutateStatus marshalServiceSpec LabelSelectorAsSelector;
  ReadyConditionStatusUpdater := ReadyCondition_MutateStatus;
  fr_Source := reconcileHelmRepository ExtractHostname GetSecretByConfigMap ResourceName;
  fr_Workload := reconcileHelmRelease |}.
Definition kustomizeReconciler : KustomizeArtifactDeploymentReconciler := {|
  DeploymentResultStatusUpdater := DeploymentResult_MutateStatus marshalServiceSpec LabelSelectorAsSelector;
  ReadyConditionStatusUpdater := ReadyCondition_MutateStatus;
  fr_Source := reconcileOCIRepository ExtractHostname GetSecretByConfigMap ResourceName;
  fr_Workload := reconcileKustomization |}.
End wiring.
End ArtifactDeploymentController.
