(* ===== verification/ExposedServices.v ===== *)
(** The deployment results of an ArtifactDeployment: what
    [validateExposePorts] and [mapServicesToDeploymentResults] accept, and that
    the results they produce are the ones the activation controller can route. *)
From S2P Require Import Prelude GoBytes GoStrings Objects Client FluxUtils RouteRules ArtifactDeployment.
Import ArtifactDeploymentController RouteRules.
Local Open Scope Z_scope.

Module ExposedServices.

(** * Specification *)

Definition resultName (s : Service) : string := map_get (om_Annotations (svc_Meta s)) annotationDeploymentResult.
Definition exposedPort (s : Service) : string :=
  map_get (om_Annotations (svc_Meta s)) ArtifactDeploymentController.annotationExposedPortName.

(** The Services that take part: those with a deployment-result name. *)
Definition optedIn (items : list Service) : list Service := filter (λ s, resultName s ≠ "") items.

(** The first port of the Service with the exposed name. *)
Definition firstPort (s : Service) (p : ServicePort) : Prop :=
  ∃ l1 l2, svc_Ports s = l1 ++ p :: l2 ∧ Forall (λ q, sp_Name q ≠ exposedPort s) l1 ∧ sp_Name p = exposedPort s.

(** What is wrong with the exposure of a Service, by the reason reported. *)
Inductive misexposed (s : Service) : string → Prop :=
| port_missing :
    resultName s ≠ "" → exposedPort s ≠ "" → Forall (λ p, sp_Name p ≠ exposedPort s) (svc_Ports s) →
    misexposed s artifactDeploymentStalledReasonExposePortNotFound
| port_not_tcp p :
    resultName s ≠ "" → exposedPort s ≠ "" → firstPort s p → sp_Protocol p ≠ ProtocolTCP →
    misexposed s artifactDeploymentStalledReasonExposePortUnsupportedProtocol.

(** The result a Service becomes. *)
Definition resultOf (marshal : ServiceSpec → result GoError string) (s : Service) (r : DeploymentResult) : Prop :=
  dr_Name r = resultName s ∧ dr_Type r = TypeHTTPK8sService ∧ marshal (serviceSpecOf s) = Ok (dr_Spec r).

(** * Validation *)

Lemma has_result_name s : hasDeploymentResultName s = true ↔ resultName s ≠ "".
Proof. unfold hasDeploymentResultName, resultName. rewrite negb_true_iff. apply bool_decide_eq_false. Qed.
Lemma has_no_result_name s : hasDeploymentResultName s = false ↔ resultName s = "".
Proof. unfold hasDeploymentResultName, resultName. rewrite negb_false_iff. apply bool_decide_eq_true. Qed.

Lemma find_port s p :
  List.find (λ p, bool_decide (sp_Name p = exposedPort s)) (svc_Ports s) = Some p ↔ firstPort s p.
Proof.
  rewrite find_first. unfold firstPort. setoid_rewrite bool_decide_eq_true.
  setoid_rewrite bool_decide_eq_false. done.
Qed.
Lemma find_no_port s :
  List.find (λ p, bool_decide (sp_Name p = exposedPort s)) (svc_Ports s) = None ↔
  Forall (λ p, sp_Name p ≠ exposedPort s) (svc_Ports s).
Proof.
  induction (svc_Ports s) as [|p l IH]; cbn; [naive_solver|]. rewrite Forall_cons, <-IH.
  case_bool_decide; naive_solver.
Qed.

Section services.
Context `{U : Unicode}.

Lemma validateService_spec s :
  match validateService s with
  | Some e => misexposed s (ev_reason e)
  | None => ∀ why, ¬ misexposed s why
  end.
Proof.
  unfold validateService. fold (exposedPort s).
  destruct (hasDeploymentResultName s) eqn:Hn; cbn [negb].
  2:{ apply has_no_result_name in Hn. by intros why []. }
  apply has_result_name in Hn. case_bool_decide as Hp; [by intros why []|].
  destruct (List.find _ _) as [p|] eqn:Ef.
  - case_bool_decide as Ht; cbn [negb].
    + intros why [_ _ Hno|p' _ _ Hf Hp']; [apply find_no_port in Hno|apply find_port in Hf]; congruence.
    + cbn. apply find_port in Ef. by eapply port_not_tcp.
  - cbn. apply find_no_port in Ef. by apply port_missing.
Qed.

Lemma validate_app items s rest :
  (∀ x, x ∈ items → validateService x = None) →
  validateExposePorts (items ++ s :: rest) =
  match validateService s with Some e => Some e | None => validateExposePorts rest end.
Proof.
  induction items as [|x items IH]; intros H; cbn; [done|].
  rewrite H by (by left). apply IH. intros y Hy. apply H. by right.
Qed.

Lemma validate_none items : validateExposePorts items = None ↔ ∀ s, s ∈ items → validateService s = None.
Proof.
  induction items as [|x items IH]; cbn.
  - split; [intros _ s Hs; by apply elem_of_nil in Hs|done].
  - setoid_rewrite elem_of_cons. destruct (validateService x) eqn:Ex; [|rewrite IH; naive_solver].
    split; [done|]. intros H. specialize (H x (or_introl eq_refl)). congruence.
Qed.

Lemma validate_reason items e : validateExposePorts items = Some e → ∃ s, misexposed s (ev_reason e).
Proof.
  induction items as [|x items IH]; cbn; [done|]. pose proof (validateService_spec x) as Hx.
  destruct (validateService x); [intros [= ->]; by exists x|done].
Qed.

(** Validation reports the first Service, in list order, whose exposed port
    is missing or not TCP, with the reason that applies to it; it accepts
    exactly the lists in which no Service is misexposed. *)
Theorem validate_spec items :
  match validateExposePorts items with
  | Some e => ∃ l1 s l2, items = l1 ++ s :: l2 ∧ (∀ x why, x ∈ l1 → ¬ misexposed x why) ∧
                misexposed s (ev_reason e) ∧ validateService s = Some e
  | None => ∀ s why, s ∈ items → ¬ misexposed s why
  end.
Proof.
  induction items as [|x items IH]; cbn; [intros s why Hs; by apply elem_of_nil in Hs|].
  pose proof (validateService_spec x) as Hx. destruct (validateService x) as [e|] eqn:Ex.
  - exists [], x, items. split_and!; [done| |done|done]. intros ? ? Hs. by apply elem_of_nil in Hs.
  - destruct (validateExposePorts items) as [e|].
    + destruct IH as (l1 & s & l2 & -> & H1 & H2 & H3). exists (x :: l1), s, l2. split_and!; try done.
      intros y why [->|Hy]%elem_of_cons; [apply Hx|by eapply H1].
    + intros s why [->|Hs]%elem_of_cons; [apply Hx|by eapply IH].
Qed.

(** * Mapping *)

Context (marshal : ServiceSpec → result GoError string).

Lemma seenKey_inj a b : seenKey a = seenKey b → a = b.
Proof.
  unfold seenKey. intros H. apply (f_equal to_list) in H. rewrite !to_list_app in H.
  apply app_inv_tail in H. rewrite <-(of_to_list a), <-(of_to_list b). by f_equal.
Qed.

Lemma opted_cons s items :
  optedIn (s :: items) = if hasDeploymentResultName s then s :: optedIn items else optedIn items.
Proof.
  unfold optedIn. rewrite filter_cons. destruct (hasDeploymentResultName s) eqn:E.
  - apply has_result_name in E. by rewrite decide_True.
  - apply has_no_result_name in E. rewrite decide_False; [done|]. naive_solver.
Qed.

(** The loop from a state in which the names [ks] have been seen. *)
Lemma mapServicesLoop_spec (seen : gmap string string) acc items rs :
  mapServicesLoop marshal seen acc items = Ok rs ↔
  NoDup (resultName <$> optedIn items) ∧
  (∀ s, s ∈ optedIn items → seen !! seenKey (resultName s) = None) ∧
  ∃ rs', rs = acc ++ rs' ∧ Forall2 (resultOf marshal) (optedIn items) rs'.
Proof.
  revert seen acc. induction items as [|s items IH]; intros seen acc; cbn [mapServicesLoop].
  - split; [intros [= <-]|].
    + split_and!; [constructor|intros ? Hs; by apply elem_of_nil in Hs|].
      exists []. by rewrite app_nil_r.
    + intros (_ & _ & rs' & -> & H). apply Forall2_nil_inv_l in H as ->. by rewrite app_nil_r.
  - rewrite opted_cons. destruct (hasDeploymentResultName s) eqn:En; cbn [negb]; [|apply IH].
    fold (resultName s). cbn [fmap list_fmap]. rewrite NoDup_cons.
    destruct (seen !! seenKey (resultName s)) as [first|] eqn:Es.
    { split; [done|]. intros (_ & H & _). rewrite H in Es; [done|by left]. }
    destruct (marshal (serviceSpecOf s)) as [raw|err] eqn:Em.
    2:{ split; [done|]. intros (_ & _ & rs' & _ & H). apply Forall2_cons_inv_l in H as (r & ? & (_ & _ & H) & _).
        congruence. }
    rewrite IH. split.
    + intros (Hnd & Hseen & rs' & -> & Hrs). split_and!; [|done| |].
      * intros (x & Hn & Hx)%list_elem_of_fmap. specialize (Hseen x Hx). by rewrite Hn, lookup_insert_eq in Hseen.
      * intros x [->|Hx]%elem_of_cons; [done|]. specialize (Hseen x Hx). by apply lookup_insert_None in Hseen as [? _].
      * eexists. split; [by rewrite <-app_assoc|]. constructor; [|done]. by split_and!.
    + intros ([Hni Hnd] & Hseen & rs' & -> & Hrs). split_and!; [done| |].
      * intros x Hx. apply lookup_insert_None. split; [apply Hseen; by right|].
        intros Hk%seenKey_inj. destruct Hni. rewrite Hk. by apply list_elem_of_fmap_2.
      * apply Forall2_cons_inv_l in Hrs as (r & l & (H1 & H2 & H3) & Hl & ->). exists l.
        rewrite <-app_assoc. split; [|done]. destruct r as [n t raw']; cbn in *. rewrite Em in H3.
        injection H3 as ->. by rewrite H1, H2.
Qed.

(** The deployment results are one per opted-in Service, in list order; mapping
    succeeds exactly when no two of them share a name and every payload encodes. *)
Lemma mapServices_iff items rs :
  mapServicesToDeploymentResults marshal items = Ok rs ↔
  NoDup (resultName <$> optedIn items) ∧ Forall2 (resultOf marshal) (optedIn items) rs.
Proof.
  unfold mapServicesToDeploymentResults. rewrite mapServicesLoop_spec. split.
  - intros (H & _ & rs' & -> & Hrs). done.
  - intros [H Hrs]. split_and!; [done|intros; apply lookup_empty|by exists rs].
Qed.

(** * What the activation controller makes of the results *)

(** [json.Unmarshal] into a [deploymentresult.ServiceSpec], on the side of the
    activation controller. *)
Context (decode : string → result GoError ServiceSpec).
(** Decoding gives back what was encoded, for the Services at hand. *)
Definition json_inverse (items : list Service) : Prop :=
  ∀ s raw, s ∈ items → marshal (serviceSpecOf s) = Ok raw → decode raw = Ok (serviceSpecOf s).

Lemma opted_elem s items : s ∈ optedIn items ↔ s ∈ items ∧ resultName s ≠ "".
Proof. unfold optedIn. rewrite list_elem_of_filter. naive_solver. Qed.

(** The target of an opted-in Service that is exposed. *)
Definition serviceTarget (s : Service) (t : routeTarget) : Prop :=
  exposedPort s ≠ "" ∧ ∃ p, firstPort s p ∧ sp_Protocol p = ProtocolTCP ∧
  t = {| tg_name := resultName s; tg_service := om_Name (svc_Meta s); tg_port := sp_Port p |}.

Lemma result_exposes items s r t :
  json_inverse items → s ∈ items → resultOf marshal s r → exposes decode r t ↔ serviceTarget s t.
Proof.
  intros Hj Hs (Hn & Ht & Hm). specialize (Hj _ _ Hs Hm). rewrite exposes_find.
  unfold serviceTarget. setoid_rewrite <-find_port. rewrite Hj, Hn. split.
  - intros (_ & spec & p & [= <-] & H1 & H2 & H3 & H4). split; [done|]. by exists p.
  - intros (H1 & p & H2 & H3 & ->). split; [done|]. by exists (serviceSpecOf s), p.
Qed.
Lemma result_unrouted items s r :
  json_inverse items → s ∈ items → resultOf marshal s r → unrouted decode r ↔ exposedPort s = "".
Proof.
  intros Hj Hs (Hn & Ht & Hm). specialize (Hj _ _ Hs Hm). unfold unrouted. rewrite Hj. split.
  - intros H. by destruct (H Ht) as (spec & [= <-] & ?).
  - intros H _. by exists (serviceSpecOf s).
Qed.

Lemma service_ok s :
  resultName s ≠ "" → validateService s = None ↔ exposedPort s = "" ∨ ∃ t, serviceTarget s t.
Proof.
  intros Hn. unfold validateService. fold (exposedPort s). apply has_result_name in Hn as ->. cbn [negb].
  case_bool_decide as Hp; [by split; [left|]|]. unfold serviceTarget.
  destruct (List.find _ _) as [p|] eqn:Ef.
  - assert (Hf : firstPort s p) by (by apply find_port). case_bool_decide as Ht; cbn [negb].
    + split; [right; eauto 10|done].
    + split; [done|]. intros [?|(t & _ & p' & Hf' & Ht' & _)]; [done|].
      apply find_port in Hf'. congruence.
  - split; [done|]. intros [?|(t & _ & p' & Hf' & _)]; [done|]. apply find_port in Hf'. congruence.
Qed.

Lemma result_routable items s r :
  json_inverse items → s ∈ items → resultName s ≠ "" → resultOf marshal s r →
  routable decode r ↔ validateService s = None.
Proof.
  intros Hj Hs Hn Hr. unfold routable. rewrite service_ok, (result_unrouted items s) by done.
  by setoid_rewrite (result_exposes items s r _ Hj Hs Hr).
Qed.

Lemma results_names items rs :
  Forall2 (resultOf marshal) (optedIn items) rs →
  (λ r, (dr_Name r, dr_Type r)) <$> rs = (λ n, (n, TypeHTTPK8sService)) <$> (resultName <$> optedIn items).
Proof.
  induction 1 as [|s r ss rs (Hn & Ht & _) _ IH]; [done|].
  cbn [fmap list_fmap] in *. by rewrite IH, Hn, Ht.
Qed.

Lemma skipped_service s : resultName s = "" → validateService s = None.
Proof. intros H. unfold validateService. by apply has_no_result_name in H as ->. Qed.

Lemma results_routable items rs :
  json_inverse items → mapServicesToDeploymentResults marshal items = Ok rs →
  NoDup ((λ r, (dr_Name r, dr_Type r)) <$> rs) ∧
  (validateExposePorts items = None ↔ Forall (routable decode) rs) ∧
  ∀ t, (∃ r, r ∈ rs ∧ exposes decode r t) ↔ ∃ s, s ∈ optedIn items ∧ serviceTarget s t.
Proof.
  intros Hjson Hmap. apply mapServices_iff in Hmap as [Hnd Hrs]. split_and!.
  - rewrite (results_names items) by done. apply NoDup_fmap_2; [|done]. by intros a b [= ->].
  - rewrite validate_none. split.
    + intros Hv. apply Forall_forall. intros r Hr.
      destruct (Forall2_elem_r _ _ _ r Hrs Hr) as (s & [Hs Hn]%opted_elem & Hsr).
      apply (result_routable items s); auto.
    + intros Hall s Hs. destruct (decide (resultName s = "")) as [Hn|Hn]; [by apply skipped_service|].
      destruct (Forall2_elem_l _ _ _ s Hrs) as (r & Hr & Hsr); [by apply opted_elem|].
      rewrite Forall_forall in Hall. by eapply (result_routable items s r); auto.
  - intros t. split.
    + intros (r & Hr & He). destruct (Forall2_elem_r _ _ _ r Hrs Hr) as (s & Hs & Hsr).
      exists s. split; [done|]. apply opted_elem in Hs as [Hs _]. by eapply result_exposes.
    + intros (s & Hs & Ht). destruct (Forall2_elem_l _ _ _ s Hrs) as (r & Hr & Hsr); [done|].
      exists r. split; [done|]. apply opted_elem in Hs as [Hs _]. by eapply result_exposes.
Qed.

(** The deployer's validation agrees with the router: the mapped results are
    unique by name and type; the Services pass validation exactly when the
    activation controller can handle every result; and the targets it routes
    are exactly the exposed ports of the opted-in Services, under the annotated
    names. *)
Theorem validated_results_routable items rs
  (Hjson : json_inverse items)
  (Hmap : mapServicesToDeploymentResults marshal items = Ok rs) :
  NoDup ((λ r, (dr_Name r, dr_Type r)) <$> rs) ∧
  (validateExposePorts items = None ↔ Forall (routable decode) rs) ∧
  ∀ t, (∃ r, r ∈ rs ∧ exposes decode r t) ↔ ∃ s, s ∈ optedIn items ∧ serviceTarget s t.
Proof. by apply results_routable. Qed.
End services.

(** * Witnesses *)

Section witnesses.
#[local] Existing Instance caseless_unicode.

Definition annotated (m : ObjectMeta) (a : gmap string string) : ObjectMeta := {|
  om_Name := om_Name m; om_Namespace := om_Namespace m; om_Labels := om_Labels m; om_Annotations := a;
  om_Finalizers := om_Finalizers m; om_DeletionTimestamp := om_DeletionTimestamp m;
  om_CreationTimestamp := om_CreationTimestamp m; om_Generation := om_Generation m; om_UID := om_UID m;
  om_ResourceVersion := om_ResourceVersion m; om_OwnerReferences := om_OwnerReferences m |}.
Definition web_service : Service := {|
  svc_Meta := annotated (new_meta "ns" "svc" ∅)
    {[ annotationDeploymentResult := "web"; ArtifactDeploymentController.annotationExposedPortName := "http" ]};
  svc_Ports := [sample_port] |}.
(** Payloads are written as the exposed port name. *)
Definition sample_marshal (spec : ServiceSpec) : result GoError string := Ok (ss_IngressExposedPortName spec).
Definition web_result : DeploymentResult :=
  {| dr_Name := "web"; dr_Type := TypeHTTPK8sService; dr_Spec := "http" |}.

Lemma web_json : json_inverse sample_marshal sample_decodeService [web_service].
Proof. intros s raw ->%list_elem_of_singleton [= <-]. reflexivity. Qed.

Lemma validated_results_routable_witness : Forall (routable sample_decodeService) [web_result].
Proof.
  refine (proj1 (proj1 (proj2 (validated_results_routable sample_marshal sample_decodeService
    [web_service] [web_result] web_json _))) _); reflexivity.
Defined.
End witnesses.
End ExposedServices.
