(* ===== verification/ArtifactDeploymentProps.v ===== *)
(** Properties of the ArtifactDeployment controllers: the status as a state
    machine, what a Ready deployment has gone through, and the calls of a run. *)
From stdpp Require Import relations.
From S2P Require Import Prelude GoBytes GoStrings Objects Client ControllerUtil FakeApi.
From S2P Require Import FluxUtils FluxMapper FluxReconcilers FluxProps RouteRules ArtifactDeployment ExposedServices.
Import FluxUtils FluxMapper FluxReconcilers FluxProps RouteRules ArtifactDeploymentController ExposedServices.
Local Open Scope Z_scope.

Module ArtifactDeploymentProps.

(** The status patch of an observed call: the object it starts from and the
    object it sends. *)
Definition patchOf (o : obs clientE) : option (ArtifactDeployment * ArtifactDeployment) :=
  match o with
  | Did e _ =>
      match e with
      | StatusPatch k old new =>
          match kind_dec k KArtifactDeployment with
          | left E => Some (cast E old, cast E new)
          | right _ => None
          end
      | _ => None
      end
  end.
Lemma patchOf_writes o p : patchOf o = Some p → writes KArtifactDeployment o.
Proof. destruct o as [X e x]. destruct e; cbn; try done. by destruct (kind_dec _ _). Qed.
Lemma no_patch l o p : Forall (λ o, ¬ writes KArtifactDeployment o) l → o ∈ l → patchOf o ≠ Some p.
Proof. rewrite Forall_forall. intros H Ho Hp. eapply H; [done|]. by eapply patchOf_writes. Qed.

(** * The status as a state machine *)

(** What of the status decides the behaviour of the updaters. *)
Record phase := { ph_ready : bool; ph_created : bool; ph_stalled : bool; ph_failed : bool }.

(** The DeploymentResult updater: nothing, results created, or exposure refused,
    the last two only before an exposure failure. *)
Inductive resultsStep (p : phase) : phase → Prop :=
| results_same : resultsStep p p
| results_created : ph_failed p = false →
    resultsStep p {| ph_ready := ph_ready p; ph_created := true; ph_stalled := ph_stalled p; ph_failed := false |}
| results_refused : ph_failed p = false →
    resultsStep p {| ph_ready := false; ph_created := false; ph_stalled := true; ph_failed := true |}.
(** The Ready updater. *)
Inductive readyStep (p : phase) : phase → Prop :=
| ready_same : readyStep p p
| ready_set : ph_stalled p = false → ph_created p = true →
    readyStep p {| ph_ready := true; ph_created := true; ph_stalled := false; ph_failed := ph_failed p |}.
(** A reconcile: refused for its resources, or the two updaters in order. *)
Inductive phaseStep (p : phase) : phase → Prop :=
| phase_refused : phaseStep p {| ph_ready := false; ph_created := ph_created p; ph_stalled := ph_stalled p;
                                 ph_failed := ph_failed p |}
| phase_updated p1 p2 : resultsStep p p1 → readyStep p1 p2 → phaseStep p p2.

(** The two controllers. *)
Inductive controller := Helm | Kustomize.

Section controllers.
Context `{KF : Konfidence, MC : MetaConditions, OW : OwnerReferences, FA : FluxAPI, CP : FluxConfigProvider}.
Context `{U : Unicode, CU : ControllerUtil}.
Context (ExtractHostname : string → result GoError string).
Context (GetSecretByConfigMap : string → string → Prog (result GoError string)).
Context (ResourceName : string → string).
Context (marshal : ServiceSpec → result GoError string).
Context (LabelSelectorAsSelector : string → string → result GoError Selector).
Context (ArtifactType : ArtifactDeployment → string).
Context (decodeAccessType : string → result GoError string).
Context (decodeHelmContent : string → result GoError HelmContent).
Context (decodeOciContent : string → result GoError OciContent).
Context (parseReference : string → result GoError Reference).

Abbreviation helm :=
  (helmReconciler ExtractHostname GetSecretByConfigMap ResourceName marshal LabelSelectorAsSelector).
Abbreviation kustomize :=
  (kustomizeReconciler ExtractHostname GetSecretByConfigMap ResourceName marshal LabelSelectorAsSelector).
Abbreviation helmRepositoryFor := (helmRepositoryFor ExtractHostname GetSecretByConfigMap ResourceName).
Abbreviation ociRepositoryFor := (ociRepositoryFor ExtractHostname GetSecretByConfigMap ResourceName).
Abbreviation helmFlux := (reconcileHelmChart decodeAccessType decodeHelmContent decodeOciContent parseReference helm).
Abbreviation kustomizeFlux := (reconcileKustomize decodeOciContent parseReference kustomize).

Definition Reconcile (c : controller) : NamespacedName → Prog Outcome :=
  match c with
  | Helm => HelmReconcile ArtifactType decodeAccessType decodeHelmContent decodeOciContent parseReference helm
  | Kustomize => KustomizeReconcile ArtifactType decodeOciContent parseReference kustomize
  end.
(** What the two differ in. *)
Definition handledType (c : controller) : string :=
  match c with Helm => ArtifactTypeHelm | Kustomize => ArtifactTypeKustomize end.
Definition resourceType (c : controller) : string :=
  match c with Helm => ocmResourceTypeHelmChart | Kustomize => ocmResourceTypeKustomize end.
Definition refuseReason (c : controller) : string :=
  match c with Helm => "MultipleHelmChartResources" | Kustomize => "MultipleKustomizeResources" end.
Definition fluxOf (c : controller) : ArtifactDeployment → OCMResource → Prog ArtifactDeployment :=
  match c with Helm => helmFlux | Kustomize => kustomizeFlux end.
Definition updateStatus (d : ArtifactDeployment) : Prog ArtifactDeployment :=
  x ← DeploymentResult_MutateStatus marshal LabelSelectorAsSelector d;
  y ← ReadyCondition_MutateStatus x.1; Ret y.1.

(** ** The updaters *)

Definition phaseOf (d : ArtifactDeployment) : phase := {|
  ph_ready := IsStatusConditionTrue (ad_Conditions d) ArtifactDeploymentReadyCondition;
  ph_created := IsStatusConditionTrue (ad_Conditions d) DeploymentResultCreatedCondition;
  ph_stalled := IsStatusConditionTrue (ad_Conditions d) StalledCondition;
  ph_failed := hasExposureValidationFailure d |}.

Definition withResults (now : Z) (d : ArtifactDeployment) (rs : list DeploymentResult) : ArtifactDeployment :=
  setCondition now (ad_set_results (Some rs) d) (adCondition d now DeploymentResultCreatedCondition ConditionTrue
    DeploymentResultCreatedCondition "Successfully created DeploymentResult").
Definition withFailure (now : Z) (d : ArtifactDeployment) (e : exposureValidationError) : ArtifactDeployment :=
  foldl (λ d ts, setCondition now d (adCondition d now ts.1 ts.2 (ev_reason e) (ev_message e))) (ad_set_results None d)
    [(DeploymentResultCreatedCondition, ConditionFalse); (ArtifactDeploymentReadyCondition, ConditionFalse);
     (StalledCondition, ConditionTrue)].
Definition withReady (now : Z) (d : ArtifactDeployment) : ArtifactDeployment :=
  setCondition now d (adCondition d now ArtifactDeploymentReadyCondition ConditionTrue
    ArtifactDeploymentReadyCondition "Successfully reconciled ArtifactDeployment").
Definition withRefusal (now : Z) (d : ArtifactDeployment) (reason msg : string) : ArtifactDeployment :=
  setCondition now d (adCondition d now ArtifactDeploymentReadyCondition ConditionFalse reason msg).

Inductive resultsUpdate (d : ArtifactDeployment) : ArtifactDeployment → Prop :=
| ru_same : resultsUpdate d d
| ru_created items rs now :
    hasExposureValidationFailure d = false →
    IsStatusConditionTrue (ad_Conditions d) ArtifactDeployedCondition = true →
    validateExposePorts items = None → mapServicesToDeploymentResults marshal items = Ok rs →
    resultsUpdate d (withResults now d rs)
| ru_refused items e now :
    hasExposureValidationFailure d = false →
    IsStatusConditionTrue (ad_Conditions d) ArtifactDeployedCondition = true →
    validateExposePorts items = Some e → resultsUpdate d (withFailure now d e).
Inductive readyUpdate (d : ArtifactDeployment) : ArtifactDeployment → Prop :=
| yu_same : readyUpdate d d
| yu_ready now :
    IsStatusConditionTrue (ad_Conditions d) StalledCondition = false →
    IsStatusConditionTrue (ad_Conditions d) AppHealthyCondition = true →
    IsStatusConditionTrue (ad_Conditions d) DeploymentResultCreatedCondition = true →
    readyUpdate d (withReady now d).

Lemma results_runs d t x :
  execs (DeploymentResult_MutateStatus marshal LabelSelectorAsSelector d) t x →
  resultsUpdate d x.1 ∧ Forall reads t.
Proof.
  unfold DeploymentResult_MutateStatus. intros H.
  destruct (hasExposureValidationFailure d) eqn:Hf; [by destruct H as [-> ->]; split; [constructor|]|].
  destruct (IsStatusConditionTrue (ad_Conditions d) ArtifactDeployedCondition) eqn:Hd; cbn [negb] in H;
    [|by destruct H as [-> ->]; split; [constructor|]].
  exec_bind H t1 l Hl. assert (Hr : Forall reads t1).
  { unfold fetchExposableServices in Hl. exec_steps Hl; reads_walk. }
  destruct l as [items|err]; [|destruct H as [-> ->]; rewrite app_nil_r; by split; [constructor|]].
  destruct (validateExposePorts items) as [e|] eqn:Hv.
  - cbn in H. destruct H as (now & u & -> & -> & ->). split; [by eapply ru_refused|].
    apply Forall_app. split; [done|]. reads_walk.
  - destruct (mapServicesToDeploymentResults marshal items) as [rs|err] eqn:Hm.
    + cbn in H. destruct H as (now & u & -> & -> & ->). split; [by eapply (ru_created d items rs)|].
      apply Forall_app. split; [done|]. reads_walk.
    + destruct H as [-> ->]. rewrite app_nil_r. by split; [constructor|].
Qed.

Lemma ready_runs d t x :
  execs (ReadyCondition_MutateStatus d) t x → readyUpdate d x.1 ∧ Forall reads t ∧ x.2 = Ok ().
Proof.
  unfold ReadyCondition_MutateStatus. intros H.
  destruct (IsStatusConditionTrue (ad_Conditions d) StalledCondition) eqn:Hs;
    [by destruct H as [-> ->]; split_and!; [constructor|..]|].
  destruct (_ && _) eqn:Ha; [apply andb_true_iff in Ha as [Ha Hc]|by destruct H as [-> ->]; split_and!; [constructor|..]].
  cbn in H. destruct H as (now & u & -> & -> & ->). split_and!; [by apply yu_ready|reads_walk|done].
Qed.
(** ** Runs of a reconciler *)

(** The konfidence module's lookups only read. *)
Hypothesis secret_reads : ∀ cm domain t r, execs (GetSecretByConfigMap cm domain) t r → Forall reads t.
Hypothesis kubeconfig_reads : ∀ l a t r, execs (GetKubeConfigRef l a) t r → Forall reads t.

Lemma managed_no_status (k : kind) (P : obj k → Prop) d l :
  k ≠ KArtifactDeployment → managed k P d l → Forall (λ o, ¬ writes KArtifactDeployment o) l.
Proof.
  intros Hk H. apply Forall_forall. intros o (l1 & l2 & El)%list_elem_of_split Hw.
  destruct (H _ _ _ El) as (v & new & Hq & _); [by eexists|]. unfold writes in Hw. rewrite Hq in Hw. naive_solver.
Qed.
Lemma reads_no_status l : Forall reads l → Forall (λ o, ¬ writes KArtifactDeployment o) l.
Proof. intros H. eapply Forall_impl; [exact H|]. intros o Ho. apply Ho. Qed.

Lemma helmFlux_runs d res t d' :
  execs (helmFlux d res) t d' → framed d d' ∧ Forall (λ o, ¬ writes KArtifactDeployment o) t.
Proof.
  unfold reconcileHelmChart. intros H. destruct (ToHelm _ _ _ _ res) as [h|e]; [|by destruct H as [-> ->]].
  exec_bind H t1 x H1. destruct x as [d1 r1]. apply helmRepository_step in H1 as (Hf & Hm & _); [|done].
  apply managed_no_status in Hm; [|done]. destruct r1 as [b|e].
  - exec_bind H t2 y H2. destruct y as [d2 r2]. destruct H as [-> ->]. rewrite app_nil_r.
    apply helmRelease_step in H2 as [Hf2 Hm2]; [|done]. apply managed_no_status in Hm2; [|done].
    split; [by etrans|]. by apply Forall_app.
  - destruct H as [-> ->]. by rewrite app_nil_r.
Qed.
Lemma kustomizeFlux_runs d res t d' :
  execs (kustomizeFlux d res) t d' → framed d d' ∧ Forall (λ o, ¬ writes KArtifactDeployment o) t.
Proof.
  unfold reconcileKustomize. intros H. destruct (ToKustomize _ _ res) as [h|e]; [|by destruct H as [-> ->]].
  exec_bind H t1 x H1. destruct x as [d1 r1]. apply ociRepository_step in H1 as (Hf & Hm & _); [|done].
  apply managed_no_status in Hm; [|done]. destruct r1 as [[|]|e].
  - exec_bind H t2 y H2. destruct y as [d2 r2]. destruct H as [-> ->]. rewrite app_nil_r.
    apply kustomization_step in H2 as [Hf2 Hm2]; [|done]. apply managed_no_status in Hm2; [|done].
    split; [by etrans|]. by apply Forall_app.
  - destruct H as [-> ->]. by rewrite app_nil_r.
  - destruct H as [-> ->]. by rewrite app_nil_r.
Qed.
Lemma flux_runs c d res t d' :
  execs (fluxOf c d res) t d' → framed d d' ∧ Forall (λ o, ¬ writes KArtifactDeployment o) t.
Proof. destruct c; [apply helmFlux_runs|apply kustomizeFlux_runs]. Qed.

(** The Flux part of a run: nothing without a resource of the handled type. *)
Definition fluxRun (c : controller) (d : ArtifactDeployment) (t : list (obs clientE)) (d1 : ArtifactDeployment) : Prop :=
  (resourcesOfType (resourceType c) d = [] ∧ t = [] ∧ d1 = d) ∨
  ∃ res, resourcesOfType (resourceType c) d = [res] ∧ execs (fluxOf c d res) t d1.

Definition patchFailed (e : ApiError) : GoError := EWrap "unable to patch artifact deployment status" (EApi e).
Definition sameStatus (d d' : ArtifactDeployment) : Prop :=
  ad_Conditions d' = ad_Conditions d ∧ ad_DeploymentResults d' = ad_DeploymentResults d.

Lemma patchStatus_runs d d' out t r :
  execs (patchStatus d d' out) t r →
  (sameStatus d d' ∧ t = [] ∧ r = out) ∨
  (¬ sameStatus d d' ∧ ∃ x, t = [Did (StatusPatch KArtifactDeployment d d') x] ∧
     r = match x with Ok _ => out | Err e => Err (patchFailed e) end).
Proof.
  unfold patchStatus. case_bool_decide as E; cbn [negb].
  - intros [-> ->]. left. by simplify_eq.
  - cbn. intros (x & t' & -> & H). right. split; [intros [H1 H2]; by rewrite H1, H2 in E|].
    exists x. destruct x; by destruct H as [-> ->].
Qed.

Inductive reconciled (c : controller) (req : NamespacedName) : list (obs clientE) → Outcome → Prop :=
| rec_get_failed e :
    reconciled c req [Did (Get KArtifactDeployment req) (Err e)]
      (if IsNotFound e then Ok no_requeue else Err (EWrap "failed to get artifact deployment object" (EApi e)))
| rec_other_type d :
    ArtifactType d ≠ handledType c → reconciled c req [Did (Get KArtifactDeployment req) (Ok d)] (Ok no_requeue)
| rec_refused d now msg t r :
    ArtifactType d = handledType c → (1 < length (resourcesOfType (resourceType c) d))%nat →
    execs (patchStatus d (withRefusal now d (refuseReason c) msg) (Err (ENew msg))) t r →
    reconciled c req (Did (Get KArtifactDeployment req) (Ok d) :: Did Now now :: t) r
| rec_updated d t1 t2 t3 d1 d2 d3 r :
    ArtifactType d = handledType c → fluxRun c d t1 d1 → framed d d1 →
    Forall (λ o, ¬ writes KArtifactDeployment o) t1 → resultsUpdate d1 d2 → readyUpdate d2 d3 → Forall reads t2 →
    execs (patchStatus d d3 (Ok {| RequeueAfter := artifactDeploymentRequeueInterval |})) t3 r →
    reconciled c req (Did (Get KArtifactDeployment req) (Ok d) :: t1 ++ t2 ++ t3) r.

Lemma finish_runs {R} (rc : Reconciler R) d d1 t r :
  DeploymentResultStatusUpdater rc = DeploymentResult_MutateStatus marshal LabelSelectorAsSelector →
  ReadyConditionStatusUpdater rc = ReadyCondition_MutateStatus →
  execs (finish rc d d1) t r →
  ∃ t2 t3 d2 d3, t = t2 ++ t3 ∧ resultsUpdate d1 d2 ∧ readyUpdate d2 d3 ∧ Forall reads t2 ∧
    execs (patchStatus d d3 (Ok {| RequeueAfter := artifactDeploymentRequeueInterval |})) t3 r.
Proof.
  unfold finish. intros -> -> H. exec_bind H t1 x Hx. exec_bind H t2 y Hy.
  apply results_runs in Hx as [Hu Hr]. apply ready_runs in Hy as (Hu' & Hr' & _).
  eexists (t1 ++ t2), _, _, _. split_and!; [by rewrite app_assoc|exact Hu|exact Hu'|by apply Forall_app|exact H].
Qed.

Lemma artifact_runs c req tr r : execs (Reconcile c req) tr r → reconciled c req tr r.
Proof.
  intros H. assert (Hrun : ∃ R (rc : Reconciler R),
    DeploymentResultStatusUpdater rc = DeploymentResult_MutateStatus marshal LabelSelectorAsSelector ∧
    ReadyConditionStatusUpdater rc = ReadyCondition_MutateStatus ∧
    execs (reconcileArtifact ArtifactType rc (handledType c) (resourceType c) (refuseReason c) (fluxOf c) req) tr r).
  { destruct c; [by exists _, helm|by exists _, kustomize]. }
  clear H. destruct Hrun as (R & rc & Hu & Hy & H). unfold reconcileArtifact in H.
  exec_bind H t0 g Hg. apply execs_local in Hg as ->. destruct g as [d|e].
  2:{ pose proof (rec_get_failed c req e) as He. cbn in H. destruct (IsNotFound e); by destruct H as [-> ->]. }
  case_bool_decide as Ht; cbn [negb] in H; [|destruct H as [-> ->]; by constructor].
  destruct (resourcesOfType (resourceType c) d) as [|res [|res' l]] eqn:El.
  - apply finish_runs in H as (t2 & t3 & d2 & d3 & -> & H1 & H2 & H3 & H4); [|done..].
    apply (rec_updated c req d [] t2 t3 d d2 d3); try done. by left.
  - exec_bind H t1 d1 Hf. apply finish_runs in H as (t2 & t3 & d2 & d3 & -> & H1 & H2 & H3 & H4); [|done..].
    pose proof (flux_runs _ _ _ _ _ Hf) as [Hfr Hw]. apply (rec_updated c req d t1 t2 t3 d1 d2 d3); try done. right. by exists res.
  - unfold refuse in H. exec_bind H t1 now Hn. apply execs_local in Hn as ->.
    eapply rec_refused; [done| |exact H]. rewrite El. cbn. lia.
Qed.
(** ** Status changes *)

(** A status patch sends the refusal, or what the Flux reconcilers and the two
    updaters make of the deployment that was read. *)
Inductive statusChange (d : ArtifactDeployment) : ArtifactDeployment → Prop :=
| sc_refused now reason msg : statusChange d (withRefusal now d reason msg)
| sc_updated d1 d2 d3 : framed d d1 → resultsUpdate d1 d2 → readyUpdate d2 d3 → statusChange d d3.

Lemma patch_status d d' out t r o p :
  execs (patchStatus d d' out) t r → o ∈ t → patchOf o = Some p → p = (d, d').
Proof.
  intros [(_ & -> & _)|(_ & x & -> & _)]%patchStatus_runs Ho Hp; [by apply elem_of_nil in Ho|].
  apply list_elem_of_singleton in Ho as ->. cbn in Hp. by simplify_eq.
Qed.

Lemma patches_are_changes c req tr r o d d' :
  execs (Reconcile c req) tr r → o ∈ tr → patchOf o = Some (d, d') → statusChange d d'.
Proof.
  intros H%artifact_runs Ho Hp. destruct H as [e|d0 Hd|d0 now msg t r _ _ H|d0 t1 t2 t3 d1 d2 d3 r _ _ Hf Hw Hu Hy Hr H];
    apply elem_of_cons in Ho as [->|Ho]; try done; try (by apply elem_of_nil in Ho).
  - apply elem_of_cons in Ho as [->|Ho]; [done|]. eapply patch_status in H; [|done..]. simplify_eq. constructor.
  - apply elem_of_app in Ho as [Ho|[Ho|Ho]%elem_of_app]; [by edestruct no_patch|edestruct no_patch; [by apply reads_no_status|done..]|].
    eapply patch_status in H; [|done..]. simplify_eq. by eapply sc_updated.
Qed.

Lemma owned_conditions_distinct :
  NoDup [StalledCondition; ArtifactDeploymentReadyCondition; DeploymentResultCreatedCondition].
Proof.
  pose proof artifact_conditions_distinct as H. rewrite !NoDup_cons, !not_elem_of_cons in H. destruct_and! H.
  rewrite !NoDup_cons, !not_elem_of_cons. repeat split; try done; try apply not_elem_of_nil; by apply NoDup_nil_2.
Qed.
Lemma stalled_ready_ne : StalledCondition ≠ ArtifactDeploymentReadyCondition.
Proof. pose proof owned_conditions_distinct as H. rewrite !NoDup_cons, !not_elem_of_cons in H. naive_solver. Qed.
Lemma stalled_created_ne : StalledCondition ≠ DeploymentResultCreatedCondition.
Proof. pose proof owned_conditions_distinct as H. rewrite !NoDup_cons, !not_elem_of_cons in H. naive_solver. Qed.
Lemma ready_created_ne : ArtifactDeploymentReadyCondition ≠ DeploymentResultCreatedCondition.
Proof. pose proof owned_conditions_distinct as H. rewrite !NoDup_cons, !not_elem_of_cons in H. naive_solver. Qed.

Lemma framed_phase d d' : framed d d' → phaseOf d' = phaseOf d.
Proof.
  intros [_ _ _ _ H]. unfold phaseOf, IsStatusConditionTrue, hasExposureValidationFailure.
  rewrite !H by (rewrite !elem_of_cons; auto). done.
Qed.

(** Setting one of the owned conditions. *)
Lemma find_setCondition now d c t :
  t ≠ c_Type c → FindStatusCondition (ad_Conditions (setCondition now d c)) t = FindStatusCondition (ad_Conditions d) t.
Proof. apply find_set_ne. Qed.
Lemma true_setCondition now d c t :
  t ≠ c_Type c →
  IsStatusConditionTrue (ad_Conditions (setCondition now d c)) t = IsStatusConditionTrue (ad_Conditions d) t.
Proof. apply is_true_set_ne. Qed.
Lemma failed_setCondition now d c :
  c_Type c ≠ StalledCondition → hasExposureValidationFailure (setCondition now d c) = hasExposureValidationFailure d.
Proof. intros H. unfold hasExposureValidationFailure. by rewrite find_setCondition. Qed.

Lemma phase_withRefusal now d reason msg :
  phaseOf (withRefusal now d reason msg) = {| ph_ready := false; ph_created := ph_created (phaseOf d);
    ph_stalled := ph_stalled (phaseOf d); ph_failed := ph_failed (phaseOf d) |}.
Proof.
  pose proof stalled_ready_ne. pose proof ready_created_ne. unfold phaseOf, withRefusal. f_equal; cbn [ph_created ph_stalled ph_failed].
  - apply is_true_set_eq.
  - by apply true_setCondition.
  - by apply true_setCondition.
  - by apply failed_setCondition.
Qed.
Lemma phase_withReady now d :
  phaseOf (withReady now d) = {| ph_ready := true; ph_created := ph_created (phaseOf d);
    ph_stalled := ph_stalled (phaseOf d); ph_failed := ph_failed (phaseOf d) |}.
Proof.
  pose proof stalled_ready_ne. pose proof ready_created_ne. unfold phaseOf, withReady. f_equal; cbn [ph_created ph_stalled ph_failed].
  - apply is_true_set_eq.
  - by apply true_setCondition.
  - by apply true_setCondition.
  - by apply failed_setCondition.
Qed.
Lemma phase_withResults now d rs :
  phaseOf (withResults now d rs) = {| ph_ready := ph_ready (phaseOf d); ph_created := true;
    ph_stalled := ph_stalled (phaseOf d); ph_failed := ph_failed (phaseOf d) |}.
Proof.
  pose proof stalled_created_ne. pose proof ready_created_ne. unfold phaseOf, withResults. f_equal; cbn [ph_ready ph_stalled ph_failed].
  - by apply (true_setCondition now (ad_set_results (Some rs) d)).
  - apply is_true_set_eq.
  - by apply (true_setCondition now (ad_set_results (Some rs) d)).
  - by apply (failed_setCondition now (ad_set_results (Some rs) d)).
Qed.
Lemma phase_withFailure now d e items :
  validateExposePorts items = Some e →
  phaseOf (withFailure now d e) = {| ph_ready := false; ph_created := false; ph_stalled := true; ph_failed := true |}.
Proof.
  intros Hv. pose proof stalled_created_ne. pose proof stalled_ready_ne. pose proof ready_created_ne.
  assert (Hwhy : ev_reason e = artifactDeploymentStalledReasonExposePortNotFound ∨
                 ev_reason e = artifactDeploymentStalledReasonExposePortUnsupportedProtocol).
  { destruct (validate_reason items e Hv) as (s & Hs). inversion Hs; auto. }
  unfold phaseOf, withFailure. cbn [foldl fst snd]. f_equal.
  - rewrite true_setCondition by done. apply is_true_set_eq.
  - rewrite !true_setCondition by done. apply is_true_set_eq.
  - apply is_true_set_eq.
  - unfold hasExposureValidationFailure. cbn [ad_Conditions setCondition ad_set_conditions].
    match goal with |- context [SetStatusCondition ?n ?cs ?c] => destruct (find_set_eq n cs c) as [tt Hf] end.
    cbn [c_Type adCondition] in Hf. rewrite Hf. cbn. destruct Hwhy as [-> | ->]; done.
Qed.

Lemma results_refine d d' : resultsUpdate d d' → resultsStep (phaseOf d) (phaseOf d').
Proof.
  intros [|items rs now Hf _ _ _|items e now Hf _ Hv]; [constructor|..].
  - rewrite phase_withResults. replace (ph_failed (phaseOf d)) with false by done. by constructor.
  - rewrite (phase_withFailure now d e items) by done. by constructor.
Qed.
Lemma ready_refine d d' : readyUpdate d d' → readyStep (phaseOf d) (phaseOf d').
Proof.
  intros [|now Hs _ Hc]; [constructor|]. rewrite phase_withReady.
  replace (ph_created (phaseOf d)) with true by done. replace (ph_stalled (phaseOf d)) with false by done. by constructor.
Qed.

Lemma change_refine d d' : statusChange d d' → phaseStep (phaseOf d) (phaseOf d').
Proof.
  intros [now reason msg|d1 d2 d3 Hf%framed_phase Hu%results_refine Hy%ready_refine].
  - rewrite phase_withRefusal. constructor.
  - rewrite Hf in Hu. by eapply phase_updated.
Qed.

(** C26: the status refines the phase machine: in every run of either
    controller, whatever the API server answers, each status patch takes the
    phase of the deployment that was read to a phase the machine allows. *)
Theorem status_refines c req tr r o d d'
  (Hrun : execs (Reconcile c req) tr r) (Ho : o ∈ tr) (Hp : patchOf o = Some (d, d')) :
  phaseStep (phaseOf d) (phaseOf d').
Proof. by eapply change_refine, patches_are_changes. Qed.
(** ** Histories *)

Lemma failed_stalled d :
  hasExposureValidationFailure d = true → IsStatusConditionTrue (ad_Conditions d) StalledCondition = true.
Proof.
  unfold IsStatusConditionTrue, hasExposureValidationFailure. destruct (FindStatusCondition _ _) as [c|]; [|done].
  by case_bool_decide.
Qed.

(** The life of a deployment as its runs see it: status patches of runs of the
    two controllers that had read the status they replace, and edits by others
    that leave the status alone. *)
Inductive evolves (d : ArtifactDeployment) : ArtifactDeployment → Prop :=
| ev_reconciled c req tr r o d' :
    execs (Reconcile c req) tr r → o ∈ tr → patchOf o = Some (d, d') → evolves d d'
| ev_edited d' : sameStatus d d' → evolves d d'.

Definition fresh (d : ArtifactDeployment) : Prop :=
  ph_ready (phaseOf d) = false ∧ ph_created (phaseOf d) = false ∧ ph_failed (phaseOf d) = false.

(** Ready means that results were created; these are the mapping of a validated
    list of Services; an exposure failure leaves neither. *)
Record sound (d : ArtifactDeployment) : Prop := {
  sd_ready : ph_ready (phaseOf d) = true → ph_created (phaseOf d) = true;
  sd_created : ph_created (phaseOf d) = true → ∃ items rs,
    ad_DeploymentResults d = Some rs ∧ validateExposePorts items = None ∧
    mapServicesToDeploymentResults marshal items = Ok rs;
  sd_failed : ph_failed (phaseOf d) = true →
    ph_ready (phaseOf d) = false ∧ ph_created (phaseOf d) = false ∧ ad_DeploymentResults d = None;
}.

Lemma sound_same d d' :
  phaseOf d' = phaseOf d → ad_DeploymentResults d' = ad_DeploymentResults d → sound d → sound d'.
Proof. intros Hp Hr []. split; rewrite Hp, ?Hr; done. Qed.

Lemma sound_fresh d : fresh d → sound d.
Proof. intros (H1 & H2 & H3). split; rewrite ?H1, ?H2, ?H3; done. Qed.

Lemma sound_results d d' : resultsUpdate d d' → sound d → sound d'.
Proof.
  intros H Hs. destruct H as [|items rs now Hf _ Hv Hm|items e now Hf _ Hv]; [done|..].
  - split; rewrite phase_withResults; cbn [ph_ready ph_created ph_failed]; [done|by exists items, rs|].
    intros Hf'. cbn in Hf'. congruence.
  - split; rewrite (phase_withFailure now d e items) by done; cbn [ph_ready ph_created ph_failed]; done.
Qed.
Lemma sound_ready d d' : readyUpdate d d' → sound d → sound d'.
Proof.
  intros H [H1 H2 H3]. destruct H as [|now Hs _ Hc]; [done|].
  split; rewrite phase_withReady; cbn [ph_ready ph_created ph_failed]; [done|done|].
  intros Hf. destruct (H3 Hf) as (_ & Hc' & _). cbn in Hc'. congruence.
Qed.
Lemma sound_change d d' : statusChange d d' → sound d → sound d'.
Proof.
  intros H Hs. destruct H as [now reason msg|d1 d2 d3 Hf Hu Hy].
  - destruct Hs as [H1 H2 H3]. split; rewrite phase_withRefusal; cbn [ph_ready ph_created ph_failed]; [done|done|].
    intros H. destruct (H3 H) as (_ & ? & ?). done.
  - eapply sound_ready, sound_results; [done..|].
    eapply sound_same; [by apply framed_phase|by apply fr_results|done].
Qed.

Lemma same_phase d d' : sameStatus d d' → phaseOf d' = phaseOf d.
Proof. intros [H _]. unfold phaseOf, hasExposureValidationFailure. by rewrite H. Qed.

Lemma sound_evolves d d' : rtc evolves d d' → sound d → sound d'.
Proof.
  induction 1 as [|d d1 d2 H _ IH]; [done|]. intros Hs. apply IH.
  destruct H as [c req tr r o d1 Hrun Ho Hp|d1 He].
  - by eapply sound_change; [eapply patches_are_changes|].
  - eapply sound_same; [by apply same_phase|apply He|done].
Qed.

(** The failed phases are absorbing. *)
Lemma failed_step p p' : phaseStep p p' → ph_failed p = true → ph_failed p' = true.
Proof. intros [|p1 p2 [|?|?] [|? ?]] Hf; cbn in *; congruence. Qed.
Lemma failed_evolves d d' : rtc evolves d d' → ph_failed (phaseOf d) = true → ph_failed (phaseOf d') = true.
Proof.
  induction 1 as [|d d1 d2 H _ IH]; [done|]. intros Hf. apply IH.
  destruct H as [c req tr r o d1 Hrun Ho Hp|d1 He].
  - by eapply failed_step; [eapply change_refine, patches_are_changes|].
  - by rewrite (same_phase _ _ He).
Qed.

(** C25: in every history that starts without status and in which each status
    patch comes from a run that had read the status it replaces, a Ready deployment carries
    deployment results that are unique by name and type and that the
    activation controller can all handle, so an activation never fails on the
    results of a Ready deployment. *)
Theorem ready_results_routable (decode : string → result GoError ServiceSpec) d0 d
  (Hjson : ∀ items, json_inverse marshal decode items)
  (Hfresh : fresh d0) (Hhist : rtc evolves d0 d)
  (Hready : IsStatusConditionTrue (ad_Conditions d) ArtifactDeploymentReadyCondition = true) :
  ∃ rs, ad_DeploymentResults d = Some rs ∧ NoDup ((λ r, (dr_Name r, dr_Type r)) <$> rs) ∧
        Forall (routable decode) rs.
Proof.
  destruct (sound_evolves _ _ Hhist (sound_fresh _ Hfresh)) as [H1 H2 _].
  destruct (H2 (H1 Hready)) as (items & rs & Hrs & Hv & Hm). exists rs.
  destruct (results_routable marshal decode items rs (Hjson items) Hm) as (Hn & Hr & _).
  split_and!; [done|done|by apply Hr].
Qed.

(** A run that reads a refused deployment leaves it so. *)
Lemma refused_kept c req tr r d o d0 d' :
  execs (Reconcile c req) tr r → head tr ≫= answered KArtifactDeployment = Some d →
  hasExposureValidationFailure d = true → o ∈ tr → patchOf o = Some (d0, d') →
  d0 = d ∧ ad_DeploymentResults d' = ad_DeploymentResults d ∧
  (phaseOf d' = phaseOf d ∨ phaseOf d' = {| ph_ready := false; ph_created := ph_created (phaseOf d);
     ph_stalled := ph_stalled (phaseOf d); ph_failed := ph_failed (phaseOf d) |}).
Proof.
  intros H%artifact_runs Hget Hf Ho Hp.
  destruct H as [e|d1 Hd|d1 now msg t r _ _ H|d1 t1 t2 t3 d2 d3 d4 r _ _ Hfr Hw Hu Hy Hr H]; cbn in Hget; simplify_eq;
    apply elem_of_cons in Ho as [->|Ho]; try done; try (by apply elem_of_nil in Ho).
  - apply elem_of_cons in Ho as [->|Ho]; [done|]. eapply patch_status in H; [|done..]. simplify_eq.
    split_and!; [done..|right; apply phase_withRefusal].
  - apply elem_of_app in Ho as [Ho|[Ho|Ho]%elem_of_app]; [by edestruct no_patch|edestruct no_patch; [by apply reads_no_status|done..]|].
    eapply patch_status in H; [|done..]. simplify_eq.
    pose proof (framed_phase _ _ Hfr) as Hph. assert (Hf2 : hasExposureValidationFailure d2 = true) by (by rewrite <-Hf; apply (f_equal ph_failed Hph)).
    destruct Hu; [|congruence..]. destruct Hy as [|now Hst _ _]; [split_and!; [done|by apply fr_results|by left]|].
    by rewrite failed_stalled in Hst.
Qed.

(** C28: an exposure failure is final.  A run that reads a deployment whose
    exposure has been refused sends no status that takes the refusal back,
    that makes it Ready or that touches the deployment results.  So in every
    history that starts without status, in which each status patch comes from
    a run that had read the status it replaces and nobody else writes the
    status, a refused deployment stays stalled for that reason, is never Ready
    again and carries no deployment results, whatever happens to its Services,
    its Flux objects and its spec. *)
Theorem exposure_failure_final :
  (∀ c req tr r d, execs (Reconcile c req) tr r → head tr ≫= answered KArtifactDeployment = Some d →
     hasExposureValidationFailure d = true →
     Forall (λ o, ∀ d0 d', patchOf o = Some (d0, d') → d0 = d ∧ hasExposureValidationFailure d' = true ∧
       (ph_ready (phaseOf d') = true → ph_ready (phaseOf d) = true) ∧
       ph_created (phaseOf d') = ph_created (phaseOf d) ∧ ad_DeploymentResults d' = ad_DeploymentResults d) tr) ∧
  (∀ d0 d d', fresh d0 → rtc evolves d0 d → hasExposureValidationFailure d = true → rtc evolves d d' →
     hasExposureValidationFailure d' = true ∧
     IsStatusConditionTrue (ad_Conditions d') ArtifactDeploymentReadyCondition = false ∧
     IsStatusConditionTrue (ad_Conditions d') DeploymentResultCreatedCondition = false ∧
     ad_DeploymentResults d' = None).
Proof.
  split.
  - intros c req tr r d Hrun Hget Hf. apply Forall_forall. intros o Ho d0 d' Hp.
    destruct (refused_kept _ _ _ _ _ _ _ _ Hrun Hget Hf Ho Hp) as (-> & Hrs & [Hph|Hph]);
      pose proof (f_equal ph_failed Hph) as Hfail; rewrite Hph; cbn in *; by rewrite Hfail.
  - intros d0 d d' Hfresh Hhist Hfail Hlater. pose proof (failed_evolves _ _ Hlater Hfail) as Hf.
    destruct (sound_evolves d0 d') as [_ _ H3]; [by etrans|by apply sound_fresh|].
    destruct (H3 Hf) as (? & ? & ?). done.
Qed.
(** ** Calls *)

(** What a write to a Flux object is allowed to be, after the calls [before]. *)
Definition fluxWrite (c : controller) (d : ArtifactDeployment) (ocm : OCMResource)
    (before : list (obs clientE)) (o : obs clientE) : Prop :=
  match c with
  | Helm => ∃ res, ToHelm decodeAccessType decodeHelmContent decodeOciContent parseReference ocm = Ok res ∧
      (writesObject KHelmRepository (helmRepositoryFor d res) d before o ∨
       writesObject KHelmRelease (helmReleaseFor d res) d before o ∧
       Exists (stored KHelmRepository (helmRepositoryFor d res)) before)
  | Kustomize => ∃ res, ToKustomize decodeOciContent parseReference ocm = Ok res ∧
      (writesObject KOCIRepository (ociRepositoryFor d res) d before o ∨
       writesObject KKustomization (kustomizationFor d res) d before o ∧
       Exists (stored KOCIRepository (ociRepositoryFor d res)) before ∧
       Exists (λ ob, ∃ oc, answered KOCIRepository ob = Some oc ∧
                 IsStatusConditionTrue (oc_Conditions oc) conditionTypeReady = true) before)
  end.

Definition changes (o : obs clientE) : Prop := ∃ k, writes k o ∧ k ≠ KArtifactDeployment.

Lemma reads_changes (P : list (obs clientE) → obs clientE → Prop) l : Forall reads l → whenever changes P l.
Proof.
  intros H. apply whenever_all. eapply Forall_impl; [exact H|]. intros o Ho (k & Hw & _). by apply Ho in Hw.
Qed.
Lemma managed_changes (k : kind) (Q : obj k → Prop) d (P : list (obs clientE) → obs clientE → Prop) l :
  managed k Q d l → (∀ before o, writesObject k Q d before o → P before o) → whenever changes P l.
Proof. intros H HP l1 o l2 El (k' & Hw & _). apply HP, (H _ _ _ El). by exists k'. Qed.

(** The contents depend on the deployment only through what the frame keeps. *)
Lemma helmRelease_framed d d' res before o :
  framed d d' → writesObject KHelmRelease (helmReleaseFor d' res) d' before o → writesObject KHelmRelease (helmReleaseFor d res) d before o.
Proof.
  intros Hf. unfold writesObject, ownedBy, helmReleaseFor, helmReleaseSpec, ns, name.
  by rewrite (fr_meta _ _ Hf), (fr_type _ _ Hf).
Qed.
Lemma kustomization_framed d d' res before o :
  framed d d' → writesObject KKustomization (kustomizationFor d' res) d' before o →
  writesObject KKustomization (kustomizationFor d res) d before o.
Proof.
  intros Hf. unfold writesObject, ownedBy, kustomizationFor, kustomizationSpec, buildKustomizationNameSuffix, ns, name.
  by rewrite (fr_meta _ _ Hf), (fr_type _ _ Hf).
Qed.

Lemma helmFlux_changes d ocm t d' pre :
  execs (helmFlux d ocm) t d' → whenever changes (λ l, fluxWrite Helm d ocm (pre ++ l)) t.
Proof.
  unfold reconcileHelmChart, fluxWrite. intros H.
  destruct (ToHelm _ _ _ _ ocm) as [h|e] eqn:Eh; [|destruct H as [-> ->]; by apply reads_changes].
  exec_bind H t1 x H1. destruct x as [d1 r1]. apply helmRepository_step in H1 as (Hf & Hm & Hs); [|done].
  apply whenever_app; [eapply managed_changes; [exact Hm|]; intros; exists h; split; [done|left]; by apply writes_more|].
  destruct r1 as [b|e]; [|destruct H as [-> ->]; by apply reads_changes].
  exec_bind H t2 y H2. destruct y as [d2 r2]. destruct H as [-> ->]. rewrite app_nil_r.
  apply helmRelease_step in H2 as [_ Hm2]; [|done]. eapply managed_changes; [exact Hm2|].
  intros before o Ho. exists h. split; [done|]. right. split; [do 2 apply writes_more; by eapply helmRelease_framed|].
  rewrite !Exists_app. right. left. by apply Hs.
Qed.
Lemma kustomizeFlux_changes d ocm t d' pre :
  execs (kustomizeFlux d ocm) t d' → whenever changes (λ l, fluxWrite Kustomize d ocm (pre ++ l)) t.
Proof.
  unfold reconcileKustomize, fluxWrite. intros H.
  destruct (ToKustomize _ _ ocm) as [h|e] eqn:Eh; [|destruct H as [-> ->]; by apply reads_changes].
  exec_bind H t1 x H1. destruct x as [d1 r1]. apply ociRepository_step in H1 as (Hf & Hm & Hs & Ha); [|done].
  apply whenever_app; [eapply managed_changes; [exact Hm|]; intros; exists h; split; [done|left]; by apply writes_more|].
  destruct r1 as [[|]|e]; [|destruct H as [-> ->]; by apply reads_changes..].
  exec_bind H t2 y H2. destruct y as [d2 r2]. destruct H as [-> ->]. rewrite app_nil_r.
  apply kustomization_step in H2 as [_ Hm2]; [|done]. eapply managed_changes; [exact Hm2|].
  intros before o Ho. exists h. split; [done|]. right. split; [do 2 apply writes_more; by eapply kustomization_framed|].
  rewrite !Exists_app. split; right; left; [by apply Hs|by apply Ha].
Qed.

Lemma patch_changes d d' out t r (P : list (obs clientE) → obs clientE → Prop) :
  execs (patchStatus d d' out) t r → whenever changes P t.
Proof.
  intros [(_ & -> & _)|(_ & x & -> & _)]%patchStatus_runs; [by apply reads_changes|].
  apply whenever_all. constructor; [|done]. intros (k & [<- _] & Hk). done.
Qed.

(** C27: the Flux objects a run writes.  Every write other than the status patch
    is, for the deployment's only resource of the handled type, of the source
    or the workload object under the deployment's own name, with the spec fields
    the code sets for that resource, the secret and the kubeconfig among them
    being what a lookup returned: a new object controlled by the deployment, or an update of
    one the run has read, which changes its spec and leaves its metadata and
    status as they were, so that nothing is written that is there already; the
    HelmRelease is written only after its HelmRepository is stored with the
    right spec, the Kustomization only after its OCIRepository is stored and
    was seen Ready. *)
Theorem flux_writes c req tr r d
  (Hrun : execs (Reconcile c req) tr r) (Hget : head tr ≫= answered KArtifactDeployment = Some d) :
  whenever changes (λ before o, ∃ ocm, resourcesOfType (resourceType c) d = [ocm] ∧ fluxWrite c d ocm before o) tr.
Proof.
  apply artifact_runs in Hrun.
  destruct Hrun as [e|d0 Hd|d0 now msg t r _ _ H|d0 t1 t2 t3 d1 d2 d3 r _ Hfx _ _ _ _ Hr H]; cbn in Hget; simplify_eq.
  - apply reads_changes. reads_walk.
  - apply (whenever_app _ _ [_; _]); [apply reads_changes; reads_walk|by eapply patch_changes].
  - apply (whenever_app _ _ [_]); [apply reads_changes; reads_walk|]. apply whenever_app.
    + destruct Hfx as [(_ & -> & _)|(ocm & El & Hx)]; [by apply reads_changes|].
      intros l1 o l2 El2 Ho. exists ocm. split; [done|]. destruct c.
      * by eapply (helmFlux_changes _ _ _ _ [_]).
      * by eapply (kustomizeFlux_changes _ _ _ _ [_]).
    + apply whenever_app; [by apply reads_changes|by eapply patch_changes].
Qed.

(** The status says that the deployment was refused. *)
Definition saysRefused (c : controller) (d : ArtifactDeployment) : Prop := ∃ cond,
  FindStatusCondition (ad_Conditions d) ArtifactDeploymentReadyCondition = Some cond ∧
  c_Status cond = ConditionFalse ∧ c_Reason cond = refuseReason c ∧ c_ObservedGeneration cond = om_Generation (ad_Meta d).
Lemma refusal_says c now d msg : saysRefused c (withRefusal now d (refuseReason c) msg).
Proof.
  destruct (find_set_eq now (ad_Conditions d) (adCondition d now ArtifactDeploymentReadyCondition ConditionFalse
    (refuseReason c) msg)) as [tt Hf]. by eexists.
Qed.
Lemma refusal_same c now d msg : sameStatus d (withRefusal now d (refuseReason c) msg) → saysRefused c d.
Proof. intros [E _]. destruct (refusal_says c now d msg) as (cond & Hc). exists cond. by rewrite E in Hc. Qed.

(** C30: how a run ends.  It first reads the deployment; one that is not there
    needs nothing, another error ends the run.  A deployment of another type is
    left alone.  With more than one matching resource the run fails without
    touching Flux, and it reports Ready False with the controller's reason for
    the current generation, in a status patch unless the status that was read
    says so already.  Otherwise it ends well and asks to run again after a
    minute, whatever went wrong with the mapping, the Flux objects or the
    Services; only a failed status patch is an error. *)
Theorem reconcile_outcome c req tr r (Hrun : execs (Reconcile c req) tr r) :
  (∃ e, tr = [Did (Get KArtifactDeployment req) (Err e)] ∧
     r = if IsNotFound e then Ok no_requeue else Err (EWrap "failed to get artifact deployment object" (EApi e))) ∨
  ∃ d calls, tr = Did (Get KArtifactDeployment req) (Ok d) :: calls ∧
  (ArtifactType d ≠ handledType c → calls = [] ∧ r = Ok no_requeue) ∧
  (ArtifactType d = handledType c → (1 < length (resourcesOfType (resourceType c) d))%nat →
     is_ok r = false ∧ Forall (λ o, ¬ changes o) calls ∧
     (saysRefused c d ∨ Exists (λ o, ∃ d', patchOf o = Some (d, d') ∧ saysRefused c d') calls)) ∧
  (ArtifactType d = handledType c → (length (resourcesOfType (resourceType c) d) ≤ 1)%nat →
     r = Ok {| RequeueAfter := Minute |} ∨
     ∃ e, r = Err (patchFailed e) ∧ Exists (λ o, patchOf o ≠ None ∧ outcome o = Some (Err e)) calls).
Proof.
  apply artifact_runs in Hrun.
  destruct Hrun as [e|d Hd|d now msg t r Ht Hl H|d t1 t2 t3 d1 d2 d3 r Ht Hfx _ _ _ _ Hr H]; [by left; exists e|right..];
    eexists d, _; (split; [done|]).
  - split_and!; done.
  - split_and!; [done| |lia]. intros _ _. split_and!.
    + apply patchStatus_runs in H as [(_ & _ & ->)|(_ & [x|x] & _ & ->)]; done.
    + constructor; [intros (k & Hw & _); by destruct Hw|].
      apply patchStatus_runs in H as [(_ & -> & _)|(_ & x & -> & _)]; [done|].
      constructor; [|done]. intros (k & [<- _] & Hk). done.
    + apply patchStatus_runs in H as [(Hs & _ & _)|(_ & x & -> & _)]; [left; by eapply refusal_same|right].
      apply Exists_cons_tl, Exists_cons_hd. eexists. split; [done|apply refusal_says].
  - split_and!; [done| |]; intros _.
    + intros Hl. destruct Hfx as [(El & _)|(ocm & El & _)]; rewrite El in Hl; cbn in Hl; lia.
    + intros _. apply patchStatus_runs in H as [(_ & -> & ->)|(_ & x & -> & ->)]; [by left|].
      destruct x as [o|e]; [by left|]. right. exists e. split; [done|].
      rewrite !Exists_app. do 2 right. by constructor.
Qed.
(** ** Progress *)

Lemma not_stalled_not_failed d :
  IsStatusConditionTrue (ad_Conditions d) StalledCondition = false → hasExposureValidationFailure d = false.
Proof. intros H. destruct (hasExposureValidationFailure d) eqn:E; [|done]. apply failed_stalled in E. congruence. Qed.

Definition finishOf (c : controller) : ArtifactDeployment → ArtifactDeployment → Prog Outcome :=
  match c with Helm => finish helm | Kustomize => finish kustomize end.
Lemma updated_runs c req tr r d ocm :
  execs (Reconcile c req) tr r → head tr ≫= answered KArtifactDeployment = Some d →
  ArtifactType d = handledType c → resourcesOfType (resourceType c) d = [ocm] →
  ∃ t1 t2 d1, tr = Did (Get KArtifactDeployment req) (Ok d) :: t1 ++ t2 ∧
    execs (fluxOf c d ocm) t1 d1 ∧ execs (finishOf c d d1) t2 r.
Proof.
  intros H Hget Ht Hl. assert (Hrun : ∃ t1 t2 g, tr = t1 ++ t2 ∧ t1 = [Did (Get KArtifactDeployment req) g] ∧
    match g with
    | Err e => True
    | Ok d => ArtifactType d = handledType c → resourcesOfType (resourceType c) d = [ocm] →
        execs (d' ← fluxOf c d ocm; finishOf c d d') t2 r
    end).
  { destruct c; cbn in H; destruct H as (g & t2 & -> & H); exists [Did (Get KArtifactDeployment req) g], t2, g;
      (split_and!; [done..|]); destruct g as [d'|e]; [|done| |done]; intros Ht' Hl'; cbn in Ht', Hl';
      rewrite Ht', bool_decide_eq_true_2 in H by done; cbn in H; by rewrite Hl' in H. }
  destruct Hrun as (t1 & t2 & g & -> & -> & H'). destruct g as [d'|e]; cbn in Hget; simplify_eq. specialize (H' Ht Hl).
  exec_bind H' t3 d1 Hf. by exists t3, tr, d1.
Qed.

(** Everything the deployment depends on is in order: its resource can be
    mapped, the lookups of its secret and kubeconfig resolve, *)
Definition resolvable (c : controller) (d : ArtifactDeployment) (ocm : OCMResource) (tr : list (obs clientE)) : Prop :=
  match c with
  | Helm => ∃ res, ToHelm decodeAccessType decodeHelmContent decodeOciContent parseReference ocm = Ok res ∧
      secretResolves ExtractHostname GetSecretByConfigMap ResourceName d (hcr_Repository res) tr
  | Kustomize => ∃ res, ToKustomize decodeOciContent parseReference ocm = Ok res ∧
      secretResolves ExtractHostname GetSecretByConfigMap ResourceName d (kr_Repository res) tr
  end ∧ kubeConfigResolves d tr.
(** its Flux objects exist and report that they are fetched, deployed and
    healthy, *)
Definition fluxHealthy (c : controller) (o : obs clientE) : Prop :=
  match c with
  | Helm => shows KHelmRepository (isCreated KHelmRepository) o ∧
      shows KHelmRelease (λ x, isCreated KHelmRelease x ∧
        trueOnce conditionTypeReady (hl_Conditions x) ∧ trueOnce "Released" (hl_Conditions x)) o ∧
      shows KHelmChart (λ x, IsStatusConditionTrue (hc_Conditions x) conditionTypeReady = true) o
  | Kustomize => shows KOCIRepository (λ x, isCreated KOCIRepository x ∧
        IsStatusConditionTrue (oc_Conditions x) conditionTypeReady = true) o ∧
      shows KKustomization (λ x, isCreated KKustomization x ∧
        trueOnce conditionTypeReady (ku_Conditions x) ∧ trueOnce "Healthy" (ku_Conditions x)) o
  end.
(** and its Services, found by its label, pass validation and map. *)
Definition listsServices (d : ArtifactDeployment) (sel : Selector) (items : list Service) (o : obs clientE) : Prop :=
  o = Did (List KService (ns d) sel) (Ok items).
Definition servicesFine (d : ArtifactDeployment) (sel : Selector) (o : obs clientE) : Prop :=
  ∀ x, o = Did (List KService (ns d) sel) x → ∃ items rs, x = Ok items ∧ validateExposePorts items = None ∧
    mapServicesToDeploymentResults marshal items = Ok rs.

Lemma resolvable_within c d ocm tr t : resolvable c d ocm tr → within t tr → resolvable c d ocm t.
Proof.
  intros [Hr Hk] Ht. split; [|exact (resolves_within _ _ _ Hk Ht)].
  destruct c; destruct Hr as (res & Hm & Hs); exists res; (split; [done|]); exact (resolves_within _ _ _ Hs Ht).
Qed.

Lemma flux_healthy c d ocm t d1 :
  execs (fluxOf c d ocm) t d1 → Forall well_answered t → Forall (fluxHealthy c) t → resolvable c d ocm t →
  deployedAndHealthy d1.
Proof.
  intros H Hwa Hh [Hres Hkube]. destruct c; cbn in H, Hres; destruct Hres as (res & Hmap & Hsec).
  - unfold reconcileHelmChart in H. rewrite Hmap in H. exec_bind H t1 x H1. destruct x as [d' r1].
    rewrite Forall_app in Hwa, Hh. destruct Hwa as [Hwa1 Hwa2], Hh as [Hh1 Hh2].
    pose proof (helmRepository_step _ _ _ secret_reads _ _ _ _ _ H1) as [Hf _].
    apply helmRepository_succeeds in H1; [|done|by eapply Forall_impl; [exact Hh1|]; intros o Ho; apply Ho|].
    2:{ exact (resolves_within _ _ _ Hsec (within_l _ _)). }
    destruct r1 as [b|]; [|done]. exec_bind H t2 y H2. destruct y as [d2 r2]. destruct H as [-> ->]. cbn.
    rewrite app_nil_r in *. eapply helmRelease_healthy; [exact H2|done|..].
    + eapply Forall_impl; [exact Hh2|]. intros o Ho. apply Ho.
    + eapply Forall_impl; [exact Hh2|]. intros o Ho. apply Ho.
    + unfold kubeConfigResolves, ns. rewrite (fr_meta _ _ Hf), (fr_type _ _ Hf).
      exact (resolves_within _ _ _ Hkube (within_r _ _)).
  - unfold reconcileKustomize in H. rewrite Hmap in H. exec_bind H t1 x H1. destruct x as [d' r1].
    rewrite Forall_app in Hwa, Hh. destruct Hwa as [Hwa1 Hwa2], Hh as [Hh1 Hh2].
    pose proof (ociRepository_step _ _ _ secret_reads _ _ _ _ _ H1) as [Hf _].
    apply ociRepository_succeeds in H1 as ->; [|done|by eapply Forall_impl; [exact Hh1|]; intros o Ho; apply Ho|].
    2:{ exact (resolves_within _ _ _ Hsec (within_l _ _)). }
    exec_bind H t2 y H2. destruct y as [d2 r2]. destruct H as [-> ->]. cbn.
    rewrite app_nil_r in *. eapply kustomization_healthy; [exact H2|done|..].
    + eapply Forall_impl; [exact Hh2|]. intros o Ho. apply Ho.
    + unfold kubeConfigResolves, ns. rewrite (fr_meta _ _ Hf), (fr_type _ _ Hf).
      exact (resolves_within _ _ _ Hkube (within_r _ _)).
Qed.

Lemma results_succeed d t x sel :
  execs (DeploymentResult_MutateStatus marshal LabelSelectorAsSelector d) t x →
  hasExposureValidationFailure d = false →
  IsStatusConditionTrue (ad_Conditions d) ArtifactDeployedCondition = true →
  LabelSelectorAsSelector labelArtifactDeployment (SanitizeK8sResourceName (name d)) = Ok sel →
  Forall (servicesFine d sel) t →
  ∃ items rs now, Exists (listsServices d sel items) t ∧
    mapServicesToDeploymentResults marshal items = Ok rs ∧ x.1 = withResults now d rs.
Proof.
  unfold DeploymentResult_MutateStatus. intros H Hf Hd Hsel Hs. rewrite Hf, Hd in H. cbn [negb] in H.
  exec_bind H t1 l Hl. unfold fetchExposableServices in Hl. rewrite Hsel in Hl.
  exec_bind Hl t2 g Hg. apply execs_local in Hg as ->.
  apply Forall_app in Hs as [Hs _]. apply Forall_app in Hs as [Hs _]. apply Forall_cons in Hs as [Hs _].
  destruct (Hs _ eq_refl) as (items & rs & -> & Hv & Hm). destruct Hl as [-> ->].
  rewrite Hv, Hm in H. cbn in H. destruct H as (now & u & -> & -> & ->).
  exists items, rs, now. split_and!; [|done|done]. by constructor.
Qed.

(** The status is Ready for the current generation. *)
Definition saysReady (d : ArtifactDeployment) : Prop := ∃ cond,
  FindStatusCondition (ad_Conditions d) ArtifactDeploymentReadyCondition = Some cond ∧
  c_Status cond = ConditionTrue ∧ c_ObservedGeneration cond = om_Generation (ad_Meta d).
(** The run leaves the status of [d']: it was stored, or is what was read. *)
Definition leaves (d d' : ArtifactDeployment) (t : list (obs clientE)) : Prop :=
  Exists (λ o, patchOf o = Some (d, d') ∧ succeeded o) t ∨ sameStatus d d' ∧ Forall (λ o, patchOf o = None) t.

Lemma unwritten_no_patch l : Forall (λ o, ¬ writes KArtifactDeployment o) l → Forall (λ o, patchOf o = None) l.
Proof.
  intros H. eapply Forall_impl; [exact H|]. intros o Ho. destruct (patchOf o) eqn:E; [|done].
  by apply patchOf_writes, Ho in E.
Qed.
Lemma finish_ready c d d1 t r sel :
  execs (finishOf c d d1) t r → is_ok r = true → deployedAndHealthy d1 → ad_Meta d1 = ad_Meta d →
  IsStatusConditionTrue (ad_Conditions d1) StalledCondition = false →
  LabelSelectorAsSelector labelArtifactDeployment (SanitizeK8sResourceName (name d1)) = Ok sel →
  Forall (servicesFine d1 sel) t →
  ∃ d' items rs, leaves d d' t ∧ saysReady d' ∧ Exists (listsServices d1 sel items) t ∧
    mapServicesToDeploymentResults marshal items = Ok rs ∧ ad_DeploymentResults d' = Some rs.
Proof.
  intros Hrun Hok [Hdeployed Hhealthy] Hmeta Hstalled Hsel Hsvc.
  assert (Hfin : execs (x ← DeploymentResult_MutateStatus marshal LabelSelectorAsSelector d1;
    y ← ReadyCondition_MutateStatus x.1;
    patchStatus d y.1 (Ok {| RequeueAfter := artifactDeploymentRequeueInterval |})) t r) by (by destruct c).
  clear Hrun. exec_bind Hfin t1 x Hx. apply Forall_app in Hsvc as [Hs1 _].
  pose proof (results_runs _ _ _ Hx) as [_ Hr1].
  apply (results_succeed _ _ _ sel) in Hx as (items & rs & now & Hl & Hm & Hx); [|by apply not_stalled_not_failed|done..].
  exec_bind Hfin t2 y Hy. pose proof (ready_runs _ _ _ Hy) as (_ & Hr2 & _). unfold ReadyCondition_MutateStatus in Hy.
  pose proof (phase_withResults now d1 rs) as Hph. rewrite <-Hx in Hph.
  pose proof (f_equal ph_stalled Hph) as Hst. pose proof (f_equal ph_created Hph) as Hcr. cbn in Hst, Hcr.
  assert (Hhe : IsStatusConditionTrue (ad_Conditions x.1) AppHealthyCondition = true).
  { rewrite Hx. unfold withResults. rewrite true_setCondition; [done|]. intros E. symmetry in E. revert E.
    apply ad_conditions_ne; rewrite ?elem_of_cons; unfold fluxType; rewrite ?elem_of_cons; auto. }
  rewrite Hst, Hstalled, Hhe, Hcr in Hy. cbn in Hy. destruct Hy as (now' & u & -> & -> & ->).
  exists (withReady now' x.1), items, rs. split_and!; [| |rewrite !Exists_app; by left|done|cbn; by rewrite Hx].
  - apply patchStatus_runs in Hfin as [(Hsame & -> & _)|(_ & [z|z] & -> & ->)]; [right|left|done].
    + split; [done|]. rewrite app_nil_r. by apply Forall_app; split; apply unwritten_no_patch, reads_no_status.
    + rewrite !Exists_app. do 2 right. by constructor.
  - destruct (find_set_eq now' (ad_Conditions x.1) (adCondition x.1 now' ArtifactDeploymentReadyCondition ConditionTrue
      ArtifactDeploymentReadyCondition "Successfully reconciled ArtifactDeployment")) as [tt Hf]. by eexists.
Qed.

(** C29: a healthy deployment becomes Ready.  In an error-free run of either
    controller over a deployment of its type with one matching resource, which
    is not stalled, whose Flux objects exist and report what the controller
    looks for (a Ready HelmChart, a HelmRelease that is Ready and Released; a
    Ready OCIRepository, a Kustomization that is Ready and Healthy), whose
    lookups resolve and whose labelled Services pass validation, the status the
    run leaves is Ready for the current generation and carries the results of
    those Services. *)
Theorem healthy_becomes_ready c req tr r d ocm sel
  (Hrun : execs (Reconcile c req) tr r) (Hwa : Forall well_answered tr) (Hok : is_ok r = true)
  (Hget : head tr ≫= answered KArtifactDeployment = Some d) (Htype : ArtifactType d = handledType c)
  (Hres : resourcesOfType (resourceType c) d = [ocm]) (Hlookups : resolvable c d ocm tr)
  (Hflux : Forall (fluxHealthy c) tr) (Hstalled : IsStatusConditionTrue (ad_Conditions d) StalledCondition = false)
  (Hsel : LabelSelectorAsSelector labelArtifactDeployment (SanitizeK8sResourceName (name d)) = Ok sel)
  (Hsvc : Forall (servicesFine d sel) tr) :
  ∃ d' items rs, leaves d d' tr ∧ saysReady d' ∧ Exists (listsServices d sel items) tr ∧
    mapServicesToDeploymentResults marshal items = Ok rs ∧ ad_DeploymentResults d' = Some rs.
Proof.
  destruct (updated_runs _ _ _ _ _ _ Hrun Hget Htype Hres) as (t1 & t2 & d1 & -> & Hf & Hfin).
  rewrite Forall_cons, Forall_app in Hwa, Hflux, Hsvc. destruct Hwa as (_ & Hwa & _), Hflux as (_ & Hflux & _), Hsvc as (_ & _ & Hsvc).
  destruct (flux_runs _ _ _ _ _ Hf) as [Hfr Hnw]. pose proof (f_equal ph_stalled (framed_phase _ _ Hfr)) as Hst. cbn in Hst.
  assert (Hlk : resolvable c d ocm t1) by (eapply resolvable_within; [exact Hlookups|exact (within_mid [_] _ _)]).
  pose proof (flux_healthy _ _ _ _ _ Hf Hwa Hflux Hlk) as Hdh. destruct (framed_spec _ _ Hfr) as [En Em].
  destruct (finish_ready _ _ _ _ _ sel Hfin Hok Hdh (fr_meta _ _ Hfr)) as (d' & items & rs & Hleft & Hready & Hl & Hm & Hrs).
  - congruence.
  - by rewrite Em.
  - unfold servicesFine. by rewrite En.
  - exists d', items, rs. unfold listsServices in *. rewrite En in Hl.
    split_and!; [|done|apply Exists_cons_tl, Exists_app; by right|done..].
    destruct Hleft as [Hp|[Hs Hn]]; [left; apply Exists_cons_tl, Exists_app; by right|right].
    split; [done|]. constructor; [done|]. apply Forall_app. split; [|done]. by apply unwritten_no_patch.
Qed.
End controllers.

(** * Witnesses *)

Section witnesses.
#[local] Existing Instance caseless_unicode.
#[local] Existing Instance sample_konfidence.
#[local] Existing Instance ref_conditions.
#[local] Existing Instance ref_controllerutil.
#[local] Instance sample_owners : OwnerReferences := ref_owners (λ _, "konfidence.cloud/v1alpha1").
#[local] Instance sample_flux : FluxAPI := {|
  HelmRepositoryKind := "HelmRepository"; OCIRepositoryKind := "OCIRepository"; HelmRepositoryTypeOCI := "oci";
  DriftDetectionEnabled := "enabled" |}.
Definition local_target : DeploymentTarget := {|
  dt_Meta := new_meta "ns" "local" ∅; dt_ArtifactType := ArtifactTypeHelm; dt_Parameters := None; dt_Conditions := [] |}.
Definition sample_find (_ _ : string) : Prog (result GoError DeploymentTarget) := Ret (Ok local_target).
#[local] Instance sample_provider : FluxConfigProvider := ConfigProvider.configProvider sample_find.
Definition no_secret (_ _ : string) : Prog (result GoError string) := Ret (Ok "").
Definition label_selector (k v : string) : result GoError Selector := Ok (SelLabel k v).
Definition helm_content (_ : string) : result GoError HelmContent :=
  Ok {| hct_HelmRepository := "https://charts.example.com"; hct_HelmChart := "shop"; hct_Version := "1.2.3" |}.

#[local] Instance ServiceSpec_eq_dec : EqDecision ServiceSpec.
Proof. solve_decision. Defined.
(** An encoder for the one payload that occurs, and its inverse. *)
Definition web_marshal (spec : ServiceSpec) : result GoError string :=
  if bool_decide (spec = serviceSpecOf web_service) then Ok "web" else Err (ENew "unsupported").
Definition web_decode (_ : string) : result GoError ServiceSpec := Ok (serviceSpecOf web_service).
Lemma web_inverse items : json_inverse web_marshal web_decode items.
Proof. intros s raw _. unfold web_marshal, web_decode. case_bool_decide as E; [|done]. by rewrite E. Qed.

Abbreviation sampleReconcile := (Reconcile (λ _, Ok "") no_secret (λ s, s) web_marshal label_selector
  ad_ArtifactType (λ _, Ok "helm") helm_content (λ _, Err (ENew "no content")) (λ _, Err (ENew "no reference"))).
Lemma no_secret_reads cm domain t r : execs (no_secret cm domain) t r → Forall reads t.
Proof. by intros [-> _]. Qed.
Lemma sample_kubeconfig_reads l a t r : execs (GetKubeConfigRef l a) t r → Forall reads t.
Proof. by intros [-> _]. Qed.

Definition is_true (t : string) : Condition := {|
  c_Type := t; c_Status := ConditionTrue; c_Reason := "Succeeded"; c_Message := ""; c_ObservedGeneration := 1;
  c_LastTransitionTime := Some 0 |}.
Definition labelled (m : ObjectMeta) (l : gmap string string) : ObjectMeta := {|
  om_Name := om_Name m; om_Namespace := om_Namespace m; om_Labels := l; om_Annotations := om_Annotations m;
  om_Finalizers := om_Finalizers m; om_DeletionTimestamp := om_DeletionTimestamp m;
  om_CreationTimestamp := om_CreationTimestamp m; om_Generation := om_Generation m; om_UID := om_UID m;
  om_ResourceVersion := om_ResourceVersion m; om_OwnerReferences := om_OwnerReferences m |}.
Definition app (resources : list OCMResource) : ArtifactDeployment := {|
  ad_Meta := new_meta "ns" "app" ∅; ad_ArtifactType := ArtifactTypeHelm; ad_Resources := resources;
  ad_Conditions := []; ad_DeploymentResults := None |}.
Definition app_release : HelmRelease := {|
  hl_Meta := stamp_created 1 (new_meta "ns" "app" ∅); hl_Spec := hl_Spec (newHelmRelease (app []));
  hl_Conditions := [is_true "Ready"; is_true "Released"] |}.
Definition app_chart : HelmChart := {| hc_Meta := new_meta "ns" "ns-app" ∅; hc_Conditions := [is_true "Ready"] |}.
(** The Service of the deployment, with the given ports. *)
Definition app_service (ports : list ServicePort) : Service := {|
  svc_Meta := labelled (svc_Meta web_service) {[ labelArtifactDeployment := "app" ]}; svc_Ports := ports |}.
Definition app_cluster (resources : list OCMResource) (ports : list ServicePort) : FakeState :=
  put (k := KArtifactDeployment) (app resources)
    (put (k := KHelmRelease) app_release
      (put (k := KHelmChart) app_chart
        (put (k := KService) (app_service ports) empty_cluster))).
Definition app_run (resources : list OCMResource) (ports : list ServicePort) : list (obs clientE) :=
  calls fake (sampleReconcile Helm (NN "ns" "app")) (app_cluster resources ports).
Lemma app_execs resources ports :
  execs (sampleReconcile Helm (NN "ns" "app")) (app_run resources ports)
    (run fake (sampleReconcile Helm (NN "ns" "app")) (app_cluster resources ports)).1.
Proof. apply run_execs. Qed.
(** The status the run sends. *)
Definition app_patched (resources : list OCMResource) (ports : list ServicePort) : option (ArtifactDeployment * ArtifactDeployment) :=
  head (omap patchOf (app_run resources ports)).
Definition app_after (ports : list ServicePort) : ArtifactDeployment :=
  match app_patched [sample_chart] ports with Some (_, d) => d | None => app [] end.

Lemma app_phase_ok : phaseOf (app_after [sample_port]) =
  {| ph_ready := true; ph_created := true; ph_stalled := false; ph_failed := false |}.
Proof. vm_compute. reflexivity. Qed.
Lemma app_phase_bad : phaseOf (app_after []) =
  {| ph_ready := false; ph_created := false; ph_stalled := true; ph_failed := true |}.
Proof. vm_compute. reflexivity. Qed.

(** A run that sends one status patch from the deployment that was read. *)
Lemma app_patch_in ports d' :
  app_patched [sample_chart] ports = Some (app [sample_chart], d') →
  ∃ o, o ∈ app_run [sample_chart] ports ∧ patchOf o = Some (app [sample_chart], d').
Proof.
  unfold app_patched. destruct (omap patchOf _) as [|p l] eqn:E; [done|]. cbn. intros [= ->].
  apply (list_elem_of_omap patchOf (app_run [sample_chart] ports)). rewrite E. by left.
Qed.
Abbreviation sample_evolves := (evolves (λ _, Ok "") no_secret (λ s, s) web_marshal label_selector
  ad_ArtifactType (λ _, Ok "helm") helm_content (λ _, Err (ENew "no content")) (λ _, Err (ENew "no reference"))).
Lemma app_evolves ports d' :
  app_patched [sample_chart] ports = Some (app [sample_chart], d') → rtc sample_evolves (app [sample_chart]) d'.
Proof. intros (o & Ho & Hp)%app_patch_in. eapply rtc_once, ev_reconciled; [apply app_execs|exact Ho|exact Hp]. Qed.
Lemma app_fresh : fresh (app [sample_chart]).
Proof. by vm_compute. Qed.

Lemma status_refines_witness :
  ∃ o, patchOf o = Some (app [sample_chart], app_after [sample_port]) ∧
       phaseStep (phaseOf (app [sample_chart])) (phaseOf (app_after [sample_port])).
Proof.
  destruct (app_patch_in [sample_port] (app_after [sample_port])) as (o & Ho & Hp); [vm_compute; reflexivity|].
  exists o. split; [exact Hp|].
  exact (status_refines _ _ _ _ _ _ _ _ _ _ no_secret_reads sample_kubeconfig_reads Helm _ _ _ o _ _
    (app_execs [sample_chart] [sample_port]) Ho Hp).
Defined.

Lemma ready_results_routable_witness :
  ∃ rs, ad_DeploymentResults (app_after [sample_port]) = Some rs ∧
    NoDup ((λ r, (dr_Name r, dr_Type r)) <$> rs) ∧ Forall (routable web_decode) rs.
Proof.
  refine (ready_results_routable _ _ _ _ _ _ _ _ _ _ no_secret_reads sample_kubeconfig_reads web_decode
    (app [sample_chart]) _ web_inverse app_fresh (app_evolves [sample_port] _ _) _); vm_compute; reflexivity.
Defined.

Lemma exposure_failure_final_witness :
  hasExposureValidationFailure (app_after []) = true ∧
  IsStatusConditionTrue (ad_Conditions (app_after [])) ArtifactDeploymentReadyCondition = false ∧
  IsStatusConditionTrue (ad_Conditions (app_after [])) DeploymentResultCreatedCondition = false ∧
  ad_DeploymentResults (app_after []) = None.
Proof.
  refine (proj2 (exposure_failure_final _ _ _ _ _ _ _ _ _ _ no_secret_reads sample_kubeconfig_reads)
    (app [sample_chart]) (app_after []) (app_after []) app_fresh (app_evolves [] _ _) _ (rtc_refl _ _));
    vm_compute; reflexivity.
Defined.

Lemma flux_writes_witness :
  whenever changes (λ before o, ∃ ocm, resourcesOfType ocmResourceTypeHelmChart (app [sample_chart]) = [ocm] ∧
    fluxWrite (λ _, Ok "") no_secret (λ s, s) (λ _, Ok "helm") helm_content (λ _, Err (ENew "no content")) (λ _, Err (ENew "no reference"))
      Helm (app [sample_chart]) ocm before o) (app_run [sample_chart] [sample_port]).
Proof.
  exact (flux_writes _ _ _ _ _ _ _ _ _ _ no_secret_reads sample_kubeconfig_reads Helm _ _ _ (app [sample_chart])
    (app_execs [sample_chart] [sample_port]) eq_refl).
Defined.

Lemma app_read resources ports : head (app_run resources ports) ≫= answered KArtifactDeployment = Some (app resources).
Proof. reflexivity. Qed.

Lemma reconcile_outcome_witness :
  is_ok (run fake (sampleReconcile Helm (NN "ns" "app")) (app_cluster [sample_chart; sample_chart] [])).1 = false ∧
  Exists (λ o, ∃ d', patchOf o = Some (app [sample_chart; sample_chart], d') ∧ saysRefused Helm d')
    (app_run [sample_chart; sample_chart] []).
Proof.
  pose proof (app_read [sample_chart; sample_chart] []) as Hd.
  destruct (reconcile_outcome _ _ _ _ _ _ _ _ _ _ no_secret_reads sample_kubeconfig_reads Helm _ _ _
    (app_execs [sample_chart; sample_chart] [])) as [(e & E & _)|(d & calls & E & _ & H & _)]; rewrite E in Hd |- *; [done|].
  cbn in Hd. injection Hd as ->. destruct (H eq_refl (le_n 2)) as (H1 & _ & [(cond & Hc & _)|H2]); [done|].
  split; [exact H1|]. by apply Exists_cons_tl.
Defined.

Lemma shows_check k (P : obj k → Prop) (pb : obj k → bool) l :
  (∀ x, pb x = true → P x) →
  forallb (λ o, match request o with
                | Some (_, k', _) => negb (bool_decide (k' = k)) || match answered k o with Some x => pb x | None => false end
                | None => true
                end) l = true → Forall (shows k P) l.
Proof.
  intros HP. rewrite forallb_forall. intros H. apply Forall_forall. intros o Ho v key Hr. apply list_elem_of_In, H in Ho.
  rewrite Hr, bool_decide_eq_true_2 in Ho by done. cbn in Ho. destruct (answered k o) as [x|]; [eauto|done].
Qed.
Definition true_once (t : string) (cs : list Condition) : bool :=
  match filter (λ c, c_Type c = t) cs with [c] => bool_decide (c_Status c = ConditionTrue) | _ => false end.
Lemma true_once_spec t cs : true_once t cs = true → trueOnce t cs.
Proof.
  unfold true_once. destruct (filter (λ c, c_Type c = t) cs) as [|c [|? ?]] eqn:E; [done| |done]. intros Hs%bool_decide_eq_true.
  assert (Hin : ∀ c', c' ∈ cs → c_Type c' = t → c' = c).
  { intros c' Hc Ht. apply list_elem_of_singleton. rewrite <-E. by apply list_elem_of_filter. }
  assert (Hc : c ∈ filter (λ c, c_Type c = t) cs) by (rewrite E; by left). apply list_elem_of_filter in Hc as [Ht Hc].
  by exists c.
Qed.
Definition services_fine (o : obs clientE) : bool :=
  match listed KService o with
  | Some items =>
      match validateExposePorts items, mapServicesToDeploymentResults web_marshal items with
      | None, Ok _ => true
      | _, _ => false
      end
  | None => match request o with Some (VList, _, _) => false | _ => true end
  end.
Lemma services_check d sel l : forallb services_fine l = true → Forall (servicesFine web_marshal d sel) l.
Proof.
  rewrite forallb_forall. intros H. apply Forall_forall. intros o Ho x ->. apply list_elem_of_In, H in Ho.
  unfold services_fine in Ho. destruct x as [items|]; [|done].
  change (listed KService _) with (Some items) in Ho. cbv iota beta in Ho.
  destruct (validateExposePorts items) eqn:Ev; [done|].
  destruct (mapServicesToDeploymentResults web_marshal items) as [rs|] eqn:Em; [|done]. by exists items, rs.
Qed.

(** The deployment with all its Flux objects in place. *)
Definition healthy_cluster : FakeState := put (k := KHelmRepository)
  {| hr_Meta := stamp_created 1 (new_meta "ns" "app" ∅); hr_Spec := hr_Spec (newHelmRepository (app [])) |}
  (app_cluster [sample_chart] [sample_port]).
Definition healthy_run : list (obs clientE) := calls fake (sampleReconcile Helm (NN "ns" "app")) healthy_cluster.
Lemma healthy_execs : execs (sampleReconcile Helm (NN "ns" "app")) healthy_run
  (run fake (sampleReconcile Helm (NN "ns" "app")) healthy_cluster).1.
Proof. apply run_execs. Qed.
Lemma healthy_answers : Forall well_answered healthy_run.
Proof. apply fake_answers. repeat apply consistent_put. apply consistent_empty. Qed.
Lemma healthy_flux : Forall (fluxHealthy Helm) healthy_run.
Proof.
  apply Forall_and. split; [|apply Forall_and; split].
  - apply (shows_check KHelmRepository _ (λ x, bool_decide (om_CreationTimestamp (hr_Meta x) ≠ None)));
      [intros x; apply bool_decide_eq_true_1|vm_compute; reflexivity].
  - apply (shows_check KHelmRelease _ (λ x, bool_decide (om_CreationTimestamp (hl_Meta x) ≠ None) &&
      (true_once conditionTypeReady (hl_Conditions x) && true_once "Released" (hl_Conditions x)))); [|vm_compute; reflexivity].
    intros x. rewrite !andb_true_iff. intros (H1%bool_decide_eq_true & H2%true_once_spec & H3%true_once_spec). exact (conj H1 (conj H2 H3)).
  - apply (shows_check KHelmChart _ (λ x, IsStatusConditionTrue (hc_Conditions x) conditionTypeReady)); [done|vm_compute; reflexivity].
Qed.
Lemma healthy_resolvable : resolvable (λ _, Ok "") no_secret (λ s, s) (λ _, Ok "helm") helm_content
  (λ _, Err (ENew "no content")) (λ _, Err (ENew "no reference")) Helm (app [sample_chart]) sample_chart healthy_run.
Proof.
  split; [|by intros t s [_ ->] _]. eexists. split; [vm_compute; reflexivity|]. by intros t s [_ ->] _.
Qed.

Lemma healthy_becomes_ready_witness :
  ∃ d' items rs, leaves (app [sample_chart]) d' healthy_run ∧ saysReady d' ∧
    Exists (listsServices (app [sample_chart]) (SelLabel labelArtifactDeployment "app") items) healthy_run ∧
    mapServicesToDeploymentResults web_marshal items = Ok rs ∧ ad_DeploymentResults d' = Some rs.
Proof.
  refine (healthy_becomes_ready (λ _, Ok "") no_secret (λ s, s) web_marshal label_selector ad_ArtifactType (λ _, Ok "helm")
    helm_content (λ _, Err (ENew "no content")) (λ _, Err (ENew "no reference")) no_secret_reads sample_kubeconfig_reads Helm
    (NN "ns" "app") healthy_run _ (app [sample_chart]) sample_chart (SelLabel labelArtifactDeployment "app")
    healthy_execs healthy_answers _ _ _ _ healthy_resolvable healthy_flux _ _ (services_check _ _ _ _));
    vm_compute; reflexivity.
Defined.
End witnesses.
End ArtifactDeploymentProps.
