(* ===== verification/DeploymentTarget.v ===== *)
(** The validation of DeploymentTargets (internal/deploymenttarget/setup.go),
    and what an accepted target gives its two users: the Flux configuration
    provider and the landscape client. *)
From S2P Require Import Prelude GoBytes GoStrings Objects Client ControllerUtil FakeApi LandscapeClient FluxReconcilers.
Local Open Scope Z_scope.

Module DeploymentTarget.

Definition acceptedKubeconfigKeys : list string := ["value"; "value.yaml"].

(** [dpltarget.ValidationResult] of the konfidence module. *)
Inductive ValidationResult := ValidationSuccess | ValidationFailure (msg : string).

Section validation.
Context `{U : Unicode}.
(** [clientcmd.RESTConfigFromKubeConfig]. *)
Context (RestConfig : Type).
Context (restConfigFrom : string → result GoError RestConfig).

Fixpoint firstKey (keys : list string) (data : gmap string string) : option string :=
  match keys with
  | [] => None
  | key :: rest => match data !! key with Some d => Some d | None => firstKey rest data end
  end.
Definition kubeconfigFromSecret (s : Secret) : result GoError string :=
  match firstKey acceptedKubeconfigKeys (sec_Data s) with
  | Some d => Ok d
  | None => Err (ENew ("secret " +:+ Quote (om_Name (sec_Meta s)) +:+
                       " contains no kubeconfig: expected key as one of [value value.yaml]"))
  end.

(** [NamespacedName.String]. *)
Definition keyString (k : NamespacedName) : string := nn_Namespace k +:+ "/" +:+ nn_Name k.

Definition validate (dt : DeploymentTarget) : Prog (result GoError ValidationResult) :=
  match dt_Parameters dt with
  | None => Ret (Ok ValidationSuccess)
  | Some params =>
      if negb (bool_decide (pa_APIGroup params = "")) || negb (bool_decide (pa_Kind params = "Secret")) ||
         bool_decide (pa_Name params = "") then
        Ret (Ok (ValidationFailure "parameters must refer to a Kubernetes Secret containing a kubeconfig"))
      else
        let secretKey := NN (om_Namespace (dt_Meta dt)) (pa_Name params) in
        g ← trigger (Get KSecret secretKey);
        match g with
        | Err e => Ret (Err (EWrap ("get secret " +:+ keyString secretKey) (EApi e)))
        | Ok secret =>
            match kubeconfigFromSecret secret with
            | Err err => Ret (Ok (ValidationFailure (Error err)))
            | Ok kubeconfigBytes =>
                match restConfigFrom kubeconfigBytes with
                | Err _ => Ret (Ok (ValidationFailure ("secret " +:+ Quote (pa_Name params) +:+
                                                       " does not contain a valid kubeconfig")))
                | Ok _ => Ret (Ok ValidationSuccess)
                end
            end
        end
  end.

(** * Properties *)

Context (RemoteClient : Type) (newClient : RestConfig → result GoError RemoteClient).

(** The landscape client reads the kubeconfig from the same key. *)
Lemma same_kubeconfig s kc :
  kubeconfigFromSecret s = Ok kc ↔ LandscapeClient.kubeconfigFromSecret s = Ok kc.
Proof.
  unfold kubeconfigFromSecret, LandscapeClient.kubeconfigFromSecret. cbn.
  destruct (sec_Data s !! "value"); [done|]. by destruct (sec_Data s !! "value.yaml").
Qed.

Lemma secretParameters_guard p :
  negb (bool_decide (pa_APIGroup p = "")) || negb (bool_decide (pa_Kind p = "Secret")) || bool_decide (pa_Name p = "")
  = negb (ConfigProvider.secretParameters p).
Proof. unfold ConfigProvider.secretParameters. by rewrite negb_involutive. Qed.

(** C31: what the verdict on a target means for its users.  An accepted target
    is local for the configuration provider and read without any call, or
    gives it a Secret that was just read, from which the landscape client can
    build its connection.  A rejected target has no kubeconfig reference, or
    its Secret yields no connection.  A Secret that cannot be read is an
    error, not a verdict. *)
Theorem validate_agrees dt tr r (Hrun : execs (validate dt) tr r) :
  match r with
  | Ok ValidationSuccess =>
      (tr = [] ∧ ConfigProvider.kubeConfigRef dt = Ok None) ∨
      ∃ name s kc rc, tr = [Did (Get KSecret (NN (om_Namespace (dt_Meta dt)) name)) (Ok s)] ∧
        ConfigProvider.kubeConfigRef dt = Ok (Some name) ∧
        LandscapeClient.kubeconfigFromSecret s = Ok kc ∧ restConfigFrom kc = Ok rc
  | Ok (ValidationFailure _) =>
      (tr = [] ∧ is_ok (ConfigProvider.kubeConfigRef dt) = false) ∨
      ∃ name s, tr = [Did (Get KSecret (NN (om_Namespace (dt_Meta dt)) name)) (Ok s)] ∧
        ConfigProvider.kubeConfigRef dt = Ok (Some name) ∧
        ∀ key, is_ok (LandscapeClient.remoteClient RemoteClient RestConfig restConfigFrom newClient key s ∅).1 = false
  | Err _ => ∃ name e, tr = [Did (Get KSecret (NN (om_Namespace (dt_Meta dt)) name)) (Err e)] ∧
      ConfigProvider.kubeConfigRef dt = Ok (Some name)
  end.
Proof.
  unfold validate in Hrun. unfold ConfigProvider.kubeConfigRef.
  destruct (dt_Parameters dt) as [p|]; [|destruct Hrun as [-> ->]; by left].
  rewrite secretParameters_guard in Hrun. destruct (ConfigProvider.secretParameters p); cbn [negb] in *;
    [|destruct Hrun as [-> ->]; by left].
  exec_bind Hrun t0 g Hg. apply execs_local in Hg as ->. destruct g as [s|e].
  2:{ destruct Hrun as [-> ->]. by exists (pa_Name p), e. }
  destruct (kubeconfigFromSecret s) as [kc|err] eqn:Ek.
  - pose proof Ek as Ek'. apply same_kubeconfig in Ek'.
    destruct (restConfigFrom kc) as [rc|err] eqn:Er; destruct Hrun as [-> ->]; right.
    + by exists (pa_Name p), s, kc, rc.
    + exists (pa_Name p), s. split_and!; [done|done|]. intros key. unfold LandscapeClient.remoteClient.
      by rewrite lookup_empty, Ek', Er.
  - destruct Hrun as [-> ->]. right. exists (pa_Name p), s. split_and!; [done|done|]. intros key.
    unfold LandscapeClient.remoteClient. rewrite lookup_empty.
    destruct (LandscapeClient.kubeconfigFromSecret s) as [kc|] eqn:El; [|done].
    apply same_kubeconfig in El. congruence.
Qed.
End validation.

Section witnesses.
#[local] Existing Instance caseless_unicode.
Definition remote_target : DeploymentTarget := {|
  dt_Meta := new_meta "ns" "remote" ∅; dt_ArtifactType := "helm.konfidence.cloud";
  dt_Parameters := Some {| pa_APIGroup := ""; pa_Kind := "Secret"; pa_Name := "kubeconfig" |}; dt_Conditions := [] |}.
Definition remote_secret : Secret :=
  {| sec_Meta := new_meta "ns" "kubeconfig" ∅; sec_Data := {[ "value.yaml" := "config" ]} |}.
Definition remote_validate : Prog (result GoError ValidationResult) := validate string (λ s, Ok s) remote_target.
Lemma validate_agrees_witness :
  ∃ name s kc rc, calls fake remote_validate (put (k := KSecret) remote_secret empty_cluster) =
      [Did (Get KSecret (NN "ns" name)) (Ok s)] ∧
    ConfigProvider.kubeConfigRef remote_target = Ok (Some name) ∧
    LandscapeClient.kubeconfigFromSecret s = Ok kc ∧ Ok (E := GoError) kc = Ok rc.
Proof.
  destruct (validate_agrees string (λ s, Ok s) string (λ s, Ok s) remote_target _ _
    (run_execs fake remote_validate (put (k := KSecret) remote_secret empty_cluster))) as [[H _]|H]; [done|exact H].
Defined.
End witnesses.
End DeploymentTarget.
