(* ===== verification/GoJson.v ===== *)
(** Go's [encoding/json] as the vector-data service uses it: scanning and
    parsing of JSON texts (RFC 8259, as [json.Valid] and the decoder accept
    them) and the compact text of a value.  The nesting limit of 10000 levels is
    not modelled.

    A text is scanned into tokens and the tokens are parsed; tokens keep the raw
    contents of strings and numbers, so that a token list and a value determine
    each other. *)
From Stdlib Require Import Floats.SpecFloat.
From S2P Require Import Prelude GoBytes GoStrings.
Local Open Scope Z_scope.

(** * Tokens *)

Definition quoteb : ascii := Zbyte 34.
Definition backslash : ascii := Zbyte 92.
Inductive token := TPunct (c : ascii) | TWord (w : list ascii) | TStr (raw : list ascii).
#[export] Instance token_eq_dec : EqDecision token.
Proof. solve_decision. Defined.

Definition is_ws (c : ascii) : bool := bool_decide (byteZ c ∈ [32; 9; 10; 13]).
Definition is_punct (c : ascii) : bool := bool_decide (byteZ c ∈ [123; 125; 91; 93; 58; 44]).
Definition is_word (c : ascii) : bool :=
  is_digit c || in_range 97 122 (byteZ c) || in_range 65 90 (byteZ c) || bool_decide (byteZ c ∈ [43; 45; 46]).

(** The scanner: outside of tokens, in a word, in a string, after a backslash;
    the accumulator is reversed. *)
Inductive scan := Out | InWord (acc : list ascii) | InStr (acc : list ascii) | InEsc (acc : list ascii).
Definition tok_cons (t : token) (r : list token * bool) : list token * bool := (t :: r.1, r.2).

(** The tokens up to the first invalid byte, and whether the whole text was
    scanned. *)
Fixpoint lex (st : scan) (l : list ascii) : list token * bool :=
  match l with
  | [] =>
      match st with
      | Out => ([], true)
      | InWord acc => ([TWord (reverse acc)], true)
      | _ => ([], false)
      end
  | c :: l' =>
      match st with
      | Out =>
          if is_ws c then lex Out l'
          else if is_punct c then tok_cons (TPunct c) (lex Out l')
          else if bool_decide (c = quoteb) then lex (InStr []) l'
          else if is_word c then lex (InWord [c]) l'
          else ([], false)
      | InWord acc =>
          let w := TWord (reverse acc) in
          if is_word c then lex (InWord (c :: acc)) l'
          else if is_ws c then tok_cons w (lex Out l')
          else if is_punct c then tok_cons w (tok_cons (TPunct c) (lex Out l'))
          else if bool_decide (c = quoteb) then tok_cons w (lex (InStr []) l')
          else ([w], false)
      | InStr acc =>
          if bool_decide (c = quoteb) then tok_cons (TStr (reverse acc)) (lex Out l')
          else if bool_decide (c = backslash) then lex (InEsc acc) l'
          else if byteZ c <? 32 then ([], false)
          else lex (InStr (c :: acc)) l'
      | InEsc acc => lex (InStr (c :: backslash :: acc)) l'
      end
  end.

(** ** Numbers and strings *)

Definition is_hex (c : ascii) : bool :=
  is_digit c || in_range 97 102 (byteZ c) || in_range 65 70 (byteZ c).
Definition simple_escape (c : ascii) : bool := bool_decide (byteZ c ∈ [98; 102; 110; 114; 116; 92; 47; 34]).

(** The contents of a string: no bare quote or control byte, and only the
    escapes of JSON. *)
Inductive vstate := VOut | VEsc | VHex (n : nat).
Fixpoint vraw (st : vstate) (l : list ascii) : bool :=
  match l with
  | [] => match st with VOut => true | _ => false end
  | c :: l' =>
      match st with
      | VOut =>
          if bool_decide (c = quoteb) then false
          else if bool_decide (c = backslash) then vraw VEsc l'
          else if byteZ c <? 32 then false else vraw VOut l'
      | VEsc => if simple_escape c then vraw VOut l' else if byteZ c =? 117 then vraw (VHex 3) l' else false
      | VHex n => if is_hex c then vraw (match n with O => VOut | S n => VHex n end) l' else false
      end
  end.
Definition valid_raw (l : list ascii) : bool := vraw VOut l.
Arguments valid_raw : simpl never.

(** The digits at the start of [l], and the rest. *)
Fixpoint span_digits (l : list ascii) : list ascii * list ascii :=
  match l with
  | c :: l' => if is_digit c then let p := span_digits l' in (c :: p.1, p.2) else ([], l)
  | [] => ([], [])
  end.
(** A number literal: sign, integer digits, fraction digits, exponent. *)
Record numlit := { nl_neg : bool; nl_int : list ascii; nl_frac : list ascii; nl_exp : Z }.
Definition split_frac (l : list ascii) : option (list ascii * list ascii) :=
  match l with
  | c :: l' => if byteZ c =? 46 then
                 match span_digits l' with ([], _) => None | p => Some p end
               else Some ([], l)
  | [] => Some ([], [])
  end.
Definition split_exp (l : list ascii) : option Z :=
  match l with
  | [] => Some 0
  | c :: l' =>
      if (byteZ c =? 101) || (byteZ c =? 69) then
        let '(neg, ds) :=
          match l' with
          | d :: r => if byteZ d =? 43 then (false, r) else if byteZ d =? 45 then (true, r) else (false, l')
          | [] => (false, [])
          end in
        match ds with
        | [] => None
        | _ => v ← digits_value 0 ds; Some (if neg : bool then - v else v)
        end
      else None
  end.
Definition parse_number (w : list ascii) : option numlit :=
  let '(neg, l) := match w with c :: r => if byteZ c =? 45 then (true, r) else (false, w) | [] => (false, []) end in
  let '(ds, rest) := span_digits l in
  match ds with
  | [] => None
  | d :: ds' =>
      if (byteZ d =? 48) && negb (bool_decide (ds' = [])) then None
      else
        f ← split_frac rest;
        e ← split_exp f.2;
        Some {| nl_neg := neg; nl_int := ds; nl_frac := f.1; nl_exp := e |}
  end.
Definition valid_number (w : list ascii) : bool := match parse_number w with Some _ => true | None => false end.
Arguments valid_number : simpl never.

(** * Values *)

Inductive json :=
| JNull
| JBool (b : bool)
| JNum (w : list ascii)
| JStr (raw : list ascii)
| JArr (l : list json)
| JObj (l : list (list ascii * json)).

Section json_ind.
Context (P : json → Prop).
Context (Hnull : P JNull) (Hbool : ∀ b, P (JBool b)) (Hnum : ∀ w, P (JNum w)) (Hstr : ∀ r, P (JStr r)).
Context (Harr : ∀ l, Forall P l → P (JArr l)) (Hobj : ∀ l, Forall (λ m, P m.2) l → P (JObj l)).
Fixpoint json_nested (j : json) : P j :=
  match j with
  | JNull => Hnull
  | JBool b => Hbool b
  | JNum w => Hnum w
  | JStr r => Hstr r
  | JArr l => Harr l ((fix go l : Forall P l :=
      match l with [] => Forall_nil_2 P | x :: l' => Forall_cons_2 P x l' (json_nested x) (go l') end) l)
  | JObj l => Hobj l ((fix go l : Forall (λ m, P m.2) l :=
      match l with [] => Forall_nil_2 _ | x :: l' => Forall_cons_2 _ x l' (json_nested x.2) (go l') end) l)
  end.
End json_ind.

Definition comma : token := TPunct ",".
Definition colon : token := TPunct ":".
Fixpoint join_toks (l : list (list token)) : list token :=
  match l with
  | [] => []
  | [x] => x
  | x :: r => x ++ comma :: join_toks r
  end.
(** The tokens of a value. *)
Fixpoint toks (j : json) : list token :=
  match j with
  | JNull => [TWord (to_list "null")]
  | JBool b => [TWord (to_list (if b then "true" else "false"))]
  | JNum w => [TWord w]
  | JStr raw => [TStr raw]
  | JArr l => TPunct "[" :: join_toks (List.map toks l) ++ [TPunct "]"]
  | JObj l => TPunct "{" :: join_toks (List.map (λ m, TStr m.1 :: colon :: toks m.2) l) ++ [TPunct "}"]
  end.

Definition tok_text (t : token) : list ascii :=
  match t with
  | TPunct c => [c]
  | TWord w => w
  | TStr raw => quoteb :: raw ++ [quoteb]
  end.
Definition text (ts : list token) : list ascii := ts ≫= tok_text.
(** The compact text of a value. *)
Definition jtext (j : json) : list ascii := text (toks j).

(** * Parsing *)

Definition word_value (w : list ascii) : option json :=
  if bool_decide (w = to_list "null") then Some JNull
  else if bool_decide (w = to_list "true") then Some (JBool true)
  else if bool_decide (w = to_list "false") then Some (JBool false)
  else if valid_number w then Some (JNum w) else None.

(** Every call consumes a token or is the last one at its position, so twice the
    number of tokens is enough fuel. *)
Fixpoint pvalue (n : nat) (ts : list token) : option (json * list token) :=
  match n with
  | O => None
  | S n =>
      match ts with
      | TWord w :: r => v ← word_value w; Some (v, r)
      | TStr raw :: r => if valid_raw raw then Some (JStr raw, r) else None
      | TPunct c :: r =>
          if bool_decide (c = "["%char) then
            if bool_decide (head r = Some (TPunct "]")) then Some (JArr [], tail r)
            else p ← pelems n r; Some (JArr p.1, p.2)
          else if bool_decide (c = "{"%char) then
            if bool_decide (head r = Some (TPunct "}")) then Some (JObj [], tail r)
            else p ← pmembers n r; Some (JObj p.1, p.2)
          else None
      | [] => None
      end
  end
with pelems (n : nat) (ts : list token) : option (list json * list token) :=
  match n with
  | O => None
  | S n =>
      p ← pvalue n ts;
      match p.2 with
      | TPunct c :: r =>
          if bool_decide (c = "]"%char) then Some ([p.1], r)
          else if bool_decide (c = ","%char) then q ← pelems n r; Some (p.1 :: q.1, q.2)
          else None
      | _ => None
      end
  end
with pmembers (n : nat) (ts : list token) : option (list (list ascii * json) * list token) :=
  match n with
  | O => None
  | S n =>
      match ts with
      | TStr k :: TPunct c0 :: r0 =>
          if valid_raw k && bool_decide (c0 = ":"%char) then
            p ← pvalue n r0;
            match p.2 with
            | TPunct c :: r =>
                if bool_decide (c = "}"%char) then Some ([(k, p.1)], r)
                else if bool_decide (c = ","%char) then q ← pmembers n r; Some ((k, p.1) :: q.1, q.2)
                else None
            | _ => None
            end
          else None
      | _ => None
      end
  end.

(** The one value of a text. *)
Definition jparse (l : list ascii) : option json :=
  let '(ts, ok) := lex Out l in
  if ok then
    match pvalue (2 * length ts) ts with
    | Some (j, []) => Some j
    | _ => None
    end
  else None.
(** [json.Valid]. *)
Definition Valid (s : string) : bool := match jparse (to_list s) with Some _ => true | None => false end.

(** * Round trip *)

Fixpoint jwf (j : json) : Prop :=
  match j with
  | JNum w => valid_number w = true
  | JStr raw => valid_raw raw = true
  | JArr l => foldr (λ x P, jwf x ∧ P) True l
  | JObj l => foldr (λ m P, valid_raw m.1 = true ∧ jwf m.2 ∧ P) True l
  | _ => True
  end.
Lemma jwf_arr l : jwf (JArr l) ↔ Forall jwf l.
Proof. cbn. induction l as [|x l IH]; cbn; [by split; [constructor|]|]. rewrite Forall_cons. naive_solver. Qed.
Lemma jwf_obj l : jwf (JObj l) ↔ Forall (λ m, valid_raw m.1 = true ∧ jwf m.2) l.
Proof. cbn. induction l as [|x l IH]; cbn; [by split; [constructor|]|]. rewrite Forall_cons. naive_solver. Qed.

(** ** Scanning *)

(** The text that may follow a word. *)
Definition word_end (rest : list ascii) : Prop :=
  match rest with [] => True | c :: _ => is_punct c = true end.

Lemma punct_not_ws c : is_punct c = true → is_ws c = false.
Proof.
  unfold is_punct, is_ws. rewrite bool_decide_eq_true, bool_decide_eq_false, !elem_of_cons, !elem_of_nil. lia.
Qed.
Lemma punct_not_word c : is_punct c = true → is_word c = false.
Proof.
  unfold is_punct, is_word, is_digit. rewrite bool_decide_eq_true, !elem_of_cons, elem_of_nil. intros H.
  rewrite !orb_false_iff, !in_range_false, bool_decide_eq_false, !elem_of_cons, elem_of_nil. lia.
Qed.
Lemma word_not_other c : is_word c = true → is_ws c = false ∧ is_punct c = false ∧ c ≠ quoteb.
Proof.
  intros H. unfold is_word, is_digit in H.
  rewrite !orb_true_iff, !in_range_spec, bool_decide_eq_true, !elem_of_cons, elem_of_nil in H.
  unfold is_ws, is_punct. rewrite !bool_decide_eq_false, !elem_of_cons, !elem_of_nil. split_and!; [lia..|].
  intros ->. change (byteZ quoteb) with 34 in H. lia.
Qed.

Lemma lex_punct c rest : is_punct c = true → lex Out (c :: rest) = tok_cons (TPunct c) (lex Out rest).
Proof. intros H. cbn [lex]. by rewrite (punct_not_ws c H), H. Qed.
Lemma lex_in_word acc w rest :
  Forall (λ c, is_word c = true) w → word_end rest →
  lex (InWord acc) (w ++ rest) = tok_cons (TWord (reverse acc ++ w)) (lex Out rest).
Proof.
  intros Hw Hr. revert acc. induction Hw as [|c w Hc _ IH]; intros acc; cbn [app].
  - rewrite app_nil_r. destruct rest as [|c rest]; [done|]. cbn in Hr. cbn [lex].
    by rewrite (punct_not_word c Hr), (punct_not_ws c Hr), Hr.
  - cbn [lex]. rewrite Hc, IH, reverse_cons. by rewrite <-app_assoc.
Qed.
Lemma lex_word w rest :
  w ≠ [] → Forall (λ c, is_word c = true) w → word_end rest →
  lex Out (w ++ rest) = tok_cons (TWord w) (lex Out rest).
Proof.
  intros Hne Hw Hr. destruct w as [|c w]; [done|]. inversion Hw as [|?? Hc Hw']; subst.
  destruct (word_not_other c Hc) as (H1 & H2 & H3). cbn [app lex].
  rewrite H1, H2, bool_decide_eq_false_2, Hc by done. by rewrite lex_in_word.
Qed.
Lemma lex_raw st acc raw rest :
  vraw st raw = true →
  lex (match st with VEsc => InEsc acc | _ => InStr acc end) (raw ++ quoteb :: rest) =
  tok_cons (TStr (reverse acc ++ match st with VEsc => backslash :: raw | _ => raw end)) (lex Out rest).
Proof.
  assert (Hhex : ∀ c, is_hex c = true → c ≠ quoteb ∧ c ≠ backslash ∧ (byteZ c <? 32) = false).
  { intros c Hc. unfold is_hex, is_digit in Hc. rewrite !orb_true_iff, !in_range_spec in Hc.
    split_and!; [intros ->; change (byteZ quoteb) with 34 in Hc; lia|intros ->; change (byteZ backslash) with 92 in Hc; lia|].
    apply Z.ltb_ge. lia. }
  revert st acc. induction raw as [|c raw IH]; intros st acc H; cbn [vraw] in H.
  - destruct st; [|done..]. cbn [app lex]. by rewrite bool_decide_eq_true_2, app_nil_r.
  - destruct st as [| |n]; cbn [app lex].
    + destruct (bool_decide (c = quoteb)) eqn:Eq; [done|]. destruct (bool_decide (c = backslash)) eqn:Eb.
      { rewrite (IH VEsc acc H). apply bool_decide_eq_true in Eb as ->. done. }
      destruct (byteZ c <? 32); [done|]. rewrite (IH VOut _ H), reverse_cons. by rewrite <-app_assoc.
    + assert (∃ st', (st' = VOut ∨ st' = VHex 3) ∧ vraw st' raw = true) as (st' & Hst & H').
      { destruct (simple_escape c); [by eexists; split; [left|]|].
        destruct (byteZ c =? 117); [by eexists; split; [right|]|done]. }
      pose proof (IH st' (c :: backslash :: acc) H') as E.
      assert (E2 : lex (InStr (c :: backslash :: acc)) (raw ++ quoteb :: rest) =
        tok_cons (TStr (reverse (c :: backslash :: acc) ++ raw)) (lex Out rest)) by (by destruct Hst as [-> | ->]).
      rewrite E2, !reverse_cons. by rewrite <-!app_assoc.
    + destruct (is_hex c) eqn:Eh; [|done]. destruct (Hhex c Eh) as (H1 & H2 & H3).
      rewrite !bool_decide_eq_false_2, H3 by done. pose proof (IH _ (c :: acc) H) as E.
      assert (E2 : lex (InStr (c :: acc)) (raw ++ quoteb :: rest) =
        tok_cons (TStr (reverse (c :: acc) ++ raw)) (lex Out rest)) by (by destruct n).
      rewrite E2, reverse_cons. by rewrite <-app_assoc.
Qed.
Lemma lex_str raw rest :
  valid_raw raw = true → lex Out (quoteb :: raw ++ quoteb :: rest) = tok_cons (TStr raw) (lex Out rest).
Proof. intros H. cbn [lex]. apply (lex_raw VOut [] raw rest H). Qed.

(** Number literals and keywords are words. *)
Abbreviation words := (Forall (λ c, is_word c = true)).
Lemma digit_word c : is_digit c = true → is_word c = true.
Proof. unfold is_word. by intros ->. Qed.
Lemma byte_word c : byteZ c ∈ [43; 45; 46; 69; 101] → is_word c = true.
Proof.
  unfold is_word, is_digit. rewrite !orb_true_iff, !in_range_spec, bool_decide_eq_true, !elem_of_cons, !elem_of_nil. lia.
Qed.
Lemma span_digits_spec l : l = (span_digits l).1 ++ (span_digits l).2 ∧ words (span_digits l).1.
Proof.
  induction l as [|c l [IH1 IH2]]; cbn; [done|]. destruct (is_digit c) eqn:E; [|done]. cbn.
  rewrite <-IH1. split; [done|]. constructor; [by apply digit_word|done].
Qed.
Lemma digits_words acc l v : digits_value acc l = Some v → words l.
Proof.
  revert acc. induction l as [|c l IH]; intros acc; cbn; [constructor|].
  destruct (is_digit c) eqn:E; [|done]. intros H. constructor; [by apply digit_word|by eapply IH].
Qed.
Lemma split_frac_words l f : split_frac l = Some f → words f.2 → words l.
Proof.
  unfold split_frac. destruct l as [|c l]; [by intros [= <-]|]. destruct (Z.eqb_spec (byteZ c) 46) as [E|E].
  - destruct (span_digits_spec l) as [H1 H2]. destruct (span_digits l) as [ds r]. cbn in *.
    destruct ds; [done|]. intros [= <-]. cbn. intros Hr. constructor; [apply byte_word; rewrite E; set_solver|].
    rewrite H1. by apply Forall_app.
  - by intros [= <-].
Qed.
Lemma split_exp_words l e : split_exp l = Some e → words l.
Proof.
  unfold split_exp. destruct l as [|c l]; [constructor|].
  destruct (Z.eqb_spec (byteZ c) 101) as [E|E]; destruct (Z.eqb_spec (byteZ c) 69) as [E'|E']; cbn; try done;
    intros H; (constructor; [apply byte_word; rewrite ?E, ?E'; set_solver|]).
  all: destruct l as [|d r]; [done|]; destruct (Z.eqb_spec (byteZ d) 43) as [D|D];
    [|destruct (Z.eqb_spec (byteZ d) 45) as [D'|D']].
  all: try (destruct r; [done|]).
  all: apply bind_Some in H as (v & H & _); try apply digits_words in H; try done.
  all: constructor; [apply byte_word; rewrite ?D, ?D'; set_solver|done].
Qed.
Lemma number_words w : valid_number w = true → w ≠ [] ∧ words w.
Proof.
  unfold valid_number, parse_number. intros H. destruct w as [|c r]; [done|]. split; [done|].
  destruct (Z.eqb_spec (byteZ c) 45) as [E|E];
    (match type of H with context [span_digits ?l] =>
       destruct (span_digits_spec l) as [H1 H2]; destruct (span_digits l) as [ds rest] end);
    cbn in H1, H2; (destruct ds as [|d ds]; [done|]); destruct (_ && _); try done.
  all: destruct (split_frac rest) as [f|] eqn:Ef; [|done]; cbn in H; destruct (split_exp f.2) as [e|] eqn:Ee; [|done].
  all: assert (Hrest : words rest) by (eapply split_frac_words; [done|by eapply split_exp_words]).
  - constructor; [apply byte_word; rewrite E; set_solver|]. rewrite H1. by apply Forall_app.
  - rewrite H1. by apply Forall_app.
Qed.

Definition kw (s : string) : Prop := to_list s ≠ [] ∧ words (to_list s).
Lemma kw_null : kw "null". Proof. split; [done|]. repeat constructor. Qed.
Lemma kw_bool b : kw (if b : bool then "true" else "false").
Proof. destruct b; (split; [done|]); repeat constructor. Qed.

Definition scanned (ts : list token) (r : list token * bool) : list token * bool := (ts ++ r.1, r.2).

Lemma text_app a b : text (a ++ b) = text a ++ text b.
Proof. apply bind_app. Qed.
Lemma text_cons t ts : text (t :: ts) = tok_text t ++ text ts.
Proof. done. Qed.

(** The text of a value scans to its tokens, in any context a value may have. *)
Definition scans (ts : list token) : Prop :=
  ∀ rest, word_end rest → lex Out (text ts ++ rest) = scanned ts (lex Out rest).

Lemma scans_punct c ts : is_punct c = true → scans ts → scans (TPunct c :: ts).
Proof.
  intros Hc H rest Hr. rewrite text_cons. cbn [tok_text]. rewrite <-app_assoc. cbn [app].
  rewrite lex_punct, H by done. done.
Qed.
Lemma scans_nil : scans [].
Proof. intros rest _. cbn. by destruct (lex Out rest). Qed.
(** Before a punctuation mark. *)
Lemma scans_then_punct ts c ts' : scans ts → is_punct c = true → scans ts' → scans (ts ++ TPunct c :: ts').
Proof.
  intros H Hc H' rest Hr. rewrite text_app, text_cons. cbn [tok_text]. rewrite <-!app_assoc. cbn [app].
  rewrite H; [|done]. rewrite lex_punct, H' by done. unfold scanned, tok_cons. cbn. by rewrite <-app_assoc.
Qed.
Lemma scans_str raw ts : valid_raw raw = true → scans ts → scans (TStr raw :: ts).
Proof.
  intros Hv H rest Hr. rewrite text_cons. cbn [tok_text app]. rewrite <-!app_assoc. cbn [app].
  rewrite lex_str, H by done. done.
Qed.
Lemma scans_word w : w ≠ [] → words w → scans [TWord w].
Proof.
  intros Hne Hw rest Hr. rewrite text_cons. cbn [tok_text]. unfold text. cbn. rewrite app_nil_r.
  by rewrite lex_word.
Qed.
Lemma scans_join l c : Forall scans l → is_punct c = true → scans (join_toks l ++ [TPunct c]).
Proof.
  intros Hl Hc. induction Hl as [|x l Hx _ IH]; cbn [join_toks]; [by apply scans_punct, scans_nil|].
  destruct l as [|y l]; [by apply scans_then_punct, scans_nil|].
  rewrite <-app_assoc. cbn [app]. by apply scans_then_punct.
Qed.

Lemma scans_toks j : jwf j → scans (toks j).
Proof.
  induction j as [|b|w|raw|l IH|l IH] using json_nested; intros Hj; cbn [toks].
  - destruct kw_null. by apply scans_word.
  - destruct (kw_bool b). by apply scans_word.
  - apply number_words in Hj as [? ?]. by apply scans_word.
  - apply scans_str; [done|apply scans_nil].
  - apply jwf_arr in Hj. apply scans_punct; [done|]. apply scans_join; [|done].
    induction IH as [|x l Hx _ IHl]; [constructor|].
    inversion Hj; subst. constructor; [by apply Hx|by apply IHl].
  - apply jwf_obj in Hj. apply scans_punct; [done|]. apply scans_join; [|done].
    induction IH as [|[k x] l Hx _ IHl]; [constructor|]. inversion Hj as [|?? [Hk Hx'] Hj']; subst. cbn in *.
    constructor; [|by apply IHl]. apply scans_str; [done|]. apply scans_punct; [done|]. by apply Hx.
Qed.

(** ** Parsing the tokens of a value *)

Lemma word_value_num w : valid_number w = true → word_value w = Some (JNum w).
Proof.
  intros Hn. unfold word_value. rewrite Hn.
  assert (Hne : ∀ s, valid_number (to_list s) = false → bool_decide (w = to_list s) = false).
  { intros s Hs. apply bool_decide_eq_false. intros ->. congruence. }
  by rewrite !Hne.
Qed.

(** No value starts like the end of a list. *)
Lemma toks_head j rest c : c ≠ "["%char → c ≠ "{"%char → head (toks j ++ rest) ≠ Some (TPunct c).
Proof. intros H1 H2. destruct j; cbn; congruence. Qed.

Definition completes (j : json) : Prop :=
  ∀ n rest, (2 * length (toks j) ≤ n)%nat → pvalue n (toks j ++ rest) = Some (j, rest).

Lemma join_cons x l : l ≠ [] → join_toks (x :: l) = x ++ comma :: join_toks l.
Proof. by destruct l. Qed.

Lemma pelems_complete l : l ≠ [] → Forall completes l → ∀ n rest,
  (2 * length (join_toks (List.map toks l)) + 1 ≤ n)%nat →
  pelems n (join_toks (List.map toks l) ++ TPunct "]" :: rest) = Some (l, rest).
Proof.
  intros Hne Hl. induction Hl as [|x l Hx _ IH]; [done|]. intros n rest Hn.
  destruct n as [|n]; [lia|]. destruct l as [|y l].
  - cbn [List.map join_toks pelems] in *. rewrite Hx by lia. done.
  - change (List.map toks (x :: y :: l)) with (toks x :: List.map toks (y :: l)) in *.
    rewrite join_cons in Hn |- * by done. rewrite length_app in Hn. cbn [length] in Hn.
    cbn [pelems]. rewrite <-app_assoc, Hx by lia. cbn [mbind option_bind fst snd app comma].
    rewrite bool_decide_eq_false_2, bool_decide_eq_true_2 by done. rewrite IH; [done|done|lia].
Qed.
Lemma pmembers_complete l : l ≠ [] → Forall (λ m, completes m.2) l → Forall (λ m, valid_raw m.1 = true) l → ∀ n rest,
  (2 * length (join_toks (List.map (λ m, TStr m.1 :: colon :: toks m.2) l)) + 1 ≤ n)%nat →
  pmembers n (join_toks (List.map (λ m, TStr m.1 :: colon :: toks m.2) l) ++ TPunct "}" :: rest) = Some (l, rest).
Proof.
  intros Hne Hl. induction Hl as [|[k x] l Hx _ IH]; [done|]. intros Hv n rest Hn.
  inversion Hv as [|?? Hk Hv']; subst. cbn in Hk, Hx.
  destruct n as [|n]; [lia|]. destruct l as [|m l].
  - cbn [List.map join_toks length fst snd] in *. cbn [app colon pmembers]. rewrite Hk. cbn [andb].
    rewrite bool_decide_eq_true_2 by done. rewrite Hx by lia. done.
  - set (f := λ m : list ascii * json, TStr m.1 :: colon :: toks m.2) in *.
    change (List.map f ((k, x) :: m :: l)) with ((TStr k :: colon :: toks x) :: List.map f (m :: l)) in *.
    rewrite join_cons in Hn |- * by done. rewrite length_app in Hn. cbn [length] in Hn.
    cbn [app colon pmembers]. rewrite Hk. cbn [andb]. rewrite bool_decide_eq_true_2 by done.
    rewrite <-app_assoc, Hx by lia. cbn [mbind option_bind fst snd app comma].
    rewrite bool_decide_eq_false_2, bool_decide_eq_true_2 by done. rewrite IH; [done|done|done|lia].
Qed.

Lemma pvalue_complete j : jwf j → completes j.
Proof.
  induction j as [|b|w|raw|l IH|l IH] using json_nested; intros Hj n rest Hn; cbn [toks] in *;
    (destruct n as [|n]; [cbn in Hn; lia|]); cbn [pvalue app].
  - done.
  - by destruct b.
  - by rewrite word_value_num.
  - cbn in Hj. by rewrite Hj.
  - apply jwf_arr in Hj. rewrite bool_decide_eq_true_2 by done. rewrite <-app_assoc. cbn [app].
    destruct l as [|x l]; [done|]. rewrite bool_decide_eq_false_2.
    2:{ cbn [List.map join_toks]. destruct (List.map toks l); [|rewrite <-app_assoc]; by apply toks_head. }
    assert (Hc : Forall completes (x :: l)).
    { apply Forall_forall. intros y Hy. rewrite Forall_forall in IH, Hj. by apply IH, Hj. }
    cbn [length] in Hn. rewrite length_app in Hn. cbn [length] in Hn.
    rewrite pelems_complete; [done|done|done|lia].
  - apply jwf_obj in Hj. rewrite bool_decide_eq_false_2, bool_decide_eq_true_2 by done. rewrite <-app_assoc. cbn [app].
    destruct l as [|[k x] l]; [done|]. rewrite bool_decide_eq_false_2.
    2:{ cbn [List.map join_toks fst snd]. by destruct (List.map _ l). }
    assert (Hc : Forall (λ m, completes m.2) ((k, x) :: l) ∧ Forall (λ m, valid_raw m.1 = true) ((k, x) :: l)).
    { rewrite !Forall_forall in *. split; intros y Hy; [apply IH; [done|]|]; by apply Hj. }
    cbn [length] in Hn. rewrite length_app in Hn. cbn [length] in Hn.
    rewrite pmembers_complete; [done|done|apply Hc|apply Hc|lia].
Qed.

(** The compact text of a value parses back to it. *)
Lemma jparse_text j : jwf j → jparse (jtext j) = Some j.
Proof.
  intros Hj. unfold jparse, jtext. pose proof (scans_toks j Hj [] I) as Hs. rewrite app_nil_r in Hs. rewrite Hs.
  cbn [scanned fst snd lex]. rewrite app_nil_r. pose proof (pvalue_complete j Hj (2 * length (toks j))%nat []) as Hp.
  rewrite app_nil_r in Hp. rewrite Hp by lia. done.
Qed.

(** ** What the parser accepts *)

Lemma word_value_wf w j : word_value w = Some j → jwf j ∧ toks j = [TWord w].
Proof.
  unfold word_value. repeat case_bool_decide; subst; intros Hj; simplify_eq/=; [done..|].
  destruct (valid_number w) eqn:E; by simplify_eq/=.
Qed.

(** A parsed value is well formed, and its tokens are those that were read. *)
Lemma parser_sound n :
  (∀ ts j rest, pvalue n ts = Some (j, rest) → jwf j ∧ ts = toks j ++ rest) ∧
  (∀ ts l rest, pelems n ts = Some (l, rest) →
     l ≠ [] ∧ Forall jwf l ∧ ts = join_toks (List.map toks l) ++ TPunct "]" :: rest) ∧
  (∀ ts l rest, pmembers n ts = Some (l, rest) →
     l ≠ [] ∧ Forall (λ m, valid_raw m.1 = true ∧ jwf m.2) l ∧
     ts = join_toks (List.map (λ m, TStr m.1 :: colon :: toks m.2) l) ++ TPunct "}" :: rest).
Proof.
  induction n as [|n (IHv & IHe & IHm)]; [done|]. split_and!; intros ts.
  - intros j rest H. cbn [pvalue] in H. destruct ts as [|[c|w|raw] ts]; [done|..].
    + case_bool_decide as Ec; [subst c|case_bool_decide as Ec'; [subst c|done]].
      * case_bool_decide as Eh; [destruct ts; simplify_eq/=; done|].
        apply bind_Some in H as ([l r] & (Hne & Hl & ->)%IHe & [= <- <-]).
        split; [by apply jwf_arr|]. cbn [toks fst snd app]. by rewrite <-app_assoc.
      * case_bool_decide as Eh; [destruct ts; simplify_eq/=; done|].
        apply bind_Some in H as ([l r] & (Hne & Hl & ->)%IHm & [= <- <-]).
        split; [by apply jwf_obj|]. cbn [toks fst snd app]. by rewrite <-app_assoc.
    + apply bind_Some in H as (v & (Hwf & Ht)%word_value_wf & [= <- <-]). by rewrite Ht.
    + destruct (valid_raw raw) eqn:E; [|done]. by simplify_eq/=.
  - intros l rest H. cbn [pelems] in H. apply bind_Some in H as ([j r] & (Hj & ->)%IHv & H). cbn [fst snd] in H.
    destruct r as [|[c| |] r]; [done| |done|done].
    case_bool_decide as Ec; [subst c|case_bool_decide as Ec'; [subst c|done]].
    + injection H as <- <-. split_and!; [done|by repeat constructor|done].
    + apply bind_Some in H as ([l' r'] & (Hne & Hl & ->)%IHe & [= <- <-]).
      split_and!; [done|by constructor|]. cbn [List.map fst snd]. rewrite join_cons by (by destruct l').
      by rewrite <-app_assoc.
  - intros l rest H. cbn [pmembers] in H. destruct ts as [|[c0|w0|k] ts]; [done..|].
    destruct ts as [|[c0|w0|raw] ts]; [done| |done|done].
    destruct (valid_raw k) eqn:Ek; [|done]. cbn [andb] in H. case_bool_decide as Ec0; [subst c0|done].
    apply bind_Some in H as ([j r] & (Hj & ->)%IHv & H). cbn [fst snd] in H.
    destruct r as [|[c| |] r]; [done| |done|done].
    case_bool_decide as Ec; [subst c|case_bool_decide as Ec'; [subst c|done]].
    + injection H as <- <-. split_and!; [done|by repeat constructor|done].
    + apply bind_Some in H as ([l' r'] & (Hne & Hl & ->)%IHm & [= <- <-]).
      split_and!; [done|by constructor|]. cbn [List.map fst snd]. rewrite join_cons by (by destruct l').
      cbn [app colon]. by rewrite <-app_assoc.
Qed.

Lemma jparse_wf l j : jparse l = Some j → jwf j.
Proof.
  unfold jparse. destruct (lex Out l) as [ts ok]. destruct ok; [|done].
  destruct (pvalue _ ts) as [[j' [|]]|] eqn:E; [|done..]. intros [= <-]. by apply parser_sound in E as [? _].
Qed.
