(* ===== verification/GoAny.v ===== *)
(** Go values of type [any] as JSON decodes and encodes them: decoding a JSON
    value with and without [UseNumber], the first value of a decoder's input,
    and [json.Marshal]. *)
From Stdlib Require Import Floats.SpecFloat.
From S2P Require Import Prelude GoBytes GoStrings GoSort GoJson.
Local Open Scope Z_scope.

(** A value: [AInt] is an int64, [ANumber] a [json.Number], a map the list of its
    entries with distinct keys. *)
Inductive any :=
| ANil
| ABool (b : bool)
| AInt (z : Z)
| AFloat (f : spec_float)
| ANumber (w : string)
| AStr (s : string)
| AArr (l : list any)
| AMap (m : list (string * any)).

(** * Maps as lists of entries *)

Section assoc.
Context {A : Type}.
Fixpoint assoc_get (m : list (string * A)) (k : string) : option A :=
  match m with
  | [] => None
  | (k', v) :: m' => if bool_decide (k' = k) then Some v else assoc_get m' k
  end.
Fixpoint assoc_set (m : list (string * A)) (k : string) (v : A) : list (string * A) :=
  match m with
  | [] => [(k, v)]
  | (k', v') :: m' => if bool_decide (k' = k) then (k, v) :: m' else (k', v') :: assoc_set m' k v
  end.

Lemma assoc_get_set m k v k' :
  assoc_get (assoc_set m k v) k' = if bool_decide (k = k') then Some v else assoc_get m k'.
Proof.
  induction m as [|[j w] m IH]; cbn; [done|].
  destruct (decide (j = k)) as [->|Hne].
  - rewrite (bool_decide_eq_true_2 (k = k)) by done. cbn. by destruct (bool_decide (k = k')).
  - rewrite (bool_decide_eq_false_2 (j = k)) by done. cbn. rewrite IH.
    destruct (decide (j = k')) as [->|Hne']; [|by rewrite (bool_decide_eq_false_2 (j = k'))].
    rewrite (bool_decide_eq_true_2 (k' = k')), (bool_decide_eq_false_2 (k = k')) by congruence. done.
Qed.
Lemma assoc_set_keys m k v : (assoc_set m k v).*1 = if bool_decide (k ∈ m.*1) then m.*1 else m.*1 ++ [k].
Proof.
  induction m as [|[j w] m IH]; [done|]. cbn [assoc_set fmap list_fmap fst].
  destruct (decide (j = k)) as [->|Hne].
  - rewrite (bool_decide_eq_true_2 (k = k)), (bool_decide_eq_true_2 (k ∈ _)) by (done || by left). done.
  - rewrite (bool_decide_eq_false_2 (j = k)) by done. cbn [fmap list_fmap fst]. rewrite IH.
    destruct (decide (k ∈ m.*1)) as [Hk|Hk].
    + rewrite (bool_decide_eq_true_2 (k ∈ m.*1)), (bool_decide_eq_true_2 (k ∈ j :: _)) by (done || by right). done.
    + rewrite (bool_decide_eq_false_2 (k ∈ m.*1)), (bool_decide_eq_false_2 (k ∈ j :: _)); [done| |done].
      rewrite not_elem_of_cons. by split.
Qed.
Lemma assoc_set_nodup m k v : NoDup m.*1 → NoDup (assoc_set m k v).*1.
Proof.
  intros H. rewrite assoc_set_keys. case_bool_decide as E; [done|]. apply NoDup_app. split_and!; [done| |apply NoDup_singleton].
  intros x Hx ->%list_elem_of_singleton. done.
Qed.
Lemma assoc_set_new m k v : k ∉ m.*1 → assoc_set m k v = m ++ [(k, v)].
Proof.
  induction m as [|[j w] m IH]; cbn; [done|]. rewrite not_elem_of_cons. intros [Hne Hm].
  rewrite bool_decide_eq_false_2 by congruence. by rewrite IH.
Qed.
Lemma assoc_get_elem m k v : NoDup m.*1 → assoc_get m k = Some v ↔ (k, v) ∈ m.
Proof.
  induction m as [|[j w] m IH]; cbn; [intros _; split; [done|by intros ?%elem_of_nil]|].
  intros [Hj Hm]%NoDup_cons. rewrite elem_of_cons. case_bool_decide as E.
  - subst. split; [intros [= ->]; by left|]. intros [[= ->]|Hin]; [done|].
    destruct Hj. by apply (list_elem_of_fmap_2 fst) in Hin.
  - rewrite IH by done. naive_solver.
Qed.
Lemma assoc_get_none m k : assoc_get m k = None ↔ k ∉ m.*1.
Proof.
  induction m as [|[j w] m IH]; cbn; [split; [intros _; apply not_elem_of_nil|done]|].
  rewrite not_elem_of_cons. case_bool_decide; [naive_solver|]. rewrite IH. naive_solver.
Qed.
End assoc.

(** * Strings *)

Definition hex_value (c : ascii) : Z :=
  let b := byteZ c in if b <=? 57 then b - 48 else if b <=? 70 then b - 55 else b - 87.
(** A [\uXXXX] escape at the start of [l]. *)
Definition getu4 (l : list ascii) : option (Z * list ascii) :=
  match l with
  | b :: u :: c1 :: c2 :: c3 :: c4 :: r =>
      if (byteZ b =? 92) && (byteZ u =? 117) && is_hex c1 && is_hex c2 && is_hex c3 && is_hex c4 then
        Some (((hex_value c1 * 16 + hex_value c2) * 16 + hex_value c3) * 16 + hex_value c4, r)
      else None
  | _ => None
  end.
Definition is_surrogate (r : Z) : bool := in_range 55296 57343 r.
(** [utf16.DecodeRune]. *)
Definition decode_pair (r1 r2 : Z) : option Z :=
  if in_range 55296 56319 r1 && in_range 56320 57343 r2
  then Some ((r1 - 55296) * 1024 + (r2 - 56320) + 65536) else None.
Definition escaped_byte (c : ascii) : ascii :=
  let b := byteZ c in
  if b =? 98 then Zbyte 8 else if b =? 102 then Zbyte 12 else if b =? 110 then Zbyte 10
  else if b =? 114 then Zbyte 13 else if b =? 116 then Zbyte 9 else c.

(** The contents of a string literal; every step consumes a byte. *)
Fixpoint unquote_fuel (n : nat) (l : list ascii) : list ascii :=
  match n with
  | O => []
  | S n =>
      match getu4 l with
      | Some (r, rest) =>
          if is_surrogate r then
            match getu4 rest with
            | Some (r2, rest2) =>
                match decode_pair r r2 with
                | Some dec => encode_rune dec ++ unquote_fuel n rest2
                | None => encode_rune RuneError ++ unquote_fuel n rest
                end
            | None => encode_rune RuneError ++ unquote_fuel n rest
            end
          else encode_rune r ++ unquote_fuel n rest
      | None =>
          match l with
          | [] => []
          | b :: c :: rest =>
              if byteZ b =? 92 then escaped_byte c :: unquote_fuel n rest
              else match decode_rune l with
                   | Some (r, rest') => encode_rune r ++ unquote_fuel n rest'
                   | None => []
                   end
          | _ => match decode_rune l with
                 | Some (r, rest') => encode_rune r ++ unquote_fuel n rest'
                 | None => []
                 end
          end
      end
  end.
Definition unquote (raw : list ascii) : string := of_list (unquote_fuel (length raw) raw).

(** * Numbers *)

(** [strconv.ParseFloat] of a number literal, correctly rounded; [None] is the
    range error. *)
Definition ParseFloat (w : list ascii) : option spec_float :=
  match parse_number w with
  | None => None
  | Some n =>
      let m := default 0 (digits_value 0 (nl_int n ++ nl_frac n)) in
      let e := nl_exp n - Z.of_nat (length (nl_frac n)) in
      let f :=
        if m =? 0 then S754_zero (nl_neg n)
        else if 0 <=? e then
          let v := m * 10 ^ e in binary_normalize 53 1024 (if nl_neg n then - v else v) 0 (nl_neg n)
        else
          let '(q, ex, loc) := SFdiv_core_binary 53 1024 m 0 (10 ^ (- e)) 0 in
          binary_round_aux 53 1024 (nl_neg n) q ex loc in
      match f with S754_infinity _ | S754_nan => None | _ => Some f end
  end.

(** * Decoding *)

(** Into an [any]; the error of a number out of the range of a float64 is
    [None]. *)
Fixpoint decode (useNumber : bool) (j : json) : option any :=
  match j with
  | JNull => Some ANil
  | JBool b => Some (ABool b)
  | JNum w => if useNumber then Some (ANumber (of_list w)) else AFloat <$> ParseFloat w
  | JStr raw => Some (AStr (unquote raw))
  | JArr l =>
      (fix go acc l :=
         match l with
         | [] => Some (AArr (reverse acc))
         | x :: l' => v ← decode useNumber x; go (v :: acc) l'
         end) [] l
  | JObj l =>
      (fix go acc l :=
         match l with
         | [] => Some (AMap acc)
         | (k, x) :: l' => v ← decode useNumber x; go (assoc_set acc (unquote k) v) l'
         end) [] l
  end.

(** With [UseNumber] decoding cannot fail. *)
Lemma decode_total j : ∃ v, decode true j = Some v.
Proof.
  induction j as [|b|w|raw|l IH|l IH] using json_nested; cbn [decode]; [by eexists..| |].
  - generalize (@nil any). induction IH as [|x l [v Hv] _ IHl]; intros acc; [by eexists|]. rewrite Hv. apply IHl.
  - generalize (@nil (string * any)). induction IH as [|[k x] l [v Hv] _ IHl]; intros acc; [by eexists|].
    cbn in Hv. rewrite Hv. apply IHl.
Qed.
Definition decoded (j : json) : any := default ANil (decode true j).
Lemma decode_decoded j : decode true j = Some (decoded j).
Proof. unfold decoded. by destruct (decode_total j) as [v ->]. Qed.

(** Decoding an object: later members replace earlier ones of the same key. *)
Definition object_map (l : list (list ascii * json)) : list (string * any) :=
  foldl (λ acc m, assoc_set acc (unquote m.1) (decoded m.2)) [] l.
Lemma decode_object l : decode true (JObj l) = Some (AMap (object_map l)).
Proof.
  unfold object_map. cbn [decode]. generalize (@nil (string * any)).
  induction l as [|[k x] l IH]; intros acc; [done|]. rewrite decode_decoded. apply IH.
Qed.
Lemma object_map_nodup l : NoDup (object_map l).*1.
Proof.
  unfold object_map. assert (H : NoDup (@nil (string * any)).*1) by constructor. revert H.
  generalize (@nil (string * any)). induction l as [|[k x] l IH]; intros acc H; [done|]. by apply IH, assoc_set_nodup.
Qed.
Lemma object_map_app l l' k :
  k ∉ (λ m, unquote m.1) <$> l' → assoc_get (object_map (l ++ l')) k = assoc_get (object_map l) k.
Proof.
  unfold object_map. rewrite foldl_app. generalize (foldl (λ acc m, assoc_set acc (unquote m.1) (decoded m.2)) [] l).
  induction l' as [|[j x] l' IH]; intros acc; [done|]. cbn. rewrite not_elem_of_cons. intros [Hne Hl].
  rewrite IH by done. by rewrite assoc_get_set, bool_decide_eq_false_2 by congruence.
Qed.
Lemma object_map_snoc l k x : assoc_get (object_map (l ++ [(k, x)])) (unquote k) = Some (decoded x).
Proof. unfold object_map. rewrite foldl_app. cbn. by rewrite assoc_get_set, bool_decide_eq_true_2. Qed.

(** The value [Decoder.Decode] reads: the first one, whatever follows it. *)
Definition has_prefix_l (p l : list ascii) : bool :=
  match strip_prefix_l p l with Some _ => true | None => false end.
Definition top_word (w : list ascii) : option json :=
  if has_prefix_l (to_list "null") w then Some JNull
  else if has_prefix_l (to_list "true") w then Some (JBool true)
  else if has_prefix_l (to_list "false") w then Some (JBool false)
  else match w with c :: _ => if is_digit c then Some (JNum w) else None | [] => None end.
Definition jfirst (l : list ascii) : option json :=
  let ts := (lex Out l).1 in
  match ts with
  | TWord w :: _ => top_word w
  | _ => fst <$> pvalue (2 * length ts) ts
  end.

(** * Encoding *)

Section marshal.
(** [strconv.AppendFloat] with the shortest representation, as the encoder
    calls it. *)
Context (formatFloat : spec_float → string).

Definition html_byte (b : Z) : bool := (b =? 60) || (b =? 62) || (b =? 38).
Definition unicode_escape (r : Z) : list ascii := [backslash; "u"%char] ++ hex_digits 4 r.
Definition encode_byte (c : ascii) : list ascii :=
  let b := byteZ c in
  if (b =? 34) || (b =? 92) then [backslash; c]
  else if b =? 8 then [backslash; "b"%char]
  else if b =? 12 then [backslash; "f"%char]
  else if b =? 10 then [backslash; "n"%char]
  else if b =? 13 then [backslash; "r"%char]
  else if b =? 9 then [backslash; "t"%char]
  else if (b <? 32) || html_byte b then unicode_escape b
  else [c].
Fixpoint encode_fuel (n : nat) (l : list ascii) : list ascii :=
  match n with
  | O => []
  | S n =>
      match l, decode_rune l with
      | c :: tl, Some (r, rest) =>
          if byteZ c <=? 127 then encode_byte c ++ encode_fuel n tl
          else if (r =? RuneError) && (length rest =? length tl)%nat then unicode_escape RuneError ++ encode_fuel n tl
          else if (r =? 8232) || (r =? 8233) then unicode_escape r ++ encode_fuel n rest
          else encode_rune r ++ encode_fuel n rest
      | _, _ => []
      end
  end.
Definition encode_string (s : string) : list ascii := quoteb :: encode_fuel (len s) (to_list s) ++ [quoteb].

Definition join_with (sep : ascii) (l : list (list ascii)) : list ascii :=
  match l with
  | [] => []
  | x :: r => x ++ (r ≫= λ y, sep :: y)
  end.
Definition member (k : string) (v : list ascii) : list ascii := encode_string k ++ ":"%char :: v.
Definition object (ms : list (list ascii)) : list ascii := "{"%char :: join_with "," ms ++ ["}"%char].
Definition array (vs : list (list ascii)) : list ascii := "["%char :: join_with "," vs ++ ["]"%char].

(** Maps are written in the order of their keys. *)
Definition sort_entries {A} (m : list (string * A)) : list (string * A) :=
  sort_by (by_key fst) m.
Fixpoint marshal (v : any) : list ascii :=
  match v with
  | ANil => to_list "null"
  | ABool b => to_list (if b then "true" else "false")
  | AInt z => to_list (pretty z)
  | AFloat f => to_list (formatFloat f)
  | ANumber w => to_list w
  | AStr s => encode_string s
  | AArr l => array (List.map marshal l)
  | AMap m => object ((λ e, member e.1 e.2) <$>
                      sort_entries (List.map (λ e, (e.1, marshal e.2)) m))
  end.
End marshal.
