(* ===== verification/GoCompact.v ===== *)
(** The compaction [json.Marshal] applies to a [json.RawMessage]: white space
    goes, and the bytes that are special in HTML are escaped in the strings.
    Decoding cannot tell a value from its compaction ([decode_html]). *)
From Stdlib Require Import Floats.SpecFloat.
From S2P Require Import Prelude GoBytes GoStrings GoSort GoJson GoAny.
Local Open Scope Z_scope.

(** U+2028 and U+2029 are the other two escaped characters. *)
Fixpoint html_raw (l : list ascii) : list ascii :=
  match l with
  | [] => []
  | c :: r =>
      let plain := (if html_byte (byteZ c) then unicode_escape (byteZ c) else [c]) ++ html_raw r in
      match r with
      | c1 :: c2 :: r2 =>
          if (byteZ c =? 226) && (byteZ c1 =? 128) && ((byteZ c2 =? 168) || (byteZ c2 =? 169))
          then unicode_escape (8192 + byteZ c2 - 128) ++ html_raw r2
          else plain
      | _ => plain
      end
  end.
Fixpoint html (j : json) : json :=
  match j with
  | JStr raw => JStr (html_raw raw)
  | JArr l => JArr (List.map html l)
  | JObj l => JObj (List.map (λ m, (html_raw m.1, html m.2)) l)
  | _ => j
  end.

(** * The decoder's reading of one character *)

Definition cont (c : ascii) : Prop := cont_ok (byteZ c) = true.
Definition starts (t : list ascii) : Prop := match t with c :: _ => cont_ok (byteZ c) = false | [] => True end.

Lemma second_cont b0 b1 : cont_ok b1 = false → second_ok b0 b1 = false.
Proof.
  unfold cont_ok, second_ok. rewrite in_range_false. intros H.
  repeat match goal with |- context [?a =? ?b] => destruct (Z.eqb_spec a b) end; apply in_range_false; lia.
Qed.

(** Decoding from a known first byte: [r] is the rune, [k] the number of
    continuation bytes it takes. *)
Ltac known_bytes :=
  repeat match goal with
  | H : ?x = true |- context [?x] => rewrite H
  | H : ?x = false |- context [?x] => rewrite H
  | H : cont ?c |- context [cont_ok (byteZ ?c)] => rewrite H
  | H : cont_ok ?b = false |- context [second_ok ?b0 ?b] => rewrite (second_cont b0 b H)
  end.
Ltac decode_as r k := exists r, k; intros t Ht; unfold decode_rune; known_bytes; cbn [app drop].
Ltac decode_bad :=
  decode_as RuneError 0%nat;
  repeat match goal with |- context [match ?t with [] => _ | _ :: _ => _ end] => destruct t; try done end;
  cbn [starts] in *; known_bytes; by rewrite ?andb_false_r.

(** A rune depends on its first byte and the continuation bytes after it. *)
Lemma decode_local c cp :
  Forall cont cp → ∃ r k, ∀ t, starts t → decode_rune (c :: cp ++ t) = Some (r, drop k cp ++ t).
Proof.
  intros Hcp. pose (b0 := byteZ c).
  destruct (byteZ c <=? 127) eqn:E0; [by decode_as b0 0%nat|].
  destruct (in_range 194 223 (byteZ c)) eqn:E1.
  { destruct cp as [|a cp]; [decode_bad|]. apply Forall_cons in Hcp as [Ha _].
    decode_as ((b0 - 192) * 64 + (byteZ a - 128)) 1%nat. by known_bytes. }
  destruct (in_range 224 239 (byteZ c)) eqn:E2.
  { destruct cp as [|a [|b cp]]; rewrite ?Forall_cons in Hcp; [decode_bad..|]. destruct Hcp as (Ha & Hb & _).
    destruct (second_ok (byteZ c) (byteZ a)) eqn:Es; [|decode_bad].
    decode_as ((b0 - 224) * 4096 + (byteZ a - 128) * 64 + (byteZ b - 128)) 2%nat. by known_bytes. }
  destruct (in_range 240 244 (byteZ c)) eqn:E3; [|decode_bad].
  destruct cp as [|a [|b [|d cp]]]; rewrite ?Forall_cons in Hcp; [decode_bad..|]. destruct Hcp as (Ha & Hb & Hd & _).
  destruct (second_ok (byteZ c) (byteZ a)) eqn:Es; [|decode_bad].
  decode_as ((b0 - 240) * 262144 + (byteZ a - 128) * 4096 + (byteZ b - 128) * 64 + (byteZ d - 128)) 3%nat. by known_bytes.
Qed.

(** Every string splits into continuation bytes and the start of a character. *)
Lemma split_cont l : ∃ cp t, l = cp ++ t ∧ Forall cont cp ∧ starts t.
Proof.
  induction l as [|c l (cp & t & -> & Hc & Ht)]; [by exists [], []|].
  destruct (cont_ok (byteZ c)) eqn:E.
  - exists (c :: cp), t. split_and!; [done| |done]. by constructor.
  - by exists [], (c :: cp ++ t).
Qed.

(** * Unquoting, one character at a time *)

Definition unq (l : list ascii) : list ascii := unquote_fuel (length l) l.
Arguments unq : simpl never.

Lemma getu4_inv l r rest :
  getu4 l = Some (r, rest) → ∃ c1 c2 c3 c4,
    l = [backslash; "u"%char; c1; c2; c3; c4] ++ rest ∧ forallb is_hex [c1; c2; c3; c4] = true ∧
    r = ((hex_value c1 * 16 + hex_value c2) * 16 + hex_value c3) * 16 + hex_value c4.
Proof.
  intros H. destruct l as [|b [|u [|c1 [|c2 [|c3 [|c4 l]]]]]]; cbn in H; try done.
  destruct (Z.eqb_spec (byteZ b) 92) as [Eb|]; [|done]. destruct (Z.eqb_spec (byteZ u) 117) as [Eu|]; [|done]. cbn in H.
  destruct (is_hex c1) eqn:E1; [|done]. destruct (is_hex c2) eqn:E2; [|done]. destruct (is_hex c3) eqn:E3; [|done].
  destruct (is_hex c4) eqn:E4; [|done]. cbn in H. simplify_eq. exists c1, c2, c3, c4.
  rewrite (byteZ_inj b backslash), (byteZ_inj u "u"%char) by done. split_and!; [done| |done]. cbn. by rewrite E1, E2, E3, E4.
Qed.
Lemma getu4_shorter l r rest : getu4 l = Some (r, rest) → length l = (6 + length rest)%nat.
Proof. intros (c1 & c2 & c3 & c4 & -> & _)%getu4_inv. by rewrite length_app. Qed.
Lemma getu4_other c l : c ≠ backslash → getu4 (c :: l) = None.
Proof.
  intros Hc. destruct (getu4 (c :: l)) as [[r rest]|] eqn:E; [|done].
  apply getu4_inv in E as (c1 & c2 & c3 & c4 & E & _). cbn in E. by injection E.
Qed.

(** The length is enough fuel. *)
Lemma unquote_enough n m l : (length l ≤ n)%nat → (length l ≤ m)%nat → unquote_fuel n l = unquote_fuel m l.
Proof.
  revert m l. induction n as [|n IH]; intros m l Hn Hm.
  { destruct l; [|cbn in Hn; lia]. by destruct m. }
  destruct m as [|m]; [destruct l; [done|cbn in Hm; lia]|]. cbn [unquote_fuel].
  destruct (getu4 l) as [[r rest]|] eqn:E.
  - apply getu4_shorter in E. rewrite (IH m rest) by lia. destruct (is_surrogate r); [|done].
    destruct (getu4 rest) as [[r2 rest2]|] eqn:E2; [|done]. apply getu4_shorter in E2. by rewrite (IH m rest2) by lia.
  - assert (Hr : match decode_rune l with Some (r, rest') => encode_rune r ++ unquote_fuel n rest' | None => [] end =
                 match decode_rune l with Some (r, rest') => encode_rune r ++ unquote_fuel m rest' | None => [] end).
    { destruct (decode_rune l) as [[r rest]|] eqn:Ed; [|done]. apply decode_rune_shorter in Ed. by rewrite (IH m rest) by lia. }
    destruct l as [|b [|c l]]; [done|exact Hr|]. destruct (byteZ b =? 92); [|exact Hr].
    cbn in Hn, Hm. by rewrite (IH m l) by lia.
Qed.

Lemma unq_enough n l : (length l ≤ n)%nat → unquote_fuel n l = unq l.
Proof. intros H. by apply unquote_enough. Qed.

Lemma unq_rune c l r rest :
  c ≠ backslash → decode_rune (c :: l) = Some (r, rest) → unq (c :: l) = encode_rune r ++ unq rest.
Proof.
  intros Hc Hd. pose proof (decode_rune_shorter _ _ _ Hd) as Hlen. unfold unq. cbn [length unquote_fuel].
  rewrite getu4_other, Hd by done.
  assert (Hb : (byteZ c =? 92) = false) by (apply Z.eqb_neq; intros H; by apply Hc, byteZ_inj).
  rewrite unq_enough by (cbn in Hlen; lia). destruct l; [done|]. by rewrite Hb.
Qed.
Lemma unq_ascii c l : c ≠ backslash → byteZ c ≤ 127 → unq (c :: l) = c :: unq l.
Proof.
  intros Hc Ha. rewrite (unq_rune c l (byteZ c) l) by (done || by apply decode_rune_ascii). by rewrite encode_rune_ascii.
Qed.
Lemma unq_escape c l : byteZ c ≠ 117 → unq (backslash :: c :: l) = escaped_byte c :: unq l.
Proof.
  intros Hc. unfold unq at 1. cbn [length]. remember (S (length l)) as n eqn:En. cbn [unquote_fuel].
  destruct (getu4 (backslash :: c :: l)) as [[r rest]|] eqn:E.
  - apply getu4_inv in E as (c1 & c2 & c3 & c4 & E & _). cbn in E. injection E as -> _. done.
  - change (byteZ backslash =? 92) with true. cbn iota.
    f_equal. apply unq_enough. lia.
Qed.
Lemma unq_u4 l r rest :
  getu4 l = Some (r, rest) →
  unq l = if is_surrogate r then
            match getu4 rest with
            | Some (r2, rest2) =>
                match decode_pair r r2 with
                | Some dec => encode_rune dec ++ unq rest2
                | None => encode_rune RuneError ++ unq rest
                end
            | None => encode_rune RuneError ++ unq rest
            end
          else encode_rune r ++ unq rest.
Proof.
  intros H. pose proof (getu4_shorter _ _ _ H) as Hlen. unfold unq at 1. rewrite Hlen. cbn [Nat.add].
  remember (S (S (S (S (S (length rest)))))) as n eqn:En. cbn [unquote_fuel].
  rewrite H, !(unq_enough _ rest) by lia. destruct (is_surrogate r); [|done].
  destruct (getu4 rest) as [[r2 rest2]|] eqn:E2; [|done]. apply getu4_shorter in E2. by rewrite (unq_enough _ rest2) by lia.
Qed.

(** * Escaping is invisible to the decoder *)

Definition special (c : ascii) : bool := html_byte (byteZ c) || (byteZ c =? 226).
Lemma html_raw_plain c l : special c = false → html_raw (c :: l) = c :: html_raw l.
Proof.
  unfold special. rewrite orb_false_iff. intros [Hh H2]. cbn [html_raw]. rewrite Hh, H2.
  by destruct l as [|? [|??]].
Qed.
Lemma html_raw_byte c l :
  html_byte (byteZ c) = true → html_raw (c :: l) = unicode_escape (byteZ c) ++ html_raw l.
Proof.
  intros Hh. cbn [html_raw]. rewrite Hh. destruct l as [|? [|??]]; [done..|].
  replace (byteZ c =? 226) with false; [done|]. unfold html_byte in Hh.
  rewrite !orb_true_iff, !Z.eqb_eq in Hh. symmetry. apply Z.eqb_neq. lia.
Qed.
Lemma cont_plain c : cont c → special c = false.
Proof.
  unfold cont, cont_ok, special, html_byte. rewrite in_range_spec. intros H.
  rewrite !orb_false_iff, !Z.eqb_neq. lia.
Qed.
Lemma html_raw_cont cp t : Forall cont cp → html_raw (cp ++ t) = cp ++ html_raw t.
Proof. induction 1 as [|c cp Hc _ IH]; [done|]. cbn [app]. by rewrite html_raw_plain, IH by by apply cont_plain. Qed.
Lemma html_raw_starts t : starts t → starts (html_raw t).
Proof.
  destruct t as [|c t]; [done|]. cbn [starts html_raw]. intros Hc.
  assert (Hp : starts ((if html_byte (byteZ c) then unicode_escape (byteZ c) else [c]) ++ html_raw t))
    by by destruct (html_byte _).
  destruct t as [|c1 [|c2 r2]]; [exact Hp..|]. by destruct (_ && _).
Qed.

Lemma hex_plain c : is_hex c = true → special c = false ∧ c ≠ backslash.
Proof.
  unfold is_hex, is_digit, special, html_byte. rewrite !orb_true_iff, !in_range_spec. intros H. split.
  - rewrite !orb_false_iff, !Z.eqb_neq. lia.
  - intros ->. change (byteZ backslash) with 92 in H. lia.
Qed.
Lemma html_raw_u4 l r rest :
  getu4 l = Some (r, rest) → getu4 (html_raw l) = Some (r, html_raw rest) .
Proof.
  intros (c1 & c2 & c3 & c4 & -> & Hx & ->)%getu4_inv. cbn in Hx. rewrite !andb_true_iff in Hx.
  destruct Hx as (H1 & H2 & H3 & H4 & _). cbn [app].
  rewrite !html_raw_plain by (done || by apply hex_plain). cbn. by rewrite H1, H2, H3, H4.
Qed.
Lemma hex_digit_value z : 0 ≤ z < 16 → is_hex (hex_digit z) = true ∧ hex_value (hex_digit z) = z.
Proof.
  intros Hz. unfold hex_digit, is_hex, hex_value, is_digit. destruct (Z.ltb_spec z 10); rewrite byteZ_Zbyte by lia.
  - rewrite (proj2 (in_range_spec 48 57 _)), (proj2 (Z.leb_le _ _)) by lia. split; [done|lia].
  - rewrite (proj2 (in_range_spec 97 102 _)), (proj2 (Z.leb_gt _ 57)), (proj2 (Z.leb_gt _ 70)) by lia.
    rewrite orb_true_r. split; [done|lia].
Qed.
Lemma getu4_escape r l : 0 ≤ r < 65536 → getu4 (unicode_escape r ++ l) = Some (r, l).
Proof.
  intros Hr. unfold unicode_escape. cbn [hex_digits app].
  assert (Hd : ∀ z, is_hex (hex_digit (z mod 16)) = true ∧ hex_value (hex_digit (z mod 16)) = z mod 16)
    by (intros z; apply hex_digit_value, Z.mod_pos_bound; lia).
  unfold getu4. rewrite !(proj1 (Hd _)), !(proj2 (Hd _)). cbn -[Z.div Z.modulo Z.mul Z.add]. do 2 f_equal.
  Z.to_euclidean_division_equations. lia.
Qed.

Lemma html_raw_cases c l :
  (html_byte (byteZ c) = true ∧ html_raw (c :: l) = unicode_escape (byteZ c) ++ html_raw l) ∨
  (∃ c1 c2 r, l = c1 :: c2 :: r ∧ byteZ c = 226 ∧ byteZ c1 = 128 ∧ (byteZ c2 = 168 ∨ byteZ c2 = 169) ∧
     html_raw (c :: l) = unicode_escape (8192 + byteZ c2 - 128) ++ html_raw r) ∨
  (html_byte (byteZ c) = false ∧ html_raw (c :: l) = c :: html_raw l).
Proof.
  destruct (html_byte (byteZ c)) eqn:Hh; [left; split; [done|by apply html_raw_byte]|right].
  destruct l as [|c1 [|c2 r]]; [right; split; [done|]; cbn [html_raw]; by rewrite Hh..|].
  destruct ((byteZ c =? 226) && (byteZ c1 =? 128) && ((byteZ c2 =? 168) || (byteZ c2 =? 169))) eqn:E.
  - left. exists c1, c2, r. pose proof E as E'. rewrite !andb_true_iff, orb_true_iff, !Z.eqb_eq in E'.
    destruct E' as [[? ?] ?]. split_and!; [done..|]. cbn [html_raw]. by rewrite E.
  - right. split; [done|]. change (html_raw (c :: c1 :: c2 :: r)) with
      (let plain := (if html_byte (byteZ c) then unicode_escape (byteZ c) else [c]) ++ html_raw (c1 :: c2 :: r) in
       if (byteZ c =? 226) && (byteZ c1 =? 128) && ((byteZ c2 =? 168) || (byteZ c2 =? 169))
       then unicode_escape (8192 + byteZ c2 - 128) ++ html_raw r else plain). by rewrite E, Hh.
Qed.
Lemma html_byte_cases c : html_byte (byteZ c) = true → byteZ c ∈ [60; 62; 38].
Proof. unfold html_byte. rewrite !orb_true_iff, !Z.eqb_eq. set_solver. Qed.

Lemma valid_cons c l : c ≠ backslash → vraw VOut (c :: l) = true → vraw VOut l = true.
Proof. intros Hc. cbn. by rewrite (bool_decide_eq_false_2 (c = backslash)) by done; repeat case_match. Qed.
Lemma cont_high c : cont c → 128 ≤ byteZ c.
Proof. unfold cont, cont_ok. rewrite in_range_spec. lia. Qed.
Lemma valid_app cp t : Forall cont cp → vraw VOut (cp ++ t) = vraw VOut t.
Proof.
  induction 1 as [|c cp Hc _ IH]; [done|]. cbn [app vraw]. apply cont_high in Hc.
  rewrite (bool_decide_eq_false_2 (c = quoteb)), (bool_decide_eq_false_2 (c = backslash)) by (by intros ->).
  by rewrite (proj2 (Z.ltb_ge _ _)) by lia.
Qed.
(** A backslash starts a short escape or a [\uXXXX] escape. *)
Lemma valid_escape l :
  vraw VOut (backslash :: l) = true →
  (∃ c l', l = c :: l' ∧ simple_escape c = true ∧ vraw VOut l' = true) ∨
  (∃ r l', getu4 (backslash :: l) = Some (r, l') ∧ vraw VOut l' = true).
Proof.
  intros H. destruct l as [|c l]; [done|]. cbn in H. destruct (simple_escape c) eqn:Es; [left; by exists c, l|].
  destruct (Z.eqb_spec (byteZ c) 117) as [Eu|]; [|done]. right.
  destruct l as [|c1 l]; [done|]. cbn in H. destruct (is_hex c1) eqn:E1; [|done].
  destruct l as [|c2 l]; [done|]. cbn in H. destruct (is_hex c2) eqn:E2; [|done].
  destruct l as [|c3 l]; [done|]. cbn in H. destruct (is_hex c3) eqn:E3; [|done].
  destruct l as [|c4 l]; [done|]. cbn in H. destruct (is_hex c4) eqn:E4; [|done].
  eexists _, l. split; [|done]. unfold getu4. by rewrite Eu, E1, E2, E3, E4.
Qed.
Lemma valid_u4 l r rest : vraw VOut l = true → getu4 l = Some (r, rest) → vraw VOut rest = true.
Proof.
  intros Hv Hg. pose proof Hg as (c1 & c2 & c3 & c4 & -> & _)%getu4_inv.
  destruct (valid_escape _ Hv) as [(c & l' & [= <- _] & Hs & _)|(r' & l' & E & ?)]; [done|]. 
  cbn [app] in Hg. rewrite Hg in E. by simplify_eq.
Qed.
Lemma simple_escape_plain c : simple_escape c = true → special c = false ∧ byteZ c ≠ 117.
Proof.
  unfold simple_escape. rewrite bool_decide_eq_true. rewrite !elem_of_cons. unfold special, html_byte.
  rewrite !orb_false_iff, !Z.eqb_neq. intros H. assert (Hn : byteZ c ∉ []) by apply not_elem_of_nil. naive_solver lia.
Qed.

(** An escape that compaction introduces is no half of a surrogate pair. *)
Lemma html_raw_u4_new l r rest :
  vraw VOut l = true → getu4 l = None → getu4 (html_raw l) = Some (r, rest) → r < 55296.
Proof.
  intros Hv Hn Hg. destruct l as [|c l]; [done|].
  destruct (html_raw_cases c l) as [[Hh E]|[(c1 & c2 & r' & _ & _ & _ & Hc2 & E)|[_ E]]]; rewrite E in Hg.
  - apply html_byte_cases in Hh. pose proof (byteZ_range c). rewrite getu4_escape in Hg by lia. set_solver by lia.
  - rewrite getu4_escape in Hg by lia. simplify_eq. lia.
  - destruct (decide (c = backslash)) as [->|Hc]; [|by rewrite getu4_other in Hg].
    destruct (valid_escape _ Hv) as [(d & l' & -> & Hs & _)|(r' & l' & E' & ?)]; [|congruence].
    apply simple_escape_plain in Hs as [Hp Hu]. rewrite html_raw_plain in Hg by done.
    apply getu4_inv in Hg as (? & ? & ? & ? & [= -> _] & _). done.
Qed.

Lemma unq_small_escape r l : 0 ≤ r < 55296 → unq (unicode_escape r ++ l) = encode_rune r ++ unq l.
Proof.
  intros Hr. rewrite (unq_u4 _ r l) by (apply getu4_escape; lia). unfold is_surrogate.
  by rewrite (proj2 (in_range_false _ _ _)) by lia.
Qed.

Lemma unq_html_escape l l' r :
  (∀ t, (length t < length l)%nat → vraw VOut t = true → unq (html_raw t) = unq t) →
  vraw VOut l = true → getu4 l = Some (r, l') → unq (html_raw l) = unq l.
Proof.
  intros IH Hv Hg. rewrite (unq_u4 _ _ _ (html_raw_u4 _ _ _ Hg)), (unq_u4 _ _ _ Hg).
  pose proof (valid_u4 _ _ _ Hv Hg) as Hv'. apply getu4_shorter in Hg. rewrite (IH l') by (done || lia).
  destruct (is_surrogate r) eqn:Es; [|done]. destruct (getu4 l') as [[r2 l2]|] eqn:E2.
  - rewrite (html_raw_u4 _ _ _ E2). pose proof (valid_u4 _ _ _ Hv' E2). apply getu4_shorter in E2.
    by rewrite (IH l2) by (done || lia).
  - destruct (getu4 (html_raw l')) as [[r2 l2]|] eqn:E3; [|done].
    pose proof (html_raw_u4_new _ _ _ Hv' E2 E3). unfold decode_pair.
    by rewrite (proj2 (in_range_false 56320 57343 r2)), andb_false_r by lia.
Qed.

Lemma unq_html_rune c l :
  (∀ t, (length t < S (length l))%nat → vraw VOut t = true → unq (html_raw t) = unq t) →
  c ≠ backslash → vraw VOut l = true → unq (c :: html_raw l) = unq (c :: l).
Proof.
  intros IH Hc Hv. destruct (split_cont l) as (cp & t & -> & Hcp & Ht).
  destruct (decode_local c cp Hcp) as (r & k & Hd). rewrite html_raw_cont by done.
  rewrite (unq_rune c _ _ _ Hc (Hd t Ht)), (unq_rune c _ _ _ Hc (Hd _ (html_raw_starts _ Ht))).
  f_equal. assert (Hk : Forall cont (drop k cp)) by by apply Forall_drop.
  rewrite <-html_raw_cont by done. rewrite valid_app in Hv by done.
  apply IH; [rewrite !length_app, length_drop; lia|by rewrite valid_app].
Qed.

Lemma unq_html l : vraw VOut l = true → unq (html_raw l) = unq l.
Proof.
  remember (length l) as n eqn:En. revert l En. induction (lt_wf n) as [n _ IH']. intros l -> Hv.
  assert (IH : ∀ t, (length t < length l)%nat → vraw VOut t = true → unq (html_raw t) = unq t)
    by (intros t Ht; by apply (IH' _ Ht)). clear IH'.
  destruct l as [|c l]; [done|]. destruct (decide (c = backslash)) as [->|Hc].
  { destruct (valid_escape _ Hv) as [(d & l' & -> & Hs & Hv')|(r & l' & Hg & _)]; [|by apply (unq_html_escape _ l' r)].
    apply simple_escape_plain in Hs as [Hp Hu]. rewrite html_raw_plain, html_raw_plain by done.
    rewrite !unq_escape by done. f_equal. apply IH; [cbn; lia|done]. }
  pose proof (valid_cons _ _ Hc Hv) as Hv'.
  destruct (html_raw_cases c l) as [[Hh ->]|[(c1 & c2 & r & -> & H0 & H1 & H2 & ->)|[_ ->]]]; [| |by apply unq_html_rune].
  - apply html_byte_cases in Hh. assert (Hb : 0 ≤ byteZ c ≤ 127) by set_solver by lia.
    rewrite unq_small_escape, encode_rune_ascii, unq_ascii by (done || lia). cbn. f_equal. apply IH; [cbn; lia|done].
  - rewrite unq_small_escape by lia. rewrite (unq_rune c _ (8192 + byteZ c2 - 128) r); [|done|].
    + f_equal. apply IH; [cbn; lia|]. apply (valid_cons c2); [by intros ->; destruct H2|].
      apply (valid_cons c1); [by intros ->|done].
    + unfold decode_rune. rewrite H0, H1. destruct H2 as [-> | ->]; done.
Qed.

Lemma unquote_html raw : valid_raw raw = true → unquote (html_raw raw) = unquote raw.
Proof. intros H. unfold unquote. f_equal. by apply unq_html. Qed.

(** * Values *)

Lemma vraw_hex_digits cs l : Forall (λ c, is_hex c = true) cs → length cs = 4%nat → vraw (VHex 3) (cs ++ l) = vraw VOut l.
Proof.
  intros Hx Hl. destruct cs as [|c1 [|c2 [|c3 [|c4 [|]]]]]; try done. rewrite !Forall_cons in Hx.
  destruct Hx as (H1 & H2 & H3 & H4 & _). cbn. by rewrite H1, H2, H3, H4.
Qed.
Lemma vraw_unicode_escape r l : vraw VOut (unicode_escape r ++ l) = vraw VOut l.
Proof.
  unfold unicode_escape. rewrite <-app_assoc. cbn [app vraw]. apply vraw_hex_digits; [|done]. cbn.
  repeat constructor; apply hex_digit_value, Z.mod_pos_bound; lia.
Qed.
Lemma vraw_u4 l r rest : getu4 l = Some (r, rest) → vraw VOut l = vraw VOut rest.
Proof.
  intros (c1 & c2 & c3 & c4 & -> & Hx & _)%getu4_inv. cbn [forallb] in Hx. rewrite !andb_true_iff in Hx.
  change (vraw (VHex 3) ([c1; c2; c3; c4] ++ rest) = vraw VOut rest). apply vraw_hex_digits; [|done].
  repeat constructor; tauto.
Qed.
Lemma vraw_plain c l l' : c ≠ backslash → vraw VOut l' = true → vraw VOut (c :: l) = true → vraw VOut (c :: l') = true.
Proof.
  intros Hc Hl. cbn [vraw]. rewrite (bool_decide_eq_false_2 (c = backslash)) by done.
  case_bool_decide; [done|]. by destruct (_ <? _).
Qed.
Lemma valid_html l : valid_raw l = true → valid_raw (html_raw l) = true.
Proof.
  unfold valid_raw. remember (length l) as n eqn:En. revert l En. induction (lt_wf n) as [n _ IH']. intros l -> Hv.
  assert (IH : ∀ t, (length t < length l)%nat → vraw VOut t = true → vraw VOut (html_raw t) = true)
    by (intros t Ht; by apply (IH' _ Ht)). clear IH'.
  destruct l as [|c l]; [done|]. destruct (decide (c = backslash)) as [->|Hc].
  { destruct (valid_escape _ Hv) as [(d & l' & -> & Hs & Hv')|(r & l' & Hg & Hv')].
    - pose proof (simple_escape_plain _ Hs) as [Hp _]. rewrite html_raw_plain, html_raw_plain by done.
      cbn [vraw]. rewrite bool_decide_eq_false_2, bool_decide_eq_true_2, Hs by done. apply IH; [cbn; lia|done].
    - rewrite (vraw_u4 _ _ _ (html_raw_u4 _ _ _ Hg)). apply IH; [apply getu4_shorter in Hg; lia|done]. }
  pose proof (valid_cons _ _ Hc Hv) as Hv'.
  destruct (html_raw_cases c l) as [[Hh ->]|[(c1 & c2 & r & -> & H0 & H1 & H2 & ->)|[_ ->]]].
  - rewrite vraw_unicode_escape. apply IH; [cbn; lia|done].
  - rewrite vraw_unicode_escape. apply IH; [cbn; lia|]. apply (valid_cons c2); [by intros ->; destruct H2|].
    apply (valid_cons c1); [by intros ->|done].
  - apply (vraw_plain c l); [done|apply IH; [cbn; lia|done]|done].
Qed.

Lemma html_wf j : jwf j → jwf (html j).
Proof.
  induction j as [|b|w|raw|l IH|l IH] using json_nested; cbn [html]; try done.
  - apply valid_html.
  - rewrite !jwf_arr. intros Hl. apply Forall_map. rewrite Forall_forall in *. naive_solver.
  - rewrite !jwf_obj. intros Hl. apply Forall_map. rewrite Forall_forall in *. intros m Hm. cbn.
    destruct (Hl m Hm) as [Hk Hj]. split; [by apply valid_html|by apply IH].
Qed.

(** Decoding reads the value that was compacted. *)
Lemma decode_html u j : jwf j → decode u (html j) = decode u j.
Proof.
  induction j as [|b|w|raw|l IH|l IH] using json_nested; cbn [html]; try done.
  - intros H. cbn. by rewrite unquote_html.
  - rewrite jwf_arr. intros Hl. cbn [decode]. generalize (@nil any). revert Hl.
    induction IH as [|x l Hx _ IHl]; intros Hl acc; [done|]. apply Forall_cons in Hl as [Hj Hl]. cbn [List.map].
    rewrite (Hx Hj). destruct (decode u x); [|done]. by apply IHl.
  - rewrite jwf_obj. intros Hl. cbn [decode]. generalize (@nil (string * any)). revert Hl.
    induction IH as [|[k x] l Hx _ IHl]; intros Hl acc; [done|]. apply Forall_cons in Hl as [[Hk Hj] Hl]. cbn in Hk, Hj, Hx.
    cbn [List.map fst snd]. rewrite (Hx Hj), unquote_html by done. destruct (decode u x); [|done]. by apply IHl.
Qed.
