(* ===== verification/GoMarshal.v ===== *)
(** [json.Marshal] is read back: the text of a value parses, and decoding the
    parsed value gives the value, with strings re-coded to valid UTF-8, map
    entries in the order of their keys and numbers as their literals. *)
From Stdlib Require Import Floats.SpecFloat.
From S2P Require Import Prelude GoBytes GoStrings GoSort GoJson GoAny GoCompact.
Local Open Scope Z_scope.

(** * Strings *)

(** A string with every invalid byte replaced by U+FFFD. *)
Definition recode (l : list ascii) : list ascii := utf8_of (runes l).
Lemma recode_cons l r rest : decode_rune l = Some (r, rest) → recode l = encode_rune r ++ recode rest.
Proof. intros H. unfold recode. by rewrite (runes_cons _ _ _ H). Qed.
Lemma recode_valid s : valid_utf8 s → of_list (recode (to_list s)) = s.
Proof.
  intros (rs & Hs & E). unfold recode. rewrite E, runes_utf8_of by done. rewrite <-E. apply of_to_list.
Qed.

Definition enc (l : list ascii) : list ascii := encode_fuel (length l) l.
Lemma encode_enough n m l : (length l ≤ n)%nat → (length l ≤ m)%nat → encode_fuel n l = encode_fuel m l.
Proof.
  revert m l. induction n as [|n IH]; intros m l Hn Hm; [destruct l; [by destruct m|cbn in Hn; lia]|].
  destruct m as [|m]; [destruct l; [done|cbn in Hm; lia]|]. destruct l as [|c l]; [done|].
  cbn [encode_fuel]. destruct (decode_rune (c :: l)) as [[r rest]|] eqn:Ed; [|done].
  apply decode_rune_shorter in Ed. cbn in *. rewrite (IH m l), (IH m rest) by lia. done.
Qed.

(** What is written for the next rune. *)
Definition rune_text (c : ascii) (l : list ascii) (r : Z) (rest : list ascii) : list ascii :=
  if byteZ c <=? 127 then encode_byte c
  else if (r =? RuneError) && (length rest =? length l)%nat then unicode_escape RuneError
  else if (r =? 8232) || (r =? 8233) then unicode_escape r
  else encode_rune r.
Lemma decode_rune_error c l rest : byteZ c > 127 → decode_rune (c :: l) = Some (RuneError, rest) →
  (length rest =? length l)%nat = true → rest = l.
Proof.
  intros Hc H Hl. apply Nat.eqb_eq in Hl. unfold decode_rune in H.
  repeat (klo_case; simplify_eq/=; try lia; try done).
Qed.
Lemma enc_cons c l r rest :
  decode_rune (c :: l) = Some (r, rest) → enc (c :: l) = rune_text c l r rest ++ enc rest.
Proof.
  intros Hd. pose proof (decode_rune_shorter _ _ _ Hd) as Hlen. unfold enc at 1. cbn [length encode_fuel]. rewrite Hd.
  unfold rune_text. destruct (Z.leb_spec (byteZ c) 127) as [Hc|Hc].
  - rewrite decode_rune_ascii in Hd by done. simplify_eq. done.
  - destruct ((r =? RuneError) && (length rest =? length l)%nat) eqn:E.
    + apply andb_true_iff in E as [Er El]. apply Z.eqb_eq in Er as ->.
      by rewrite (decode_rune_error c l rest) by (done || lia).
    + cbn in Hlen. unfold enc. rewrite (encode_enough (length l) (length rest) rest) by lia. by destruct (_ || _).
Qed.

(** A decoded rune is a scalar value. *)
Lemma decode_rune_scalar c l r rest : decode_rune (c :: l) = Some (r, rest) → is_scalar r = true.
Proof.
  intros H. pose proof (byteZ_range c). apply is_scalar_spec. unfold decode_rune, second_ok, cont_ok in H.
  repeat (klo_case; simplify_eq/=; try (unfold RuneError; lia));
    repeat match goal with E : _ && _ = true |- _ => apply andb_true_iff in E as [? ?] end;
    repeat match goal with E : in_range _ _ _ = true |- _ => apply in_range_spec in E end;
    repeat match goal with E : (_ =? _) = true |- _ => apply Z.eqb_eq in E | E : (_ =? _) = false |- _ => apply Z.eqb_neq in E end;
    byte_arith; lia.
Qed.

Lemma decode_rune_high c l r rest : 127 < byteZ c → decode_rune (c :: l) = Some (r, rest) → 127 < r.
Proof.
  intros Hc Hd. unfold decode_rune in Hd. pose proof (byteZ_range c).
  repeat (klo_case; simplify_eq/=; try (unfold RuneError; lia));
    repeat match goal with E : _ && _ = true |- _ => apply andb_true_iff in E as [? ?] end;
    unfold cont_ok, second_ok in *; repeat klo_case;
    repeat match goal with E : (_ =? _) = true |- _ => apply Z.eqb_eq in E | E : (_ =? _) = false |- _ => apply Z.eqb_neq in E end;
    byte_arith; lia.
Qed.

(** One written rune reads back. *)
Lemma unq_unicode_escape r l : is_scalar r = true → r < 65536 → unq (unicode_escape r ++ l) = encode_rune r ++ unq l.
Proof.
  intros Hs Hr. apply is_scalar_spec in Hs. rewrite (unq_u4 _ r l) by (apply getu4_escape; lia).
  unfold is_surrogate. by rewrite (proj2 (in_range_false _ _ _)) by lia.
Qed.
Lemma unq_encode_byte c l : byteZ c ≤ 127 → unq (encode_byte c ++ l) = c :: unq l.
Proof.
  intros Hc. pose proof (byteZ_range c) as Hb. unfold encode_byte.
  assert (Hesc : ∀ e, byteZ e ≠ 117 → escaped_byte e = c → unq ([backslash; e] ++ l) = c :: unq l)
    by (intros e He <-; cbn [app]; by rewrite unq_escape).
  destruct ((byteZ c =? 34) || (byteZ c =? 92)) eqn:Eq.
  { apply orb_true_iff in Eq. rewrite !Z.eqb_eq in Eq. apply Hesc; [lia|]. unfold escaped_byte. by destruct Eq as [-> | ->]. }
  apply orb_false_iff in Eq as [_ Eq]. apply Z.eqb_neq in Eq.
  assert (Hshort : ∀ n e, byteZ c = n → byteZ e ≠ 117 → escaped_byte e = Zbyte n → unq ([backslash; e] ++ l) = c :: unq l).
  { intros n e Hn He Hx. apply Hesc; [done|]. by rewrite Hx, <-Hn, Zbyte_byteZ. }
  destruct (Z.eqb_spec (byteZ c) 8); [by apply (Hshort 8)|]. destruct (Z.eqb_spec (byteZ c) 12); [by apply (Hshort 12)|].
  destruct (Z.eqb_spec (byteZ c) 10); [by apply (Hshort 10)|]. destruct (Z.eqb_spec (byteZ c) 13); [by apply (Hshort 13)|].
  destruct (Z.eqb_spec (byteZ c) 9); [by apply (Hshort 9)|].
  destruct ((byteZ c <? 32) || html_byte (byteZ c)) eqn:Eu.
  - rewrite unq_unicode_escape by (lia || (apply is_scalar_spec; lia)). by rewrite encode_rune_ascii.
  - cbn [app]. apply unq_ascii; [|done]. by intros ->.
Qed.
Lemma unq_encode_rune r l : is_scalar r = true → 127 < r → unq (encode_rune r ++ l) = encode_rune r ++ unq l.
Proof.
  intros Hs Hr. pose proof (decode_encode_rune r l Hs) as Hd.
  destruct (encode_rune r) as [|c t] eqn:Er.
  { destruct (encode_rune_cases r Hs) as [[? E]|[[? E]|[[? E]|[? E]]]]; by rewrite E in Er. }
  cbn [app] in *. rewrite (unq_rune c _ r l); [by rewrite Er|intros ->|done].
  rewrite decode_rune_ascii in Hd by done. simplify_eq. done.
Qed.

Lemma unq_rune_text c l r rest k : decode_rune (c :: l) = Some (r, rest) →
  unq (rune_text c l r rest ++ k) = encode_rune r ++ unq k.
Proof.
  intros Hd. pose proof (decode_rune_scalar _ _ _ _ Hd) as Hs. unfold rune_text.
  destruct (Z.leb_spec (byteZ c) 127) as [Hc|Hc].
  - rewrite decode_rune_ascii in Hd by done. simplify_eq. rewrite unq_encode_byte by done. by rewrite encode_rune_ascii.
  - pose proof (decode_rune_high _ _ _ _ Hc Hd) as Hr.
    destruct ((r =? RuneError) && _) eqn:Ee; [apply andb_true_iff in Ee as [Ee _]; apply Z.eqb_eq in Ee as ->; by apply unq_unicode_escape|].
    destruct ((r =? 8232) || (r =? 8233)) eqn:El; [|by apply unq_encode_rune].
    apply unq_unicode_escape; [done|]. apply orb_true_iff in El. rewrite !Z.eqb_eq in El. lia.
Qed.
Lemma enc_ind (P : list ascii → Prop) :
  P [] → (∀ c l r rest, decode_rune (c :: l) = Some (r, rest) → P rest → P (c :: l)) → ∀ l, P l.
Proof.
  intros H0 HS l. remember (length l) as n eqn:En. revert l En. induction (lt_wf n) as [n _ IH]. intros l ->.
  destruct l as [|c l]; [done|]. destruct (decode_rune (c :: l)) as [[r rest]|] eqn:Ed.
  - apply (HS _ _ _ _ Ed). pose proof (decode_rune_shorter _ _ _ Ed). by apply (IH (length rest)).
  - by apply decode_rune_None in Ed.
Qed.
(** Decoding an encoded string re-codes it. *)
Lemma unq_enc l : unq (enc l) = recode l.
Proof.
  induction l as [|c l r rest Hd IH] using enc_ind; [done|].
  by rewrite (enc_cons _ _ _ _ Hd), (unq_rune_text _ _ _ _ _ Hd), IH, (recode_cons _ _ _ Hd).
Qed.

Lemma vraw_plain_byte c k : 32 ≤ byteZ c → c ≠ quoteb → c ≠ backslash → vraw VOut (c :: k) = vraw VOut k.
Proof.
  intros H Hq Hb. cbn [vraw]. rewrite (bool_decide_eq_false_2 (c = quoteb)), (bool_decide_eq_false_2 (c = backslash)) by done.
  by rewrite (proj2 (Z.ltb_ge _ _)) by lia.
Qed.
Lemma vraw_escape c k : simple_escape c = true → vraw VOut ([backslash; c] ++ k) = vraw VOut k.
Proof. intros H. cbn [app vraw]. rewrite bool_decide_eq_false_2, bool_decide_eq_true_2 by done. by rewrite H. Qed.
Lemma vraw_high cs k : Forall (λ c, 128 ≤ byteZ c) cs → vraw VOut (cs ++ k) = vraw VOut k.
Proof.
  induction 1 as [|c cs Hc _ IH]; [done|]. cbn [app]. rewrite vraw_plain_byte; [done|lia|..]; by intros ->.
Qed.
Lemma encode_rune_high r : is_scalar r = true → 127 < r → Forall (λ c, 128 ≤ byteZ c) (encode_rune r).
Proof.
  intros Hs Hr. destruct (encode_rune_cases r Hs) as [[H E]|[[H E]|[[H E]|[H E]]]]; rewrite E; [lia|..];
    repeat constructor; rewrite byteZ_Zbyte by (Z.to_euclidean_division_equations; lia); Z.to_euclidean_division_equations; lia.
Qed.
Lemma vraw_encode_byte c k : byteZ c ≤ 127 → vraw VOut (encode_byte c ++ k) = vraw VOut k.
Proof.
  intros Hc. unfold encode_byte.
  destruct ((byteZ c =? 34) || (byteZ c =? 92)) eqn:Eq.
  { apply vraw_escape. unfold simple_escape. apply bool_decide_eq_true. apply orb_true_iff in Eq. rewrite !Z.eqb_eq in Eq.
    destruct Eq as [-> | ->]; set_solver. }
  repeat (case_match; [by apply vraw_escape|]).
  destruct ((byteZ c <? 32) || html_byte (byteZ c)) eqn:Eu; [apply vraw_unicode_escape|].
  apply orb_false_iff in Eq as [E1 E2], Eu as [E3 _]. apply Z.eqb_neq in E1, E2. apply Z.ltb_ge in E3.
  cbn [app]. apply vraw_plain_byte; [done|by intros ->|by intros ->].
Qed.
Lemma valid_enc l : valid_raw (enc l) = true.
Proof.
  induction l as [|c l r rest Hd IH] using enc_ind; [done|]. rewrite (enc_cons _ _ _ _ Hd).
  unfold valid_raw in *. rewrite <-IH. unfold rune_text.
  destruct (Z.leb_spec (byteZ c) 127) as [Hc|Hc]; [by apply vraw_encode_byte|].
  destruct ((r =? RuneError) && _); [apply vraw_unicode_escape|]. destruct ((r =? 8232) || _); [apply vraw_unicode_escape|].
  apply vraw_high, encode_rune_high; [by eapply decode_rune_scalar|]. by eapply decode_rune_high.
Qed.

(** * Integers *)

Lemma pretty_char_digit x : (x < 10)%N → is_digit (pretty_N_char x) = true ∧ (x ≠ 0%N → byteZ (pretty_N_char x) ≠ 48).
Proof.
  intros Hx. assert (x = 0 ∨ x = 1 ∨ x = 2 ∨ x = 3 ∨ x = 4 ∨ x = 5 ∨ x = 6 ∨ x = 7 ∨ x = 8 ∨ x = 9)%N as H by lia.
  repeat (destruct H as [-> |H]; [by split|]). subst x. by split.
Qed.
Definition digits (l : list ascii) : Prop := Forall (λ c, is_digit c = true) l.
Lemma pretty_go_digits x s : (0 < x)%N → ∃ d ds,
  to_list (pretty_N_go x s) = (d :: ds) ++ to_list s ∧ digits (d :: ds) ∧ byteZ d ≠ 48.
Proof.
  revert s. induction (N.lt_wf_0 x) as [x _ IH]. intros s Hx. rewrite pretty_N_go_step by done.
  assert (Hm : (x `mod` 10 < 10)%N) by by apply N.mod_lt. destruct (pretty_char_digit _ Hm) as [Hd Hn].
  destruct (decide (x < 10)%N) as [Hlt|Hge].
  - rewrite N.div_small, N.mod_small in * by done. rewrite pretty_N_go_0.
    exists (pretty_N_char x), []. split_and!; [done|by constructor|apply Hn; lia].
  - destruct (IH (x `div` 10)%N) with (s := String (pretty_N_char (x `mod` 10)) s) as (d & ds & E & Hds & Hne);
      [by apply N.div_lt|by apply N.div_str_pos; lia|].
    exists d, (ds ++ [pretty_N_char (x `mod` 10)]). split_and!; [|by rewrite app_comm_cons; apply Forall_app; split; [|constructor]|done].
    rewrite E. cbn. by rewrite <-app_assoc.
Qed.
Lemma span_all l : digits l → span_digits l = (l, []).
Proof. induction 1 as [|c l Hc _ IH]; [done|]. cbn. by rewrite Hc, IH. Qed.
Lemma digit_not_minus c : is_digit c = true → (byteZ c =? 45) = false.
Proof. unfold is_digit. rewrite in_range_spec, Z.eqb_neq. lia. Qed.
(** The decimal form of an integer is a number literal. *)
Lemma pretty_number (z : Z) : valid_number (to_list (pretty z)) = true.
Proof.
  assert (Hp : ∀ p, ∃ d ds, to_list (pretty (Npos p)) = d :: ds ∧ digits (d :: ds) ∧ byteZ d ≠ 48).
  { intros p. destruct (pretty_go_digits (Npos p) "") as (d & ds & E & H); [done|]. exists d, ds. rewrite app_nil_r in E.
    split; [exact E|done]. }
  unfold valid_number, parse_number. destruct z as [|p|p]; [done|..]; destruct (Hp p) as (d & ds & E & Hds & Hd).
  - change (pretty (Zpos p)) with (pretty (Npos p)). rewrite E. pose proof (Forall_inv Hds) as Hc. cbn in Hc.
    rewrite (digit_not_minus _ Hc), span_all by done. by rewrite (proj2 (Z.eqb_neq _ _) Hd).
  - change (pretty (Zneg p)) with ("-" +:+ pretty (Npos p)). rewrite to_list_app, E. cbn [to_list String.list_ascii_of_string app].
    change (byteZ "-" =? 45) with true. cbn iota. rewrite span_all by done. by rewrite (proj2 (Z.eqb_neq _ _) Hd).
Qed.

(** * Values *)

Section any_ind.
Context (P : any → Prop).
Context (Hnil : P ANil) (Hbool : ∀ b, P (ABool b)) (Hint : ∀ z, P (AInt z)) (Hfloat : ∀ f, P (AFloat f)).
Context (Hnum : ∀ w, P (ANumber w)) (Hstr : ∀ s, P (AStr s)).
Context (Harr : ∀ l, Forall P l → P (AArr l)) (Hmap : ∀ m, Forall (λ e, P e.2) m → P (AMap m)).
Fixpoint any_nested (v : any) : P v :=
  match v with
  | ANil => Hnil
  | ABool b => Hbool b
  | AInt z => Hint z
  | AFloat f => Hfloat f
  | ANumber w => Hnum w
  | AStr s => Hstr s
  | AArr l => Harr l ((fix go l : Forall P l :=
      match l with [] => Forall_nil_2 P | x :: l' => Forall_cons_2 P x l' (any_nested x) (go l') end) l)
  | AMap m => Hmap m ((fix go m : Forall (λ e, P e.2) m :=
      match m with [] => Forall_nil_2 _ | x :: m' => Forall_cons_2 _ x m' (any_nested x.2) (go m') end) m)
  end.
End any_ind.

Lemma insert_by_map {A B} (g : A → B) (la : A → A → bool) (lb : B → B → bool) x l :
  (∀ a b, lb (g a) (g b) = la a b) → insert_by lb (g x) (g <$> l) = g <$> insert_by la x l.
Proof. intros Hg. induction l as [|y l IH]; [done|]. cbn. rewrite Hg. destruct (la y x); [|done]. cbn. by f_equal. Qed.
Lemma sort_entries_map {A B} (g : A → B) (m : list (string * A)) :
  sort_entries ((λ e, (e.1, g e.2)) <$> m) = (λ e, (e.1, g e.2)) <$> sort_entries m.
Proof.
  unfold sort_entries, sort_by. induction m as [|e m IH]; [done|]. cbn [fmap list_fmap foldr]. 
  rewrite IH. by apply (insert_by_map (λ e : string * A, (e.1, g e.2))).
Qed.

Lemma foldl_pointwise {A B} (f g : A → B → A) a l : (∀ a x, f a x = g a x) → foldl f a l = foldl g a l.
Proof. intros H. revert a. induction l as [|x l IH]; intros a; [done|]. cbn. by rewrite H, IH. Qed.

Section values.
Context (formatFloat : spec_float → string).

(** The JSON value [json.Marshal] writes. *)
Fixpoint toJson (v : any) : json :=
  match v with
  | ANil => JNull
  | ABool b => JBool b
  | AInt z => JNum (to_list (pretty z))
  | AFloat f => JNum (to_list (formatFloat f))
  | ANumber w => JNum (to_list w)
  | AStr s => JStr (enc (to_list s))
  | AArr l => JArr (List.map toJson l)
  | AMap m => JObj ((λ e, (enc (to_list e.1), e.2)) <$> sort_entries (List.map (λ e, (e.1, toJson e.2)) m))
  end.

Lemma text_join l : text (join_toks l) = join_with "," (text <$> l).
Proof.
  induction l as [|x l IH]; [done|]. destruct l as [|y l]; [cbn; by rewrite app_nil_r|].
  change (join_toks (x :: y :: l)) with (x ++ comma :: join_toks (y :: l)). rewrite text_app, text_cons, IH. done.
Qed.
Lemma jtext_arr l : jtext (JArr l) = array (jtext <$> l).
Proof.
  unfold jtext, array. cbn [toks]. rewrite text_cons, text_app, text_join. cbn [tok_text app].
  do 2 f_equal. f_equal. by rewrite <-list_fmap_compose.
Qed.
Lemma jtext_obj l : jtext (JObj l) = object ((λ m, (quoteb :: m.1 ++ [quoteb]) ++ ":"%char :: jtext m.2) <$> l).
Proof.
  unfold jtext, object. cbn [toks]. rewrite text_cons, text_app, text_join. cbn [tok_text app].
  do 2 f_equal. f_equal. change (List.map ?f l) with (f <$> l). by rewrite <-list_fmap_compose.
Qed.
Lemma encode_string_enc s : encode_string s = quoteb :: enc (to_list s) ++ [quoteb].
Proof. unfold encode_string, enc. by rewrite length_to_list. Qed.

Lemma text_one t : text [t] = tok_text t.
Proof. apply app_nil_r. Qed.
Lemma jtext_str raw : jtext (JStr raw) = quoteb :: raw ++ [quoteb].
Proof. apply (text_one (TStr raw)). Qed.
Lemma marshal_text v : marshal formatFloat v = jtext (toJson v).
Proof.
  induction v as [|b|z|f|w|s|l IH|m IH] using any_nested; cbn [marshal toJson];
    try (unfold jtext; cbn [toks]; rewrite text_one; reflexivity).
  - unfold jtext. cbn [toks]. rewrite text_one. apply encode_string_enc.
  - rewrite jtext_arr. f_equal. induction IH as [|x l Hx _ IHl]; [done|]. cbn. by rewrite Hx, IHl.
  - rewrite jtext_obj. f_equal. rewrite <-list_fmap_compose.
    change (List.map ?f m) with (f <$> m). 
    assert (E : (λ e, (e.1, marshal formatFloat e.2)) <$> m = (λ e, (e.1, jtext e.2)) <$> ((λ e, (e.1, toJson e.2)) <$> m)).
    { rewrite <-list_fmap_compose. induction IH as [|[k x] m Hx _ IHm]; [done|]. cbn in *. by rewrite Hx, IHm. }
    rewrite E, sort_entries_map, <-list_fmap_compose. apply list_fmap_ext. intros _ [k j] _. cbn [fst snd compose].
    unfold member. by rewrite encode_string_enc.
Qed.

(** What a decoder with [UseNumber] reads back. *)
Fixpoint wire (v : any) : any :=
  match v with
  | AInt z => ANumber (pretty z)
  | AFloat f => ANumber (formatFloat f)
  | AStr s => AStr (of_list (recode (to_list s)))
  | AArr l => AArr (List.map wire l)
  | AMap m => AMap (foldl (λ acc e, assoc_set acc (of_list (recode (to_list e.1))) e.2) []
                     (sort_entries (List.map (λ e, (e.1, wire e.2)) m)))
  | _ => v
  end.
(** Number literals and printed floats are JSON numbers. *)
Fixpoint numeric (v : any) : Prop :=
  match v with
  | AFloat f => valid_number (to_list (formatFloat f)) = true
  | ANumber w => valid_number (to_list w) = true
  | AArr l => foldr (λ x P, numeric x ∧ P) True l
  | AMap m => foldr (λ e P, numeric e.2 ∧ P) True m
  | _ => True
  end.
Lemma numeric_arr l : numeric (AArr l) ↔ Forall numeric l.
Proof. cbn. induction l as [|x l IH]; cbn; [done|]. by rewrite IH, Forall_cons. Qed.
Lemma numeric_map m : numeric (AMap m) ↔ Forall (λ e, numeric e.2) m.
Proof. cbn. induction m as [|x m IH]; cbn; [done|]. by rewrite IH, Forall_cons. Qed.

Lemma toJson_wf v : numeric v → jwf (toJson v).
Proof.
  induction v as [|b|z|f|w|s|l IH|m IH] using any_nested; cbn [toJson]; try done.
  - intros _. apply pretty_number.
  - intros _. apply valid_enc.
  - rewrite numeric_arr, jwf_arr. intros Hl. apply Forall_map. rewrite Forall_forall in *. naive_solver.
  - rewrite numeric_map, jwf_obj. intros Hm. apply Forall_fmap. unfold sort_entries. rewrite sort_by_perm.
    apply Forall_map. rewrite Forall_forall in *. intros e He. cbn. split; [apply valid_enc|]. by apply IH, Hm.
Qed.
Lemma decode_toJson v : decode true (toJson v) = Some (wire v).
Proof.
  induction v as [|b|z|f|w|s|l IH|m IH] using any_nested; cbn [toJson wire]; try done.
  - cbn. by rewrite of_to_list.
  - cbn. by rewrite of_to_list.
  - cbn. by rewrite of_to_list.
  - cbn [decode]. change (unquote (enc (to_list s))) with (of_list (unq (enc (to_list s)))). by rewrite unq_enc.
  - cbn [decode]. assert (E : ∀ acc, (fix go acc l := match l with [] => Some (AArr (reverse acc))
        | x :: l' => v ← decode true x; go (v :: acc) l' end) acc (List.map toJson l) = Some (AArr (reverse acc ++ List.map wire l))).
    { induction IH as [|x l Hx _ IHl]; intros acc; cbn; [by rewrite app_nil_r|]. rewrite Hx. cbn.
      rewrite IHl, reverse_cons, <-app_assoc. done. }
    apply E.
  - rewrite decode_object. unfold object_map. do 2 f_equal. rewrite foldl_fmap. cbn [fst snd].
    assert (E : List.map (λ e, (e.1, wire e.2)) m = (λ e, (e.1, decoded e.2)) <$> List.map (λ e, (e.1, toJson e.2)) m).
    { induction IH as [|[k x] m Hx _ IHm]; [done|]. cbn in *. rewrite IHm. unfold decoded at 1. by rewrite Hx. }
    rewrite E, (sort_entries_map decoded), foldl_fmap. apply foldl_pointwise. intros acc [k j]. cbn [fst snd].
    change (unquote (enc (to_list k))) with (of_list (unq (enc (to_list k)))). by rewrite unq_enc.
Qed.

(** The text of a value parses, and denotes the value. *)
Lemma marshal_read v : numeric v → jparse (marshal formatFloat v) ≫= decode true = Some (wire v).
Proof. intros Hv. rewrite marshal_text, jparse_text by by apply toJson_wf. apply decode_toJson. Qed.
End values.
