(* ===== verification/Sha1.v ===== *)
(** [crypto/sha1] (FIPS 180-4) on byte strings, with 32-bit words as integers
    modulo 2^32: the digest of the response body is the entity tag of a bulk
    evaluation. *)
From S2P Require Import Prelude GoBytes GoStrings.
Local Open Scope Z_scope.

Definition word32 (z : Z) : Z := Z.land z 4294967295.
Definition add32 (a b : Z) : Z := word32 (a + b).
Definition rotl (n x : Z) : Z := Z.lor (word32 (Z.shiftl x n)) (Z.shiftr x (32 - n)).
Definition not32 (x : Z) : Z := Z.lxor x 4294967295.

Record digest := { h0 : Z; h1 : Z; h2 : Z; h3 : Z; h4 : Z }.
Definition initial : digest :=
  {| h0 := 1732584193; h1 := 4023233417; h2 := 2562383102; h3 := 271733878; h4 := 3285377520 |}.

(** Padding: the bit 1, zeros up to 56 modulo 64, the length in bits on 8 bytes. *)
Fixpoint bytes_of (n : nat) (z : Z) : list Z :=
  match n with
  | O => []
  | S n => bytes_of n (z / 256) ++ [z mod 256]
  end.
Definition pad (msg : list Z) : list Z :=
  let n := Z.of_nat (length msg) in
  msg ++ [128] ++ replicate (Z.to_nat ((55 - n) mod 64)) 0 ++ bytes_of 8 (8 * n).

Fixpoint words_of (l : list Z) : list Z :=
  match l with
  | a :: b :: c :: d :: r => (((a * 256 + b) * 256 + c) * 256 + d) :: words_of r
  | _ => []
  end.

(** The message schedule, newest word first. *)
Fixpoint schedule (n : nat) (w : list Z) : list Z :=
  match n with
  | O => w
  | S n =>
      let x := Z.lxor (Z.lxor (nth 2 w 0) (nth 7 w 0)) (Z.lxor (nth 13 w 0) (nth 15 w 0)) in
      schedule n (rotl 1 x :: w)
  end.

Definition round_fk (t : nat) (b c d : Z) : Z * Z :=
  if (t <? 20)%nat then (Z.lor (Z.land b c) (Z.land (not32 b) d), 1518500249)
  else if (t <? 40)%nat then (Z.lxor (Z.lxor b c) d, 1859775393)
  else if (t <? 60)%nat then (Z.lor (Z.lor (Z.land b c) (Z.land b d)) (Z.land c d), 2400959708)
  else (Z.lxor (Z.lxor b c) d, 3395469782).
Definition round (s : digest) (t : nat) (w : Z) : digest :=
  let '(f, k) := round_fk t (h1 s) (h2 s) (h3 s) in
  {| h0 := add32 (add32 (add32 (add32 (rotl 5 (h0 s)) f) (h4 s)) k) w;
     h1 := h0 s; h2 := rotl 30 (h1 s); h3 := h2 s; h4 := h3 s |}.
Fixpoint rounds (s : digest) (t : nat) (ws : list Z) : digest :=
  match ws with
  | [] => s
  | w :: ws' => rounds (round s t w) (S t) ws'
  end.
Definition block (s : digest) (ws : list Z) : digest :=
  let r := rounds s 0 (reverse (schedule 64 (reverse ws))) in
  {| h0 := add32 (h0 s) (h0 r); h1 := add32 (h1 s) (h1 r); h2 := add32 (h2 s) (h2 r);
     h3 := add32 (h3 s) (h3 r); h4 := add32 (h4 s) (h4 r) |}.
Fixpoint blocks (n : nat) (s : digest) (ws : list Z) : digest :=
  match n with
  | O => s
  | S n => blocks n (block s (take 16 ws)) (drop 16 ws)
  end.

(** [sha1.Sum] printed with [%x]. *)
Definition sha1_hex (msg : list ascii) : list ascii :=
  let ws := words_of (pad (byteZ <$> msg)) in
  let s := blocks (length ws / 16) initial ws in
  [h0 s; h1 s; h2 s; h3 s; h4 s] ≫= hex_digits 8.

(** The test vectors of the standard, and a message of two blocks. *)
Example sha1_abc : of_list (sha1_hex (to_list "abc")) = "a9993e364706816aba3e25717850c26c9cd0d89d".
Proof. vm_compute. reflexivity. Qed.
Example sha1_empty : of_list (sha1_hex []) = "da39a3ee5e6b4b0d3255bfef95601890afd80709".
Proof. vm_compute. reflexivity. Qed.
Example sha1_two_blocks :
  of_list (sha1_hex (to_list "abcdbcdecdefdefgefghfghighijhijkijkljklmklmnlmnomnopnopq")) =
  "84983e441c3bd26ebaae4aa1f95129e5e54670f1".
Proof. vm_compute. reflexivity. Qed.

(** The digest has 40 hexadecimal digits. *)
Lemma length_hex_digits n z : length (hex_digits n z) = n.
Proof. revert z. induction n as [|n IH]; intros z; cbn; [done|]. rewrite length_app, IH. cbn. lia. Qed.
Lemma sha1_length msg : length (sha1_hex msg) = 40%nat.
Proof. unfold sha1_hex. cbn [mbind list_bind]. rewrite !length_app, !length_hex_digits. done. Qed.
