(* ===== verification/VectorDataController.v ===== *)
(** The VectorData controller
    (internal/vectordata/internal/controller/vectordata_controller.go): it
    materialises a VectorData object as an immutable ConfigMap and removes the
    ConfigMap, guarded by a finalizer, when the VectorData is deleted.

    Pure part: [componentBasename], [assertUniqueResults], [rawOrNull],
    [renderData].  Effectful part: [Reconcile], [handleDeletion], [setReady] as
    programs over the client calls of [Client]. *)
From S2P Require Import Prelude GoBytes GoStrings Objects Client.
Local Open Scope Z_scope.

Module VectorDataController.

Definition VectorDataControllerName : string := "vector-data-controller".
Definition VectorDataFinalizer : string := "konfidence.cloud/vector-data-configmap-cleanup".
Definition ConfigMapPrefix : string := "vector-data-".
Definition FeaturesConfigKey : string := "features.json".
Definition AuthoredConfigKey : string := "authored.json".
Definition DeploymentResultsPrefix : string := "deploymentResults.".
Definition JSONSuffix : string := ".json".
Definition labelManagedBy : string := "konfidence.cloud/managed-by".
Definition labelVectorDataName : string := "konfidence.cloud/vector-data-name".
Definition labelVectorDataUID : string := "konfidence.cloud/vector-data-uid".
Definition jsonNullLiteral : string := "null".

(** * Rendering the data of the ConfigMap *)

Definition rawOrNull (r : option RawExtension) : string :=
  match r with
  | None => jsonNullLiteral
  | Some raw => if (len raw =? 0)%nat then jsonNullLiteral else raw
  end.

(** The last path segment; a component that ends in a slash is returned
    unchanged. *)
Definition componentBasename (component : string) : string :=
  match LastIndexByte component slash with
  | Some idx => if (idx <? len component - 1)%nat then of_list (drop (S idx) (to_list component))
                else component
  | None => component
  end.

Definition resultKey (r : DeploymentResult) : string := dr_Name r +:+ nul +:+ dr_Type r.

Section render.
Context `{U : Unicode}.
(** [json.Marshal] of a [[]DeploymentResult]: the field tags belong to the
    Konfidence API package. *)
Context (marshalResults : list DeploymentResult → result GoError string).

Fixpoint assert_unique (component : string) (seen : gset string) (results : list DeploymentResult)
    : result GoError unit :=
  match results with
  | [] => Ok ()
  | r :: results' =>
      if bool_decide (resultKey r ∈ seen)
      then Err (ENew ("component " +:+ Quote component +:+ " has duplicate deployment result (name="
                +:+ Quote (dr_Name r) +:+ ", type=" +:+ Quote (dr_Type r) +:+ ")"))
      else assert_unique component ({[resultKey r]} ∪ seen) results'
  end.
Definition assertUniqueResults (component : string) (results : list DeploymentResult)
    : result GoError unit := assert_unique component ∅ results.

Definition resultsConfigKey (basename : string) : string :=
  DeploymentResultsPrefix +:+ basename +:+ JSONSuffix.

(** The loop of [renderData]; [seen] is [seenBasename]. *)
Fixpoint render_results (seen data : gmap string string) (l : ResultsMap)
    : result GoError (gmap string string) :=
  match l with
  | [] => Ok data
  | (component, results) :: l' =>
      let basename := componentBasename component in
      if bool_decide (basename = "") then render_results seen data l'
      else
        match seen !! basename with
        | Some other =>
            Err (ENew ("components " +:+ Quote other +:+ " and " +:+ Quote component
                 +:+ " map to the same deployment-result key " +:+ Quote basename))
        | None =>
            match assertUniqueResults component results with
            | Err e => Err e
            | Ok _ =>
                match marshalResults results with
                | Err e => Err (EWrap ("marshal deployment results for component "
                                       +:+ Quote component) e)
                | Ok encoded =>
                    render_results (<[basename := component]> seen)
                      (<[resultsConfigKey basename := encoded]> data) l'
                end
            end
        end
  end.

Definition baseData (vd : VectorData) : gmap string string :=
  <[FeaturesConfigKey := rawOrNull (vd_Features vd)]>
    (<[AuthoredConfigKey := rawOrNull (vd_Authored vd)]> ∅).
Definition renderData (vd : VectorData) : result GoError (gmap string string) :=
  render_results ∅ (baseData vd) (vd_DeploymentResults vd).

(** ** The rendered data, declaratively *)

(** The published components under their basenames. *)
Definition resultEntries (l : ResultsMap) : list (string * list DeploymentResult) :=
  filter (λ e, e.1 ≠ "") (prod_map componentBasename id <$> l).
Definition encoded (results : list DeploymentResult) : string :=
  match marshalResults results with Ok s => s | Err _ => "" end.
Definition publishable (results : list DeploymentResult) : Prop :=
  NoDup (resultKey <$> results) ∧ is_ok (marshalResults results) = true.
(** What [renderData] accepts: basenames are distinct, and each published
    component has distinct results that can be marshalled. *)
Definition renderable (l : ResultsMap) : Prop :=
  NoDup (resultEntries l).*1 ∧ Forall publishable (resultEntries l).*2.
Definition rendered (l : ResultsMap) : gmap string string :=
  list_to_map (prod_map resultsConfigKey encoded <$> resultEntries l).

Lemma assert_unique_ok component seen results :
  assert_unique component seen results = Ok () ↔
  NoDup (resultKey <$> results) ∧ Forall (λ r, resultKey r ∉ seen) results.
Proof.
  revert seen. induction results as [|r results IH]; intros seen; cbn [assert_unique fmap list_fmap].
  - split; [|done]. split; constructor.
  - case_bool_decide as E.
    + split; [done|]. intros [_ Hf]. by inversion_clear Hf.
    + rewrite IH, NoDup_cons, Forall_cons, !Forall_forall, list_elem_of_fmap. set_solver.
Qed.
Lemma assertUniqueResults_ok component results :
  assertUniqueResults component results = Ok () ↔ NoDup (resultKey <$> results).
Proof.
  unfold assertUniqueResults. rewrite assert_unique_ok. split; [by intros []|].
  intros Hn. split; [done|]. apply Forall_forall. set_solver.
Qed.

Lemma resultEntries_cons c rs l :
  resultEntries ((c, rs) :: l) =
  if bool_decide (componentBasename c = "") then resultEntries l
  else (componentBasename c, rs) :: resultEntries l.
Proof.
  unfold resultEntries. rewrite fmap_cons, filter_cons. cbn [prod_map fst snd].
  case_decide; case_bool_decide; done.
Qed.

Lemma resultsConfigKey_inj b b' : resultsConfigKey b = resultsConfigKey b' → b = b'.
Proof. unfold resultsConfigKey. intros E. by apply str_app_inj_l, str_app_inj_r in E. Qed.

Lemma rendered_keys_nodup l :
  NoDup (resultEntries l).*1 → NoDup (prod_map resultsConfigKey encoded <$> resultEntries l).*1.
Proof.
  intros Hn. rewrite <-list_fmap_compose.
  change (NoDup ((resultsConfigKey ∘ fst) <$> resultEntries l)). rewrite list_fmap_compose.
  apply NoDup_fmap_2_strong; [|done]. intros ???? ?. by apply resultsConfigKey_inj.
Qed.

(** The loop computes the declarative rendering, and fails exactly on input
    that is not renderable. *)
Lemma render_results_spec seen data l d :
  render_results seen data l = Ok d ↔
  renderable l ∧ Forall (λ b, seen !! b = None) (resultEntries l).*1 ∧ d = rendered l ∪ data.
Proof.
  revert seen data. induction l as [|[c rs] l IH]; intros seen data.
  - cbn. unfold renderable, rendered. cbn. rewrite (left_id_L ∅ (∪)).
    split; [intros [= ->]|intros (_ & _ & ->); done].
    split_and!; [constructor|constructor|constructor|done].
  - unfold renderable, rendered. rewrite resultEntries_cons. cbn [render_results].
    case_bool_decide as Eb; [by rewrite IH|].
    set (b := componentBasename c) in *. cbn.
    rewrite NoDup_cons, !Forall_cons.
    destruct (seen !! b) as [o|] eqn:Es.
    { split; [done|]. intros (_ & [? _] & _). congruence. }
    destruct (assertUniqueResults c rs) as [[]|e] eqn:Eu; last first.
    { split; [done|]. intros ([_ [[Hu _] _]] & _ & _).
      apply (assertUniqueResults_ok c) in Hu. congruence. }
    apply assertUniqueResults_ok in Eu. unfold encoded at 1, publishable at 1.
    destruct (marshalResults rs) as [enc|e] eqn:Em; cbn; last first.
    { split; [done|]. intros ([_ [[_ ?] _]] & _ & _). done. }
    rewrite IH. unfold renderable, rendered. rewrite !Forall_forall.
    setoid_rewrite lookup_insert_None.
    assert (Hc : NoDup (resultEntries l).*1 → b ∉ (resultEntries l).*1 →
      list_to_map (prod_map resultsConfigKey encoded <$> resultEntries l) ∪
        <[resultsConfigKey b := enc]> data =
      <[resultsConfigKey b := enc]>
        (list_to_map (prod_map resultsConfigKey encoded <$> resultEntries l)) ∪ data).
    { intros Hn Hb. rewrite <-insert_union_l. rewrite insert_union_r; [done|].
      apply not_elem_of_list_to_map. rewrite <-list_fmap_compose.
      rewrite list_elem_of_fmap. intros ([b' r'] & E & Hin). cbn in E.
      apply resultsConfigKey_inj in E as ->. apply Hb, list_elem_of_fmap. by exists (b', r'). }
    naive_solver.
Qed.

Lemma resultEntries_perm l l' : l ≡ₚ l' → resultEntries l ≡ₚ resultEntries l'.
Proof. intros Hp. unfold resultEntries. by rewrite Hp. Qed.
Lemma renderable_perm l l' : l ≡ₚ l' → renderable l → renderable l'.
Proof. intros Hp%resultEntries_perm. unfold renderable. by rewrite Hp. Qed.
Lemma rendered_perm l l' : l ≡ₚ l' → renderable l → rendered l = rendered l'.
Proof.
  intros Hp [Hn _]. apply list_to_map_proper; [by apply rendered_keys_nodup|].
  by rewrite (resultEntries_perm _ _ Hp).
Qed.
End render.

(** * The reconciler *)

Definition vd_set_meta (m : ObjectMeta) (vd : VectorData) : VectorData := {|
  vd_Meta := m; vd_Features := vd_Features vd; vd_Authored := vd_Authored vd;
  vd_DeploymentResults := vd_DeploymentResults vd; vd_Conditions := vd_Conditions vd |}.
Definition vd_set_conditions (cs : list Condition) (vd : VectorData) : VectorData := {|
  vd_Meta := vd_Meta vd; vd_Features := vd_Features vd; vd_Authored := vd_Authored vd;
  vd_DeploymentResults := vd_DeploymentResults vd; vd_Conditions := cs |}.

Definition configMapName (vd : VectorData) : string := ConfigMapPrefix +:+ om_Name (vd_Meta vd).
Definition configMapKey (vd : VectorData) : NamespacedName :=
  NN (om_Namespace (vd_Meta vd)) (configMapName vd).
(** The ConfigMap of the VectorData [req]. *)
Definition cmKeyOf (req : NamespacedName) : NamespacedName :=
  NN (nn_Namespace req) (ConfigMapPrefix +:+ nn_Name req).
Lemma cmKeyOf_inj req req' : cmKeyOf req = cmKeyOf req' → req = req'.
Proof.
  destruct req as [ns n], req' as [ns' n']. unfold cmKeyOf. intros E. pose proof (f_equal nn_Name E) as En. apply str_app_inj_l in En.
  pose proof (f_equal nn_Namespace E) as Es. cbn in *. congruence.
Qed.
Definition nn_String (k : NamespacedName) : string := nn_Namespace k +:+ "/" +:+ nn_Name k.

Section reconcile.
Context `{U : Unicode, KF : Konfidence, MC : MetaConditions, FZ : Finalizers}.
Context (marshalResults : list DeploymentResult → result GoError string).

Definition readyCondition (vd : VectorData) (now : Z) (status : ConditionStatus)
    (reason message : string) : Condition := {|
  c_Type := VectorDataReadyCondition; c_Status := status; c_Reason := reason;
  c_Message := message; c_ObservedGeneration := om_Generation (vd_Meta vd);
  c_LastTransitionTime := Some now |}.

(** Returns the object the patch wrote back. *)
Definition setReady (vd : VectorData) (status : ConditionStatus) (reason message : string)
    : Prog (result GoError VectorData) :=
  now ← trigger Now;
  let vd' := vd_set_conditions
    (SetStatusCondition now (vd_Conditions vd) (readyCondition vd now status reason message)) vd in
  r ← trigger (StatusPatch KVectorData vd vd');
  match r with
  | Err e => Ret (Err (EWrap "patch VectorData status" (EApi e)))
  | Ok vd'' => Ret (Ok vd'')
  end.

Definition handleDeletion (vd : VectorData) : Prog Outcome :=
  if negb (ContainsFinalizer (vd_Meta vd) VectorDataFinalizer) then done_ok
  else
    let finish :=
      r ← trigger (Patch KVectorData vd
                     (vd_set_meta (RemoveFinalizer (vd_Meta vd) VectorDataFinalizer) vd));
      match r with
      | Err e => fail_with (EWrap ("remove finalizer from VectorData "
                                   +:+ nn_String (om_key (vd_Meta vd))) (EApi e))
      | Ok _ => done_ok
      end in
    d ← trigger (Delete KConfigMap (configMapKey vd));
    match d with
    | Err e => if IsNotFound e then finish
               else fail_with (EWrap ("delete ConfigMap " +:+ nn_String (configMapKey vd)
                                      +:+ " during teardown") (EApi e))
    | Ok _ => finish
    end.

(** The ConfigMap of a VectorData. *)
Definition newConfigMap (vd : VectorData) (data : gmap string string) : ConfigMap := {|
  cm_Meta := new_meta (om_Namespace (vd_Meta vd)) (configMapName vd)
    (<[labelManagedBy := VectorDataControllerName]>
      (<[labelVectorDataName := om_Name (vd_Meta vd)]>
        (<[labelVectorDataUID := om_UID (vd_Meta vd)]> ∅)));
  cm_Immutable := Some true;
  cm_Data := data |}.

(** Everything after the finalizer is in place. *)
Definition materialize (vd : VectorData) : Prog Outcome :=
  match renderData marshalResults vd with
  | Err err =>
      c ← setReady vd ConditionFalse "RenderFailed" (Error err);
      match c with Err condErr => fail_with condErr | Ok _ => fail_with err end
  | Ok data =>
      let cmName := configMapName vd in
      let cmKey := configMapKey vd in
      g ← trigger (Get KConfigMap cmKey);
      match g with
      | Ok _ =>
          c ← setReady vd ConditionTrue VectorDataReasonMaterialized
                ("ConfigMap " +:+ cmName +:+ " already present");
          match c with Err e => fail_with e | Ok _ => done_ok end
      | Err err =>
          if negb (IsNotFound err) then
            _ ← setReady vd ConditionFalse "ConfigMapGetFailed" (ae_Message err);
            fail_with (EWrap ("get ConfigMap " +:+ nn_String cmKey) (EApi err))
          else
            n ← trigger (Create KConfigMap (newConfigMap vd data));
            match n with
            | Err err =>
                _ ← setReady vd ConditionFalse "ConfigMapCreateFailed" (ae_Message err);
                fail_with (EWrap ("create ConfigMap " +:+ nn_String cmKey) (EApi err))
            | Ok _ =>
                c ← setReady vd ConditionTrue VectorDataReasonMaterialized
                      ("ConfigMap " +:+ cmName +:+ " materialized");
                match c with
                | Err e => fail_with e
                | Ok vd' =>
                    _ ← trigger (Eventf (om_key (vd_Meta vd')) EventTypeNormal
                          "VectorDataMaterialized"
                          ("Materialized ConfigMap " +:+ cmName +:+ " in namespace "
                           +:+ om_Namespace (vd_Meta vd')));
                    done_ok
                end
            end
      end
  end.

Definition Reconcile (req : NamespacedName) : Prog Outcome :=
  g ← trigger (Get KVectorData req);
  match g with
  | Err e => Ret (IgnoreNotFound e)
  | Ok vd =>
      if negb (time_IsZero (om_DeletionTimestamp (vd_Meta vd))) then handleDeletion vd
      else if ContainsFinalizer (vd_Meta vd) VectorDataFinalizer then materialize vd
      else
        p ← trigger (Patch KVectorData vd
                       (vd_set_meta (AddFinalizer (vd_Meta vd) VectorDataFinalizer) vd));
        match p with
        | Err e => fail_with (EWrap ("add finalizer to VectorData "
                                     +:+ nn_String (om_key (vd_Meta vd))) (EApi e))
        | Ok vd' => materialize vd'
        end
  end.

(** ** Reading the runs of the reconciler *)

(** A status patch that publishes Ready=True. *)
Definition reportsReady (o : obs clientE) : Prop :=
  ∃ new, requests VStatusPatch KVectorData o ∧ sent KVectorData o = Some new ∧
         IsStatusConditionTrue (vd_Conditions new) VectorDataReadyCondition = true.
(** A patch that leaves the VectorData without the cleanup finalizer. *)
Definition dropsFinalizer (o : obs clientE) : Prop :=
  ∃ new, requests VPatch KVectorData o ∧ sent KVectorData o = Some new ∧
         ContainsFinalizer (vd_Meta new) VectorDataFinalizer = false.
(** The VectorData was seen with the cleanup finalizer on it. *)
Definition sawFinalizer (o : obs clientE) : Prop :=
  ∃ vd, answered KVectorData o = Some vd ∧
        ContainsFinalizer (vd_Meta vd) VectorDataFinalizer = true.

Lemma ready_status_set vd now st reason msg :
  IsStatusConditionTrue (SetStatusCondition now (vd_Conditions vd)
    (readyCondition vd now st reason msg)) VectorDataReadyCondition =
  bool_decide (st = ConditionTrue).
Proof. apply (is_true_set_eq now _ (readyCondition vd now st reason msg)). Qed.

Lemma configMapKey_req vd req : om_key (vd_Meta vd) = req → configMapKey vd = cmKeyOf req.
Proof. by intros <-. Qed.
End reconcile.

End VectorDataController.
