(* ===== verification/VectorDataProps.v ===== *)
(** Properties of the VectorData controller: what [renderData] produces, and
    the protocol between the finalizer, the ConfigMap and the Ready condition on
    every run of [Reconcile], whatever the API server answers. *)
From S2P Require Import Prelude GoBytes GoStrings Objects Client FakeApi VectorDataController.
Import VectorDataController.
Local Open Scope Z_scope.

(** Splits a run of the reconciler into its branches. *)
Ltac vd_runs H :=
  unfold Reconcile, materialize, handleDeletion, setReady, done_ok, fail_with in H;
  exec_steps H.
Ltac vd_side :=
  unfold reportsReady, dropsFinalizer, sawFinalizer;
  obs_side; rewrite ?ready_status_set in *; obs_side.

Section properties.
Context `{U : Unicode, KF : Konfidence, MC : MetaConditions, FZ : Finalizers}.
Context (marshalResults : list DeploymentResult → result GoError string).

(** C6: [renderData] succeeds exactly when the published components have
    distinct basenames, results that are unique by (name, type) and can be
    marshalled, and then its map is the features and authored documents plus
    one key [deploymentResults.<basename>.json] per published component. *)
Theorem renderData_spec (vd : VectorData) (d : gmap string string) :
  renderData marshalResults vd = Ok d ↔
  renderable marshalResults (vd_DeploymentResults vd) ∧
  d = rendered marshalResults (vd_DeploymentResults vd) ∪ baseData vd.
Proof.
  unfold renderData. rewrite render_results_spec. split; [naive_solver|].
  intros [? ->]. split_and!; [done| |done]. apply Forall_true. intros b. apply lookup_empty.
Qed.

(** The result of [renderData] does not depend on the order in which Go
    visits the deployment-result map: two visit orders both fail, or produce
    the same data. *)
Theorem renderData_order_independent (vd vd' : VectorData) (d : gmap string string)
  (Hperm : vd_DeploymentResults vd ≡ₚ vd_DeploymentResults vd')
  (Hf : vd_Features vd = vd_Features vd') (Ha : vd_Authored vd = vd_Authored vd') :
  renderData marshalResults vd = Ok d ↔ renderData marshalResults vd' = Ok d.
Proof.
  assert (Hbase : baseData vd = baseData vd') by (unfold baseData; by rewrite Hf, Ha).
  unfold renderData. rewrite !render_results_spec, Hbase. split.
  - intros (Hr & _ & ->). split_and!; [by eapply renderable_perm| |].
    + apply Forall_true. intros b. apply lookup_empty.
    + by rewrite (rendered_perm _ _ _ Hperm Hr).
  - intros (Hr & _ & ->). symmetry in Hperm. split_and!; [by eapply renderable_perm| |].
    + apply Forall_true. intros b. apply lookup_empty.
    + by rewrite (rendered_perm _ _ _ Hperm Hr).
Qed.

(** Whatever the API server answers, the reconciler removes its finalizer
    from a VectorData only after the ConfigMap was deleted or found absent in
    the same run. *)
Theorem finalizer_removed_after_configmap req tr r
  (Hrun : execs (Reconcile marshalResults req) tr r) :
  preceded (λ o, requests VDelete KConfigMap o ∧ gone o) dropsFinalizer tr.
Proof. vd_runs Hrun; preceded_walk vd_side. Qed.

(** A ConfigMap is created only after the VectorData was seen carrying the
    cleanup finalizer, so every ConfigMap has a delete path. *)
Theorem configmap_created_under_finalizer req tr r
  (Hrun : execs (Reconcile marshalResults req) tr r) (Hwa : Forall well_answered tr) :
  preceded sawFinalizer (requests VCreate KConfigMap) tr.
Proof.
  vd_runs Hrun; answers_of Hwa;
    repeat match goal with
    | H : om_Finalizers (vd_Meta _) = _ |- _ => apply (contains_finalizer_same _ _ VectorDataFinalizer) in H
    end; preceded_walk vd_side.
Qed.

(** The call reads or creates the ConfigMap of [req]. *)
Definition hasConfigMap (req : NamespacedName) (o : obs clientE) : Prop :=
  (∃ v, (v = VGet ∨ v = VCreate) ∧ request o = Some (v, KConfigMap, cmKeyOf req)) ∧ succeeded o.
(** The call reports [req] Ready. *)
Definition reportsReadyOf (req : NamespacedName) (o : obs clientE) : Prop :=
  reportsReady o ∧ request o = Some (VStatusPatch, KVectorData, req).

(** Splits a run of the reconciler, with what is known of its answers, in terms
    of the key of the VectorData. *)
Ltac vd_keyed Hrun Hwa req :=
  vd_runs Hrun; answers_of Hwa; try subst req.
Ltac keys := cbn; unfold cmKeyOf, configMapKey, obj_key, om_key; cbn; unfold configMapName; congruence.
Ltac has_configmap :=
  find_obs ltac:(split; [first [exists VGet; split; [by left|keys]|exists VCreate; split; [by right|keys]]|done]).

(** C3: Ready=True is published only for the reconciled VectorData, and only
    after its ConfigMap, under its own key, was read back or created
    successfully in the same run. *)
Theorem ready_implies_configmap req tr r
  (Hrun : execs (Reconcile marshalResults req) tr r) (Hwa : Forall well_answered tr) :
  whenever reportsReady (λ before o,
    request o = Some (VStatusPatch, KVectorData, req) ∧ Exists (hasConfigMap req) before) tr.
Proof.
  intros before o after E Ho. vd_keyed Hrun Hwa req;
    repeat (destruct before as [|? before]; simplify_eq/=; try (by destruct Ho as (? & [] & _))).
  all: destruct Ho as (new & _ & [= <-] & Hc); cbn in Hc; rewrite ready_status_set in Hc; try done.
  all: split; [keys|has_configmap].
Qed.

Lemma time_nonzero t : negb (time_IsZero t) = true → t ≠ None.
Proof. by destruct t. Qed.
Lemma time_zero t : negb (time_IsZero t) = false → t = None.
Proof. by destruct t. Qed.

(** The two writes the reconciler can make to a ConfigMap after the calls
    [before], which start with the read of the VectorData: on a live one, the
    creation of its ConfigMap, found absent, with the data of the version last
    seen, which carries the finalizer; on one under deletion that carries the
    finalizer, the deletion of its ConfigMap. *)
Definition allowedConfigMapWrite (req : NamespacedName) (before : list (obs clientE)) (o : obs clientE) : Prop :=
  ∃ read, answered KVectorData <$> head before = Some (Some read) ∧ om_key (vd_Meta read) = req ∧
  ((om_DeletionTimestamp (vd_Meta read) = None ∧
    request o = Some (VCreate, KConfigMap, cmKeyOf req) ∧ Exists (foundAbsent KConfigMap (cmKeyOf req)) before ∧
    ∃ vd data, latest KVectorData before = Some vd ∧ ContainsFinalizer (vd_Meta vd) VectorDataFinalizer = true ∧
      renderData marshalResults vd = Ok data ∧ sent KConfigMap o = Some (newConfigMap vd data)) ∨
   (om_DeletionTimestamp (vd_Meta read) ≠ None ∧ ContainsFinalizer (vd_Meta read) VectorDataFinalizer = true ∧
    request o = Some (VDelete, KConfigMap, cmKeyOf req))).


(** C4: when a reconcile of a live VectorData returns without error, its
    ConfigMap, under its own key, exists (it was read or created in the run),
    and then Ready=True was stored for it. *)
Theorem reconcile_materializes req tr res vd
  (Hrun : execs (Reconcile marshalResults req) tr (Ok res)) (Hwa : Forall well_answered tr)
  (Hread : answered KVectorData <$> head tr = Some (Some vd))
  (Hlive : om_DeletionTimestamp (vd_Meta vd) = None) :
  Exists (hasConfigMap req) tr ∧ Exists (λ o, reportsReadyOf req o ∧ succeeded o) tr.
Proof.
  vd_keyed Hrun Hwa req; simplify_eq/=; rewrite ?Hlive in *; try done;
    (split; [has_configmap|find_obs ltac:(split; [split; [eexists; split_and!; [done..|apply ready_status_set]|keys]|done])]).
Qed.

(** C5: when a reconcile of a VectorData that is being deleted and carries the
    finalizer returns without error, the finalizer was taken off it, and before
    that its ConfigMap was deleted or found absent. *)
Theorem reconcile_tears_down req tr res vd
  (Hrun : execs (Reconcile marshalResults req) tr (Ok res)) (Hwa : Forall well_answered tr)
  (Hread : answered KVectorData <$> head tr = Some (Some vd))
  (Hdel : om_DeletionTimestamp (vd_Meta vd) ≠ None)
  (Hfin : ContainsFinalizer (vd_Meta vd) VectorDataFinalizer = true) :
  Exists (releases KVectorData VectorDataFinalizer req) tr ∧
  preceded (λ o, request o = Some (VDelete, KConfigMap, cmKeyOf req) ∧ gone o) dropsFinalizer tr.
Proof.
  vd_keyed Hrun Hwa req; simplify_eq/=; rewrite ?Hfin in *; try done;
    try (by destruct (om_DeletionTimestamp (vd_Meta vd))).
  all: split; [|preceded_walk vd_side].
  all: find_obs ltac:(eexists; split_and!; [reflexivity|apply remove_finalizer_key|apply contains_remove_finalizer|done]).
Qed.
End properties.

(** * Witnesses *)

Section witnesses.
#[local] Existing Instance caseless_unicode.
#[local] Existing Instance sample_konfidence.
#[local] Existing Instance ref_conditions.
#[local] Existing Instance ref_finalizers.

Definition sample_marshal (l : list DeploymentResult) : result GoError string :=
  Ok ("[" +:+ Join (dr_Spec <$> l) "," +:+ "]").
Definition sample_result (name : string) : DeploymentResult :=
  {| dr_Name := name; dr_Type := "http-k8s-service"; dr_Spec := "{}" |}.
Definition sample_vd (m : ObjectMeta) : VectorData := {|
  vd_Meta := m; vd_Features := Some "{}"; vd_Authored := None;
  vd_DeploymentResults := [("github.com/acme/shop", [sample_result "api"]);
                           ("github.com/acme/orders", [sample_result "api"])];
  vd_Conditions := [] |}.
Definition live_vd : VectorData := sample_vd (new_meta "ns" "v1" ∅).
Definition deleted_vd : VectorData :=
  sample_vd (stamp_deleted 5 (om_set_finalizers [VectorDataFinalizer] (new_meta "ns" "v1" ∅))).
Definition sample_req : NamespacedName := NN "ns" "v1".
Definition live_cluster : FakeState := put (k := KVectorData) live_vd empty_cluster.
Definition deleted_cluster : FakeState :=
  put (k := KVectorData) deleted_vd
    (put (k := KConfigMap) (newConfigMap deleted_vd ∅) empty_cluster).
Definition live_run := calls fake (Reconcile sample_marshal sample_req) live_cluster.
Definition deleted_run := calls fake (Reconcile sample_marshal sample_req) deleted_cluster.

Lemma live_run_ok : execs (Reconcile sample_marshal sample_req) live_run (Ok no_requeue).
Proof.
  assert (E : (run fake (Reconcile sample_marshal sample_req) live_cluster).1 = Ok no_requeue)
    by (vm_compute; reflexivity).
  rewrite <-E. apply run_execs.
Qed.
Lemma deleted_run_ok : execs (Reconcile sample_marshal sample_req) deleted_run (Ok no_requeue).
Proof.
  assert (E : (run fake (Reconcile sample_marshal sample_req) deleted_cluster).1 = Ok no_requeue)
    by (vm_compute; reflexivity).
  rewrite <-E. apply run_execs.
Qed.
Lemma live_run_answers : Forall well_answered live_run.
Proof. apply fake_answers, consistent_put, consistent_empty. Qed.
Lemma deleted_run_answers : Forall well_answered deleted_run.
Proof. apply fake_answers, consistent_put, consistent_put, consistent_empty. Qed.

Definition swapped_vd : VectorData := {|
  vd_Meta := new_meta "ns" "v1" ∅; vd_Features := Some "{}"; vd_Authored := None;
  vd_DeploymentResults := [("github.com/acme/orders", [sample_result "api"]);
                           ("github.com/acme/shop", [sample_result "api"])];
  vd_Conditions := [] |}.
Definition sample_data : gmap string string :=
  rendered sample_marshal (vd_DeploymentResults live_vd) ∪ baseData live_vd.
Lemma renderData_order_independent_witness :
  renderData sample_marshal live_vd = Ok sample_data ↔
  renderData sample_marshal swapped_vd = Ok sample_data.
Proof.
  exact (renderData_order_independent sample_marshal live_vd swapped_vd sample_data
           (Permutation_swap _ _ _) eq_refl eq_refl).
Defined.

Lemma finalizer_removed_after_configmap_witness :
  preceded (λ o, requests VDelete KConfigMap o ∧ gone o) dropsFinalizer deleted_run.
Proof. exact (finalizer_removed_after_configmap _ _ _ _ deleted_run_ok). Defined.

Lemma configmap_created_under_finalizer_witness :
  preceded sawFinalizer (requests VCreate KConfigMap) live_run.
Proof. exact (configmap_created_under_finalizer _ _ _ _ live_run_ok live_run_answers). Defined.

Lemma ready_implies_configmap_witness :
  whenever reportsReady (λ before o,
    request o = Some (VStatusPatch, KVectorData, sample_req) ∧ Exists (hasConfigMap sample_req) before) live_run.
Proof. exact (ready_implies_configmap _ _ _ _ live_run_ok live_run_answers). Defined.


Lemma reconcile_materializes_witness :
  Exists (hasConfigMap sample_req) live_run ∧ Exists (λ o, reportsReadyOf sample_req o ∧ succeeded o) live_run.
Proof.
  apply (reconcile_materializes _ _ _ no_requeue live_vd live_run_ok live_run_answers); vm_compute; reflexivity.
Defined.

Lemma reconcile_tears_down_witness :
  Exists (releases KVectorData VectorDataFinalizer sample_req) deleted_run ∧
  preceded (λ o, request o = Some (VDelete, KConfigMap, cmKeyOf sample_req) ∧ gone o) dropsFinalizer deleted_run.
Proof.
  apply (reconcile_tears_down _ _ _ no_requeue deleted_vd deleted_run_ok deleted_run_answers);
    [vm_compute; reflexivity|done|vm_compute; reflexivity].
Defined.
End witnesses.
