(* ===== verification/VectorDataHistories.v ===== *)
(** The VectorData controller over many runs: the ConfigMap of a VectorData in
    the course of a history of reconciliations, interleaved call by call with
    those of other VectorData objects and with other users of the cluster. *)
From S2P Require Import Prelude GoBytes GoStrings Objects Client Histories FakeApi VectorDataController VectorDataProps.
Import Histories VectorDataController.
Local Open Scope Z_scope.

Module VectorDataHistories.

Abbreviation event := (option nat * obs clientE)%type.

(** The call stores the ConfigMap of [req]; after the call it is known not to be
    there. *)
Definition storesConfigMap (req : NamespacedName) (o : obs clientE) : Prop :=
  request o = Some (VCreate, KConfigMap, cmKeyOf req) ∧ succeeded o.
Definition removesConfigMap (req : NamespacedName) (o : obs clientE) : Prop :=
  request o = Some (VDelete, KConfigMap, cmKeyOf req) ∧ gone o.
Definition sawHeld (req : NamespacedName) : obs clientE → Prop := sawGuard KVectorData VectorDataFinalizer req.
Definition releasesVectorData (req : NamespacedName) : obs clientE → Prop := releases KVectorData VectorDataFinalizer req.

Definition configMapStored (req : NamespacedName) : list event → Prop :=
  since (storesConfigMap req) (removesConfigMap req).
Definition vectorDataHeld (req : NamespacedName) : list event → Prop :=
  since (sawHeld req) (releasesVectorData req).

(** Others neither create the ConfigMaps of VectorData objects nor take the
    finalizer off a VectorData: both belong to this controller. *)
Definition outside (o : obs clientE) : Prop :=
  ∀ req, ¬ storesConfigMap req o ∧ ¬ releasesVectorData req o.

Section system.
Context `{U : Unicode, KF : Konfidence, MC : MetaConditions, FZ : Finalizers}.
Context (marshalResults : list DeploymentResult → result GoError string).
Abbreviation history := (history (Reconcile marshalResults) outside).

(** A run creates at most the ConfigMap of its VectorData, after it saw the
    finalizer and without having deleted the ConfigMap, *)
Lemma created_in_run req tr r before o after :
  execs (Reconcile marshalResults req) tr r → Forall well_answered tr → tr = before ++ o :: after →
  requests VCreate KConfigMap o →
  request o = Some (VCreate, KConfigMap, cmKeyOf req) ∧ Exists (sawHeld req) before ∧
  Forall (λ o, ¬ requests VDelete KConfigMap o) before.
Proof.
  intros Hrun Hwa E Ho. vd_runs Hrun; answers_of Hwa; try subst req;
    positions before Ho.
  all: split; [unfold cmKeyOf, obj_key, om_key; cbn; unfold configMapName; congruence|].
  all: split; [|repeat (apply Forall_cons; split; [by intros []|]); done].
  all: first [apply Exists_cons_hd; eexists; by split_and!|apply Exists_cons_tl, Exists_cons_hd; exists a0].
  all: split_and!; [done|unfold obj_key, om_key; cbn; congruence|].
  all: rewrite <-(contains_add_finalizer (vd_Meta a) VectorDataFinalizer); by apply contains_finalizer_same.
Qed.

(** and takes the finalizer off its own VectorData only, after the ConfigMap is
    gone. *)
Lemma released_in_run req tr r before o after vd :
  execs (Reconcile marshalResults req) tr r → Forall well_answered tr → tr = before ++ o :: after →
  sent KVectorData o = Some vd → ContainsFinalizer (vd_Meta vd) VectorDataFinalizer = false →
  om_key (vd_Meta vd) = req ∧ Exists (removesConfigMap req) before.
Proof.
  intros Hrun Hwa E Ho Hf. vd_runs Hrun; answers_of Hwa; try subst req;
    repeat (destruct before as [|? before]; simplify_eq/=).
  all: first [split; [apply remove_finalizer_key|find_obs ltac:(by split)]|exfalso].
  all: rewrite ?contains_add_finalizer in Hf; try congruence.
  all: match goal with H : om_Finalizers (vd_Meta _) = om_Finalizers (AddFinalizer _ _) |- _ =>
    apply (contains_finalizer_same _ _ VectorDataFinalizer) in H; rewrite contains_add_finalizer in H; congruence end.
Qed.

Section history.
Context h ps (Hh : history h ps) (Hwa : Forall (λ c, well_answered c.2) h).

(** In a history, the ConfigMap comes from a run for its VectorData, *)
Lemma stored_in_history h1 c h2 req :
  h = h1 ++ c :: h2 → storesConfigMap req c.2 →
  ∃ i p, c.1 = Some i ∧ ps !! i = Some (req, p) ∧
    (∃ a o, h1 !! a = Some (Some i, o) ∧ sawHeld req o) ∧
    Forall (λ o, ¬ requests VDelete KConfigMap o) (callsOf i h1).
Proof.
  intros Eh Hst. destruct c as [[i|] o]; cbn in *.
  2: { destruct (history_outside_calls _ _ _ _ o Hh) with req as [Hn _]; [rewrite Eh; apply elem_of_mid|done]. }
  destruct (history_run _ _ _ client_answers _ _ _ _ _ _ Hh Hwa Eh) as (req' & p & after & r & Hi & Hrun & Hg).
  destruct Hst as [Hreq _].
  destruct (created_in_run _ _ _ _ _ _ Hrun Hg eq_refl ltac:(unfold requests; by rewrite Hreq)) as (Hreq' & Hf & Hn).
  assert (req' = req) as -> by (apply cmKeyOf_inj; congruence).
  apply callsOf_exists in Hf as (a & o1 & b & E1 & Hf). exists i, p. split_and!; [done..| |done].
  exists (length a), o1. by rewrite E1, mid_lookup.
Qed.
(** and the finalizer goes with a run that has removed the ConfigMap. *)
Lemma released_in_history h1 c h2 req :
  h = h1 ++ c :: h2 → releasesVectorData req c.2 →
  ∃ j p, c.1 = Some j ∧ ps !! j = Some (req, p) ∧
    ∃ a o, h1 !! a = Some (Some j, o) ∧ removesConfigMap req o.
Proof.
  intros Eh Hrel. destruct c as [[j|] o]; cbn in *.
  2: { destruct (history_outside_calls _ _ _ _ o Hh) with req as [_ Hn]; [rewrite Eh; apply elem_of_mid|done]. }
  destruct (history_run _ _ _ client_answers _ _ _ _ _ _ Hh Hwa Eh) as (req' & p & after & r & Hj & Hrun & Hg).
  destruct Hrel as (vd & Hs & Hk & Hf & _).
  destruct (released_in_run _ _ _ _ _ _ _ Hrun Hg eq_refl Hs Hf) as [Hk' Hrem].
  assert (req' = req) as -> by (rewrite <-Hk, <-Hk'; done).
  apply callsOf_exists in Hrem as (a & o3 & b & -> & H3). exists j, p. split_and!; [done..|].
  exists (length a), o3. by rewrite mid_lookup.
Qed.

(** Runs of the work queue do not overtake each other. *)
Lemma serial_not_overtaken req : serial h ps →
  ¬ overtaken (sawHeld req) (storesConfigMap req) (removesConfigMap req) (releasesVectorData req) h.
Proof.
  intros Hserial (i & j & s & w & e & d & o1 & o2 & o3 & o4 & Hs & H1 & Hw & H2 & He & H3 & Hd & H4 & Hsw & Hed & Hsd & Hew & _).
  apply list_elem_of_split_length in Hw as Hw'. destruct Hw' as (h1 & h2 & Eh & Ew).
  destruct (stored_in_history _ _ _ _ Eh H2) as (i' & p & [= <-] & Hpi & _ & Hn).
  apply list_elem_of_split_length in Hd as Hd'. destruct Hd' as (h3 & h4 & Eh' & _).
  destruct (released_in_history _ _ _ _ Eh' H4) as (j' & q & [= <-] & Hpj & _).
  destruct (decide (i = j)) as [->|Hij].
  - rewrite Eh, lookup_app_l in He by lia. apply list_elem_of_split_length in He as (x & y & -> & _).
    rewrite callsOf_mid, Forall_app, Forall_cons in Hn. destruct Hn as (_ & Hn & _).
    apply Hn. destruct H3 as [E _]. unfold requests. by rewrite E.
  - destruct (Nat.lt_trichotomy e s) as [Hes|[->|Hse]].
    + by eapply (Hserial req i j p q e s d).
    + rewrite Hs in He. congruence.
    + by eapply (Hserial req j i q p s e w).
Qed.

(** C1: a stored ConfigMap has a keeper.  In every history of
    reconciliations of this and other VectorData objects, interleaved with other
    users of the cluster, in which the runs for one VectorData do not overlap,
    while the ConfigMap of a VectorData is stored, the VectorData has been seen
    with the cleanup finalizer and not been released since: where that sight
    was current, it cannot go before a run has removed the ConfigMap. *)
Theorem configmap_is_guarded req (Hserial : serial h ps) (Hstored : configMapStored req h) : vectorDataHeld req h.
Proof.
  destruct (guarded_or_overtaken (sawHeld req) (storesConfigMap req) (removesConfigMap req) (releasesVectorData req) h)
    as [?|Ho]; [..|done|by destruct (serial_not_overtaken req)]; [..|done].
  - intros h1 c h2 Eh Hc. destruct (stored_in_history _ _ _ _ Eh Hc) as (i & p & ? & _ & (a & o & ? & ?) & _). eauto 10.
  - intros h1 c h2 Eh Hc. destruct (released_in_history _ _ _ _ Eh Hc) as (j & p & ? & _ & a & o & ? & ?). eauto 10.
  - intros o [E _] [E' _]. congruence.
Qed.
End history.
End system.

(** * A VectorData reconciled twice *)

Section witnesses.
#[local] Existing Instance caseless_unicode.
#[local] Existing Instance sample_konfidence.
#[local] Existing Instance ref_conditions.
#[local] Existing Instance ref_finalizers.

Abbreviation sample_program := (Reconcile sample_marshal).
Definition twice := interleave fake (replicate 7 0 ++ replicate 4 1)%nat
  (started sample_program [sample_req; sample_req]) live_cluster.
Lemma twice_history : history sample_program outside twice.1.1 twice.1.2.
Proof. exact (interleave_started _ _ fake _ _ _). Qed.
Lemma twice_answers : Forall (λ c, well_answered c.2) twice.1.1.
Proof.
  apply (interleave_good well_answered fake consistent); [intros X e s; apply fake_call|].
  apply consistent_put, consistent_empty.
Qed.
Lemma twice_serial : serial twice.1.1 twice.1.2.
Proof.
  rewrite <-(take_drop 7 twice.1.1).
  apply serial_two; [apply (forall_map fst (.∈ [Some 0; None]%nat))|apply (forall_map fst (.∈ [Some 1; None]%nat))];
    apply (bool_decide_unpack _); vm_compute; exact I.
Qed.
Lemma configmap_stored_at req h h1 c h2 :
  h = h1 ++ c :: h2 → request c.2 = Some (VCreate, KConfigMap, cmKeyOf req) → outcome c.2 = Some (Ok ()) →
  Some (VDelete, KConfigMap, cmKeyOf req) ∉ (λ c, request c.2) <$> h2 → configMapStored req h.
Proof.
  intros Eh E Eo Es. exists h1, c, h2. split; [done|]. split; [by split|].
  apply Forall_forall. intros c' Hc [Hreq _]. apply Es. rewrite <-Hreq. by apply (list_elem_of_fmap_2 (λ c, request c.2)).
Qed.
Lemma twice_stored : configMapStored sample_req twice.1.1.
Proof.
  apply (configmap_stored_at _ _ (take 3 twice.1.1) (default (None, Did Now 0) (twice.1.1 !! 3%nat)) (drop 4 twice.1.1)).
  - vm_compute. reflexivity.
  - vm_compute. reflexivity.
  - vm_compute. reflexivity.
  - apply (bool_decide_unpack _). vm_compute. exact I.
Qed.
Lemma configmap_is_guarded_witness : configMapStored sample_req twice.1.1 ∧ vectorDataHeld sample_req twice.1.1.
Proof.
  split; [exact twice_stored|].
  exact (configmap_is_guarded sample_marshal _ _ twice_history twice_answers sample_req twice_serial twice_stored).
Defined.
End witnesses.
End VectorDataHistories.
