(* ===== verification/Watches.v ===== *)
(** What makes the controllers run: the [SetupWithManager] functions, as the
    kinds each controller watches and the predicates its events pass, and what
    the writes of a run bring about.  The builder and the predicates of
    controller-runtime are the interface [ControllerRuntime] with their
    documented behaviour. *)
From S2P Require Import Prelude GoBytes GoStrings GoSort Objects Client ControllerUtil FakeApi.
From S2P Require Import TaskExecution RouterGateway RouteRules LandscapeClient Activation ActivationProps StageRouteCleanup.
From S2P Require Import ArtifactDeployment VectorDataController VectorDataProps.
Local Open Scope Z_scope.

Module Watches.

(** * Events *)

(** An object as an informer holds it, at an address of its own. *)
Record Seen (k : kind) := Held { address : nat; seen : obj k }.
Arguments Held {k} address seen.
Arguments address {k} s.
Arguments seen {k} s.

Inductive Event (k : kind) :=
| CreateEvent (o : Seen k)
| UpdateEvent (ObjectOld ObjectNew : Seen k)
| DeleteEvent (o : Seen k)
| GenericEvent (o : Seen k).
Arguments CreateEvent {k} o.
Arguments UpdateEvent {k} ObjectOld ObjectNew.
Arguments DeleteEvent {k} o.
Arguments GenericEvent {k} o.

(** The object an event is about. *)
Definition subject {k} (e : Event k) : Seen k :=
  match e with CreateEvent o | UpdateEvent _ o | DeleteEvent o | GenericEvent o => o end.
(** The versions of the object an event carries. *)
Definition versions {k} (e : Event k) : list (Seen k) :=
  match e with UpdateEvent old new => [old; new] | CreateEvent o | DeleteEvent o | GenericEvent o => [o] end.
(** [metav1.GetControllerOf]. *)
Definition GetControllerOf {k} (s : Seen k) : option OwnerReference :=
  List.find or_Controller (om_OwnerReferences (obj_meta (seen s))).
Definition generation {k} (s : Seen k) : Z := om_Generation (obj_meta (seen s)).

(** [GetDeletionTimestamp] is a pointer into the object: equal pointers are both
    nil or point into the same object. *)
Definition GetDeletionTimestamp {k} (s : Seen k) : option nat :=
  match om_DeletionTimestamp (obj_meta (seen s)) with None => None | Some _ => Some (address s) end.

Definition Predicate : Type := ∀ k, Event k → bool.

(** What the builder of a controller is given. *)
Record Watching (Handler : Type) := {
  For : kind;
  WithPredicates : list Predicate;
  WithEventFilter : list Predicate;
  Owns : list kind;
  WatchesKinds : list (kind * Handler * list Predicate);
}.
Arguments For {Handler} w.
Arguments WithPredicates {Handler} w.
Arguments WithEventFilter {Handler} w.
Arguments Owns {Handler} w.
Arguments WatchesKinds {Handler} w.

Definition holds {k} (e : Event k) (ps : list Predicate) : bool := forallb (λ p : Predicate, p k e) ps.

Class ControllerRuntime := {
  Handler : Type;
  GenerationChangedPredicate : Predicate;
  NewPredicateFuncs : (∀ k, obj k → bool) → Predicate;
  FuncsUpdate : (∀ k, Seen k → Seen k → bool) → Predicate;
  Or : list Predicate → Predicate;
  (** The group and kind of a type in the scheme, and the group of an API
      version. *)
  GroupKind : kind → string * string;
  ParseGroup : string → string;
  (** The events that enqueue a request. *)
  Admits : Watching Handler → Predicate;
  generation_changed k (e : Event k) : GenerationChangedPredicate k e =
    match e with UpdateEvent old new => negb (bool_decide (generation old = generation new)) | _ => true end;
  new_predicate_funcs f k (e : Event k) : NewPredicateFuncs f k e = f k (seen (subject e));
  funcs_update f k (e : Event k) : FuncsUpdate f k e = match e with UpdateEvent old new => f k old new | _ => true end;
  or_holds ps k (e : Event k) : Or ps k e = existsb (λ p : Predicate, p k e) ps;
  (** Events of the reconciled kind pass all its predicates and the filters, *)
  admits_for w (e : Event (For w)) : For w ∉ Owns w → For w ∉ (WatchesKinds w).*1.*1 →
    Admits w (For w) e = holds e (WithPredicates w ++ WithEventFilter w);
  (** events of owned kinds pass the filters, and enqueue the object that
      controls a version of theirs when it is of the reconciled type, *)
  admits_owned w k (e : Event k) : k ≠ For w → k ∈ Owns w → k ∉ (WatchesKinds w).*1.*1 →
    Admits w k e = holds e (WithEventFilter w) &&
      existsb (λ s, match GetControllerOf s with
                    | Some r => bool_decide (GroupKind (For w) = (ParseGroup (or_APIVersion r), or_Kind r))
                    | None => false
                    end) (versions e);
  (** and other kinds are not watched. *)
  admits_other w k (e : Event k) : k ≠ For w → k ∉ Owns w → k ∉ (WatchesKinds w).*1.*1 → Admits w k e = false;
}.

(** * The controllers *)

Section controllers.
Context `{KF : Konfidence, CR : ControllerRuntime}.
(** From the Konfidence module. *)
Context (ArtifactTypePredicate : string → Predicate) (EnqueueArtifactDeploymentsForTarget : string → Handler).

Definition deletionChanged : ∀ k, Seen k → Seen k → bool :=
  λ k old new, negb (bool_decide (GetDeletionTimestamp old = GetDeletionTimestamp new)).
Definition VectorData_watching : Watching Handler := {|
  For := KVectorData; WithPredicates := [Or [GenerationChangedPredicate; FuncsUpdate deletionChanged]];
  WithEventFilter := []; Owns := []; WatchesKinds := [] |}.

Definition taskFilter (k : kind) : obj k → bool :=
  match k return obj k → bool with
  | KTaskExecution => λ o, TaskExecutionController.taskExecutionFilter (inl o)
  | KJob => λ o, TaskExecutionController.taskExecutionFilter (inr o)
  | _ => λ _, false
  end.
Definition TaskExecution_watching : Watching Handler := {|
  For := KTaskExecution; WithPredicates := [GenerationChangedPredicate];
  WithEventFilter := [NewPredicateFuncs taskFilter]; Owns := [KJob]; WatchesKinds := [] |}.

Definition activationFilter (k : kind) : obj k → bool :=
  match k return obj k → bool with
  | KActivationTaskExecution => λ o, Activation.activationTaskExecutionFilter (Some o)
  | _ => λ _, Activation.activationTaskExecutionFilter None
  end.
Definition Activation_watching : Watching Handler := {|
  For := KActivationTaskExecution; WithPredicates := [GenerationChangedPredicate];
  WithEventFilter := [NewPredicateFuncs activationFilter]; Owns := []; WatchesKinds := [] |}.

Definition StageRouteCleanup_watching : Watching Handler := {|
  For := KStage; WithPredicates := []; WithEventFilter := []; Owns := []; WatchesKinds := [] |}.

Definition Helm_watching : Watching Handler := {|
  For := KArtifactDeployment;
  WithPredicates := [GenerationChangedPredicate; ArtifactTypePredicate ArtifactDeploymentController.ArtifactTypeHelm];
  WithEventFilter := []; Owns := [KHelmRepository; KHelmChart; KHelmRelease];
  WatchesKinds := [(KDeploymentTarget, EnqueueArtifactDeploymentsForTarget ArtifactDeploymentController.ArtifactTypeHelm,
                    [ArtifactTypePredicate ArtifactDeploymentController.ArtifactTypeHelm])] |}.
Definition Kustomize_watching : Watching Handler := {|
  For := KArtifactDeployment;
  WithPredicates := [GenerationChangedPredicate; ArtifactTypePredicate ArtifactDeploymentController.ArtifactTypeKustomize];
  WithEventFilter := []; Owns := [KOCIRepository; KKustomization];
  WatchesKinds := [(KDeploymentTarget, EnqueueArtifactDeploymentsForTarget ArtifactDeploymentController.ArtifactTypeKustomize,
                    [ArtifactTypePredicate ArtifactDeploymentController.ArtifactTypeKustomize])] |}.
End controllers.

(** * Which events enqueue *)

Section admission.
Context `{KF : Konfidence, CR : ControllerRuntime}.

(** The spec changed, for an update. *)
Definition specChanged {k} (e : Event k) : Prop :=
  match e with UpdateEvent old new => generation old ≠ generation new | _ => True end.
(** The object is under deletion before or after an update. *)
Definition underDeletion {k} (e : Event k) : Prop :=
  match e with
  | UpdateEvent old new => om_DeletionTimestamp (obj_meta (seen old)) ≠ None ∨ om_DeletionTimestamp (obj_meta (seen new)) ≠ None
  | _ => False
  end.
(** The informer holds the versions of an update at different addresses. *)
Definition distinct {k} (e : Event k) : Prop :=
  match e with UpdateEvent old new => address old ≠ address new | _ => True end.

Lemma generation_changed_iff k (e : Event k) : GenerationChangedPredicate k e = true ↔ specChanged e.
Proof. rewrite generation_changed. destruct e; cbn; try done. by rewrite negb_true_iff, bool_decide_eq_false. Qed.
Lemma deletion_changed_iff k (old new : Seen k) :
  address old ≠ address new → deletionChanged k old new = true ↔ underDeletion (UpdateEvent old new).
Proof.
  intros Hd. unfold deletionChanged, GetDeletionTimestamp. rewrite negb_true_iff, bool_decide_eq_false. cbn.
  destruct (om_DeletionTimestamp _), (om_DeletionTimestamp _); naive_solver congruence.
Qed.
Ltac unwatched := unfold fmap, list_fmap; cbn; apply not_elem_of_nil.

Lemma vectordata_admits (e : Event KVectorData) : distinct e →
  Admits VectorData_watching KVectorData e = true ↔ specChanged e ∨ underDeletion e.
Proof.
  intros Hd. rewrite (admits_for VectorData_watching) by unwatched. unfold holds. cbn [VectorData_watching WithPredicates WithEventFilter app forallb].
  rewrite andb_true_r, or_holds. cbn [existsb]. rewrite !orb_true_iff, generation_changed_iff, funcs_update.
  destruct e; cbn [distinct] in Hd; try (cbn; tauto). rewrite deletion_changed_iff by done. naive_solver.
Qed.
Lemma task_admits (e : Event KTaskExecution) :
  Admits TaskExecution_watching KTaskExecution e = true ↔ specChanged e ∧ te_Type (seen (subject e)) = "k8s-job".
Proof.
  rewrite (admits_for TaskExecution_watching) by (cbn; set_solver). unfold holds.
  cbn [TaskExecution_watching WithPredicates WithEventFilter app forallb].
  rewrite andb_true_r, andb_true_iff, generation_changed_iff, new_predicate_funcs. cbn. by rewrite bool_decide_eq_true.
Qed.
Lemma activation_admits (e : Event KActivationTaskExecution) :
  Admits Activation_watching KActivationTaskExecution e = true ↔
  specChanged e ∧ ate_Type (seen (subject e)) = Activation.TypeGatewayRoute.
Proof.
  rewrite (admits_for Activation_watching) by unwatched. unfold holds.
  cbn [Activation_watching WithPredicates WithEventFilter app forallb].
  rewrite andb_true_r, andb_true_iff, generation_changed_iff, new_predicate_funcs. cbn. by rewrite bool_decide_eq_true.
Qed.
(** The object is controlled by a TaskExecution. *)
Definition controlledByTask {k} (s : Seen k) : Prop :=
  ∃ r, GetControllerOf s = Some r ∧ GroupKind KTaskExecution = (ParseGroup (or_APIVersion r), or_Kind r).
Lemma job_admits (e : Event KJob) :
  Admits TaskExecution_watching KJob e = true ↔
  Exists controlledByTask (versions e) ∧
  Exists (λ ref, or_Kind ref = TaskExecutionKind) (om_OwnerReferences (job_Meta (seen (subject e)))).
Proof.
  rewrite (admits_owned TaskExecution_watching) by (cbn; set_solver). unfold holds.
  cbn [TaskExecution_watching WithEventFilter forallb For]. rewrite andb_true_r, andb_true_iff, new_predicate_funcs. cbn [taskFilter].
  unfold TaskExecutionController.taskExecutionFilter, TaskExecutionController.jobOwnerRefsContainKind.
  rewrite !existsb_exists, !Exists_exists. setoid_rewrite <-list_elem_of_In. setoid_rewrite bool_decide_eq_true.
  unfold controlledByTask. split; intros [H1 H2]; (split; [|assumption]) || (split; [assumption|]).
  - destruct H2 as (x & Hx & H). exists x. split; [done|]. destruct (GetControllerOf x) as [r|]; [|done].
    exists r. split; [done|]. by apply bool_decide_eq_true in H.
  - destruct H1 as (x & Hx & r & Hr & H). exists x. split; [done|]. rewrite Hr. by apply bool_decide_eq_true.
Qed.

(** C37: what wakes the controllers.  Creations, deletions and spec changes of a
    VectorData always do, and updates of its status never, until it is under
    deletion: the two versions of an update are different objects, so from then
    on every update passes the comparison of their deletion timestamps.
    TaskExecutions and ActivationTaskExecutions wake their controllers by their
    spec and only when they have its type, and Jobs wake the TaskExecution
    controller exactly when a TaskExecution controls them, before or after an
    update, and a TaskExecution is among their owners. *)
Theorem watches_spec :
  (∀ e : Event KVectorData, distinct e → Admits VectorData_watching _ e = true ↔ specChanged e ∨ underDeletion e) ∧
  (∀ e : Event KTaskExecution,
     Admits TaskExecution_watching _ e = true ↔ specChanged e ∧ te_Type (seen (subject e)) = "k8s-job") ∧
  (∀ e : Event KJob, Admits TaskExecution_watching _ e = true ↔
     Exists controlledByTask (versions e) ∧
     Exists (λ ref, or_Kind ref = TaskExecutionKind) (om_OwnerReferences (job_Meta (seen (subject e))))) ∧
  (∀ e : Event KActivationTaskExecution, Admits Activation_watching _ e = true ↔
     specChanged e ∧ ate_Type (seen (subject e)) = Activation.TypeGatewayRoute).
Proof. split_and!; [exact vectordata_admits|exact task_admits|exact job_admits|exact activation_admits]. Qed.
End admission.

(** * What a run brings about *)

(** The events of a successful write, when nobody else writes: the version
    before a patch is the one the patch was computed from, and the informer
    holds the two at different addresses. *)
Definition AnyEvent : Type := {k : kind & Event k}.
Definition patched {k} (old : obj k) (r : result ApiError (obj k)) (ev : AnyEvent) : Prop :=
  match r with
  | Ok s => ∃ a b, a ≠ b ∧ ev = existT k (UpdateEvent (Held a old) (Held b s))
  | Err _ => False
  end.
Definition raises (o : obs clientE) (ev : AnyEvent) : Prop :=
  match o with
  | Did e x =>
      match e in clientE X return X → Prop with
      | Create k _ => λ r, match r with Ok s => ∃ a, ev = existT k (CreateEvent (Held a s)) | Err _ => False end
      | Update k _ => λ r, match r with Ok s => ∃ old a, ev = existT k (UpdateEvent old (Held a s)) | Err _ => False end
      | Patch k old new => λ r, patched old r ev
      | StatusPatch k old new => λ r, patched old r ev
      | Delete k _ => λ r, match r with Ok _ => projT1 ev = k | Err _ => False end
      | _ => λ _, False
      end x
  end.

(** What the answers of a run show when nobody else writes: a patch of the
    status, or of the metadata alone, keeps the generation, which counts changes
    of the spec, and a patch answers with the deletion mark it was sent. *)
Definition undisturbed (o : obs clientE) : Prop :=
  match o with
  | Did e x =>
      match e in clientE X return X → Prop with
      | StatusPatch k old new => λ r,
          match r with
          | Ok s => om_Generation (obj_meta s) = om_Generation (obj_meta old) ∧
                    om_DeletionTimestamp (obj_meta s) = om_DeletionTimestamp (obj_meta new)
          | Err _ => True
          end
      | Patch k old new => λ r,
          match r with
          | Ok s => (new = obj_set_meta (obj_meta new) old → om_Generation (obj_meta s) = om_Generation (obj_meta old)) ∧
                    om_DeletionTimestamp (obj_meta s) = om_DeletionTimestamp (obj_meta new)
          | Err _ => True
          end
      | _ => λ _, True
      end x
  end.

(** What a run has seen of the reconciled object. *)
Lemma latest_cons k o tr : latest k (o :: tr) = match latest k tr with Some x => Some x | None => answered k o end.
Proof.
  unfold latest. cbn. destruct (answered k o) as [x|]; [|by destruct (last _)].
  rewrite last_cons. by destruct (last _).
Qed.

Inductive controller := CVectorData | CTaskExecution | CActivation | CStageCleanup.

Section loops.
Context `{KF : Konfidence, MC : MetaConditions, FZ : Finalizers, GA : GatewayAPI, OW : OwnerReferences}.
Context `{U : Unicode, SS : SortSlice, CU : ControllerUtil, CR : ControllerRuntime}.
Context (marshalResults : list DeploymentResult → result GoError string).
Context (decodeJobSpec : string → result GoError JobSpec).
Context (unmarshalConfig : string → result GoError RouteRules.gatewayRouteFields).
Context (decodeServiceSpec : string → result GoError ServiceSpec).

Definition program (c : controller) (req : NamespacedName) : Prog Outcome :=
  match c with
  | CVectorData => VectorDataController.Reconcile marshalResults req
  | CTaskExecution => TaskExecutionController.Reconcile decodeJobSpec req
  | CActivation => Activation.Reconcile unmarshalConfig decodeServiceSpec LandscapeClient.controlPlane req
  | CStageCleanup => StageRouteCleanup.Reconcile LandscapeClient.controlPlane req
  end.
Definition watching (c : controller) : Watching Handler :=
  match c with
  | CVectorData => VectorData_watching
  | CTaskExecution => TaskExecution_watching
  | CActivation => Activation_watching
  | CStageCleanup => StageRouteCleanup_watching
  end.

Definition runOf (c : controller) (req : NamespacedName) (tr : list (obs clientE)) : Prop :=
  (∃ r, execs (program c req) tr r) ∧ Forall well_answered tr ∧ Forall undisturbed tr.

(** A write of [tr] enqueues another run [tr'], which reads the object as [tr]
    left it, and whose list of Jobs, where it makes one, shows the Job that
    [tr] created. *)
Definition retriggers (c : controller) (tr tr' : list (obs clientE)) : Prop :=
  ∃ req, runOf c req tr ∧ runOf c req tr' ∧
    Exists (λ o, ∃ ev, raises o ev ∧ Admits (watching c) (projT1 ev) (projT2 ev) = true) tr ∧
    answered (For (watching c)) <$> head tr' = Some (latest (For (watching c)) tr) ∧
    (Exists (requests VCreate KJob) tr → Forall (λ o, listed KJob o ≠ Some []) tr').

Definition quiet (c : controller) (o : obs clientE) : Prop :=
  ∀ ev, raises o ev → Admits (watching c) (projT1 ev) (projT2 ev) = false.

Lemma raises_writes o ev : raises o ev → writes (projT1 ev) o.
Proof. destruct o as [X e x]. destruct e; cbn; try done; destruct x; unfold patched; naive_solver. Qed.
(** The controllers watch the kind they reconcile and what they own. *)
Lemma quiet_other c o : (∀ k, writes k o → k ≠ For (watching c) ∧ k ∉ Owns (watching c)) → quiet c o.
Proof.
  intros Ho ev Hr. destruct (Ho _ (raises_writes _ _ Hr)). apply admits_other; [done..|]. destruct c; apply not_elem_of_nil.
Qed.
Lemma quiet_patched c (old new : obj (For (watching c))) r ev : c ≠ CStageCleanup →
  (c = CVectorData → om_DeletionTimestamp (obj_meta old) = None ∧ om_DeletionTimestamp (obj_meta new) = None) →
  (∀ s, r = Ok s → om_Generation (obj_meta s) = om_Generation (obj_meta old) ∧
                   om_DeletionTimestamp (obj_meta s) = om_DeletionTimestamp (obj_meta new)) →
  patched old r ev → Admits (watching c) (projT1 ev) (projT2 ev) = false.
Proof.
  intros Hc Hvd Hs. destruct r as [s|]; [|done]. intros (a & b & Hab & ->). cbn [projT1 projT2].
  apply not_true_is_false. intros H. destruct (Hs s eq_refl) as [Hg Hd].
  destruct c; cbn [watching] in *; [apply vectordata_admits in H; [|done]|apply task_admits in H|apply activation_admits in H|done];
    unfold specChanged, underDeletion, generation in H; cbn [seen] in H; [|naive_solver..].
  destruct (Hvd eq_refl). naive_solver congruence.
Qed.
Lemma quiet_status c (old new : obj (For (watching c))) r : c ≠ CStageCleanup →
  (c = CVectorData → om_DeletionTimestamp (obj_meta old) = None ∧ om_DeletionTimestamp (obj_meta new) = None) →
  undisturbed (Did (StatusPatch _ old new) r) →
  quiet c (Did (StatusPatch _ old new) r).
Proof.
  intros Hc Hvd Hk ev. apply (quiet_patched c old new r ev Hc Hvd). intros s ->. exact Hk.
Qed.
Lemma quiet_metadata c (old new : obj (For (watching c))) r : c ≠ CStageCleanup →
  (c = CVectorData → om_DeletionTimestamp (obj_meta old) = None ∧ om_DeletionTimestamp (obj_meta new) = None) →
  new = obj_set_meta (obj_meta new) old →
  undisturbed (Did (Patch _ old new) r) →
  quiet c (Did (Patch _ old new) r).
Proof.
  intros Hc Hvd Hn Hk ev. apply (quiet_patched c old new r ev Hc Hvd). intros s ->. destruct Hk as [Hg Hd]. auto.
Qed.

(** ** VectorData *)

(** Closes [quiet] of a call that writes nothing the controller watches. *)
Ltac quiet_call :=
  first [ by intros ? []
        | apply quiet_other; intros ? Hw; cbn in Hw; obs_hyps; subst; split; [discriminate|set_solver] ].
Ltac quiet_walk := repeat (apply Forall_cons; split); try apply Forall_nil_2; try solve [quiet_call].

(** Splits what is known of all calls of a run. *)
Ltac forall_hyps := repeat match goal with H : Forall _ (_ :: _) |- _ => apply Forall_cons in H as [? H] end.
(** The versions a run has got of an object carry the deletion mark it had. *)
Ltac live_side :=
  intros _; repeat match goal with H : undisturbed (Did (Patch _ _ _) (Ok _)) |- _ => destruct H as [_ H] end;
  cbn in *; autorewrite with cond in *; split; congruence.
Ltac removed_side :=
  match goal with H : well_answered (Did (Patch _ _ _) (Ok ?s)), H' : undisturbed (Did (Patch _ _ _) (Ok ?s)) |- _ =>
    exists s; destruct H as [_ Hf], H' as [_ Hd]; cbn in Hf, Hd end;
  split; [reflexivity|]; split;
  [ match goal with Hd : _ = om_DeletionTimestamp (RemoveFinalizer ?m ?f) |- _ =>
      destruct (remove_finalizer_same m f) as [l Hl]; rewrite Hl in Hd; cbn in Hd; congruence end
  | match goal with Hf : _ = om_Finalizers ?m |- _ =>
      rewrite (contains_finalizer_same _ m) by exact Hf; apply contains_remove_finalizer end ].

(** A run on a live VectorData is quiet; one on a VectorData under deletion is
    quiet or leaves it without the finalizer. *)
Lemma vectordata_runs req tr : runOf CVectorData req tr →
  Forall (quiet CVectorData) tr ∨
  ∃ s, latest KVectorData tr = Some s ∧ om_DeletionTimestamp (vd_Meta s) ≠ None ∧
       ContainsFinalizer (vd_Meta s) VectorDataController.VectorDataFinalizer = false.
Proof.
  intros ((r & Hrun) & Hwa & Hk). cbn [program] in Hrun.
  unfold VectorDataController.Reconcile, VectorDataController.handleDeletion, VectorDataController.materialize,
    VectorDataController.setReady, done_ok, fail_with in Hrun.
  exec_steps Hrun.
  all: repeat match goal with H : negb (time_IsZero _) = true |- _ => apply time_nonzero in H
                            | H : negb (time_IsZero _) = false |- _ => apply time_zero in H end; forall_hyps.
  all: first [ left; repeat (apply Forall_cons; split); try apply Forall_nil_2;
               solve [ quiet_call | apply (quiet_status CVectorData); try done; live_side
                     | apply (quiet_metadata CVectorData); try done; live_side ]
             | right; removed_side ].
Qed.
(** What is already released is left alone. *)
Lemma vectordata_released req tr s : runOf CVectorData req tr →
  answered KVectorData <$> head tr = Some (Some s) → om_DeletionTimestamp (vd_Meta s) ≠ None →
  ContainsFinalizer (vd_Meta s) VectorDataController.VectorDataFinalizer = false → Forall (quiet CVectorData) tr.
Proof.
  intros ((r & Hrun) & _) Hs Hd Hf. cbn [program] in Hrun. unfold VectorDataController.Reconcile in Hrun.
  apply execs_bind in Hrun as (t1 & t2 & g & -> & (x & ? & -> & [-> ->]) & H).
  destruct x as [vd|e]; [|done]. cbn in Hs. injection Hs as ->. unfold VectorDataController.handleDeletion in H.
  assert (time_IsZero (om_DeletionTimestamp (vd_Meta s)) = false) as Hz by (by destruct (om_DeletionTimestamp (vd_Meta s))).
  rewrite Hz, Hf in H. cbn in H. destruct H as [-> _]. quiet_walk.
Qed.

(** ** TaskExecution *)

Lemma task_runs req tr : runOf CTaskExecution req tr →
  Exists (requests VCreate KJob) tr ∧ Exists (λ o, listed KJob o = Some []) tr ∨ Forall (quiet CTaskExecution) tr.
Proof.
  intros ((r & Hrun) & Hwa & Hk). cbn [program] in Hrun.
  unfold TaskExecutionController.Reconcile, TaskExecutionController.createOrGetJob, TaskExecutionController.constructJob,
    TaskExecutionController.patchStatus, done_ok, fail_with in Hrun.
  exec_steps Hrun; forall_hyps.
  all: first [ right; repeat (apply Forall_cons; split); try apply Forall_nil_2;
               solve [quiet_call | by apply (quiet_status CTaskExecution)]
             | left; split; [find_obs ltac:(done)|find_obs ltac:(reflexivity)] ].
Qed.

(** ** Activation *)

Lemma activation_runs req tr : runOf CActivation req tr → Forall (quiet CActivation) tr.
Proof.
  intros ((r & Hrun) & Hwa & Hk). cbn [program] in Hrun.
  destruct (outer_runs _ _ _ _ _ Hrun) as [(e & -> & _)|(ate & t & res & p & -> & Hact & Hp)]; [quiet_walk|].
  apply Forall_cons in Hwa as [_ Hwa]. apply Forall_app in Hwa as [Hwa Hwp].
  apply Forall_cons in Hk as [_ Hk]. apply Forall_app in Hk as [_ Hkp].
  constructor; [quiet_call|]. apply Forall_app. split.
  - eapply Forall_impl; [exact (activation_calls _ _ _ _ _ _ Hact Hwa)|]. intros o [Ho _].
    apply quiet_other. intros k Hw. split; [intros ->; by apply Ho|apply not_elem_of_nil].
  - destruct Hp as [(-> & _)|(x & -> & _)]; forall_hyps; [constructor|]. constructor; [|constructor].
    by apply (quiet_status CActivation).
Qed.

(** ** Stages *)

Lemma stage_runs req tr : runOf CStageCleanup req tr →
  Forall (quiet CStageCleanup) tr ∨
  ∃ s, latest KStage tr = Some s ∧ ContainsFinalizer (st_Meta s) Activation.stageRouteFinalizer = false.
Proof.
  intros ((r & Hrun) & Hwa & _). cbn [program] in Hrun.
  unfold StageRouteCleanup.Reconcile, StageRouteCleanup.deleteStageRoute, done_ok, fail_with in Hrun.
  exec_steps Hrun; forall_hyps.
  all: first [ left; quiet_walk; fail
             | right; match goal with H : well_answered (Did (Patch _ _ _) (Ok ?s)) |- _ =>
                 exists s; destruct H as [_ Hf]; cbn in Hf end; split; [reflexivity|];
               rewrite (contains_finalizer_same _ _ _ Hf); apply contains_remove_finalizer ].
Qed.
Lemma stage_released req tr s : runOf CStageCleanup req tr → answered KStage <$> head tr = Some (Some s) →
  ContainsFinalizer (st_Meta s) Activation.stageRouteFinalizer = false → Forall (quiet CStageCleanup) tr.
Proof.
  intros ((r & Hrun) & _) Hs Hf. cbn [program] in Hrun. unfold StageRouteCleanup.Reconcile in Hrun.
  apply execs_bind in Hrun as (t1 & t2 & g & -> & (x & ? & -> & [-> ->]) & H).
  destruct x as [st|e]; [|done]. cbn in Hs. injection Hs as ->. rewrite Hf, orb_true_r in H.
  destruct H as [-> _]. quiet_walk.
Qed.

(** ** Together *)

Lemma not_quiet c tr :
  Exists (λ o, ∃ ev, raises o ev ∧ Admits (watching c) (projT1 ev) (projT2 ev) = true) tr → ¬ Forall (quiet c) tr.
Proof.
  intros (o & Ho & ev & Hr & Ha)%Exists_exists Hq. rewrite Forall_forall in Hq. rewrite (Hq o Ho ev Hr) in Ha. done.
Qed.
Lemma second_run_quiet c tr tr' : retriggers c tr tr' → Forall (quiet c) tr'.
Proof.
  intros (req & Hrun & Hrun' & Hev%not_quiet & Hhead & Hjobs). destruct c.
  - destruct (vectordata_runs _ _ Hrun) as [?|(s & Hl & Hd & Hf)]; [done|].
    cbn [watching VectorData_watching For] in Hhead. rewrite Hl in Hhead. by eapply vectordata_released.
  - destruct (task_runs _ _ Hrun) as [[Hc _]|?]; [|done]. destruct (task_runs _ _ Hrun') as [[_ He]|?]; [|done].
    apply Exists_exists in He as (o & Ho & E). specialize (Hjobs Hc). rewrite Forall_forall in Hjobs. by destruct (Hjobs o Ho).
  - by eapply activation_runs.
  - destruct (stage_runs _ _ Hrun) as [?|(s & Hl & Hf)]; [done|].
    cbn [watching StageRouteCleanup_watching For] in Hhead. rewrite Hl in Hhead. by eapply stage_released.
Qed.

(** C36: the controllers come to rest.  When nobody else writes, the events of a
    run's own writes enqueue at most one further run, of any of the controllers
    for VectorData, TaskExecutions, ActivationTaskExecutions and Stages, and the
    writes of that run enqueue no other: status updates, finalizers and created
    Jobs never feed a loop. *)
Theorem reconcile_loops_end c n tr tr' (Hsteps : nsteps (retriggers c) n tr tr') : (n ≤ 1)%nat.
Proof.
  destruct Hsteps as [|n tr tr1 tr' H1 Hn]; [lia|]. destruct Hn as [|n tr1 tr2 tr' H2 _]; [lia|].
  apply second_run_quiet in H1. destruct H2 as (req & _ & _ & Hev%not_quiet & _). done.
Qed.
End loops.

(** * Witnesses *)

Definition sample_group_kind (k : kind) : string * string :=
  match k with KTaskExecution => ("konfidence.cloud/v1alpha1", "TaskExecution") | _ => ("", "") end.
Definition ref_runtime : ControllerRuntime.
Proof.
  refine {|
    Handler := unit;
    GenerationChangedPredicate k e :=
      match e with UpdateEvent old new => negb (bool_decide (generation old = generation new)) | _ => true end;
    NewPredicateFuncs f k e := f k (seen (subject e));
    FuncsUpdate f k e := match e with UpdateEvent old new => f k old new | _ => true end;
    GroupKind := sample_group_kind; ParseGroup v := v;
    Or ps k e := existsb (λ p : Predicate, p k e) ps;
    Admits w k e :=
      if bool_decide (k = For w) then holds e (WithPredicates w ++ WithEventFilter w)
      else if bool_decide (k ∈ Owns w) then holds e (WithEventFilter w) &&
        existsb (λ s, match GetControllerOf s with
                      | Some r => bool_decide (sample_group_kind (For w) = (or_APIVersion r, or_Kind r))
                      | None => false
                      end) (versions e)
      else existsb (λ t, bool_decide (t.1.1 = k) && holds e (t.2 ++ WithEventFilter w)) (WatchesKinds w) |}; try done.
  - intros w e _ _. by rewrite bool_decide_eq_true_2.
  - intros w k e Hf Ho _. by rewrite bool_decide_eq_false_2, bool_decide_eq_true_2.
  - intros w k e Hf Ho Hw. rewrite !bool_decide_eq_false_2 by done.
    induction (WatchesKinds w) as [|t l IH]; [done|]. cbn in *. rewrite bool_decide_eq_false_2 by set_solver.
    apply IH. set_solver.
Defined.

Section witnesses.
#[local] Existing Instance caseless_unicode.
#[local] Existing Instance sample_konfidence.
#[local] Existing Instance gateway_api_v1.
#[local] Existing Instance ref_conditions.
#[local] Existing Instance ref_finalizers.
#[local] Existing Instance ref_sort.
#[local] Existing Instance ref_controllerutil.
#[local] Existing Instance ref_runtime.
#[local] Existing Instance TaskExecutionController.sample_owners.

(** A Stage under deletion that somebody else still holds. *)
Definition held_stage : Stage := {|
  st_Meta := stamp_deleted 5 (om_set_finalizers [Activation.stageRouteFinalizer; "foregroundDeletion"] (new_meta "landscape" "dev" ∅));
  st_ActiveStageVersion := None |}.
Definition held_cluster : FakeState := put (k := KStage) held_stage empty_cluster.
Definition cleanup := StageRouteCleanup.Reconcile LandscapeClient.controlPlane (NN "landscape" "dev").
Definition first_run := calls fake cleanup held_cluster.
Definition second_run := calls fake cleanup (run fake cleanup held_cluster).2.
Definition released_stage : Stage := Activation.st_set_meta (RemoveFinalizer (st_Meta held_stage) Activation.stageRouteFinalizer) held_stage.

Lemma first_run_calls : first_run =
  [Did (Get KStage (NN "landscape" "dev")) (Ok held_stage);
   Did (Delete KHTTPRoute (NN "landscape" "konfidence-stage-dev")) (Err not_found);
   Did (Patch KStage held_stage released_stage) (Ok released_stage)].
Proof. vm_compute. reflexivity. Qed.
Lemma second_run_calls : second_run = [Did (Get KStage (NN "landscape" "dev")) (Ok released_stage)].
Proof. vm_compute. reflexivity. Qed.

Abbreviation sample_run := (runOf VectorDataProps.sample_marshal TaskExecutionController.sample_decode
  sample_unmarshal RouteRules.sample_decodeService CStageCleanup (NN "landscape" "dev")).
Abbreviation sample_retriggers := (retriggers VectorDataProps.sample_marshal TaskExecutionController.sample_decode
  sample_unmarshal RouteRules.sample_decodeService CStageCleanup).
Lemma cleanup_runs s : consistent s → Forall undisturbed (calls fake cleanup s) → sample_run (calls fake cleanup s).
Proof. intros Hs Hk. split_and!; [eexists; apply run_execs|by apply fake_answers|done]. Qed.
Lemma held_retriggers : sample_retriggers first_run second_run.
Proof.
  assert (Hc : consistent held_cluster) by apply consistent_put, consistent_empty.
  exists (NN "landscape" "dev"). split_and!.
  - apply cleanup_runs; [done|]. change (Forall undisturbed first_run). rewrite first_run_calls. by repeat constructor.
  - apply cleanup_runs; [by apply run_consistent|]. change (Forall undisturbed second_run).
    rewrite second_run_calls. by repeat constructor.
  - rewrite first_run_calls. do 2 apply Exists_cons_tl. apply Exists_cons_hd.
    exists (existT KStage (UpdateEvent (Held (k := KStage) 0 held_stage) (Held (k := KStage) 1 released_stage))). split; [by exists 0%nat, 1%nat|reflexivity].
  - rewrite first_run_calls, second_run_calls. reflexivity.
  - rewrite second_run_calls. intros _. by repeat constructor.
Qed.
Lemma reconcile_loops_end_witness : nsteps sample_retriggers 1 first_run second_run ∧ (1 ≤ 1)%nat.
Proof.
  assert (H : nsteps sample_retriggers 1 first_run second_run) by (apply nsteps_once, held_retriggers).
  split; [exact H|exact (reconcile_loops_end _ _ _ _ _ _ _ _ H)].
Defined.
End witnesses.
End Watches.
