(* ===== verification/VectorDataService.v ===== *)
(** The vector-data service (cmd/vectordata): the OFREP evaluation handlers of
    vector_data_service.go over the configuration cache of in_memory_cache.go,
    and the ConfigMaps the VectorData controller materialises.

    The service talks to the cache and to the API server through the calls of
    [serviceE]; a ConfigMap's data is the list of its entries in the order a
    [range] loop visits them. *)
From Stdlib Require Import Floats.SpecFloat.
From S2P Require Import Prelude GoBytes GoStrings GoSort GoJson GoAny GoCompact Sha1 Objects Client.
Local Open Scope Z_scope.

Module VectorDataService.

Definition FeaturesConfigKey : string := "features.json".
Definition AuthoredConfigKey : string := "authored.json".
Definition DeploymentResultsPrefix : string := "deploymentResults.".
Definition JsonSuffix : string := ".json".
Definition TargetingKey : string := "targetingKey".
Definition Features : string := "features".
Definition Authored : string := "authored".
Definition DeploymentResults : string := "deploymentResults".
Definition TargetingMatchReason : string := "TARGETING_MATCH".
Definition FlagNotFoundErrorCode : string := "FLAG_NOT_FOUND".
Definition ParseErrorErrorCode : string := "PARSE_ERROR".
Definition TargetingKeyMissingErrorCode : string := "TARGETING_KEY_MISSING".
Definition ConfigMapPrefix : string := "vector-data-".
Definition StatusOK : Z := 200.
Definition StatusNotModified : Z := 304.
Definition StatusBadRequest : Z := 400.
Definition StatusNotFound : Z := 404.
Definition StatusInternalServerError : Z := 500.
Definition StatusServiceUnavailable : Z := 503.

Inductive serviceE : Type → Type :=
| CacheGet (key : string) : serviceE (option string)
| CacheSet (key val : string) : serviceE unit
| GetConfigMap (name : string) : serviceE (result ApiError (list (string * string))).
Abbreviation Service := (prog serviceE).

(** * Responses *)

Record FlagResponse := {
  fr_Key : string;
  fr_Value : any;
  fr_Variant : string;
  fr_Reason : string;
  fr_Metadata : list (string * any);
}.
Record ErrorResponse := { er_Key : string; er_ErrorCode : string; er_ErrorDetails : string }.
Inductive Body :=
| BFlag (f : FlagResponse)
| BError (e : ErrorResponse)
| BDetails (details : string)
| BBulk (flags : list (FlagResponse + ErrorResponse))
| BText (s : string)
| BNone.
Record Response := { rs_Status : Z; rs_ETag : option string; rs_Body : Body }.
(** What the handlers read of a request. *)
Record Request := { rq_Key : string; rq_Body : string; rq_IfNoneMatch : string }.

Section service.
Context `{U : Unicode}.
Context (formatFloat : spec_float → string).
(** The message of the error [getEvaluationContext] returns for a body the
    decoder refuses. *)
Context (decodeErrorText : string → string).

(** ** Encoding *)

(** A field with [omitempty]. *)
Definition omit_empty (k v : string) : list (list ascii) :=
  if bool_decide (v = "") then [] else [member k (encode_string v)].
Definition flagText (f : FlagResponse) : list ascii :=
  object ([member "key" (encode_string (fr_Key f)); member "value" (marshal formatFloat (fr_Value f))] ++
          omit_empty "variant" (fr_Variant f) ++ [member "reason" (encode_string (fr_Reason f))] ++
          (if bool_decide (length (fr_Metadata f) = 0%nat) then []
           else [member "metadata" (marshal formatFloat (AMap (fr_Metadata f)))])).
Definition errorText (e : ErrorResponse) : list ascii :=
  object ([member "key" (encode_string (er_Key e)); member "errorCode" (encode_string (er_ErrorCode e))] ++
          omit_empty "errorDetails" (er_ErrorDetails e)).
Definition entryText (e : FlagResponse + ErrorResponse) : list ascii :=
  match e with inl f => flagText f | inr e => errorText e end.
Definition bulkText (flags : list (FlagResponse + ErrorResponse)) : list ascii :=
  object [member "flags" (array (entryText <$> flags))].

(** The bytes [writeResponseWithEtag] and the probes write. *)
Definition bodyText (b : Body) : list ascii :=
  match b with
  | BFlag f => flagText f
  | BError e => errorText e
  | BDetails details => object (omit_empty "errorDetails" details)
  | BBulk flags => bulkText flags
  | BText s => to_list s
  | BNone => []
  end.

(** [generateEtag] of a bulk response. *)
Definition generateEtag (flags : list (FlagResponse + ErrorResponse)) : string :=
  of_list (quoteb :: sha1_hex (bulkText flags) ++ [quoteb]).

Definition respond (status : Z) (b : Body) : Response := {| rs_Status := status; rs_ETag := None; rs_Body := b |}.
Definition okResponse (b : Body) : Response := respond StatusOK b.
Definition okResponseWithEtag (b : Body) (etag : string) : Response :=
  {| rs_Status := StatusOK; rs_ETag := Some etag; rs_Body := b |}.
Definition errorResponse (status : Z) (flagKey code msg : string) : Response :=
  respond status (BError {| er_Key := flagKey; er_ErrorCode := code; er_ErrorDetails := msg |}).
Definition notFoundResponse (flagKey msg : string) : Response :=
  errorResponse StatusNotFound flagKey FlagNotFoundErrorCode msg.
Definition bulkErrorResponse (status : Z) (code msg : string) : Response := errorResponse status "" code msg.
Definition internalServerErrorResponse (msg : string) : Response := respond StatusInternalServerError (BDetails msg).
Definition notModifiedResponse : Response := respond StatusNotModified BNone.

(** ** Probes *)

Definition handleHealthz : Response := respond StatusOK (BText "ok").
(** [ready] is [None] when the service has no callback; [http.Error] ends the
    text with a newline. *)
Definition handleReadyz (ready : option bool) : Response :=
  match ready with
  | Some false => respond StatusServiceUnavailable (BText ("not ready" +:+ of_list [Zbyte 10]))
  | _ => respond StatusOK (BText "ok")
  end.

(** ** The evaluation context *)

Fixpoint context_of (acc : list (string * any)) (ms : list (list ascii * json)) : option (list (string * any)) :=
  match ms with
  | [] => Some acc
  | (k, x) :: ms' =>
      if EqualFold (unquote k) "context" then
        match x with
        | JNull => context_of [] ms'
        | JObj _ =>
            v ← decode false x;
            match v with
            | AMap m => context_of (foldl (λ a e, assoc_set a e.1 e.2) acc m) ms'
            | _ => None
            end
        | _ => None
        end
      else context_of acc ms'
  end.
Definition decodeRequest (body : string) : option (list (string * any)) :=
  match jfirst (to_list body) with
  | Some JNull => Some []
  | Some (JObj ms) => context_of [] ms
  | _ => None
  end.
Definition getEvaluationContext (r : Request) : result GoError (list (string * any)) :=
  match decodeRequest (rq_Body r) with
  | Some ctx => Ok ctx
  | None => Err (ENew (decodeErrorText (rq_Body r)))
  end.
(** [req.Context[TargetingKey].(string)]. *)
Definition targetingKey (ctx : list (string * any)) : option string :=
  match assoc_get ctx TargetingKey with Some (AStr s) => Some s | _ => None end.

(** ** The configuration of a vector *)

Definition endsWithSuffix (str suffix : string) : bool :=
  if (len str <? len suffix)%nat then false
  else EqualFold (of_list (drop (len str - len suffix) (to_list str))) suffix.

Definition deploymentNameOf (key : string) : string :=
  let deploymentName := TrimSpace (of_list (drop (len DeploymentResultsPrefix) (to_list key))) in
  if endsWithSuffix deploymentName JsonSuffix
  then of_list (take (len deploymentName - len JsonSuffix) (to_list deploymentName))
  else deploymentName.

Record configuration := {
  cf_Features : option string;
  cf_Authored : option string;
  cf_DeploymentResults : list (string * string);
}.
Definition no_configuration : configuration :=
  {| cf_Features := None; cf_Authored := None; cf_DeploymentResults := [] |}.

Fixpoint collect (vectorId : string) (c : configuration) (data : list (string * string)) : result GoError configuration :=
  match data with
  | [] => Ok c
  | (key, value) :: data' =>
      if bool_decide (key = FeaturesConfigKey) then
        collect vectorId {| cf_Features := Some value; cf_Authored := cf_Authored c;
                            cf_DeploymentResults := cf_DeploymentResults c |} data'
      else if bool_decide (key = AuthoredConfigKey) then
        collect vectorId {| cf_Features := cf_Features c; cf_Authored := Some value;
                            cf_DeploymentResults := cf_DeploymentResults c |} data'
      else if HasPrefix key DeploymentResultsPrefix then
        let deploymentName := deploymentNameOf key in
        if (len deploymentName =? 0)%nat then
          Err (ENew ("configMap '" +:+ vectorId +:+ "' contains an invalid deploymentResult name: " +:+ key))
        else collect vectorId {| cf_Features := cf_Features c; cf_Authored := cf_Authored c;
               cf_DeploymentResults := assoc_set (cf_DeploymentResults c) deploymentName value |} data'
      else collect vectorId c data'
  end.

(** A [json.RawMessage] as the encoder writes it: checked, and compacted. *)
Definition rawMessage (s : string) : option json := html <$> jparse (to_list s).

(** The contents of an encoded string, without its quotes. *)
Definition raw_key (k : string) : list ascii := encode_fuel (len k) (to_list k).
Fixpoint raw_members (l : list (string * string)) : option (list (list ascii * json)) :=
  match l with
  | [] => Some []
  | (k, v) :: l' => j ← rawMessage v; ms ← raw_members l'; Some ((raw_key k, j) :: ms)
  end.
(** One optional member of the combined object. *)
Definition optional_member (k : string) (v : option string) : option (list (list ascii * json)) :=
  match v with
  | None => Some []
  | Some v => j ← rawMessage v; Some [(raw_key k, j)]
  end.
(** The value [json.Marshal] writes for the configuration: the keys in order. *)
Definition configurationJson (c : configuration) : option json :=
  a ← optional_member Authored (cf_Authored c);
  rs ← raw_members (sort_entries (cf_DeploymentResults c));
  f ← optional_member Features (cf_Features c);
  Some (JObj (a ++ (if (length (cf_DeploymentResults c) =? 0)%nat then [] else [(raw_key DeploymentResults, JObj rs)]) ++ f)).

Definition is_empty (c : configuration) : bool :=
  match cf_Features c, cf_Authored c, cf_DeploymentResults c with None, None, [] => true | _, _, _ => false end.

(** The combined configuration of a ConfigMap; empty when it holds none. *)
Definition combine (vectorId : string) (data : list (string * string)) : result GoError string :=
  match collect vectorId no_configuration data with
  | Err err => Err err
  | Ok c =>
      if is_empty c then Ok ""
      else
        match configurationJson c with
        | None => Err (ENew ("configMap '" +:+ vectorId +:+ "' contains invalid json"))
        | Some j => Ok (of_list (jtext j))
        end
  end.

(** The function [getConfiguration] hands to [sfGroup.Do]. *)
Definition fetchConfiguration (vectorId : string) : Service (result GoError string) :=
  cm ← trigger (GetConfigMap (ConfigMapPrefix +:+ vectorId));
  match cm with
  | Err e => if IsNotFound e then Ret (Ok "") else Ret (Err (EApi e))
  | Ok data =>
      match combine vectorId data with
      | Err err => Ret (Err err)
      | Ok finalConfig =>
          if bool_decide (finalConfig = "") then Ret (Ok "")
          else _ ← trigger (CacheSet vectorId finalConfig); Ret (Ok finalConfig)
      end
  end.
Definition getConfiguration (vectorId : string) : Service (result GoError string) :=
  cached ← trigger (CacheGet vectorId);
  match cached with
  | Some config => Ret (Ok config)
  | None => fetchConfiguration vectorId
  end.

(** ** Flag values *)

(** [ANil] is nil. *)
Definition parseFlagValue (val : any) : any :=
  match val with
  | ANumber w =>
      match ParseInt w with
      | Some z => AInt z
      | None =>
          match ParseFloat (to_list w) with
          | Some f => AFloat f
          | None => AStr w
          end
      end
  | AStr s =>
      if Valid s then
        match jparse (to_list s) ≫= decode false with
        | Some v => v
        | None => AStr s
        end
      else AStr s
  | ABool _ | AFloat _ => val
  | _ => ANil
  end.

Definition getAllFeatures (config : string) : result GoError (list (string * any)) :=
  match jfirst (to_list config) with
  | Some JNull => Ok []
  | Some (JObj ms) =>
      match decode true (JObj ms) with
      | Some (AMap resultMap) =>
          match assoc_get resultMap Features with
          | None => Ok []
          | Some (AMap features) => Ok features
          | Some _ => Err (ENew "could not parse features json")
          end
      | _ => Err (ENew "could not parse config json")
      end
  | _ => Err (ENew "could not parse config json")
  end.

Definition getFlagValueOrConfiguration (vectorId flagKey config : string) : result GoError any :=
  if EqualFold flagKey vectorId then Ok (parseFlagValue (AStr config))
  else
    match getAllFeatures config with
    | Err err => Err err
    | Ok features => Ok (parseFlagValue (default ANil (assoc_get features flagKey)))
    end.

Definition isNil (v : any) : bool := match v with ANil => true | _ => false end.
Definition flagOf (key : string) (v : any) : FlagResponse := {|
  fr_Key := key; fr_Value := v; fr_Variant := ""; fr_Reason := TargetingMatchReason; fr_Metadata := [] |}.

(** ** The handlers *)

(** From the configuration on. *)
Definition evaluateSingle (vectorId flagKey config : string) : Response :=
  if bool_decide (config = "") then notFoundResponse flagKey ""
  else
    match getFlagValueOrConfiguration vectorId flagKey config with
    | Err err => internalServerErrorResponse
        ("could not parse flag value/vector configuration for vectorId: " +:+ vectorId +:+ " and flag " +:+ flagKey +:+
         ": " +:+ Error err)
    | Ok flagValue =>
        if isNil flagValue then notFoundResponse flagKey ""
        else okResponse (BFlag (flagOf flagKey flagValue))
    end.
Definition handleEvaluateSingle (r : Request) : Service Response :=
  let flagKey := rq_Key r in
  match getEvaluationContext r with
  | Err err => Ret (errorResponse StatusBadRequest flagKey ParseErrorErrorCode (Error err))
  | Ok ctx =>
      match targetingKey ctx with
      | None => Ret (errorResponse StatusBadRequest flagKey TargetingKeyMissingErrorCode "missing or invalid targeting key")
      | Some vectorId =>
          c ← getConfiguration vectorId;
          match c with
          | Err err => Ret (internalServerErrorResponse
              ("invalid configuration for vectorId '" +:+ vectorId +:+ "' and flag '" +:+ flagKey +:+ "': " +:+ Error err))
          | Ok config => Ret (evaluateSingle vectorId flagKey config)
          end
      end
  end.

Definition bulkEntry (e : string * any) : FlagResponse + ErrorResponse :=
  let flagValue := parseFlagValue e.2 in
  if isNil flagValue then inr {| er_Key := e.1; er_ErrorCode := FlagNotFoundErrorCode; er_ErrorDetails := "" |}
  else inl (flagOf e.1 flagValue).
Definition evaluateBulk (vectorId ifNoneMatch config : string) : Response :=
  let flags :=
    if bool_decide (config = "") then Ok []
    else features ← getAllFeatures config; Ok (bulkEntry <$> sort_entries features) in
  match flags with
  | Err err => internalServerErrorResponse
      ("invalid feature configuration for vectorId '" +:+ vectorId +:+ "': " +:+ Error err)
  | Ok flags =>
      let etag := generateEtag flags in
      if bool_decide (ifNoneMatch = etag) then notModifiedResponse
      else okResponseWithEtag (BBulk flags) etag
  end.
Definition handleEvaluateBulk (r : Request) : Service Response :=
  match getEvaluationContext r with
  | Err err => Ret (bulkErrorResponse StatusBadRequest ParseErrorErrorCode (Error err))
  | Ok ctx =>
      match targetingKey ctx with
      | None => Ret (bulkErrorResponse StatusBadRequest TargetingKeyMissingErrorCode "missing or invalid targeting key")
      | Some vectorId =>
          c ← getConfiguration vectorId;
          match c with
          | Err err => Ret (internalServerErrorResponse
              ("invalid configuration for vectorId '" +:+ vectorId +:+ "': " +:+ Error err))
          | Ok config => Ret (evaluateBulk vectorId (rq_IfNoneMatch r) config)
          end
      end
  end.
End service.
End VectorDataService.
