(* ===== verification/VectorDataRoutes.v ===== *)
(** The HTTP routes of the vector-data service
    (cmd/vectordata/vector_data_service.go, [routes]): which requests reach which
    handler, and with which flag key. *)
From Stdlib Require Import Floats.SpecFloat.
From S2P Require Import Prelude GoBytes GoStrings GoPaths GoHttp GoJson GoAny Objects Client VectorDataService.
Import VectorDataService.
Local Open Scope Z_scope.

Module VectorDataRoutes.

Inductive Endpoint := Healthz | Readyz | EvaluateSingle | EvaluateBulk.

(** The table of [routes]. *)
Definition patterns : list (string * Endpoint) :=
  [("GET /healthz", Healthz);
   ("GET /readyz", Readyz);
   ("POST /ofrep/v1/evaluate/flags/{key}", EvaluateSingle);
   ("POST /ofrep/v1/evaluate/flags", EvaluateBulk)].
Definition routes : list (Pattern * Endpoint) :=
  omap (λ ph, (λ p, (p, ph.2)) <$> parsePattern ph.1) patterns.

Definition PathValue (values : list (string * string)) (name : string) : string :=
  default "" (snd <$> List.find (λ v, bool_decide (v.1 = name)) values).

Section service.
Context `{U : Unicode} (formatFloat : spec_float → string) (decodeErrorText : string → string).

(** The service as a handler; [r] carries the rest of the request.  An answer of
    the multiplexer itself is [inl]. *)
Definition serve (ready : option bool) (method escapedPath : string) (r : Request) :
    Service (Routed Endpoint + Response) :=
  match findHandler routes method escapedPath with
  | Handled Healthz _ => Ret (inr handleHealthz)
  | Handled Readyz _ => Ret (inr (handleReadyz ready))
  | Handled EvaluateSingle vs =>
      x ← handleEvaluateSingle decodeErrorText
            {| rq_Key := PathValue vs "key"; rq_Body := rq_Body r; rq_IfNoneMatch := rq_IfNoneMatch r |};
      Ret (inr x)
  | Handled EvaluateBulk _ => x ← handleEvaluateBulk formatFloat decodeErrorText r; Ret (inr x)
  | other => Ret (inl other)
  end.
End service.

(** * Properties *)

Definition flagsPath : string := "/ofrep/v1/evaluate/flags".
Definition flagsSegments : list (list ascii) := to_list <$> ["ofrep"; "v1"; "evaluate"; "flags"].

Lemma if_same {A} (b : bool) (x : A) : (if b then x else x) = x.
Proof. by destruct b. Qed.
Lemma escaped_plain key : key ≠ "" → key ≠ "." → key ≠ ".." → plain (to_list (PathEscape key)).
Proof.
  intros H1 H2 H3. split_and!; [| | |apply escape_no_slash].
  - intros E. apply H1, escape_inj. apply to_list_inj. by rewrite E.
  - intros E. apply H2, escape_inj. apply to_list_inj. by rewrite E.
  - intros E. apply H3, escape_inj. apply to_list_inj. by rewrite E.
Qed.
Lemma flag_path seg : flagsPath +:+ "/" +:+ of_list seg = "/" +:+ of_list (under flagsSegments seg).
Proof. apply to_list_inj. rewrite !to_list_app, !to_of_list. reflexivity. Qed.
Lemma flags_plain : Forall plain flagsSegments.
Proof. repeat constructor; try done; apply (bool_decide_unpack _); vm_compute; exact I. Qed.

Lemma clean_flag_path seg : plain seg → cleanPath (flagsPath +:+ "/" +:+ of_list seg) = flagsPath +:+ "/" +:+ of_list seg.
Proof.
  intros Hseg. unfold cleanPath. change (to_list (flagsPath +:+ "/" +:+ of_list seg)) with
    (slash :: to_list ("ofrep/v1/evaluate/flags/" +:+ of_list seg)). cbn [bool_decide].
  rewrite (bool_decide_eq_true_2 (slash = slash)) by done. rewrite flag_path, clean_rooted by (done || apply flags_plain).
  rewrite <-flag_path. rewrite bool_decide_eq_false_2; [done|].
  destruct (exists_last (proj1 Hseg)) as (l & x & ->). rewrite !to_list_app, to_of_list, !app_assoc, last_snoc.
  intros [= ->]. destruct Hseg as (_ & _ & _ & Hs). apply Hs, elem_of_app. right. by left.
Qed.
(** The table on the path of a single flag. *)
Lemma match_flag seg :
  (λ p, matchSegments (pat_Segments p.1) (flagsSegments ++ [seg])) <$> routes =
  [None; None;
   if bool_decide (seg = []) || bool_decide (pathUnescape seg = "/") then None else Some [("key", pathUnescape seg)];
   None].
Proof. reflexivity. Qed.
(** The routes of the flags take POST only. *)
Lemma post_only p h method : (p, h) ∈ routes → h = EvaluateSingle ∨ h = EvaluateBulk →
  matchMethod p method = bool_decide (method = "POST").
Proof.
  intros Hp Hh. assert (pat_Method p = "POST") as E.
  { change routes with [(default (Build_Pattern "" []) (parsePattern "GET /healthz"), Healthz);
      (default (Build_Pattern "" []) (parsePattern "GET /readyz"), Readyz);
      (default (Build_Pattern "" []) (parsePattern "POST /ofrep/v1/evaluate/flags/{key}"), EvaluateSingle);
      (default (Build_Pattern "" []) (parsePattern "POST /ofrep/v1/evaluate/flags"), EvaluateBulk)] in Hp.
    rewrite !elem_of_cons, elem_of_nil in Hp. destruct Hp as [[= -> ->]|[[= -> ->]|[[= -> ->]|[[= -> ->]|[]]]]]; try done; naive_solver. }
  unfold matchMethod. rewrite E, (bool_decide_eq_false_2 ("POST" = "GET")), andb_false_r, orb_false_r by done.
  by apply bool_decide_ext.
Qed.
Lemma route_flag method key : key ≠ "" → key ≠ "." → key ≠ ".." → key ≠ "/" →
  findHandler routes method (flagsPath +:+ "/" +:+ PathEscape key) =
  if bool_decide (method = "POST") then Handled EvaluateSingle [("key", key)] else MethodNotAllowed.
Proof.
  intros H1 H2 H3 H4. pose proof (escaped_plain key H1 H2 H3) as Hp.
  pose proof (clean_flag_path _ Hp) as Hc. rewrite of_to_list in Hc.
  assert (Hu : pathUnescape (to_list (PathEscape key)) = key) by (unfold pathUnescape; by rewrite of_to_list, unescape_escape).
  assert (Hs : split_byte slash (to_list ("ofrep/v1/evaluate/flags/" +:+ PathEscape key)) = flagsSegments ++ [to_list (PathEscape key)]).
  { change (to_list ("ofrep/v1/evaluate/flags/" +:+ PathEscape key)) with (under flagsSegments (to_list (PathEscape key))).
    by rewrite split_under, split_byte_single by (apply flags_plain || apply Hp). }
  unfold findHandler. rewrite Hc, (if_same (bool_decide (method = "CONNECT"))).
  rewrite (bool_decide_eq_true_2 (flagsPath +:+ "/" +:+ PathEscape key = _)) by done. cbn [negb].
  assert (Hm : ∀ p, matchPath p (flagsPath +:+ "/" +:+ PathEscape key) =
    matchSegments (pat_Segments p) (flagsSegments ++ [to_list (PathEscape key)])).
  { intros p. unfold matchPath. change (to_list (flagsPath +:+ "/" +:+ PathEscape key)) with
      (slash :: to_list ("ofrep/v1/evaluate/flags/" +:+ PathEscape key)). cbn iota. by rewrite bool_decide_eq_true_2, Hs. }
  pose proof (match_flag (to_list (PathEscape key))) as Ht. rewrite Hu in Ht.
  rewrite (bool_decide_eq_false_2 (to_list (PathEscape key) = [])), (bool_decide_eq_false_2 (key = "/")) in Ht by (done || apply Hp).
  cbn [orb] in Ht. clear Hs. revert Ht Hm. generalize (flagsSegments ++ [to_list (PathEscape key)]). intros segs Ht Hm.
  pose proof post_only as Hpost.
  destruct routes as [|[p1 h1] [|[p2 h2] [|[p3 h3] [|[p4 h4] []]]]] eqn:Er; try done.
  cbn [fmap list_fmap fst] in Ht. injection Ht as E1 E2 E3 E4. cbn [find_route existsb fst]. rewrite !Hm, E1, E2, E3, E4.
  assert (h3 = EvaluateSingle) as -> by (by injection Er as <- <- <- <- <- <- <- <-).
  rewrite (Hpost p3 EvaluateSingle method) by (set_solver || by left). by case_bool_decide.
Qed.
Lemma route_flags method :
  findHandler routes method flagsPath = if bool_decide (method = "POST") then Handled EvaluateBulk [] else MethodNotAllowed.
Proof.
  assert (Hc : cleanPath flagsPath = flagsPath) by reflexivity. unfold findHandler.
  rewrite Hc, (if_same (bool_decide (method = "CONNECT"))), (bool_decide_eq_true_2 (flagsPath = _)) by done. cbn [negb].
  assert (Ht : (λ p, matchPath p.1 flagsPath) <$> routes = [None; None; None; Some []]) by reflexivity.
  pose proof post_only as Hpost. revert Ht. generalize flagsPath. intros path Ht.
  destruct routes as [|[p1 h1] [|[p2 h2] [|[p3 h3] [|[p4 h4] []]]]] eqn:Er; try done.
  cbn [fmap list_fmap fst] in Ht. injection Ht as E1 E2 E3 E4. cbn [find_route existsb fst]. rewrite E1, E2, E3, E4.
  assert (h4 = EvaluateBulk) as -> by (by injection Er as <- <- <- <- <- <- <- <-).
  rewrite (Hpost p4 EvaluateBulk method) by (set_solver || by right). by case_bool_decide.
Qed.

(** C32: a flag is evaluated under its own key.  A POST to the flag's path, with
    the key escaped as a segment, runs the single evaluation with exactly that
    key; only the empty key, a slash and the two dot segments cannot be asked
    for, and are not found or redirected.  The path without a key runs the bulk
    evaluation, and every other method of these two paths is refused. *)
Theorem key_reaches_handler `{U : Unicode} formatFloat decodeErrorText ready r key :
  serve formatFloat decodeErrorText ready "POST" (flagsPath +:+ "/" +:+ PathEscape key) r =
    (if bool_decide (key = "" ∨ key = "/") then Ret (inl NotFoundHandler)
     else if bool_decide (key = ".") then Ret (inl (Redirected flagsPath))
     else if bool_decide (key = "..") then Ret (inl (Redirected "/ofrep/v1/evaluate"))
     else x ← handleEvaluateSingle decodeErrorText
                {| rq_Key := key; rq_Body := rq_Body r; rq_IfNoneMatch := rq_IfNoneMatch r |};
          Ret (inr x)) ∧
  serve formatFloat decodeErrorText ready "POST" flagsPath r =
    (x ← handleEvaluateBulk formatFloat decodeErrorText r; Ret (inr x)) ∧
  (∀ method, method ≠ "POST" →
     serve formatFloat decodeErrorText ready method flagsPath r = Ret (inl MethodNotAllowed) ∧
     (key ∉ [""; "/"; "."; ".."] →
      serve formatFloat decodeErrorText ready method (flagsPath +:+ "/" +:+ PathEscape key) r = Ret (inl MethodNotAllowed))).
Proof.
  split_and!; [|unfold serve; by rewrite route_flags|].
  2: { intros method Hm. unfold serve. rewrite route_flags, bool_decide_eq_false_2 by done. split; [done|].
       rewrite !not_elem_of_cons. intros (? & ? & ? & ? & _). by rewrite route_flag, bool_decide_eq_false_2. }
  case_bool_decide as H1; [destruct H1 as [->| ->]; reflexivity|].
  case_bool_decide as H2; [subst; reflexivity|]. case_bool_decide as H3; [subst; reflexivity|].
  unfold serve. rewrite route_flag, (bool_decide_eq_true_2 ("POST" = "POST")) by naive_solver. reflexivity.
Qed.
End VectorDataRoutes.
