(* ===== verification/VectorDataCache.v ===== *)
(** The configuration cache of the vector-data service and the informer that
    invalidates it (cmd/vectordata: cache.go, in_memory_cache.go, informer.go),
    with the interleaving of requests, ConfigMap changes and notifications as a
    transition system.

    Requests, the API server and the informer run concurrently: a request reads
    a ConfigMap and stores the combined configuration in two separate steps, a
    notification is delivered some time after the change it reports, and
    requests are served before the informer has listed the ConfigMaps, so that
    changes before that list are not reported at all. *)
From S2P Require Import Prelude GoBytes GoStrings GoSort GoJson GoAny GoCompact Objects Client.
From S2P Require Import VectorDataController VectorDataService.
Import VectorDataService.
Local Open Scope Z_scope.

Module VectorDataCache.

(** * The cache *)

(** [interface Cache]: what the service and the informer rely on.  Setting the
    empty text removes the entry. *)
Class Cache (C : Type) := {
  Get : C → string → option string;
  Set_ : C → string → string → C;
  Get_Set : ∀ c k v k', Get (Set_ c k v) k' =
    if bool_decide (k = k') then (if bool_decide (v = "") then None else Some v) else Get c k';
}.

(** [InMemoryCache]: a map guarded by a mutex; each method is one step. *)
Definition InMemoryCache : Type := gmap string string.
Definition InMemoryCache_Get (c : InMemoryCache) (key : string) : option string := c !! key.
Definition InMemoryCache_Set (c : InMemoryCache) (key val : string) : InMemoryCache :=
  if bool_decide (val = "") then
    match c !! key with
    | Some _ => delete key c
    | None => c
    end
  else <[key := val]> c.

Lemma InMemoryCache_Get_Set c k v k' : InMemoryCache_Get (InMemoryCache_Set c k v) k' =
  if bool_decide (k = k') then (if bool_decide (v = "") then None else Some v) else InMemoryCache_Get c k'.
Proof.
  unfold InMemoryCache_Get, InMemoryCache_Set. destruct (decide (v = "")) as [->|Hv].
  - rewrite !bool_decide_eq_true_2 by done. case_bool_decide as Hk.
    + subst k'. destruct (c !! k) eqn:E; [apply lookup_delete_eq|done].
    + destruct (c !! k) eqn:E; [by apply lookup_delete_ne|done].
  - rewrite !(bool_decide_eq_false_2 (v = "")) by done. case_bool_decide as Hk.
    + subst k'. apply lookup_insert_eq.
    + by apply lookup_insert_ne.
Qed.
#[export] Instance inMemoryCache : Cache InMemoryCache := {
  Get := InMemoryCache_Get; Set_ := InMemoryCache_Set; Get_Set := InMemoryCache_Get_Set }.

(** * The informer *)

(** What the informer keeps of a ConfigMap. *)
Record KubeConfigMap := { kcm_Name : string; kcm_ResourceVersion : Z; kcm_Data : gmap string string }.
(** The object of a deletion: the ConfigMap, or the tombstone of a deletion the
    informer missed, or something else. *)
Inductive Deleted :=
| DConfigMap (cm : KubeConfigMap)
| DFinalStateUnknown (obj : Deleted)
| DOther.

Section handlers.
Context {C : Type} `{!Cache C}.

Definition invalidate (c : C) (cm : KubeConfigMap) : C := Set_ c (TrimPrefix (kcm_Name cm) ConfigMapPrefix) "".
Definition UpdateFunc (c : C) (oldObj newObj : KubeConfigMap) : C :=
  if bool_decide (kcm_ResourceVersion oldObj = kcm_ResourceVersion newObj) then c else invalidate c newObj.
Definition DeleteFunc (c : C) (obj : Deleted) : C :=
  match obj with
  | DConfigMap cm => invalidate c cm
  | DFinalStateUnknown (DConfigMap cm) => invalidate c cm
  | _ => c
  end.

(** A notification; [AddFunc] is not set. *)
Inductive Event :=
| EvAdd (cm : KubeConfigMap)
| EvUpdate (oldObj newObj : KubeConfigMap)
| EvDelete (obj : Deleted).
Definition deliver (c : C) (ev : Event) : C :=
  match ev with
  | EvAdd _ => c
  | EvUpdate oldObj newObj => UpdateFunc c oldObj newObj
  | EvDelete obj => DeleteFunc c obj
  end.
(** The vector whose entry a notification removes. *)
Definition invalidates (ev : Event) : option string :=
  match ev with
  | EvUpdate oldObj newObj =>
      if bool_decide (kcm_ResourceVersion oldObj = kcm_ResourceVersion newObj) then None
      else Some (TrimPrefix (kcm_Name newObj) ConfigMapPrefix)
  | EvDelete (DConfigMap cm) | EvDelete (DFinalStateUnknown (DConfigMap cm)) =>
      Some (TrimPrefix (kcm_Name cm) ConfigMapPrefix)
  | _ => None
  end.

Lemma Get_deliver c ev k :
  Get (deliver c ev) k = if bool_decide (invalidates ev = Some k) then None else Get c k.
Proof.
  assert (Hi : ∀ cm, Get (invalidate c cm) k =
    if bool_decide (Some (TrimPrefix (kcm_Name cm) ConfigMapPrefix) = Some k) then None else Get c k).
  { intros cm. unfold invalidate. rewrite Get_Set. rewrite (bool_decide_eq_true_2 ("" = "")) by done.
    case_bool_decide; case_bool_decide; congruence. }
  destruct ev as [cm|o n|[cm|[cm|obj|]|]]; cbn [deliver invalidates UpdateFunc DeleteFunc]; try exact (Hi _); try done.
  unfold UpdateFunc. destruct (bool_decide (_ = _)); [done|apply Hi].
Qed.
End handlers.

(** * Interleaving *)

(** A fetch that [getConfiguration] started: what is left of it, whether a
    notification removed the vector's entry since its last call, and whether the
    vector's ConfigMap has changed since then before the informer listed it.
    Single flight runs one fetch per vector; a fetch may start at any time,
    since a request that missed the cache may reach [sfGroup.Do] late. *)
Record Fetch := { f_Rest : Service (result GoError string); f_Overtaken : bool; f_Missed : bool }.

(** The next call of a fetch: the read, answered by [answer], or the write. *)
Definition reads (p : Service (result GoError string)) (answer : string → result ApiError (list (string * string)))
    : option (Service (result GoError string)) :=
  match p with
  | Ret _ => None
  | Vis e k =>
      match e in serviceE X return (X → Service (result GoError string)) → option (Service (result GoError string)) with
      | GetConfigMap name => λ k, Some (k (answer name))
      | _ => λ _, None
      end k
  end.
Definition stores (p : Service (result GoError string)) : option (string * string * Service (result GoError string)) :=
  match p with
  | Ret _ => None
  | Vis e k =>
      match e in serviceE X return (X → Service (result GoError string)) → option (string * string * Service (result GoError string)) with
      | CacheSet key val => λ k, Some (key, val, k ())
      | _ => λ _, None
      end k
  end.
Definition returned (p : Service (result GoError string)) : bool := match p with Ret _ => true | Vis _ _ => false end.

Record State (C : Type) := {
  s_ConfigMaps : gmap string KubeConfigMap;
  s_Version : Z;
  s_Cache : C;
  (** The informer has made its initial list; it is told of what comes after. *)
  s_Listed : bool;
  s_Pending : list Event;
  s_Fetches : gmap string Fetch;
  (** The vectors whose cached entry was stored by an overtaken fetch. *)
  s_Overtaken : gset string;
  (** The vectors whose ConfigMap changed before the initial list, after the
      read their cached entry comes from. *)
  s_Missed : gset string;
}.
Arguments s_ConfigMaps {C}. Arguments s_Version {C}. Arguments s_Cache {C}.
Arguments s_Listed {C}. Arguments s_Pending {C}. Arguments s_Fetches {C}.
Arguments s_Overtaken {C}. Arguments s_Missed {C}.

Definition miss (name id : string) (f : Fetch) : Fetch := {|
  f_Rest := f_Rest f; f_Overtaken := f_Overtaken f; f_Missed := f_Missed f || bool_decide (name = ConfigMapPrefix +:+ id) |}.
(** The ConfigMap [name] changes: the informer is notified, or has missed it. *)
Definition change {C} m n (name : string) (ev : Event) (s : State C) : State C := {|
  s_ConfigMaps := m; s_Version := n; s_Cache := s_Cache s; s_Listed := s_Listed s;
  s_Pending := if s_Listed s then s_Pending s ++ [ev] else s_Pending s;
  s_Fetches := if s_Listed s then s_Fetches s else map_imap (λ id f, Some (miss name id f)) (s_Fetches s);
  s_Overtaken := s_Overtaken s;
  s_Missed := if s_Listed s then s_Missed s else {[TrimPrefix name ConfigMapPrefix]} ∪ s_Missed s |}.
Definition notify {C} (listed : bool) (evs : list Event) (s : State C) : State C := {|
  s_ConfigMaps := s_ConfigMaps s; s_Version := s_Version s; s_Cache := s_Cache s; s_Listed := listed;
  s_Pending := s_Pending s ++ evs; s_Fetches := s_Fetches s; s_Overtaken := s_Overtaken s; s_Missed := s_Missed s |}.
Definition set_fetches {C} f (s : State C) : State C := {|
  s_ConfigMaps := s_ConfigMaps s; s_Version := s_Version s; s_Cache := s_Cache s; s_Listed := s_Listed s;
  s_Pending := s_Pending s; s_Fetches := f; s_Overtaken := s_Overtaken s; s_Missed := s_Missed s |}.
Definition overtake (ev : Event) (id : string) (f : Fetch) : Fetch :=
  {| f_Rest := f_Rest f; f_Overtaken := f_Overtaken f || bool_decide (invalidates ev = Some id); f_Missed := f_Missed f |}.
Definition uncache (ev : Event) (l : gset string) : gset string :=
  match invalidates ev with Some id => l ∖ {[id]} | None => l end.

Section system.
Context `{U : Unicode} {C : Type} `{!Cache C}.

(** The text a request may combine from the vector's ConfigMap. *)
Definition combines (m : gmap string KubeConfigMap) (id v : string) : Prop :=
  ∃ cm E, m !! (ConfigMapPrefix +:+ id) = Some cm ∧ E ≡ₚ map_to_list (kcm_Data cm) ∧ combine id E = Ok v.

(** What the API server answers to the read of a ConfigMap: its entries in some
    order, or an error. *)
Definition answers (m : gmap string KubeConfigMap) (name : string) (a : result ApiError (list (string * string))) : Prop :=
  match a with
  | Ok E => ∃ cm, m !! name = Some cm ∧ E ≡ₚ map_to_list (kcm_Data cm)
  | Err _ => True
  end.

(** The flag of a vector that [key]'s entry is now stored by a fetch with it. *)
Definition flag (b : bool) (key : string) (l : gset string) : gset string := if b then {[key]} ∪ l else l ∖ {[key]}.

Inductive step (s : State C) : State C → Prop :=
| Create name data : s_ConfigMaps s !! name = None →
    let cm := {| kcm_Name := name; kcm_ResourceVersion := s_Version s; kcm_Data := data |} in
    step s (change (<[name := cm]> (s_ConfigMaps s)) (s_Version s + 1) name (EvAdd cm) s)
| Update name old data : s_ConfigMaps s !! name = Some old →
    let cm := {| kcm_Name := name; kcm_ResourceVersion := s_Version s; kcm_Data := data |} in
    step s (change (<[name := cm]> (s_ConfigMaps s)) (s_Version s + 1) name (EvUpdate old cm) s)
| Delete name old obj : s_ConfigMaps s !! name = Some old →
    obj = DConfigMap old ∨ obj = DFinalStateUnknown (DConfigMap old) →
    step s (change (delete name (s_ConfigMaps s)) (s_Version s) name (EvDelete obj) s)
| List evs : s_Listed s = false → evs ≡ₚ EvAdd <$> (map_to_list (s_ConfigMaps s)).*2 →
    step s (notify true evs s)
| Resync name cm : s_Listed s = true → s_ConfigMaps s !! name = Some cm →
    step s (notify true [EvUpdate cm cm] s)
| Deliver ev pending : s_Pending s = ev :: pending →
    step s {| s_ConfigMaps := s_ConfigMaps s; s_Version := s_Version s; s_Cache := deliver (s_Cache s) ev;
              s_Listed := s_Listed s;
              s_Pending := pending; s_Fetches := map_imap (λ id f, Some (overtake ev id f)) (s_Fetches s);
              s_Overtaken := uncache ev (s_Overtaken s); s_Missed := uncache ev (s_Missed s) |}
| Start id : s_Fetches s !! id = None →
    step s (set_fetches (<[id := {| f_Rest := fetchConfiguration id; f_Overtaken := false; f_Missed := false |}]> (s_Fetches s)) s)
| Read id f rest answer : s_Fetches s !! id = Some f →
    reads (f_Rest f) answer = Some rest → (∀ name, answers (s_ConfigMaps s) name (answer name)) →
    step s (set_fetches (<[id := {| f_Rest := rest; f_Overtaken := false; f_Missed := false |}]> (s_Fetches s)) s)
| Store id f key val rest : s_Fetches s !! id = Some f → stores (f_Rest f) = Some (key, val, rest) →
    step s {| s_ConfigMaps := s_ConfigMaps s; s_Version := s_Version s; s_Cache := Set_ (s_Cache s) key val;
              s_Listed := s_Listed s; s_Pending := s_Pending s;
              s_Fetches := <[id := {| f_Rest := rest; f_Overtaken := f_Overtaken f; f_Missed := f_Missed f |}]> (s_Fetches s);
              s_Overtaken := flag (f_Overtaken f) key (s_Overtaken s); s_Missed := flag (f_Missed f) key (s_Missed s) |}
| Return id f : s_Fetches s !! id = Some f → returned (f_Rest f) = true →
    step s (set_fetches (delete id (s_Fetches s)) s).

Definition started (c : C) : State C := {|
  s_ConfigMaps := ∅; s_Version := 1; s_Cache := c; s_Listed := false; s_Pending := []; s_Fetches := ∅;
  s_Overtaken := ∅; s_Missed := ∅ |}.
Definition emptyCache (c : C) : Prop := ∀ id, Get c id = None.

(** ** The invariant *)

Definition pendingFor (id : string) (pending : list Event) : Prop := Exists (λ ev, invalidates ev = Some id) pending.
Definition excused (s : State C) (id v : string) : Prop :=
  combines (s_ConfigMaps s) id v ∨ pendingFor id (s_Pending s).
(** The states of a fetch: before its read, before its write, done. *)
Definition storing (id v : string) : Service (result GoError string) := _ ← trigger (CacheSet id v); Ret (Ok v).
Definition fetching (s : State C) (id : string) (f : Fetch) : Prop :=
  f_Rest f = fetchConfiguration id ∨
  (∃ v, f_Rest f = storing id v ∧ v ≠ "" ∧ (excused s id v ∨ f_Overtaken f = true ∨ f_Missed f = true)) ∨
  (∃ r, f_Rest f = Ret r).
Record coherent (s : State C) : Prop := {
  co_versions : ∀ name cm, s_ConfigMaps s !! name = Some cm → kcm_Name cm = name ∧ kcm_ResourceVersion cm < s_Version s;
  co_cached : ∀ id v, Get (s_Cache s) id = Some v → excused s id v ∨ id ∈ s_Overtaken s ∨ id ∈ s_Missed s;
  co_unlisted : s_Listed s = false → s_Pending s = [];
  co_fetching : ∀ id f, s_Fetches s !! id = Some f → fetching s id f;
}.

(** A change keeps what it does not report, and otherwise reports or misses
    it. *)
Lemma excused_change s id v m n name ev :
  (∀ cm, s_ConfigMaps s !! (ConfigMapPrefix +:+ id) = Some cm →
     m !! (ConfigMapPrefix +:+ id) = Some cm ∨ name = ConfigMapPrefix +:+ id ∧ invalidates ev = Some id) →
  excused s id v → excused (change m n name ev s) id v ∨ s_Listed s = false ∧ name = ConfigMapPrefix +:+ id.
Proof.
  unfold excused, change. cbn. intros Hp [(cm & E & Hcm & HE & Hv)|H].
  - destruct (Hp cm Hcm) as [Hm|[Hn Hm]]; [left; left; by exists cm, E|].
    destruct (s_Listed s); [left; right|by right]. apply Exists_app. right. by apply Exists_cons_hd.
  - left. right. destruct (s_Listed s); [apply Exists_app; by left|done].
Qed.
Lemma fetching_mono s s' id f : (∀ v, excused s id v → excused s' id v) → fetching s id f → fetching s' id f.
Proof.
  intros Hm [H|[(v & H & Hne & Hv)|H]]; [by left| |by right; right]. right. left. exists v.
  split_and!; [done|done|]. destruct Hv as [Hv|Hv]; [left; by apply Hm|by right].
Qed.
Lemma fetching_change s id f m n name ev :
  (∀ cm, s_ConfigMaps s !! (ConfigMapPrefix +:+ id) = Some cm →
     m !! (ConfigMapPrefix +:+ id) = Some cm ∨ name = ConfigMapPrefix +:+ id ∧ invalidates ev = Some id) →
  fetching s id f → fetching (change m n name ev s) id (if s_Listed s then f else miss name id f).
Proof.
  intros Hp [H|[(v & H & Hne & Hv)|(r & H)]]; [left; by destruct (s_Listed s)| |right; right; exists r; by destruct (s_Listed s)].
  right. left. exists v. split_and!; [by destruct (s_Listed s)|done|]. destruct Hv as [Hv|Hv].
  - apply (excused_change _ _ _ m n name ev Hp) in Hv as [Hv|[Hl Hn]]; [by left|right; right].
    rewrite Hl. cbn. by rewrite (bool_decide_eq_true_2 _ Hn), orb_true_r.
  - right. destruct (s_Listed s); [done|]. cbn. destruct Hv as [Hv|Hv]; [by left|right]. by rewrite Hv.
Qed.
Lemma coherent_change s m n name ev :
  coherent s →
  (∀ name cm, m !! name = Some cm → kcm_Name cm = name ∧ kcm_ResourceVersion cm < n) →
  (∀ id cm, s_ConfigMaps s !! (ConfigMapPrefix +:+ id) = Some cm →
     m !! (ConfigMapPrefix +:+ id) = Some cm ∨ name = ConfigMapPrefix +:+ id ∧ invalidates ev = Some id) →
  coherent (change m n name ev s).
Proof.
  intros [_ Hc Hl Hf] Hv Hp. split; [done| | |].
  - intros id v [H|[H|H]]%Hc; [|by right; left|right; right; cbn; destruct (s_Listed s); set_solver].
    apply (excused_change _ _ _ m n name ev (Hp id)) in H as [H|[Hu ->]]; [by left|right; right].
    cbn. rewrite Hu, TrimPrefix_app. set_solver.
  - cbn. intros Hu. rewrite Hu. by apply Hl.
  - cbn. intros id f Hid. assert (∃ f', s_Fetches s !! id = Some f' ∧ f = if s_Listed s then f' else miss name id f') as (f' & Hf' & ->).
    { destruct (s_Listed s); [by exists f|]. rewrite map_lookup_imap in Hid. destruct (s_Fetches s !! id) as [f'|]; [|done].
      cbn in Hid. exists f'. by simplify_eq. }
    apply fetching_change; [apply Hp|by apply Hf].
Qed.
Lemma coherent_notify s evs : coherent s → coherent (notify true evs s).
Proof.
  intros [Hv Hc Hl Hf]. assert (Hm : ∀ id v, excused s id v → excused (notify true evs s) id v).
  { intros id v [H|H]; [by left|right]. cbn. apply Exists_app. by left. }
  split; [done| |done|].
  - intros id v [H|H]%Hc; [left; by apply Hm|by right].
  - intros id f H%Hf. eapply fetching_mono; [|exact H]. apply Hm.
Qed.

(** A delivered notification is the end of what it excuses. *)
Lemma excused_deliver s s' id v ev :
  s_ConfigMaps s' = s_ConfigMaps s → s_Pending s = ev :: s_Pending s' → invalidates ev ≠ Some id →
  excused s id v → excused s' id v.
Proof.
  intros Hm Hp Hi [H|H]; [left; by rewrite Hm|right]. rewrite Hp in H. by apply Exists_cons in H as [|].
Qed.

Lemma fetching_deliver s s' id f ev :
  s_ConfigMaps s' = s_ConfigMaps s → s_Pending s = ev :: s_Pending s' → fetching s id f → fetching s' id (overtake ev id f).
Proof.
  intros Hm Hp [H|[(v & H & Hne & Hv)|H]]; [by left| |by right; right]. right. left. exists v.
  split_and!; [done|done|]. cbn [overtake f_Overtaken f_Missed]. destruct (decide (invalidates ev = Some id)) as [Hi|Hi].
  - right. left. by rewrite (bool_decide_eq_true_2 _ Hi), orb_true_r.
  - destruct Hv as [Hv|[-> |Hv]]; [left; by apply (excused_deliver s _ id v ev)|by right; left|by right; right].
Qed.
(** The read of a fetch leads to the write of what the ConfigMap combines to. *)
Lemma fetching_read s id f rest answer :
  fetching s id f → reads (f_Rest f) answer = Some rest → (∀ name, answers (s_ConfigMaps s) name (answer name)) →
  fetching s id {| f_Rest := rest; f_Overtaken := false; f_Missed := false |}.
Proof.
  intros [H|[(v & H & _)|(r & H)]] Hr Ha; rewrite H in Hr; [|done|done].
  unfold fetchConfiguration in Hr. cbn in Hr. injection Hr as <-. specialize (Ha (ConfigMapPrefix +:+ id)).
  destruct (answer _) as [E|e]; [|right; right; cbn; destruct (IsNotFound e); by eexists].
  destruct Ha as (cm & Hcm & HE). destruct (combine id E) as [v|err] eqn:Ec; [|right; right; by eexists].
  case_bool_decide as Hv; [right; right; by eexists|]. right. left. exists v. split_and!; [done|done|]. left. left. by exists cm, E.
Qed.
Lemma fetching_store s id f key val rest :
  fetching s id f → stores (f_Rest f) = Some (key, val, rest) →
  key = id ∧ val ≠ "" ∧ (∃ r, rest = Ret r) ∧ (excused s id val ∨ f_Overtaken f = true ∨ f_Missed f = true).
Proof.
  intros [H|[(v & H & Hne & Hv)|(r & H)]] Hs; rewrite H in Hs; [done| |done]. cbn in Hs. simplify_eq.
  split_and!; [done|done|by eexists|done].
Qed.
Lemma uncache_other ev id l : invalidates ev ≠ Some id → id ∈ l → id ∈ uncache ev l.
Proof.
  unfold uncache. destruct (invalidates ev) as [id'|]; [|done]. intros Hi Hl. apply elem_of_difference. split; [done|].
  rewrite elem_of_singleton. congruence.
Qed.

Lemma coherent_deliver s s' ev :
  coherent s → s_ConfigMaps s' = s_ConfigMaps s → s_Version s' = s_Version s → s_Listed s' = s_Listed s →
  s_Pending s = ev :: s_Pending s' → s_Cache s' = deliver (s_Cache s) ev →
  s_Fetches s' = map_imap (λ id f, Some (overtake ev id f)) (s_Fetches s) →
  s_Overtaken s' = uncache ev (s_Overtaken s) → s_Missed s' = uncache ev (s_Missed s) → coherent s'.
Proof.
  intros [Hver Hcache Hl Hfetch] Em Ev El Ep Ec Ef Eo Es. split.
  - by rewrite Em, Ev.
  - intros id v. rewrite Ec, Eo, Es, Get_deliver. case_bool_decide as Hi; [done|]. intros [H|[H|H]]%Hcache.
    + left. by apply (excused_deliver s _ id v ev).
    + right. left. by apply uncache_other.
    + right. right. by apply uncache_other.
  - rewrite El. intros Hu. by rewrite (Hl Hu) in Ep.
  - intros id f. rewrite Ef, map_lookup_imap. destruct (s_Fetches s !! id) as [f'|] eqn:E'; [|done]. cbn. intros [= <-].
    apply (fetching_deliver s); [done|done|by apply Hfetch].
Qed.
Lemma coherent_fetches s fs : coherent s → (∀ id f, fs !! id = Some f → fetching s id f) → coherent (set_fetches fs s).
Proof. intros [H1 H2 H3 _] Hf. by split. Qed.

Lemma coherent_step s s' : step s s' → coherent s → coherent s'.
Proof.
  intros Hstep Hco. pose proof Hco as [Hver Hcache Hl Hfetch].
  destruct Hstep as [name data Hn cm|name old data Hn cm|name old obj Hn Hobj|evs Hn Hevs|name cm Hu Hn|ev pending Hp|id Hn
    |id f rest answer Hn Hr Ha|id f key val rest Hn Hs|id f Hn Hr].
  - apply coherent_change; [done| |].
    + intros name' cm' [[<- <-]|[_ H%Hver]]%lookup_insert_Some; cbn; [by split; [|lia]|]. split; [tauto|lia].
    + intros id cm' Hid. left. rewrite lookup_insert_ne; [done|]. congruence.
  - apply coherent_change; [done| |].
    + intros name' cm' [[<- <-]|[_ H%Hver]]%lookup_insert_Some; cbn; [by split; [|lia]|]. split; [tauto|lia].
    + intros id cm' Hid. destruct (decide (name = ConfigMapPrefix +:+ id)) as [->|Hne]; [right|left; by rewrite lookup_insert_ne].
      split; [done|]. cbn. apply Hver in Hn as [_ Hlt]. rewrite bool_decide_eq_false_2 by lia. by rewrite TrimPrefix_app.
  - apply coherent_change; [done| |].
    + intros name' cm' [_ H%Hver]%lookup_delete_Some. done.
    + intros id cm' Hid. destruct (decide (name = ConfigMapPrefix +:+ id)) as [->|Hne]; [right|left; by rewrite lookup_delete_ne].
      split; [done|]. apply Hver in Hn as [Hname _]. destruct Hobj as [-> | ->]; cbn; by rewrite Hname, TrimPrefix_app.
  - by apply coherent_notify.
  - by apply coherent_notify.
  - by apply (coherent_deliver s _ ev).
  - apply coherent_fetches; [done|]. intros id' f [[<- <-]|[_ H]]%lookup_insert_Some; [by left|by apply Hfetch in H].
  - apply coherent_fetches; [done|]. intros id' f' [[<- <-]|[_ H]]%lookup_insert_Some; [|by apply Hfetch in H].
    exact (fetching_read s id f rest answer (Hfetch _ _ Hn) Hr Ha).
  - destruct (fetching_store _ _ _ _ _ _ (Hfetch _ _ Hn) Hs) as (-> & Hne & Hret & Hv).
    split; cbn [s_ConfigMaps s_Version s_Cache s_Fetches s_Overtaken s_Missed s_Listed s_Pending]; [done| |done|].
    + intros id' v'. rewrite Get_Set. unfold flag. case_bool_decide as Hid.
      * subst id'. rewrite bool_decide_eq_false_2 by done. intros [= <-].
        destruct Hv as [H|[-> | ->]]; [left; exact H|right; left; set_solver|right; right; set_solver].
      * intros [H|[H|H]]%Hcache; [left; exact H|right; left; destruct (f_Overtaken f); set_solver|
          right; right; destruct (f_Missed f); set_solver].
    + intros id' f' [[<- <-]|[_ H]]%lookup_insert_Some; [by right; right|by apply Hfetch in H].
  - apply coherent_fetches; [done|]. intros id' f' [_ H]%lookup_delete_Some. by apply Hfetch in H.
Qed.

Lemma coherent_reachable c s : emptyCache c → rtc step (started c) s → coherent s.
Proof.
  intros Hc Hr. assert (H0 : coherent (started c)).
  { split; cbn; [done| |done|done]. intros id v H. by rewrite Hc in H. }
  revert H0. induction Hr as [|s1 s2 s3 Hs _ IH]; [done|]. intros H. by apply IH, (coherent_step _ _ Hs).
Qed.

(** C35: the cache is coherent up to two races.  In every interleaving of
    requests, ConfigMap changes, the informer's initial list and its
    notifications, an entry the cache holds is what the vector's current
    ConfigMap combines to, or a notification that will remove it is still
    pending, or the fetch that stored it was overtaken by a notification between
    its read and its write, or the ConfigMap changed after that read and before
    the informer had listed it. *)
Theorem cache_coherent c s id v (Hempty : emptyCache c) (Hreach : rtc step (started c) s)
  (Hcached : Get (s_Cache s) id = Some v) :
  combines (s_ConfigMaps s) id v ∨ pendingFor id (s_Pending s) ∨ id ∈ s_Overtaken s ∨ id ∈ s_Missed s.
Proof.
  pose proof (coherent_reachable _ _ Hempty Hreach) as [_ Hc _ _].
  destruct (Hc _ _ Hcached) as [[H|H]|H]; [by left|by right; left|by right; right].
Qed.
End system.

(** * One request at a time *)

(** The calls of a request against the in-memory cache and the ConfigMaps of
    the namespace. *)
Record World := { w_Cache : InMemoryCache; w_ConfigMaps : gmap string (gmap string string) }.
Definition serve X (e : serviceE X) (w : World) : X * World :=
  match e in serviceE X return X * World with
  | CacheGet k => (InMemoryCache_Get (w_Cache w) k, w)
  | CacheSet k v => ((), {| w_Cache := InMemoryCache_Set (w_Cache w) k v; w_ConfigMaps := w_ConfigMaps w |})
  | GetConfigMap name =>
      (match w_ConfigMaps w !! name with
       | Some data => Ok (map_to_list data)
       | None => Err {| ae_Reason := NotFound; ae_Message := "configmaps " +:+ name +:+ " not found" |}
       end, w)
  end.

Section witnesses.
#[local] Existing Instance caseless_unicode.

Definition sample_map : gmap string string := {[ AuthoredConfigKey := "{}" ]}.
Definition sample_config : string := of_list (jtext (JObj [(to_list Authored, JObj [])])).
Definition sample_name : string := ConfigMapPrefix +:+ "v1".
Definition sample_cm : KubeConfigMap := {| kcm_Name := sample_name; kcm_ResourceVersion := 1; kcm_Data := sample_map |}.
Definition created : State InMemoryCache :=
  change {[ sample_name := sample_cm ]} 2 sample_name (EvAdd sample_cm) (notify true [] (started (∅ : InMemoryCache))).
Definition fetched : State InMemoryCache :=
  set_fetches {[ "v1" := {| f_Rest := storing "v1" sample_config; f_Overtaken := false; f_Missed := false |} ]} created.
Definition sample_answer (name : string) : result ApiError (list (string * string)) :=
  if bool_decide (name = sample_name) then Ok [(AuthoredConfigKey, "{}")]
  else Err {| ae_Reason := NotFound; ae_Message := "" |}.

Lemma empty_cache : emptyCache (∅ : InMemoryCache).
Proof. intros id. apply lookup_empty. Qed.
Lemma sample_answers name : answers (s_ConfigMaps created) name (sample_answer name).
Proof.
  unfold sample_answer. case_bool_decide as E; [|done]. subst name. exists sample_cm. split; [apply lookup_singleton_eq|].
  cbn [kcm_Data sample_cm]. unfold sample_map. by rewrite map_to_list_singleton.
Qed.
Lemma fetched_reachable : rtc step (started (∅ : InMemoryCache)) fetched.
Proof.
  eapply rtc_l; [apply (List _ []); reflexivity|].
  eapply rtc_l; [apply (Create _ sample_name sample_map); apply lookup_empty|].
  eapply rtc_l; [apply (Start _ "v1"); apply lookup_empty|].
  eapply rtc_l; [eapply (Read _ "v1" _ (storing "v1" sample_config) sample_answer);
    [apply lookup_insert_eq|vm_compute; reflexivity|exact sample_answers]|].
  cbn [s_Fetches set_fetches]. rewrite insert_insert_eq. apply rtc_refl.
Qed.

Lemma cache_coherent_witness : ∃ s, rtc step (started (∅ : InMemoryCache)) s ∧
  Get (s_Cache s) "v1" = Some sample_config ∧
  (combines (s_ConfigMaps s) "v1" sample_config ∨ pendingFor "v1" (s_Pending s) ∨ "v1" ∈ s_Overtaken s ∨ "v1" ∈ s_Missed s).
Proof.
  assert (H : ∃ s, rtc step (started (∅ : InMemoryCache)) s ∧ Get (s_Cache s) "v1" = Some sample_config).
  { eexists. split; [eapply rtc_r; [exact fetched_reachable|eapply (Store _ "v1"); [apply lookup_singleton_eq|reflexivity]]|].
    vm_compute. reflexivity. }
  destruct H as (s & Hr & Hg). exists s. split; [exact Hr|]. split; [exact Hg|].
  exact (cache_coherent ∅ s "v1" sample_config empty_cache Hr Hg).
Defined.
(** The race is real.  A reachable state has no notification pending and no
    request running, the vector's ConfigMap is gone, and the cache still holds
    its configuration: nothing is left that would remove the entry. *)
Theorem stale_entry_reachable : ∃ (s : State InMemoryCache) (config : string),
  rtc step (started (∅ : InMemoryCache)) s ∧
  s_ConfigMaps s = ∅ ∧ s_Pending s = [] ∧ s_Fetches s = ∅ ∧ Get (s_Cache s) "v1" = Some config.
Proof.
  eexists _, sample_config. split.
  { etrans; [exact fetched_reachable|].
    eapply rtc_l; [apply (Delete _ sample_name sample_cm (DConfigMap sample_cm)); [apply lookup_singleton_eq|by left]|].
    eapply rtc_l; [apply (Deliver _ (EvAdd sample_cm) [EvDelete (DConfigMap sample_cm)]); reflexivity|].
    eapply rtc_l; [apply (Deliver _ (EvDelete (DConfigMap sample_cm)) []); reflexivity|].
    eapply rtc_l; [eapply (Store _ "v1" {| f_Rest := storing "v1" sample_config; f_Overtaken := true; f_Missed := false |});
      [vm_compute; reflexivity|reflexivity]|].
    apply rtc_once. eapply (Return _ "v1"); [apply lookup_insert_eq|reflexivity]. }
  split_and!; vm_compute; reflexivity.
Qed.

(** So is the other one.  A configuration that is cached before the informer has
    listed the ConfigMaps survives the deletion of its ConfigMap before that
    list: the informer is synced, nothing is pending or running, and the entry
    stays. *)
Theorem missed_change_reachable : ∃ (s : State InMemoryCache) (config : string),
  rtc step (started (∅ : InMemoryCache)) s ∧ s_Listed s = true ∧
  s_ConfigMaps s = ∅ ∧ s_Pending s = [] ∧ s_Fetches s = ∅ ∧ Get (s_Cache s) "v1" = Some config.
Proof.
  eexists _, sample_config. split.
  { eapply rtc_l; [apply (Create _ sample_name sample_map); apply lookup_empty|].
    eapply rtc_l; [apply (Start _ "v1"); vm_compute; reflexivity|].
    eapply rtc_l; [eapply (Read _ "v1" _ (storing "v1" sample_config) sample_answer);
      [apply lookup_insert_eq|vm_compute; reflexivity|exact sample_answers]|].
    eapply rtc_l; [eapply (Store _ "v1"); [apply lookup_insert_eq|reflexivity]|].
    eapply rtc_l; [eapply (Return _ "v1"); [apply lookup_insert_eq|reflexivity]|].
    eapply rtc_l; [apply (Delete _ sample_name sample_cm (DConfigMap sample_cm)); [apply lookup_singleton_eq|by left]|].
    apply rtc_once. apply (List _ []); [reflexivity|]. reflexivity. }
  split_and!; vm_compute; reflexivity.
Qed.
End witnesses.
End VectorDataCache.
