(* ===== verification/VectorDataRoundtrip.v ===== *)
(** The vector-data service reads back what the VectorData controller wrote:
    the ConfigMap data [renderData] produces, listed in any order, combines to
    one configuration whose members are the authored data, the features and the
    deployment results of the VectorData. *)
From Stdlib Require Import Floats.SpecFloat.
From S2P Require Import Prelude GoBytes GoStrings GoSort GoJson GoAny GoCompact Objects Client.
From S2P Require Import VectorDataController VectorDataService.
Import VectorDataController VectorDataService.
Local Open Scope Z_scope.

Module VectorDataRoundtrip.

(** * Plain keys *)

(** The characters a ConfigMap key may have. *)
Definition key_char (c : ascii) : bool :=
  in_range 97 122 (byteZ c) || in_range 65 90 (byteZ c) || is_digit c || bool_decide (byteZ c ∈ [45; 46; 95]).
Definition plain (k : string) : Prop := Forall (λ c, key_char c = true) (to_list k).
#[export] Instance plain_dec k : Decision (plain k).
Proof. apply _. Defined.

Lemma key_char_bytes c : key_char c = true →
  45 ≤ byteZ c ≤ 122 ∧ byteZ c ≠ 60 ∧ byteZ c ≠ 62 ∧ byteZ c ≠ 92.
Proof.
  unfold key_char, is_digit. rewrite !orb_true_iff, !in_range_spec, bool_decide_eq_true, !elem_of_cons, elem_of_nil. lia.
Qed.
Lemma key_char_visible c : key_char c = true → visible c = true.
Proof. intros H%key_char_bytes. apply in_range_spec. lia. Qed.
Lemma key_char_ascii c : key_char c = true → byteZ c ≤ 127 ∧ c ≠ backslash ∧ c ≠ quoteb.
Proof.
  intros H%key_char_bytes. split_and!; [lia|intros ->|intros ->].
  - change (byteZ backslash) with 92 in H. lia.
  - change (byteZ quoteb) with 34 in H. lia.
Qed.
Lemma key_char_encode c : key_char c = true → encode_byte c = [c].
Proof.
  intros H%key_char_bytes. unfold encode_byte, html_byte.
  rewrite !(proj2 (Z.eqb_neq _ _)), (proj2 (Z.ltb_ge _ _)) by lia. done.
Qed.

(** A plain key is its own encoding, and decoding gives it back. *)
Lemma raw_key_plain k : plain k → raw_key k = to_list k.
Proof.
  unfold plain, raw_key. rewrite <-length_to_list. induction 1 as [|c l Hc _ IH]; [done|]. cbn [length encode_fuel].
  pose proof (key_char_ascii _ Hc) as (Ha & _ & _). rewrite decode_rune_ascii by lia.
  rewrite (proj2 (Z.leb_le _ _)), key_char_encode by done. cbn. by rewrite IH.
Qed.
Lemma unq_plain l : Forall (λ c, key_char c = true) l → unq l = l.
Proof.
  induction 1 as [|c l Hc _ IH]; [done|]. apply key_char_ascii in Hc as (Ha & Hb & _). by rewrite unq_ascii, IH.
Qed.
Lemma unquote_plain k : plain k → unquote (to_list k) = k.
Proof. intros H. change (of_list (unq (to_list k)) = k). rewrite unq_plain by done. apply of_to_list. Qed.
Lemma valid_plain k : plain k → valid_raw (to_list k) = true.
Proof.
  unfold plain, valid_raw. induction 1 as [|c l Hc _ IH]; [done|]. cbn [vraw].
  pose proof (key_char_bytes _ Hc). apply key_char_ascii in Hc as (_ & Hb & Hq).
  rewrite !bool_decide_eq_false_2, (proj2 (Z.ltb_ge _ _)) by (done || lia). done.
Qed.

(** The service recovers the basename the controller put into the key. *)
Lemma deploymentNameOf_key `{Unicode} b : plain b → b ≠ "" → deploymentNameOf (resultsConfigKey b) = b.
Proof.
  intros Hp Hne. unfold deploymentNameOf, resultsConfigKey.
  assert (Hd : drop (len DeploymentResultsPrefix) (to_list (VectorDataController.DeploymentResultsPrefix +:+ b +:+ JSONSuffix))
               = to_list b ++ to_list JSONSuffix) by by rewrite !to_list_app.
  rewrite Hd, <-to_list_app, of_to_list. clear Hd.
  assert (Ht : TrimSpace (b +:+ JSONSuffix) = b +:+ JSONSuffix).
  { destruct (to_list b) as [|c l] eqn:Eb; [by destruct Hne; apply to_list_inj|].
    apply (TrimSpace_id _ c (l ++ to_list JSONSuffix) "n"%char (to_list b ++ to_list ".jso")).
    - by rewrite to_list_app, Eb.
    - by rewrite to_list_app, <-app_assoc.
    - unfold plain in Hp. rewrite Eb in Hp. apply Forall_cons in Hp as [Hc _]. by apply key_char_visible.
    - done. }
  rewrite Ht. unfold endsWithSuffix. rewrite len_app. change (len JSONSuffix) with 5%nat. change (len JsonSuffix) with 5%nat.
  rewrite (proj2 (Nat.ltb_ge _ _)), Nat.add_sub, to_list_app by lia.
  rewrite <-length_to_list, drop_app_length, take_app_length, !of_to_list. by rewrite EqualFold_refl.
Qed.

(** * Collecting the entries of a ConfigMap *)

Section collect.
Context `{U : Unicode}.

(** The deployment result an entry holds. *)
Definition result_entry (e : string * string) : option (string * string) :=
  if bool_decide (e.1 = FeaturesConfigKey) || bool_decide (e.1 = AuthoredConfigKey) then None
  else if HasPrefix e.1 DeploymentResultsPrefix then Some (deploymentNameOf e.1, e.2) else None.
Definition or_else (a b : option string) : option string := match a with Some _ => a | None => b end.

Lemma collect_entries vectorId E c :
  NoDup E.*1 → NoDup (cf_DeploymentResults c ++ omap result_entry E).*1 → "" ∉ (omap result_entry E).*1 →
  collect vectorId c E = Ok {|
    cf_Features := or_else (assoc_get E FeaturesConfigKey) (cf_Features c);
    cf_Authored := or_else (assoc_get E AuthoredConfigKey) (cf_Authored c);
    cf_DeploymentResults := cf_DeploymentResults c ++ omap result_entry E |}.
Proof.
  revert c. induction E as [|[k v] E IH]; intros c Hnd Hr Hne.
  { cbn. rewrite app_nil_r. by destruct c. }
  cbn [fmap list_fmap fst] in Hnd. apply NoDup_cons in Hnd as [Hk Hnd].
  cbn [collect]. cbn [omap list_omap] in Hr, Hne |- *. unfold result_entry at 1 in Hr. unfold result_entry at 1 in Hne.
  unfold result_entry at 1. cbn [assoc_get fst snd] in *. 
  destruct (decide (k = FeaturesConfigKey)) as [->|HF].
  { rewrite !(bool_decide_eq_true_2 (FeaturesConfigKey = FeaturesConfigKey)) in * by done. cbn [orb] in *.
    rewrite IH by done. cbn [cf_Features cf_Authored cf_DeploymentResults]. do 2 f_equal.
    by rewrite (proj2 (assoc_get_none E FeaturesConfigKey) Hk). }
  rewrite !(bool_decide_eq_false_2 (k = FeaturesConfigKey)) in * by done.
  destruct (decide (k = AuthoredConfigKey)) as [->|HA].
  { rewrite !(bool_decide_eq_true_2 (AuthoredConfigKey = AuthoredConfigKey)) in * by done. cbn [orb] in *.
    rewrite IH by done. cbn [cf_Features cf_Authored cf_DeploymentResults]. do 2 f_equal.
    by rewrite (proj2 (assoc_get_none E AuthoredConfigKey) Hk). }
  rewrite !(bool_decide_eq_false_2 (k = AuthoredConfigKey)) in * by done. cbn [orb] in *.
  destruct (HasPrefix k DeploymentResultsPrefix) eqn:Hp; [|by rewrite IH].
  cbn [fmap list_fmap fst] in Hne. apply not_elem_of_cons in Hne as [Hn Hne].
  assert (Hl : (len (deploymentNameOf k) =? 0)%nat = false) by (apply Nat.eqb_neq; rewrite len_zero; congruence).
  rewrite Hl. rewrite fmap_app in Hr. apply NoDup_app in Hr as (Hr1 & Hr2 & Hr3).
  rewrite assoc_set_new by (intros Hin; apply (Hr2 _ Hin); by left).
  rewrite IH; cbn [cf_Features cf_Authored cf_DeploymentResults]; [by rewrite <-app_assoc|done| |done].
  rewrite <-app_assoc, fmap_app. apply NoDup_app. by split_and!.
Qed.
End collect.

(** * The entries the controller writes *)

Section published.
Context `{U : Unicode} (marshalResults : list DeploymentResult → result GoError string).
Abbreviation encoded := (encoded marshalResults).
Abbreviation entriesOf vd := (resultEntries (vd_DeploymentResults vd)).

Definition published (vd : VectorData) : list (string * string) :=
  (prod_map resultsConfigKey encoded <$> entriesOf vd) ++
  [(FeaturesConfigKey, rawOrNull (vd_Features vd)); (AuthoredConfigKey, rawOrNull (vd_Authored vd))].

Lemma basename_nonempty l b rs : (b, rs) ∈ resultEntries l → b ≠ "".
Proof. unfold resultEntries. rewrite list_elem_of_filter. by intros [? _]. Qed.

Lemma published_nodup vd : renderable marshalResults (vd_DeploymentResults vd) → NoDup (published vd).*1.
Proof.
  intros [Hn _]. unfold published. rewrite fmap_app. apply NoDup_app. split_and!.
  - by apply rendered_keys_nodup.
  - intros k. rewrite <-list_fmap_compose, list_elem_of_fmap. intros ([b rs] & -> & _). cbn.
    rewrite !not_elem_of_cons. split_and!; [done..|]. apply not_elem_of_nil.
  - apply (bool_decide_unpack (NoDup [FeaturesConfigKey; AuthoredConfigKey])). reflexivity.
Qed.

Lemma rendered_published vd data :
  renderData marshalResults vd = Ok data → map_to_list data ≡ₚ published vd ∧ NoDup (published vd).*1.
Proof.
  unfold renderData. rewrite render_results_spec. intros (Hr & _ & ->).
  pose proof (published_nodup vd Hr) as Hnd. split; [|done]. rewrite <-(map_to_list_to_map (published vd)) by done.
  unfold published. by rewrite list_to_map_app.
Qed.

Lemma published_results vd :
  Forall plain (entriesOf vd).*1 → omap result_entry (published vd) = prod_map id encoded <$> entriesOf vd.
Proof.
  intros Hp. unfold published. rewrite omap_app. change (omap result_entry [_; _]) with (@nil (string * string)).
  rewrite app_nil_r. assert (Hne : Forall (λ e, e.1 ≠ "") (entriesOf vd)).
  { apply Forall_forall. intros [b rs]. apply basename_nonempty. }
  revert Hp Hne. induction (entriesOf vd) as [|[b rs] l IH]; [done|]. cbn [fmap list_fmap fst].
  intros [Hb Hl]%Forall_cons [Hne Hnl]%Forall_cons. cbn [omap list_omap prod_map].
  unfold result_entry at 1. cbn [fst snd]. rewrite !bool_decide_eq_false_2 by done. cbn [orb].
  unfold resultsConfigKey at 1. rewrite HasPrefix_app, deploymentNameOf_key by done. cbn [id]. f_equal. by apply IH.
Qed.

(** * The combined configuration *)

Definition jvalue (s : string) : json := default JNull (jparse (to_list s)).
Lemma rawMessage_valid s : Valid s = true → rawMessage s = Some (html (jvalue s)).
Proof. unfold Valid, rawMessage, jvalue. by destruct (jparse _). Qed.
Lemma jvalue_wf s : jwf (jvalue s).
Proof. unfold jvalue. destruct (jparse _) eqn:E; [by eapply jparse_wf|done]. Qed.

Definition memberOf (e : string * string) : list ascii * json := (to_list e.1, html (jvalue e.2)).
Definition readable (e : string * string) : Prop := plain e.1 ∧ Valid e.2 = true.
Lemma raw_members_ok l : Forall readable l → raw_members l = Some (memberOf <$> l).
Proof.
  induction 1 as [|[k v] l [Hk Hv] _ IH]; [done|]. cbn [raw_members fst snd] in *.
  by rewrite rawMessage_valid, IH, raw_key_plain.
Qed.
Lemma members_wf l : Forall readable l → jwf (JObj (memberOf <$> l)).
Proof.
  intros H. apply jwf_obj, Forall_fmap. eapply Forall_impl; [exact H|]. intros [k v] [Hk _]. cbn.
  split; [by apply valid_plain|]. apply html_wf, jvalue_wf.
Qed.
(** Decoding the members gives each key its value. *)
Lemma members_decode l k : NoDup l.*1 → Forall readable l →
  assoc_get (object_map (memberOf <$> l)) k = (λ v, decoded (jvalue v)) <$> assoc_get l k.
Proof.
  induction l as [|[k' v] l IH] using rev_ind; intros Hnd Hf; [done|].
  rewrite fmap_app in Hnd. apply NoDup_app in Hnd as (Hnd & Hni & _). rewrite fmap_app.
  apply Forall_app in Hf as [Hf [[Hk Hv] _]%Forall_cons].
  assert (Hlast : assoc_get (l ++ [(k', v)]) k = if bool_decide (k' = k) then Some v else assoc_get l k).
  { rewrite <-(assoc_set_new l k' v); [apply assoc_get_set|]. intros H. apply (Hni _ H). by left. }
  rewrite Hlast. cbn [fmap list_fmap] in *. unfold memberOf at 2. cbn [fst snd] in *.
  case_bool_decide as E.
  - subst k'. pose proof (object_map_snoc (memberOf <$> l) (to_list k) (html (jvalue v))) as Hs.
    rewrite unquote_plain in Hs by done. rewrite Hs. cbn. f_equal. unfold decoded. by rewrite decode_html by apply jvalue_wf.
  - rewrite object_map_app; [by apply IH|]. cbn [fmap list_fmap fst]. rewrite unquote_plain by done.
    by intros H%list_elem_of_singleton.
Qed.

(** The deployment results of [vd], in the order of their keys. *)
Definition resultList (vd : VectorData) : list (string * string) := sort_entries (prod_map id encoded <$> entriesOf vd).
Definition canonical (vd : VectorData) : json :=
  JObj ([memberOf (Authored, rawOrNull (vd_Authored vd))] ++
        (if (length (entriesOf vd) =? 0)%nat then []
         else [(to_list DeploymentResults, JObj (memberOf <$> resultList vd))]) ++
        [memberOf (Features, rawOrNull (vd_Features vd))]).

(** What the controller needs of its inputs for the service to read them. *)
Record wellformed (vd : VectorData) : Prop := {
  wf_features : Valid (rawOrNull (vd_Features vd)) = true;
  wf_authored : Valid (rawOrNull (vd_Authored vd)) = true;
  wf_results : Forall readable (prod_map id encoded <$> entriesOf vd);
}.

Lemma resultList_readable vd : wellformed vd → Forall readable (resultList vd).
Proof. intros H. unfold resultList, sort_entries. rewrite sort_by_perm. apply H. Qed.
Lemma results_plain vd : wellformed vd → Forall plain (entriesOf vd).*1.
Proof.
  intros H. pose proof (wf_results _ H) as Hr. rewrite Forall_fmap in Hr. apply Forall_fmap. eapply Forall_impl; [exact Hr|]. by intros [b rs] [? _].
Qed.

Lemma canonical_wf vd : wellformed vd → jwf (canonical vd).
Proof.
  intros H. apply jwf_obj. unfold memberOf. rewrite !Forall_app, !Forall_singleton. split_and!; cbn [fst snd]; try done.
  - apply html_wf, jvalue_wf.
  - case_match; [constructor|]. apply Forall_singleton. split; [done|]. by apply members_wf, resultList_readable.
  - apply html_wf, jvalue_wf.
Qed.

Lemma collect_published vectorId vd data E :
  renderData marshalResults vd = Ok data → wellformed vd → E ≡ₚ map_to_list data →
  ∃ rs, collect vectorId no_configuration E = Ok {|
      cf_Features := Some (rawOrNull (vd_Features vd)); cf_Authored := Some (rawOrNull (vd_Authored vd));
      cf_DeploymentResults := rs |} ∧
    rs ≡ₚ prod_map id encoded <$> entriesOf vd ∧ NoDup rs.*1.
Proof.
  intros Hr Hwf HE. destruct (rendered_published _ _ Hr) as [Hp Hnd]. rewrite Hp in HE. clear Hp.
  assert (HndE : NoDup E.*1) by by rewrite HE.
  assert (Hrs : omap result_entry E ≡ₚ prod_map id encoded <$> entriesOf vd).
  { rewrite HE. by rewrite published_results by by apply results_plain. }
  assert (Hkeys : (omap result_entry E).*1 ≡ₚ (entriesOf vd).*1).
  { rewrite Hrs, <-list_fmap_compose. done. }
  assert (Hndr : NoDup (omap result_entry E).*1).
  { rewrite Hkeys. unfold renderData in Hr. apply render_results_spec in Hr as ([Hn _] & _ & _). exact Hn. }
  exists (omap result_entry E). split_and!; [|done|done].
  rewrite collect_entries; [|done|done|].
  - rewrite (proj2 (assoc_get_elem E FeaturesConfigKey (rawOrNull (vd_Features vd)) HndE)),
      (proj2 (assoc_get_elem E AuthoredConfigKey (rawOrNull (vd_Authored vd)) HndE)); [done|..];
      rewrite HE; apply elem_of_app; right; repeat (by left) || right; by left.
  - rewrite Hkeys. intros ([b rs] & Hb & Hin)%list_elem_of_fmap. apply basename_nonempty in Hin. by cbn in Hb.
Qed.

Lemma combine_published vectorId vd data E :
  renderData marshalResults vd = Ok data → wellformed vd → E ≡ₚ map_to_list data →
  combine vectorId E = Ok (of_list (jtext (canonical vd))).
Proof.
  intros Hr Hwf HE. destruct (collect_published vectorId _ _ _ Hr Hwf HE) as (rs & Hc & Hp & Hnd).
  unfold combine. rewrite Hc. cbn [is_empty cf_Features]. unfold configurationJson.
  cbn [cf_Features cf_Authored cf_DeploymentResults optional_member].
  rewrite !rawMessage_valid by apply Hwf. cbn [mbind option_bind].
  assert (Hs : sort_entries rs = resultList vd) by by apply sort_by_key_perm.
  rewrite Hs, raw_members_ok by by apply resultList_readable. cbn [mbind option_bind].
  assert (Hl : length rs = length (entriesOf vd)) by by rewrite Hp, length_fmap. rewrite Hl.
  rewrite !raw_key_plain by (apply (bool_decide_unpack _); reflexivity). done.
Qed.
End published.

(** The decoder reads an object from its text. *)
Lemma jfirst_object ms : jwf (JObj ms) → jfirst (jtext (JObj ms)) = Some (JObj ms).
Proof.
  intros Hj. unfold jfirst. pose proof (scans_toks _ Hj [] I) as Hs. rewrite app_nil_r in Hs. unfold jtext. rewrite Hs.
  cbn [scanned fst lex]. rewrite app_nil_r.
  pose proof (pvalue_complete _ Hj (2 * length (toks (JObj ms)))%nat []) as Hp. rewrite app_nil_r in Hp.
  by rewrite Hp by lia.
Qed.

Section configuration.
Context `{U : Unicode} (marshalResults : list DeploymentResult → result GoError string).
Abbreviation encoded := (encoded marshalResults).
Abbreviation canonical := (canonical marshalResults).
Abbreviation wellformed := (wellformed marshalResults).
Abbreviation entriesOf vd := (resultEntries (vd_DeploymentResults vd)).

(** The value of a stored JSON text. *)
Definition valueOf (s : string) : any := decoded (jvalue s).
Definition resultsMap (vd : VectorData) : list (string * any) := object_map (memberOf <$> resultList marshalResults vd).
Definition configurationMap (vd : VectorData) : list (string * any) :=
  [(Authored, valueOf (rawOrNull (vd_Authored vd)))] ++
  (if (length (entriesOf vd) =? 0)%nat then [] else [(DeploymentResults, AMap (resultsMap vd))]) ++
  [(Features, valueOf (rawOrNull (vd_Features vd)))].

Lemma decode_canonical vd : wellformed vd → decode true (canonical vd) = Some (AMap (configurationMap vd)).
Proof.
  intros Hwf. unfold VectorDataRoundtrip.canonical. rewrite decode_object. do 2 f_equal. unfold configurationMap, memberOf. cbn [fst snd].
  assert (Hd : ∀ s, decoded (html (jvalue s)) = valueOf s).
  { intros s. unfold valueOf, decoded. by rewrite decode_html by apply jvalue_wf. }
  destruct (length (entriesOf vd) =? 0)%nat; unfold object_map; cbn [app foldl fst snd];
    rewrite !unquote_plain, !Hd by (apply (bool_decide_unpack _); reflexivity); [done|].
  assert (Ho : decoded (JObj (memberOf <$> resultList marshalResults vd)) = AMap (resultsMap vd))
    by (unfold decoded; by rewrite decode_object).
  unfold memberOf in Ho. by rewrite Ho.
Qed.

Lemma results_nodup vd data : renderData marshalResults vd = Ok data → NoDup (entriesOf vd).*1.
Proof. unfold renderData. rewrite render_results_spec. by intros ([? _] & _). Qed.
Lemma resultsMap_get vd data b :
  renderData marshalResults vd = Ok data → wellformed vd →
  assoc_get (resultsMap vd) b = (λ rs, valueOf (encoded rs)) <$> assoc_get (entriesOf vd) b.
Proof.
  intros Hr%results_nodup Hwf. unfold resultsMap.
  assert (Hkeys : (prod_map id encoded <$> entriesOf vd).*1 = (entriesOf vd).*1) by by rewrite <-list_fmap_compose.
  assert (Hnd : NoDup (resultList marshalResults vd).*1)
    by (unfold resultList, sort_entries; by rewrite sort_by_perm, Hkeys).
  rewrite members_decode by (done || by apply resultList_readable).
  assert (Hg : assoc_get (resultList marshalResults vd) b = encoded <$> assoc_get (entriesOf vd) b).
  { destruct (assoc_get (entriesOf vd) b) as [rs|] eqn:E; cbn.
    - apply assoc_get_elem; [done|]. unfold resultList, sort_entries. rewrite sort_by_perm.
      apply assoc_get_elem in E; [|done]. by apply (list_elem_of_fmap_2 (prod_map id encoded)) in E.
    - apply assoc_get_none. unfold resultList, sort_entries. by rewrite sort_by_perm, Hkeys, <-assoc_get_none. }
  rewrite Hg. destruct (assoc_get (entriesOf vd) b); reflexivity.
Qed.

(** The features of the combined configuration. *)
Lemma canonical_features vd : wellformed vd →
  getAllFeatures (of_list (jtext (canonical vd))) =
  match valueOf (rawOrNull (vd_Features vd)) with
  | AMap features => Ok features
  | _ => Err (ENew "could not parse features json")
  end.
Proof.
  intros Hwf. unfold getAllFeatures. rewrite to_of_list. unfold VectorDataRoundtrip.canonical at 1.
  rewrite jfirst_object by by apply canonical_wf.
  change (JObj (_ ++ _)) with (canonical vd). rewrite decode_canonical by done.
  assert (Hf : assoc_get (configurationMap vd) Features = Some (valueOf (rawOrNull (vd_Features vd))))
    by (unfold configurationMap; by destruct (entriesOf vd)). by rewrite Hf.
Qed.

(** C7: what the controller materialises, the service reads back.  Whatever the
    order in which the entries of the rendered ConfigMap are visited, they
    combine to one configuration; it is valid JSON and denotes exactly the
    authored data, the features and, under each component's basename, the
    deployment results of the VectorData; without results there is no
    [deploymentResults] member. *)
Theorem materialized_configuration vd data
  (Hrender : renderData marshalResults vd = Ok data) (Hwf : wellformed vd) :
  ∃ cfg m,
    (∀ vectorId E, E ≡ₚ map_to_list data → combine vectorId E = Ok cfg) ∧
    jparse (to_list cfg) ≫= decode true = Some (AMap m) ∧
    m.*1 = [Authored] ++ (if bool_decide (entriesOf vd = []) then [] else [DeploymentResults]) ++ [Features] ∧
    assoc_get m Authored = Some (valueOf (rawOrNull (vd_Authored vd))) ∧
    assoc_get m Features = Some (valueOf (rawOrNull (vd_Features vd))) ∧
    (entriesOf vd ≠ [] → ∃ results, assoc_get m DeploymentResults = Some (AMap results) ∧
       ∀ b, assoc_get results b = (λ rs, valueOf (encoded rs)) <$> assoc_get (entriesOf vd) b).
Proof.
  exists (of_list (jtext (canonical vd))), (configurationMap vd). split_and!.
  - intros vectorId E HE. exact (combine_published _ vectorId vd data E Hrender Hwf HE).
  - rewrite to_of_list, jparse_text by by apply canonical_wf.
    cbn [mbind option_bind]. exact (decode_canonical vd Hwf).
  - unfold configurationMap. by destruct (entriesOf vd).
  - done.
  - unfold configurationMap. by destruct (entriesOf vd).
  - intros Hne. exists (resultsMap vd). split; [|intros b; by eapply resultsMap_get].
    unfold configurationMap. by destruct (entriesOf vd).
Qed.

(** C8: the service evaluates the features of the VectorData.  Reading the
    features out of the combined configuration gives the features object as it
    was authored, with every key and value; when the features are absent or no
    JSON object the controller still materialises the ConfigMap, but the
    service cannot evaluate any flag of it: every bulk evaluation, and every
    single evaluation of a key other than the vector's, answers 500. *)
Theorem materialized_features formatFloat vd data E vectorId cfg
  (Hrender : renderData marshalResults vd = Ok data) (Hwf : wellformed vd)
  (HE : E ≡ₚ map_to_list data) (Hcfg : combine vectorId E = Ok cfg) :
  match valueOf (rawOrNull (vd_Features vd)) with
  | AMap features => getAllFeatures cfg = Ok features
  | _ =>
      (∀ inm, rs_Status (evaluateBulk formatFloat vectorId inm cfg) = StatusInternalServerError) ∧
      (∀ flagKey, EqualFold flagKey vectorId = false →
         rs_Status (evaluateSingle vectorId flagKey cfg) = StatusInternalServerError)
  end.
Proof.
  rewrite (combine_published _ _ vd data E Hrender Hwf HE) in Hcfg.
  assert (cfg = of_list (jtext (canonical vd))) as -> by congruence. clear Hcfg.
  pose proof (canonical_features vd Hwf) as Hall.
  assert (Hne : of_list (jtext (canonical vd)) ≠ "") by done.
  destruct (valueOf _); try exact Hall;
    (split; [intros inm; unfold evaluateBulk|intros flagKey Hk; unfold evaluateSingle, getFlagValueOrConfiguration];
     rewrite (bool_decide_eq_false_2 _ Hne), Hall; [reflexivity|]; rewrite Hk; reflexivity).
Qed.
End configuration.

(** * Witnesses *)

(** JSON text written with single quotes. *)
Definition json_text (s : string) : string :=
  of_list ((λ c, if bool_decide (c = "'"%char) then quoteb else c) <$> to_list s).

Section witnesses.
#[local] Existing Instance caseless_unicode.

Definition shop_features : string := json_text "{'enableBeta':true,'ratio':4.6, 'note': 'a<b'}".
Definition shop_marshal (l : list DeploymentResult) : result GoError string :=
  Ok ("[" +:+ Join (dr_Spec <$> l) "," +:+ "]").
Definition shop_vd (features : option RawExtension) : VectorData := {|
  vd_Meta := new_meta "ns" "v1" ∅; vd_Features := features; vd_Authored := None;
  vd_DeploymentResults :=
    [("github.com/acme/shop", [{| dr_Name := "api"; dr_Type := "t"; dr_Spec := json_text "{'host': 'shop'}" |}]);
     ("github.com/acme/orders", [{| dr_Name := "api"; dr_Type := "t"; dr_Spec := json_text "{'host': 'orders'}" |}])];
  vd_Conditions := [] |}.
Definition shop_data (features : option RawExtension) : gmap string string :=
  rendered shop_marshal (vd_DeploymentResults (shop_vd features)) ∪ baseData (shop_vd features).
Lemma shop_rendered features : renderData shop_marshal (shop_vd features) = Ok (shop_data features).
Proof.
  unfold renderData, shop_data. rewrite render_results_spec. split_and!; [| |done].
  - split; [apply (bool_decide_unpack (NoDup _)); vm_compute; reflexivity|].
    do 2 (constructor; [split; [apply NoDup_singleton|reflexivity]|]). constructor.
  - by repeat constructor.
Qed.
Lemma shop_wellformed features : Valid (rawOrNull features) = true → wellformed shop_marshal (shop_vd features).
Proof.
  intros Hf. split; [done|reflexivity|]. repeat constructor; cbn;
    first [apply (bool_decide_unpack _); reflexivity|vm_compute; reflexivity].
Qed.
Lemma shop_wellformed_some : wellformed shop_marshal (shop_vd (Some shop_features)).
Proof. apply shop_wellformed. vm_compute. reflexivity. Qed.

Lemma materialized_configuration_witness : ∃ cfg m,
  (∀ vectorId E, E ≡ₚ map_to_list (shop_data (Some shop_features)) → combine vectorId E = Ok cfg) ∧
  jparse (to_list cfg) ≫= decode true = Some (AMap m) ∧ m.*1 = [Authored; DeploymentResults; Features].
Proof.
  destruct (materialized_configuration shop_marshal (shop_vd (Some shop_features)) _ (shop_rendered _) shop_wellformed_some)
    as (cfg & m & H1 & H2 & H3 & _).
  exists cfg, m. split_and!; [exact H1|exact H2|exact H3].
Defined.

Definition shop_config (features : option RawExtension) : string :=
  of_list (jtext (canonical shop_marshal (shop_vd features))).
Definition shop_float (f : spec_float) : string := "4.6".
Lemma materialized_features_witness :
  getAllFeatures (shop_config (Some shop_features)) =
    Ok [("enableBeta", ABool true); ("ratio", ANumber "4.6"); ("note", AStr "a<b")] ∧
  rs_Status (evaluateSingle "v1" "ratio" (shop_config None)) = StatusInternalServerError.
Proof.
  split.
  - exact (materialized_features shop_marshal shop_float (shop_vd (Some shop_features)) _ _ "v1" _ (shop_rendered _)
      shop_wellformed_some (Permutation_refl _)
      (combine_published _ "v1" _ _ _ (shop_rendered _) shop_wellformed_some (Permutation_refl _))).
  - exact (proj2 (materialized_features shop_marshal shop_float (shop_vd None) _ _ "v1" _ (shop_rendered _)
      (shop_wellformed None eq_refl) (Permutation_refl _)
      (combine_published _ "v1" _ _ _ (shop_rendered _) (shop_wellformed None eq_refl) (Permutation_refl _))) "ratio" eq_refl).
Defined.
End witnesses.
End VectorDataRoundtrip.
