(* ===== verification/VectorDataWire.v ===== *)
(** What a client of the vector-data service reads: the HTTP body of an
    evaluation is JSON that denotes the flag, down to the features authored in
    the VectorData. *)
From Stdlib Require Import Floats.SpecFloat.
From S2P Require Import Prelude GoBytes GoStrings GoSort GoJson GoAny GoCompact GoMarshal Objects Client.
From S2P Require Import VectorDataController VectorDataService VectorDataRoundtrip.
Import VectorDataController VectorDataService VectorDataRoundtrip.
Local Open Scope Z_scope.

Module VectorDataWire.

(** A float64 that [json.Marshal] accepts. *)
Definition finite (f : spec_float) : bool := match f with S754_infinity _ | S754_nan => false | _ => true end.

Section wire.
Context `{U : Unicode} (formatFloat : spec_float → string).
(** [strconv.AppendFloat] writes a finite float as a JSON number. *)
Hypothesis formatFloat_number : ∀ f, finite f = true → valid_number (to_list (formatFloat f)) = true.
Abbreviation numeric := (numeric formatFloat).
Abbreviation wire := (wire formatFloat).

(** ** Decoded values can be encoded *)

Lemma ParseFloat_finite w f : ParseFloat w = Some f → finite f = true.
Proof. unfold ParseFloat. destruct (parse_number w) as [n|]; [|done]. repeat case_match; intros; simplify_eq; done. Qed.
Lemma assoc_set_forall (P : string * any → Prop) m k v : Forall P m → P (k, v) → Forall P (assoc_set m k v).
Proof.
  intros Hm Hv. induction Hm as [|[k' v'] m Hk Hm IH]; cbn; [by constructor|].
  case_bool_decide; [by constructor|]. by constructor.
Qed.
Lemma decode_numeric u j v : jwf j → decode u j = Some v → numeric v.
Proof.
  revert v. induction j as [|b|w|raw|l IH|l IH] using json_nested; intros v.
  - by intros _ [= <-].
  - by intros _ [= <-].
  - cbn. intros Hw. destruct u; [intros [= <-]; cbn; by rewrite to_of_list|].
    destruct (ParseFloat w) as [f|] eqn:E; [|done]. intros [= <-]. cbn. by apply formatFloat_number, (ParseFloat_finite w).
  - by intros _ [= <-].
  - rewrite jwf_arr. intros Hl. cbn [decode]. assert (Ha : Forall numeric (@nil any)) by constructor. revert Ha.
    generalize (@nil any). revert Hl. induction IH as [|x l Hx _ IHl]; intros Hl acc Ha.
    + intros [= <-]. apply numeric_arr. by apply Forall_reverse.
    + apply Forall_cons in Hl as [Hj Hl]. destruct (decode u x) as [y|]; [|done]. cbn. apply IHl; [done|]. constructor; [|done]. by apply Hx.
  - rewrite jwf_obj. intros Hl. cbn [decode]. assert (Ha : Forall (λ e, numeric e.2) (@nil (string * any))) by constructor. revert Ha.
    generalize (@nil (string * any)). revert Hl. induction IH as [|[k x] l Hx _ IHl]; intros Hl acc Ha.
    + intros [= <-]. by apply numeric_map.
    + apply Forall_cons in Hl as [[_ Hj] Hl]. destruct (decode u x) as [y|] eqn:Ey; [|done]. cbn. apply IHl; [done|].
      apply assoc_set_forall; [done|]. by apply Hx.
Qed.
Lemma assoc_get_forall (P : string * any → Prop) m k v : Forall P m → assoc_get m k = Some v → P (k, v).
Proof.
  induction 1 as [|[k' v'] m Hk _ IH]; cbn; [done|]. case_bool_decide as E; [|done]. intros [= <-]. by subst.
Qed.
Lemma parseFlagValue_numeric v : numeric v → numeric (parseFlagValue v).
Proof.
  destruct v as [|b|z|f|w|s|l|m]; cbn [parseFlagValue]; try done.
  - destruct (ParseInt w); [done|]. destruct (ParseFloat (to_list w)) as [f|] eqn:E; [|done].
    intros _. cbn. by apply formatFloat_number, (ParseFloat_finite (to_list w)).
  - intros _. destruct (Valid s); [|done]. destruct (jparse (to_list s)) as [j|] eqn:E; [|done]. cbn.
    destruct (decode false j) as [v|] eqn:Ed; [|done]. by eapply decode_numeric; [eapply jparse_wf|].
Qed.

(** ** The body of a flag *)

Definition flagJson (f : FlagResponse) : json :=
  JObj [(to_list "key", JStr (enc (to_list (fr_Key f)))); (to_list "value", toJson formatFloat (fr_Value f));
        (to_list "reason", JStr (enc (to_list (fr_Reason f))))].
Lemma flagText_json key v : flagText formatFloat (flagOf key v) = jtext (flagJson (flagOf key v)).
Proof.
  unfold flagText, flagJson. rewrite jtext_obj. cbn [flagOf fr_Key fr_Value fr_Variant fr_Reason fr_Metadata].
  rewrite marshal_text. cbn [fmap list_fmap fst snd]. rewrite !jtext_str.
  unfold member. rewrite !encode_string_enc. reflexivity.
Qed.
Lemma flag_read key v : numeric v →
  jparse (bodyText formatFloat (BFlag (flagOf key v))) ≫= decode true =
  Some (AMap [("key", AStr (of_list (recode (to_list key)))); ("value", wire v); ("reason", AStr TargetingMatchReason)]).
Proof.
  intros Hv. cbn [bodyText]. rewrite flagText_json, jparse_text.
  - cbn [mbind option_bind]. unfold flagJson. rewrite decode_object. unfold object_map.
    cbn [foldl fst snd flagOf fr_Key fr_Value fr_Reason]. unfold decoded. rewrite decode_toJson.
    change (decode true (JStr (enc (to_list key)))) with (Some (AStr (of_list (unq (enc (to_list key)))))). rewrite unq_enc. reflexivity.
  - apply jwf_obj. repeat constructor; cbn; [apply valid_enc|by apply toJson_wf].
Qed.

(** ** From the VectorData to the client *)

Context (marshalResults : list DeploymentResult → result GoError string).

Lemma features_numeric vd : wellformed marshalResults vd → numeric (valueOf (rawOrNull (vd_Features vd))).
Proof.
  intros _. unfold valueOf, decoded. destruct (decode_total (jvalue (rawOrNull (vd_Features vd)))) as [v E]. rewrite E.
  eapply decode_numeric; [apply jvalue_wf|exact E].
Qed.

(** C9: a feature travels from the VectorData to the client.  For a feature of
    the authored features object whose value the service supports and whose key
    is not, up to case, the vector's own (that key asks for the whole
    configuration), a single evaluation out of the materialised ConfigMap
    answers 200, and its body is JSON that decodes to the flag's key, the value
    the service parses it to, and the reason, and nothing else.  Booleans arrive
    as they are, integers as their decimal form, strings that hold no JSON
    unchanged, and a string that holds JSON as the value of that JSON. *)
Theorem flag_on_the_wire vd data E vectorId cfg features key v
  (Hrender : renderData marshalResults vd = Ok data) (Hwf : wellformed marshalResults vd)
  (HE : E ≡ₚ map_to_list data) (Hcfg : combine vectorId E = Ok cfg)
  (Hfeatures : valueOf (rawOrNull (vd_Features vd)) = AMap features)
  (Hkey : EqualFold key vectorId = false) (Hv : assoc_get features key = Some v) (Hsupported : parseFlagValue v ≠ ANil) :
  ∃ f value,
    evaluateSingle vectorId key cfg = okResponse (BFlag f) ∧
    jparse (bodyText formatFloat (BFlag f)) ≫= decode true =
      Some (AMap [("key", AStr (of_list (recode (to_list key)))); ("value", value); ("reason", AStr TargetingMatchReason)]) ∧
    value = wire (parseFlagValue v) ∧
    (∀ b, v = ABool b → value = ABool b) ∧
    (∀ w z, v = ANumber w → ParseInt w = Some z → value = ANumber (pretty z)) ∧
    (∀ s, v = AStr s → Valid s = false → valid_utf8 s → value = AStr s) ∧
    (∀ s a, v = AStr s → Valid s = true → jparse (to_list s) ≫= decode false = Some a → value = wire a).
Proof.
  assert (Hcanon : cfg = of_list (jtext (canonical marshalResults vd))).
  { rewrite (combine_published _ _ vd data E Hrender Hwf HE) in Hcfg. congruence. }
  exists (flagOf key (parseFlagValue v)), (wire (parseFlagValue v)). split_and!.
  - unfold evaluateSingle, getFlagValueOrConfiguration. rewrite Hkey.
    assert (Hne : cfg ≠ "") by (rewrite Hcanon; done). rewrite (bool_decide_eq_false_2 _ Hne).
    rewrite Hcanon, (canonical_features marshalResults vd Hwf), Hfeatures, Hv. cbn [from_option id].
    destruct (parseFlagValue v); done.
  - apply flag_read, parseFlagValue_numeric. pose proof (features_numeric vd Hwf) as Hn. rewrite Hfeatures in Hn.
    apply numeric_map in Hn. exact (assoc_get_forall _ _ _ _ Hn Hv).
  - done.
  - by intros b ->.
  - intros w z -> Hz. cbn. by rewrite Hz.
  - intros s -> Hs Hu. cbn [parseFlagValue]. rewrite Hs. cbn. by rewrite recode_valid.
  - intros s a -> Hs Ha. cbn [parseFlagValue]. by rewrite Hs, Ha.
Qed.
End wire.

Section witnesses.
#[local] Existing Instance caseless_unicode.
Lemma shop_float_number f : finite f = true → valid_number (to_list (shop_float f)) = true.
Proof. intros _. reflexivity. Qed.
Lemma flag_on_the_wire_witness : ∃ f,
  evaluateSingle "v1" "note" (shop_config (Some shop_features)) = okResponse (BFlag f) ∧
  jparse (bodyText shop_float (BFlag f)) ≫= decode true =
    Some (AMap [("key", AStr "note"); ("value", AStr "a<b"); ("reason", AStr TargetingMatchReason)]).
Proof.
  destruct (flag_on_the_wire shop_float shop_float_number shop_marshal (shop_vd (Some shop_features)) _ _ "v1" _
    [("enableBeta", ABool true); ("ratio", ANumber "4.6"); ("note", AStr "a<b")] "note" (AStr "a<b")
    (shop_rendered _) shop_wellformed_some (Permutation_refl _)
    (combine_published _ "v1" _ _ _ (shop_rendered _) shop_wellformed_some (Permutation_refl _))
    ltac:(vm_compute; reflexivity) eq_refl eq_refl ltac:(vm_compute; discriminate)) as (f & value & Hf & Hr & -> & _).
  exists f. split; [exact Hf|]. rewrite Hr. vm_compute. reflexivity.
Defined.
End witnesses.
End VectorDataWire.
