(* ===== verification/VectorDataServiceProps.v ===== *)
(** Properties of the vector-data service: what the handlers answer and
    cache, that single and bulk evaluation agree, and conditional requests. *)
From Stdlib Require Import Floats.SpecFloat Sorting.Sorted.
From S2P Require Import Prelude GoBytes GoStrings GoSort GoJson GoAny GoCompact Sha1 Objects Client.
From S2P Require Import VectorDataController VectorDataService VectorDataCache VectorDataRoundtrip.
Import VectorDataService VectorDataCache VectorDataRoundtrip.
Local Open Scope Z_scope.

Module VectorDataServiceProps.

Section evaluation.
Context `{U : Unicode}.
Context (formatFloat : spec_float → string).

(** ** Features *)

Lemma features_nodup config features : getAllFeatures config = Ok features → NoDup features.*1.
Proof.
  unfold getAllFeatures. intros H. destruct (jfirst _) as [[| | | | |ms]|]; simplify_eq; [constructor|].
  rewrite decode_object in H. destruct (assoc_get (object_map ms) Features) as [v|] eqn:Ev; [|simplify_eq; constructor].
  destruct v as [| | | | | | |m]; simplify_eq. revert Ev. unfold object_map.
  assert (Hacc : ∀ m, assoc_get (@nil (string * any)) Features = Some (AMap m) → NoDup m.*1) by done.
  revert Hacc. generalize (@nil (string * any)). induction ms as [|[k x] ms IH]; intros acc Hacc; [apply Hacc|].
  cbn [foldl]. apply IH. intros m. rewrite assoc_get_set. case_bool_decide; [|apply Hacc].
  cbn. intros [= Ed]. clear -Ed. unfold decoded in Ed. destruct x as [| | | |l|l]; cbn [decode] in Ed; try done.
  - exfalso. revert Ed. generalize (@nil any). induction l as [|y l IH]; intros acc; cbn; [done|].
    rewrite decode_decoded. apply IH.
  - change (default ANil (decode true (JObj l)) = AMap m) in Ed. rewrite decode_object in Ed.
    cbn in Ed. simplify_eq. apply object_map_nodup.
Qed.

Definition entryKey (e : FlagResponse + ErrorResponse) : string :=
  match e with inl f => fr_Key f | inr e => er_Key e end.
Lemma bulkEntry_key e : entryKey (bulkEntry e) = e.1.
Proof. unfold bulkEntry. by destruct (isNil _). Qed.

Lemma bulk_entry_elem features k e :
  NoDup features.*1 → entryKey e = k →
  e ∈ bulkEntry <$> sort_entries features ↔ ∃ v, assoc_get features k = Some v ∧ e = bulkEntry (k, v).
Proof.
  intros Hnd Hk. unfold sort_entries. rewrite list_elem_of_fmap. setoid_rewrite sort_by_perm. split.
  - intros ([k' v] & -> & Hin). rewrite bulkEntry_key in Hk. cbn in Hk. subst k'. exists v.
    split; [by apply assoc_get_elem|done].
  - intros (v & Hv & ->). exists (k, v). split; [done|]. by apply assoc_get_elem.
Qed.

Lemma flag_not_missing flagKey msg f : notFoundResponse flagKey msg ≠ okResponse (BFlag f).
Proof. intros H. by apply (f_equal rs_Status) in H. Qed.

Lemma bulk_sorted features :
  StronglySorted (λ a b, string_ltb (entryKey b) (entryKey a) = false) (bulkEntry <$> sort_entries features).
Proof.
  assert (Hs : StronglySorted (λ a b : string * any, string_ltb b.1 a.1 = false) (sort_entries features))
    by apply sort_by_key_sorted.
  induction Hs as [|e l Hs IH He]; [constructor|]. cbn. constructor; [exact IH|].
  apply Forall_fmap. eapply Forall_impl; [exact He|]. intros e' H'. cbn. by rewrite !bulkEntry_key.
Qed.

(** C33: single and bulk evaluation agree.  On a configuration with features,
    the bulk answer has one entry per feature, sorted by key; and for every key
    that does not name the vector itself, the single evaluation answers 200
    exactly with the flag the bulk answer carries for the key, and 404 exactly
    when the bulk answer has no flag for it. *)
Theorem single_bulk_agree vectorId config features flagKey
  (Hconfig : config ≠ "") (Hfeatures : getAllFeatures config = Ok features)
  (Hkey : EqualFold flagKey vectorId = false) :
  ∃ flags, (∀ inm, inm ≠ generateEtag formatFloat flags →
             evaluateBulk formatFloat vectorId inm config = okResponseWithEtag (BBulk flags) (generateEtag formatFloat flags)) ∧
    StronglySorted (λ a b, string_ltb (entryKey b) (entryKey a) = false) flags ∧
    entryKey <$> flags ≡ₚ features.*1 ∧ NoDup (entryKey <$> flags) ∧
    (∀ f, evaluateSingle vectorId flagKey config = okResponse (BFlag f) ↔ inl f ∈ flags ∧ fr_Key f = flagKey) ∧
    (evaluateSingle vectorId flagKey config = notFoundResponse flagKey "" ↔
       ∀ f, inl f ∈ flags → fr_Key f ≠ flagKey).
Proof.
  pose proof (features_nodup _ _ Hfeatures) as Hnd. exists (bulkEntry <$> sort_entries features).
  assert (Hkeys : entryKey <$> (bulkEntry <$> sort_entries features) = (sort_entries features).*1).
  { rewrite <-list_fmap_compose. apply list_fmap_ext. intros _ e _. apply bulkEntry_key. }
  assert (Hperm : (sort_entries features).*1 ≡ₚ features.*1) by (unfold sort_entries; by rewrite sort_by_perm).
  assert (Hsingle : evaluateSingle vectorId flagKey config =
    match bulkEntry (flagKey, default ANil (assoc_get features flagKey)) with
    | inl f => okResponse (BFlag f) | inr _ => notFoundResponse flagKey "" end).
  { unfold evaluateSingle, getFlagValueOrConfiguration, bulkEntry. rewrite bool_decide_eq_false_2, Hkey, Hfeatures by done.
    cbn [fst snd]. by destruct (isNil _). }
  assert (Hin : ∀ f, inl f ∈ bulkEntry <$> sort_entries features ∧ fr_Key f = flagKey ↔
    ∃ v, assoc_get features flagKey = Some v ∧ bulkEntry (flagKey, v) = inl f).
  { intros f. split.
    - intros [Hf Hk]. apply (bulk_entry_elem _ flagKey) in Hf as (v & Hv & E); [|done|done]. by exists v.
    - intros (v & Hv & E). assert (Hk : entryKey (inl f) = flagKey) by (rewrite <-E; apply bulkEntry_key).
      split; [|exact Hk]. apply (bulk_entry_elem _ flagKey); [done|done|]. by exists v. }
  split_and!.
  - intros inm Hinm. unfold evaluateBulk.
    rewrite (bool_decide_eq_false_2 (config = "") Hconfig), Hfeatures. cbn [mbind result_bind].
    rewrite (bool_decide_eq_false_2 (inm = _) Hinm). reflexivity.
  - apply bulk_sorted.
  - by rewrite Hkeys.
  - by rewrite Hkeys, Hperm.
  - intros f. rewrite Hin, Hsingle. destruct (assoc_get features flagKey) as [v|]; cbn [from_option id].
    + destruct (bulkEntry (flagKey, v)) as [g|g] eqn:E; split.
      * intros H. apply (f_equal rs_Body) in H. injection H as <-. by exists v.
      * intros (v' & [= <-] & E'). rewrite E in E'. by injection E' as ->.
      * intros H. exfalso. by apply flag_not_missing in H.
      * intros (v' & [= <-] & E'). rewrite E in E'. discriminate E'.
    + split; [intros H; exfalso; by apply flag_not_missing in H|]. by intros (? & ? & _).
  - rewrite Hsingle. split.
    + intros H f Hf Hk. destruct (proj1 (Hin f) (conj Hf Hk)) as (v & Hv & E). rewrite Hv in H. cbn [from_option id] in H.
      rewrite E in H. by apply eq_sym, flag_not_missing in H.
    + intros H. destruct (assoc_get features flagKey) as [v|] eqn:Ev; cbn [from_option id]; [|reflexivity].
      destruct (bulkEntry (flagKey, v)) as [f|g] eqn:E; [|reflexivity].
      destruct (proj2 (Hin f)) as [Hf Hk]; [by exists v|]. by apply H in Hf.
Qed.

(** ** Entity tags *)

(** The flags a configuration is answered with. *)
Definition flagsOf (config : string) : result GoError (list (FlagResponse + ErrorResponse)) :=
  if bool_decide (config = "") then Ok []
  else features ← getAllFeatures config; Ok (bulkEntry <$> sort_entries features).

Lemma evaluateBulk_flags vectorId inm config :
  evaluateBulk formatFloat vectorId inm config =
  match flagsOf config with
  | Err err => internalServerErrorResponse
      ("invalid feature configuration for vectorId '" +:+ vectorId +:+ "': " +:+ Error err)
  | Ok flags => if bool_decide (inm = generateEtag formatFloat flags) then notModifiedResponse
                else okResponseWithEtag (BBulk flags) (generateEtag formatFloat flags)
  end.
Proof. reflexivity. Qed.

(** Conditional bulk requests.  A tag the service answered with revalidates:
    sending it back gets 304 without a body as long as the configuration is the
    same; and whenever the tag answered for one configuration gets 304 for
    another, the JSON bodies of the two answers have the same SHA-1 digest. *)
Theorem etag_revalidates vectorId inm config etag
  (Htag : rs_ETag (evaluateBulk formatFloat vectorId inm config) = Some etag) :
  evaluateBulk formatFloat vectorId etag config = notModifiedResponse ∧
  ∃ flags, evaluateBulk formatFloat vectorId inm config = okResponseWithEtag (BBulk flags) etag ∧
    ∀ vectorId' config', evaluateBulk formatFloat vectorId' etag config' = notModifiedResponse →
      ∃ flags', (∀ inm', inm' ≠ etag →
          evaluateBulk formatFloat vectorId' inm' config' = okResponseWithEtag (BBulk flags') etag) ∧
        sha1_hex (bulkText formatFloat flags') = sha1_hex (bulkText formatFloat flags).
Proof.
  rewrite evaluateBulk_flags in Htag. setoid_rewrite evaluateBulk_flags. destruct (flagsOf config) as [flags|err] eqn:Ef; [|discriminate Htag].
  destruct (bool_decide (inm = _)) eqn:Eb; [discriminate Htag|]. cbn [rs_ETag okResponseWithEtag] in Htag.
  assert (etag = generateEtag formatFloat flags) as -> by congruence. split.
  { by rewrite bool_decide_eq_true_2. }
  exists flags. split; [reflexivity|]. intros vectorId' config'.
  destruct (flagsOf config') as [flags'|err'].
  - destruct (decide (generateEtag formatFloat flags = generateEtag formatFloat flags')) as [E|E].
    + intros _. exists flags'. split.
      * intros inm' Hne. rewrite E in Hne |- *. rewrite (bool_decide_eq_false_2 _ Hne). reflexivity.
      * unfold generateEtag in E. apply of_list_inj in E.
        by apply (inj (cons quoteb)), (inj (.++ [quoteb])) in E.
    + rewrite (bool_decide_eq_false_2 _ E). intros H. by apply (f_equal rs_Status) in H.
  - intros H. by apply (f_equal rs_Status) in H.
Qed.

(** ** The calls of the handlers *)

Context (decodeErrorText : string → string).
(** The vector a request is about. *)
Definition targetOf (r : Request) : option string := decodeRequest (rq_Body r) ≫= targetingKey.

Definition cacheWrite (o : obs serviceE) : Prop := match o with Did (CacheSet _ _) _ => True | _ => False end.
(** An entry is cached only as what the ConfigMap of the vector, just read,
    combines to. *)
Definition cachedFrom (vectorId : string) (before : list (obs serviceE)) (o : obs serviceE) : Prop :=
  match o with
  | Did (CacheSet k v) _ =>
      k = vectorId ∧ v ≠ "" ∧ ∃ data, combine vectorId data = Ok v ∧
        before = [Did (CacheGet vectorId) None; Did (GetConfigMap (ConfigMapPrefix +:+ vectorId)) (Ok data)]
  | _ => False
  end.

(** The configuration a run obtains, from its answers. *)
Definition obtained (vectorId : string) (tr : list (obs serviceE)) (c : result GoError string) : Prop :=
  (∃ v, tr = [Did (CacheGet vectorId) (Some v)] ∧ c = Ok v) ∨
  (∃ e, tr = [Did (CacheGet vectorId) None; Did (GetConfigMap (ConfigMapPrefix +:+ vectorId)) (Err e)] ∧
        c = if IsNotFound e then Ok "" else Err (EApi e)) ∨
  (∃ data tr', tr = [Did (CacheGet vectorId) None; Did (GetConfigMap (ConfigMapPrefix +:+ vectorId)) (Ok data)] ++ tr' ∧
     c = combine vectorId data ∧
     tr' = match c with Ok v => if bool_decide (v = "") then [] else [Did (CacheSet vectorId v) ()] | Err _ => [] end).

Lemma getConfiguration_run vectorId tr c : execs (getConfiguration vectorId) tr c → obtained vectorId tr c.
Proof.
  unfold getConfiguration. intros (cached & tr1 & -> & H). cbn in H. destruct cached as [v|].
  { destruct H as [-> ->]. left. by exists v. }
  right. destruct H as (cm & tr2 & -> & H). cbn in H. destruct cm as [data|e].
  - right. exists data, tr2. split; [done|]. destruct (combine vectorId data) as [v|err].
    + case_bool_decide as E.
      * subst v. destruct H as [-> ->]. done.
      * destruct H as ([] & tr3 & -> & H). cbn in H. destruct H as [-> ->]. by rewrite bool_decide_eq_false_2.
    + destruct H as [-> ->]. done.
  - left. exists e. destruct (IsNotFound e); by destruct H as [-> ->].
Qed.

Lemma obtained_writes vectorId tr c : obtained vectorId tr c → whenever cacheWrite (cachedFrom vectorId) tr.
Proof.
  intros [(v & -> & _)|[(e & -> & _)|(data & tr' & -> & Hc & ->)]] l1 x l2 E Hx.
  - destruct l1 as [|? [|]]; simplify_eq/=; done.
  - destruct l1 as [|? [|? [|]]]; simplify_eq/=; done.
  - destruct c as [v|err]; [|destruct l1 as [|? [|? [|]]]; simplify_eq/=; done].
    case_bool_decide as Hv; [destruct l1 as [|? [|? [|]]]; simplify_eq/=; done|].
    destruct l1 as [|? [|? [|? [|]]]]; simplify_eq/=; try done. split_and!; [done|done|]. by exists data.
Qed.

Definition singleAnswer (r : Request) (vectorId : string) (c : result GoError string) : Response :=
  match c with
  | Err err => internalServerErrorResponse
      ("invalid configuration for vectorId '" +:+ vectorId +:+ "' and flag '" +:+ rq_Key r +:+ "': " +:+ Error err)
  | Ok config => evaluateSingle vectorId (rq_Key r) config
  end.
Definition bulkAnswer (r : Request) (vectorId : string) (c : result GoError string) : Response :=
  match c with
  | Err err => internalServerErrorResponse ("invalid configuration for vectorId '" +:+ vectorId +:+ "': " +:+ Error err)
  | Ok config => evaluateBulk formatFloat vectorId (rq_IfNoneMatch r) config
  end.

Lemma single_run r tr resp : execs (handleEvaluateSingle decodeErrorText r) tr resp →
  match targetOf r with
  | None => tr = [] ∧ rs_Status resp = StatusBadRequest
  | Some vectorId => ∃ c, obtained vectorId tr c ∧ resp = singleAnswer r vectorId c
  end.
Proof.
  unfold handleEvaluateSingle, getEvaluationContext, targetOf. destruct (decodeRequest (rq_Body r)) as [ctx|]; [|by intros [-> ->]].
  cbn [mbind option_bind]. destruct (targetingKey ctx) as [vectorId|]; [|by intros [-> ->]].
  intros (t1 & t2 & c & -> & H1%getConfiguration_run & H)%execs_bind. exists c.
  destruct c; destruct H as [-> ->]; by rewrite app_nil_r.
Qed.
Lemma bulk_run r tr resp : execs (handleEvaluateBulk formatFloat decodeErrorText r) tr resp →
  match targetOf r with
  | None => tr = [] ∧ rs_Status resp = StatusBadRequest
  | Some vectorId => ∃ c, obtained vectorId tr c ∧ resp = bulkAnswer r vectorId c
  end.
Proof.
  unfold handleEvaluateBulk, getEvaluationContext, targetOf. destruct (decodeRequest (rq_Body r)) as [ctx|]; [|by intros [-> ->]].
  cbn [mbind option_bind]. destruct (targetingKey ctx) as [vectorId|]; [|by intros [-> ->]].
  intros (t1 & t2 & c & -> & H1%getConfiguration_run & H)%execs_bind. exists c.
  destruct c; destruct H as [-> ->]; by rewrite app_nil_r.
Qed.

Lemma single_status vectorId flagKey config :
  rs_Status (evaluateSingle vectorId flagKey config) ∈ [StatusOK; StatusNotFound; StatusInternalServerError].
Proof.
  unfold evaluateSingle. destruct (bool_decide (config = "")); [set_solver|].
  destruct (getFlagValueOrConfiguration _ _ _) as [v|]; [|set_solver]. destruct (isNil v); set_solver.
Qed.
Lemma bulk_status vectorId inm config :
  rs_Status (evaluateBulk formatFloat vectorId inm config) ∈ [StatusOK; StatusNotModified; StatusInternalServerError].
Proof.
  rewrite evaluateBulk_flags. destruct (flagsOf config) as [flags|]; [|set_solver].
  destruct (bool_decide (inm = _)); set_solver.
Qed.
(** The error the API server answered with. *)
Definition failedWith (o : obs serviceE) : option ApiError :=
  match o with
  | Did e x =>
      match e in serviceE X return X → option ApiError with
      | GetConfigMap _ => λ a, match a with Err e => Some e | Ok _ => None end
      | _ => λ _, None
      end x
  end.
Lemma obtained_failed vectorId tr c o e :
  obtained vectorId tr c → o ∈ tr → failedWith o = Some e → c = if IsNotFound e then Ok "" else Err (EApi e).
Proof.
  intros [(v & -> & _)|[(e' & -> & ->)|(data & tr' & -> & -> & ->)]] Hin Ho.
  - apply list_elem_of_singleton in Hin as ->. done.
  - rewrite !elem_of_cons, elem_of_nil in Hin. destruct Hin as [-> |[-> |[]]]; [done|]. cbn in Ho. by simplify_eq.
  - rewrite elem_of_app, !elem_of_cons, elem_of_nil in Hin. destruct Hin as [[-> |[-> |[]]]|Hin]; [done..|].
    exfalso. destruct (combine vectorId data) as [v|]; [|by apply elem_of_nil in Hin].
    destruct (bool_decide _); [by apply elem_of_nil in Hin|]. by apply list_elem_of_singleton in Hin as ->.
Qed.

(** C34: how the evaluation handlers fail.  A request whose body is no JSON
    object with a string targeting key, and no other, is answered 400, and
    before any call is made; a vector without ConfigMap has no flags: 404 for a
    single flag, an empty list (or 304) for all; any other failure of the API
    server is a 500. *)
Theorem evaluation_errors r trs tr singleResp bulkResp
  (Hsingle : execs (handleEvaluateSingle decodeErrorText r) trs singleResp)
  (Hbulk : execs (handleEvaluateBulk formatFloat decodeErrorText r) tr bulkResp) :
  (rs_Status singleResp = StatusBadRequest ↔ targetOf r = None) ∧
  (rs_Status bulkResp = StatusBadRequest ↔ targetOf r = None) ∧
  (targetOf r = None → trs = [] ∧ tr = []) ∧
  (∀ o e, o ∈ trs → failedWith o = Some e →
     rs_Status singleResp = if IsNotFound e then StatusNotFound else StatusInternalServerError) ∧
  (∀ o e, o ∈ tr → failedWith o = Some e →
     if IsNotFound e then bulkResp = notModifiedResponse ∨ rs_Body bulkResp = BBulk []
     else rs_Status bulkResp = StatusInternalServerError).
Proof.
  apply single_run in Hsingle. apply bulk_run in Hbulk. destruct (targetOf r) as [vectorId|].
  - destruct Hsingle as (c & Hc & ->), Hbulk as (c' & Hc' & ->). split_and!.
    + split; [|done]. unfold singleAnswer. destruct c as [config|]; [|done]. intros H.
      pose proof (single_status vectorId (rq_Key r) config) as Hs. rewrite H, !elem_of_cons, elem_of_nil in Hs. by destruct Hs as [|[|[|]]].
    + split; [|done]. unfold bulkAnswer. destruct c' as [config|]; [|done]. intros H.
      pose proof (bulk_status vectorId (rq_IfNoneMatch r) config) as Hs. rewrite H, !elem_of_cons, elem_of_nil in Hs. by destruct Hs as [|[|[|]]].
    + done.
    + intros o e Hin Ho. rewrite (obtained_failed _ _ _ _ _ Hc Hin Ho). by destruct (IsNotFound e).
    + intros o e Hin Ho. rewrite (obtained_failed _ _ _ _ _ Hc' Hin Ho). destruct (IsNotFound e); [|done].
      cbn [bulkAnswer]. rewrite evaluateBulk_flags. change (flagsOf "") with (@Ok GoError (list (FlagResponse + ErrorResponse)) []). cbn iota.
      destruct (bool_decide _); [by left|by right].
  - destruct Hsingle as [-> Hs], Hbulk as [-> Hb]. split_and!; try done; intros ?? Hin; by apply elem_of_nil in Hin.
Qed.

(** The cache holds combined configurations.  Whatever the cluster
    answers, a handler writes the cache at most after reading the ConfigMap of
    the vector the request targets, under that vector's key, with what the
    ConfigMap's data combines to, and never an empty text (which would delete
    the entry). *)
Theorem cache_written_from_configmap r trs tr singleResp bulkResp vectorId
  (Hsingle : execs (handleEvaluateSingle decodeErrorText r) trs singleResp)
  (Hbulk : execs (handleEvaluateBulk formatFloat decodeErrorText r) tr bulkResp)
  (Htarget : targetOf r = Some vectorId) :
  whenever cacheWrite (cachedFrom vectorId) trs ∧ whenever cacheWrite (cachedFrom vectorId) tr.
Proof.
  apply single_run in Hsingle. apply bulk_run in Hbulk. rewrite Htarget in *.
  destruct Hsingle as (c & Hc & _), Hbulk as (c' & Hc' & _). split; by eapply obtained_writes.
Qed.
End evaluation.

(** * The cluster of the service's own tests *)

Section witnesses.
#[local] Existing Instance caseless_unicode.

Definition suite_data : gmap string string :=
  <[FeaturesConfigKey := json_text "{'enableBeta':true,'maxUsers':150,'ratio': 4.6,'title': 'TestLabel'}"]>
  (<[AuthoredConfigKey := json_text "{'database':{'host':'mysql-service','port':3306}}"]>
  (<["deploymentResults.orders-db.json" := json_text "{'result':'something'}"]> ∅)).
Definition suite_world : World :=
  {| w_Cache := ∅; w_ConfigMaps := {[ ConfigMapPrefix +:+ "vector1" := suite_data ]} |}.
Definition suite_float (f : spec_float) : string := "4.6".
Definition suite_error (body : string) : string := "invalid JSON in request body".
Definition request (key vectorId inm : string) : Request :=
  {| rq_Key := key; rq_Body := json_text ("{'context': {'targetingKey': '" +:+ vectorId +:+ "'}}"); rq_IfNoneMatch := inm |}.
Definition suite_etag : string := json_text "'33aba42d196a48585044a2aefa625d42f2e55ae1'".
Definition suite_config : string :=
  match combine "vector1" (map_to_list suite_data) with Ok v => v | Err _ => "" end.

Example suite_bulk :
  rs_ETag (run serve (handleEvaluateBulk suite_float suite_error (request "" "vector1" "")) suite_world).1 = Some suite_etag.
Proof. vm_compute. reflexivity. Qed.
Example suite_not_modified :
  (run serve (handleEvaluateBulk suite_float suite_error (request "" "vector1" suite_etag)) suite_world).1 = notModifiedResponse.
Proof. vm_compute. reflexivity. Qed.
Example suite_single :
  (run serve (handleEvaluateSingle suite_error (request "maxUsers" "vector1" "")) suite_world).1 =
  okResponse (BFlag (flagOf "maxUsers" (AInt 150))).
Proof. vm_compute. reflexivity. Qed.
Example suite_missing_vector :
  (run serve (handleEvaluateSingle suite_error (request "ratio" "vector2" "")) suite_world).1 = notFoundResponse "ratio" "".
Proof. vm_compute. reflexivity. Qed.
Example suite_cached :
  w_Cache (run serve (handleEvaluateSingle suite_error (request "ratio" "vector1" "")) suite_world).2 = {[ "vector1" := suite_config ]}.
Proof. vm_compute. reflexivity. Qed.

Definition suite_features : list (string * any) :=
  [("enableBeta", ABool true); ("maxUsers", ANumber "150"); ("ratio", ANumber "4.6"); ("title", AStr "TestLabel")].
Lemma suite_getAllFeatures : getAllFeatures suite_config = Ok suite_features.
Proof. vm_compute. reflexivity. Qed.

Lemma single_bulk_agree_witness : ∃ flags,
  evaluateBulk suite_float "vector1" "" suite_config = okResponseWithEtag (BBulk flags) (generateEtag suite_float flags) ∧
  (evaluateSingle "vector1" "ratio" suite_config = notFoundResponse "ratio" "" ↔ ∀ f, inl f ∈ flags → fr_Key f ≠ "ratio").
Proof.
  assert (Hne : suite_config ≠ "") by (vm_compute; discriminate).
  destruct (single_bulk_agree suite_float "vector1" suite_config suite_features "ratio" Hne suite_getAllFeatures eq_refl)
    as (flags & Hbulk & _ & _ & _ & _ & Hmissing).
  exists flags. split; [apply Hbulk; discriminate|exact Hmissing].
Defined.

Lemma etag_revalidates_witness : evaluateBulk suite_float "vector1" suite_etag suite_config = notModifiedResponse.
Proof.
  refine (proj1 (etag_revalidates suite_float "vector1" "" suite_config suite_etag _)). vm_compute. reflexivity.
Defined.

Definition bulk_calls := calls serve (handleEvaluateBulk suite_float suite_error (request "ratio" "vector1" "")) suite_world.
Definition bulk_answer := (run serve (handleEvaluateBulk suite_float suite_error (request "ratio" "vector1" "")) suite_world).1.
Definition single_calls := calls serve (handleEvaluateSingle suite_error (request "ratio" "vector1" "")) suite_world.
Definition single_answer := (run serve (handleEvaluateSingle suite_error (request "ratio" "vector1" "")) suite_world).1.

Lemma evaluation_errors_witness :
  rs_Status single_answer = StatusBadRequest ↔ targetOf (request "ratio" "vector1" "") = None.
Proof.
  exact (proj1 (evaluation_errors suite_float suite_error (request "ratio" "vector1" "") single_calls bulk_calls
    single_answer bulk_answer (run_execs serve _ suite_world) (run_execs serve _ suite_world))).
Defined.
Lemma cache_written_from_configmap_witness :
  whenever cacheWrite (cachedFrom "vector1") single_calls ∧ whenever cacheWrite (cachedFrom "vector1") bulk_calls.
Proof.
  apply (cache_written_from_configmap suite_float suite_error (request "ratio" "vector1" "") single_calls bulk_calls
    single_answer bulk_answer "vector1" (run_execs serve _ suite_world) (run_execs serve _ suite_world)).
  vm_compute. reflexivity.
Defined.
End witnesses.
End VectorDataServiceProps.
