(* ===== verification/VectorDataMain.v ===== *)
(** The process of the vector-data service (cmd/vectordata/main.go and the
    synchronisation of informer.go): its port, its start-up, the two background
    tasks that report failures on [errChan], and the status it exits with. *)
From S2P Require Import Prelude GoBytes GoStrings Objects Client.
Local Open Scope Z_scope.

Module VectorDataMain.

Definition DefaultPort : Z := 4000.

(** [portFlag] is the value of [--port], [envPort] that of the environment
    variable, empty when it is not set. *)
Definition initServerPort (portFlag : Z) (envPort : string) : Z :=
  let port := portFlag in
  if bool_decide (envPort = "") then port
  else match ParseInt envPort with Some p => p | None => port end.

Definition initNamespace (envNamespace : string) : string :=
  if bool_decide (envNamespace = "") then "default" else envNamespace.

(** The in-cluster configuration, or the local one; a failure ends the
    process. *)
Definition getK8sConfig {K} (inCluster kubeconfig : result GoError K) : option K :=
  match inCluster with
  | Ok config => Some config
  | Err _ => match kubeconfig with Ok config => Some config | Err _ => None end
  end.
Definition createClientSet {K} (client : result GoError K) : option K :=
  match client with Ok k8sClient => Some k8sClient | Err _ => None end.

(** What the goroutine that waits for the informer sends, when the wait fails:
    nothing during a shutdown. *)
Definition awaitSync (synced : bool) (ctxErr : option GoError) (deadlineExceeded : bool) (syncErr : GoError) : option GoError :=
  if synced then None
  else match ctxErr with
       | Some _ => None
       | None =>
           if deadlineExceeded then Some (ENew "kubernetes informer cache failed to sync within timeout")
           else Some (EWrap "kubernetes informer cache failed to sync" syncErr)
       end.
(** What the goroutine of [Start] sends when [ListenAndServe] returns. *)
Definition serverFailure (err : option GoError) (serverClosed : bool) : option GoError :=
  match err with
  | Some e => if serverClosed then None else Some (EWrap "http server failed to start" e)
  | None => None
  end.

(** ** Start-up *)

(** What [NewInformer] and [NewVectorDataService] are built from. *)
Record Settings (C : Type) := { s_Port : Z; s_Namespace : string; s_Client : C }.
Arguments s_Port {C} s.
Arguments s_Namespace {C} s.
Arguments s_Client {C} s.

(** The environment a process finds: the flag and the variables, how the two
    configurations load, the client they give and the registration of the event
    handlers. *)
Record Surroundings (K C : Type) := {
  e_PortFlag : Z; e_Port : string; e_Namespace : string;
  e_InCluster : result GoError K; e_Kubeconfig : result GoError K;
  e_NewForConfig : K → result GoError C; e_AddEventHandler : option GoError }.
Arguments e_PortFlag {K C} s.
Arguments e_Port {K C} s.
Arguments e_Namespace {K C} s.
Arguments e_InCluster {K C} s.
Arguments e_Kubeconfig {K C} s.
Arguments e_NewForConfig {K C} s.
Arguments e_AddEventHandler {K C} s.

(** [main] up to its [select]: the settings, or none when it ended in
    [os.Exit(1)]. *)
Definition startup {K C} (e : Surroundings K C) : option (Settings C) :=
  let port := initServerPort (e_PortFlag e) (e_Port e) in
  let namespace := initNamespace (e_Namespace e) in
  config ← getK8sConfig (e_InCluster e) (e_Kubeconfig e);
  k8sClient ← createClientSet (e_NewForConfig e config);
  match e_AddEventHandler e with
  | Some _ => None
  | None => Some {| s_Port := port; s_Namespace := namespace; s_Client := k8sClient |}
  end.

(** * Running and stopping *)

Inductive Phase := Serving | Stopping | Exited (status : Z).
(** The state of the process: the buffered errors, whether the two background
    goroutines still run, and [ctx.Err()]. *)
Record Process := {
  p_Phase : Phase; p_ErrChan : list GoError;
  p_Syncing : bool; p_Listening : bool; p_CtxErr : option GoError }.
Definition launched : Process := {|
  p_Phase := Serving; p_ErrChan := []; p_Syncing := true; p_Listening := true; p_CtxErr := None |}.
Definition errChanSize : nat := 2.
Definition exitStatus (errChan : list GoError) : Z := if (0 <? length errChan)%nat then 1 else 0.
Definition canceled : GoError := ENew "context canceled".

Inductive Action :=
| SyncEnds (synced : bool) (ctxErr : option GoError) (deadlineExceeded : bool) (syncErr : GoError)
| ServerEnds (err : GoError) (serverClosed : bool)
| Signal | SeesDone | Receives (err : GoError) | Exits.
(** What an action sends on [errChan], and what it takes off it. *)
Definition sentBy (a : Action) : option GoError :=
  match a with
  | SyncEnds synced ctxErr deadlineExceeded syncErr => awaitSync synced ctxErr deadlineExceeded syncErr
  | ServerEnds err serverClosed => serverFailure (Some err) serverClosed
  | _ => None
  end.
Definition receivedBy (a : Action) : option GoError := match a with Receives err => Some err | _ => None end.

(** [ListenAndServe] reports a closed server only once [Shutdown] was called. *)
Inductive pstep : Process → Action → Process → Prop :=
| InformerEnds ph ch l ctx synced deadline err : (∀ st, ph ≠ Exited st) →
    let a := SyncEnds synced ctx deadline err in
    pstep {| p_Phase := ph; p_ErrChan := ch; p_Syncing := true; p_Listening := l; p_CtxErr := ctx |} a
          {| p_Phase := ph; p_ErrChan := ch ++ option_list (sentBy a); p_Syncing := false; p_Listening := l; p_CtxErr := ctx |}
| ListenerEnds ph ch w ctx err closed : (∀ st, ph ≠ Exited st) → (closed = true → ph = Stopping) →
    let a := ServerEnds err closed in
    pstep {| p_Phase := ph; p_ErrChan := ch; p_Syncing := w; p_Listening := true; p_CtxErr := ctx |} a
          {| p_Phase := ph; p_ErrChan := ch ++ option_list (sentBy a); p_Syncing := w; p_Listening := false; p_CtxErr := ctx |}
| SignalArrives ph ch w l ctx : (∀ st, ph ≠ Exited st) →
    pstep {| p_Phase := ph; p_ErrChan := ch; p_Syncing := w; p_Listening := l; p_CtxErr := ctx |} Signal
          {| p_Phase := ph; p_ErrChan := ch; p_Syncing := w; p_Listening := l; p_CtxErr := Some canceled |}
| InterruptSeen ch w l err :
    pstep {| p_Phase := Serving; p_ErrChan := ch; p_Syncing := w; p_Listening := l; p_CtxErr := Some err |} SeesDone
          {| p_Phase := Stopping; p_ErrChan := ch; p_Syncing := w; p_Listening := l; p_CtxErr := Some err |}
| ErrorArrives ch w l ctx err :
    pstep {| p_Phase := Serving; p_ErrChan := err :: ch; p_Syncing := w; p_Listening := l; p_CtxErr := ctx |} (Receives err)
          {| p_Phase := Stopping; p_ErrChan := ch; p_Syncing := w; p_Listening := l; p_CtxErr := ctx |}
| Returns ch w l ctx :
    pstep {| p_Phase := Stopping; p_ErrChan := ch; p_Syncing := w; p_Listening := l; p_CtxErr := ctx |} Exits
          {| p_Phase := Exited (exitStatus ch); p_ErrChan := ch; p_Syncing := w; p_Listening := l; p_CtxErr := ctx |}.

(** The actions of a run. *)
Inductive psteps : Process → list Action → Process → Prop :=
| psteps_nil p : psteps p [] p
| psteps_snoc p acts q a q' : psteps p acts q → pstep q a q' → psteps p (acts ++ [a]) q'.

(** How the process ends: early, or after the actions of its run. *)
Inductive ends {K C} (e : Surroundings K C) : list Action → Z → Prop :=
| ends_early : startup e = None → ends e [] 1
| ends_stopped s acts p st :
    startup e = Some s → psteps launched acts p → p_Phase p = Exited st → ends e acts st.

Definition errorsSent (acts : list Action) : list GoError := omap sentBy acts.
Definition errorsReceived (acts : list Action) : list GoError := omap receivedBy acts.

(** ** Accounting *)

Definition running (b : bool) : nat := if b then 1 else 0.
(** Errors are received in the order they were sent, and the rest is in the
    channel. *)
Record accounted (acts : list Action) (p : Process) : Prop := {
  ac_sent : errorsSent acts = errorsReceived acts ++ p_ErrChan p;
  ac_once : (length (errorsReceived acts) ≤ 1)%nat;
  ac_serving : p_Phase p = Serving → errorsReceived acts = [];
  ac_tasks : (length (errorsSent acts) + running (p_Syncing p) + running (p_Listening p) ≤ errChanSize)%nat;
  ac_exited : ∀ st, p_Phase p = Exited st → st = exitStatus (p_ErrChan p);
}.
Lemma length_option_list {A} (o : option A) : (length (option_list o) ≤ 1)%nat.
Proof. destruct o; cbn; lia. Qed.
Lemma omap_snoc {A B} (f : A → option B) l x : omap f (l ++ [x]) = omap f l ++ option_list (f x).
Proof. rewrite omap_app. cbn. by destruct (f x). Qed.
Lemma accounted_step acts p a p' : accounted acts p → pstep p a p' → accounted (acts ++ [a]) p'.
Proof.
  intros [H1 H2 H3 H4 H5] Hs. pose proof (length_option_list (sentBy a)) as Hl.
  destruct Hs as [ph ch l ctx synced dl err Hph|ph ch w ctx err closed Hph Hc|ph ch w l ctx Hph|ch w l err|ch w l ctx err|ch w l ctx];
    split; unfold errorsSent, errorsReceived in *; rewrite ?omap_snoc; cbn in *; rewrite ?app_nil_r, ?length_app in *; try done; try lia.
  - by rewrite H1, app_assoc.
  - intros st E. by apply Hph in E.
  - by rewrite H1, app_assoc.
  - intros st E. by apply Hph in E.
  - by rewrite H1, (H3 eq_refl).
  - rewrite (H3 eq_refl). cbn. lia.
  - by intros st [= <-].
Qed.
Lemma accounted_run acts p : psteps launched acts p → accounted acts p.
Proof.
  remember launched as p0 eqn:E0. induction 1 as [p|p acts q a q' Hr IH Hs].
  - subst. split; cbn; try done; lia.
  - eapply accounted_step; [by apply IH|done].
Qed.

(** The buffer of two is enough: no background goroutine ever blocks on it. *)
Lemma errchan_never_blocks acts p : psteps launched acts p → (length (p_ErrChan p) ≤ errChanSize)%nat.
Proof. intros H. destruct (accounted_run _ _ H) as [H1 _ _ H4 _]. rewrite H1, length_app in H4. lia. Qed.

Lemma stopped_status {K C} (e : Surroundings K C) acts st :
  ends e acts st → startup e ≠ None → ∃ ch, errorsSent acts = errorsReceived acts ++ ch ∧ st = exitStatus ch.
Proof.
  intros [E|s acts' p st' _ Hrun Hexit] H; [done|]. destruct (accounted_run _ _ Hrun) as [H1 _ _ _ H5]. eauto.
Qed.

(** C39: how the process ends.  It ends with 1 when it finds no configuration, no
    client or no informer.  Otherwise, however the background goroutines, the
    signal and the main goroutine interleave, it ends with 0 when no background
    error was sent, as after a signal and a clean shutdown, and with 1 when an
    error was sent that nobody has received; and at no time does [errChan] hold
    more errors than it has room for, so that no background goroutine blocks. *)
Theorem process_ends {K C} (e : Surroundings K C) acts st (Hends : ends e acts st) :
  (startup e = None → st = 1) ∧
  (startup e ≠ None → errorsSent acts = [] → st = 0) ∧
  ((length (errorsReceived acts) < length (errorsSent acts))%nat → st = 1) ∧
  (∀ n p, psteps launched (take n acts) p → (length (p_ErrChan p) ≤ errChanSize)%nat).
Proof.
  split_and!.
  - intros E. destruct Hends as [|s ?? st' E']; [done|]. by rewrite E in E'.
  - intros Hs Hn. destruct (stopped_status _ _ _ Hends Hs) as (ch & Hch & ->). rewrite Hn in Hch.
    symmetry in Hch. by apply app_nil in Hch as [_ ->].
  - intros Hlt. destruct (decide (startup e = None)) as [E|Hs].
    + destruct Hends as [|s ?? st' E']; [done|]. by rewrite E in E'.
    + destruct (stopped_status _ _ _ Hends Hs) as (ch & Hch & ->). rewrite Hch, length_app in Hlt.
      unfold exitStatus. by destruct (Nat.ltb_spec 0 (length ch)); [|lia].
  - intros n p. apply errchan_never_blocks.
Qed.

(** The error that ends the wait does not count: when it is the only one, the
    process ends with 0. *)
Theorem lone_failure_ends_with_zero {K C} (e : Surroundings K C) acts st err :
  ends e acts st → startup e ≠ None → errorsSent acts = [err] → errorsReceived acts = [err] → st = 0.
Proof.
  intros Hends Hs Hsent Hrec. destruct (stopped_status _ _ _ Hends Hs) as (ch & Hch & ->).
  rewrite Hsent, Hrec in Hch. by destruct ch.
Qed.

Definition in_pod : Surroundings unit unit := {|
  e_PortFlag := DefaultPort; e_Port := ""; e_Namespace := "shop"; e_InCluster := Ok (); e_Kubeconfig := Err (ENew "no file");
  e_NewForConfig := λ _, Ok (); e_AddEventHandler := None |}.
(** The informer fails, and the server fails during the shutdown. *)
Definition sync_error : GoError := ENew "kubernetes informer cache failed to sync within timeout".
Definition listen_error : GoError := ENew "accept tcp: too many open files".
Definition failed_run : list Action :=
  [SyncEnds false None true (ENew "context deadline exceeded"); Receives sync_error; ServerEnds listen_error false; Exits].
Lemma failed_run_ok : ends in_pod failed_run 1.
Proof.
  set (at_ ph ch l := {| p_Phase := ph; p_ErrChan := ch; p_Syncing := false; p_Listening := l; p_CtxErr := None |}).
  set (sent := EWrap "http server failed to start" listen_error).
  apply (ends_stopped _ {| s_Port := 4000; s_Namespace := "shop"; s_Client := () |} _ (at_ (Exited 1) [sent] false)); [reflexivity| |done].
  apply (psteps_snoc _ (take 3 failed_run) (at_ Stopping [sent] false)); [|exact (Returns [sent] false false None)].
  apply (psteps_snoc _ (take 2 failed_run) (at_ Stopping [] true)); [|by apply (ListenerEnds Stopping [] false None listen_error false)].
  apply (psteps_snoc _ (take 1 failed_run) (at_ Serving [sync_error] true)); [|exact (ErrorArrives [] false true None sync_error)].
  apply (psteps_snoc _ [] launched); [apply psteps_nil|].
  by apply (InformerEnds Serving [] true None false true (ENew "context deadline exceeded")).
Qed.
Lemma process_ends_witness : length (errorsSent failed_run) = 2%nat ∧
  ∀ n p, psteps launched (take n failed_run) p → (length (p_ErrChan p) ≤ errChanSize)%nat.
Proof. split; [reflexivity|]. exact (proj2 (proj2 (proj2 (process_ends in_pod failed_run 1 failed_run_ok)))). Defined.
End VectorDataMain.
