(* ===== verification/Operator.v ===== *)
(** The operator process (cmd/root.go, cmd/operator.go, the setup.go of each
    controller package): its flags, which reconcilers are registered with the
    manager before it is started, and the exit status.

    The manager belongs to controller-runtime: registering a reconciler, adding
    a check and running the manager are the calls of [operatorE].  The parser
    of the [--controllers] flag belongs to the konfidence command package and
    is a parameter. *)
From S2P Require Import Prelude GoBytes GoStrings Objects Client.

Module Operator.

(** The flags with their defaults. *)
Record Flags := {
  enableLeaderElection : bool;
  probeAddr : string;
  metricsAddr : string;
  controllersSpec : string;
  leaseID : string;
}.
Definition defaultFlags : Flags := {|
  enableLeaderElection := false; probeAddr := ":8081"; metricsAddr := ":8080"; controllersSpec := "*";
  leaseID := "orchestrator.konfidence.cloud" |}.

(** The API packages whose types [init] adds to the scheme, in its order. *)
Inductive ApiPackage := ClientGo | KonfidenceV1alpha1 | FluxSourceV1 | FluxHelmV2 | FluxKustomizeV1 | GatewayV1.
Definition scheme : list ApiPackage := [ClientGo; KonfidenceV1alpha1; FluxSourceV1; FluxHelmV2; FluxKustomizeV1; GatewayV1].
#[export] Instance apiPackage_eq_dec : EqDecision ApiPackage.
Proof. solve_decision. Defined.
(** The package the sources take the type of an object from. *)
Definition packageOf (k : kind) : ApiPackage :=
  match k with
  | KConfigMap | KJob | KService | KSecret => ClientGo
  | KVectorData | KTaskExecution | KActivationTaskExecution | KVectorActivation | KStage | KStageVersion
  | KVectorDeployment | KArtifactDeployment | KDeploymentTarget => KonfidenceV1alpha1
  | KHTTPRoute | KGateway | KGatewayClass => GatewayV1
  | KHelmRepository | KHelmChart | KOCIRepository => FluxSourceV1
  | KHelmRelease => FluxHelmV2
  | KKustomization => FluxKustomizeV1
  end.

(** [ctrl.Options]. *)
Record Options := {
  Scheme : list ApiPackage;
  HealthProbeBindAddress : string;
  LeaderElection : bool;
  LeaderElectionID : string;
  MetricsBindAddress : string;
}.
Definition options (f : Flags) : Options := {|
  Scheme := scheme; HealthProbeBindAddress := probeAddr f; LeaderElection := enableLeaderElection f; LeaderElectionID := leaseID f;
  MetricsBindAddress := metricsAddr f |}.

(** The exit status of [Execute]: 1 when the command returned an error. *)
Definition Execute (r : result GoError unit) : Z := match r with Err _ => 1%Z | Ok _ => 0%Z end.

Inductive operatorE : Type → Type :=
| NewManager (o : Options) : operatorE (result GoError unit)
| SetupWithManager (reconciler : string) : operatorE (result GoError unit)
| AddHealthzCheck (name : string) : operatorE (result GoError unit)
| AddReadyzCheck (name : string) : operatorE (result GoError unit)
| StartManager : operatorE (result GoError unit).
Abbreviation Op := (prog operatorE).

(** [if err := p; err != nil { return err }; k]. *)
Definition guard_err (p : Op (result GoError unit)) (k : Op (result GoError unit)) : Op (result GoError unit) :=
  r ← p; match r with Err err => Ret (Err err) | Ok _ => k end.
Fixpoint register (reconcilers : list string) : Op (result GoError unit) :=
  match reconcilers with
  | [] => Ret (Ok ())
  | r :: rs => guard_err (trigger (SetupWithManager r)) (register rs)
  end.

(** The reconcilers of each package, in the order its [SetupControllers]
    registers them. *)
Definition FluxDeployer_SetupControllers : list string := ["HelmArtifactDeployment"; "KustomizeArtifactDeployment"].
Definition TaskExecution_SetupControllers : list string := ["TaskExecution"].
Definition ActivationExecution_SetupControllers : list string := ["ActivationTaskExecution"; "StageRouteCleanup"].
Definition VectorData_SetupControllers : list string := ["VectorData"].
Definition DeploymentTarget_SetupControllers : list string := ["DeploymentTarget"].
Definition controllerSetups : list (string * list string) :=
  [("FluxDeployer", FluxDeployer_SetupControllers); ("TaskExecution", TaskExecution_SetupControllers);
   ("ActivationExecution", ActivationExecution_SetupControllers); ("VectorData", VectorData_SetupControllers);
   ("DeploymentTarget", DeploymentTarget_SetupControllers)].

Section operator.
(** [utilscmd.FilterEnabledControllers]. *)
Context (FilterEnabledControllers : string → list string → result GoError (gset string)).

Fixpoint setup_enabled (enabled : gset string) (setups : list (string * list string)) (k : Op (result GoError unit))
    : Op (result GoError unit) :=
  match setups with
  | [] => k
  | (name, reconcilers) :: setups' =>
      if bool_decide (name ∈ enabled) then guard_err (register reconcilers) (setup_enabled enabled setups' k)
      else setup_enabled enabled setups' k
  end.
(** [setups] is the map of set-up functions in the order [range] visits it;
    [keys] is the order of [maps.Keys]. *)
Definition startOperator (f : Flags) (keys : list string) (setups : list (string * list string))
    : Op (result GoError unit) :=
  guard_err (trigger (NewManager (options f)))
    (match FilterEnabledControllers (controllersSpec f) keys with
     | Err err => Ret (Err err)
     | Ok enabled =>
         setup_enabled enabled setups
           (guard_err (trigger (AddHealthzCheck "healthz"))
             (guard_err (trigger (AddReadyzCheck "readyz"))
               (guard_err (trigger StartManager) (Ret (Ok ())))))
     end).

(** ** Runs *)

Definition did_setup (r : string) (o : obs operatorE) : Prop :=
  match o with
  | Did e x => match e in operatorE X return X → Prop with
               | SetupWithManager r' => λ a, r' = r ∧ a = Ok ()
               | _ => λ _, False
               end x
  end.
Definition tried_setup (r : string) (o : obs operatorE) : Prop :=
  match o with Did (SetupWithManager r') _ => r' = r | _ => False end.
Definition did_check (o : obs operatorE) : Prop :=
  match o with
  | Did e x => match e in operatorE X return X → Prop with
               | AddHealthzCheck _ | AddReadyzCheck _ => λ a, a = Ok ()
               | _ => λ _, False
               end x
  end.
Definition starts_manager (o : obs operatorE) : Prop := match o with Did StartManager _ => True | _ => False end.
(** The answer of a call. *)
Definition answer (o : obs operatorE) : result GoError unit :=
  match o with
  | Did e x => match e in operatorE X return X → result GoError unit with
               | NewManager _ | SetupWithManager _ | AddHealthzCheck _ | AddReadyzCheck _ | StartManager => λ a, a
               end x
  end.

(** A sequence of guarded calls either succeeds throughout, or stops at the
    first failure and returns it. *)
Definition all_ok (tr : list (obs operatorE)) : Prop := Forall (λ o, answer o = Ok ()) tr.
Definition stopped (tr : list (obs operatorE)) (err : GoError) : Prop :=
  ∃ tr' o, tr = tr' ++ [o] ∧ all_ok tr' ∧ answer o = Err err.

Lemma register_run rs tr r : execs (register rs) tr r →
  Forall (λ o, ∃ x, x ∈ rs ∧ tried_setup x o) tr ∧
  match r with
  | Ok _ => all_ok tr ∧ Forall (λ x, Exists (did_setup x) tr) rs
  | Err err => stopped tr err
  end.
Proof.
  revert tr. induction rs as [|x rs IH]; intros tr; cbn.
  { intros [-> ->]. split; [constructor|]. by split; constructor. }
  intros (a & tr' & -> & H). destruct a as [[]|err]; cbn in H.
  - apply IH in H as [Ht Hr]. split.
    { constructor; [by exists x; split; [left|]|]. eapply Forall_impl; [exact Ht|]. intros o (y & Hy & Ho). exists y. by split; [right|]. }
    destruct r as [[]|err].
    + destruct Hr as [Hok Hall]. split; [by constructor|]. constructor; [by left|].
      eapply Forall_impl; [exact Hall|]. intros y Hy. by right.
    + destruct Hr as (tr1 & o & -> & Hok & Ho). exists (Did (SetupWithManager x) (Ok ()) :: tr1), o.
      split_and!; [done|by constructor|done].
  - destruct H as [-> ->]. split; [constructor; [by exists x; split; [left|]|constructor]|].
    exists [], (Did (SetupWithManager x) (Err err)). split_and!; [done|constructor|done].
Qed.

(** The reconcilers the enabled controllers have. *)
Definition selected (enabled : gset string) (setups : list (string * list string)) (x : string) : Prop :=
  ∃ name rs, (name, rs) ∈ setups ∧ name ∈ enabled ∧ x ∈ rs.
Definition tries_only (P : string → Prop) (tr : list (obs operatorE)) : Prop := Forall (λ o, ∃ x, P x ∧ tried_setup x o) tr.

Lemma stopped_app tr1 tr2 err : all_ok tr1 → stopped tr2 err → stopped (tr1 ++ tr2) err.
Proof.
  intros H1 (tr & o & -> & H2 & Ho). exists (tr1 ++ tr), o. split_and!; [by rewrite app_assoc| |done]. by apply Forall_app.
Qed.
Lemma tries_mono (P Q : string → Prop) tr : (∀ x, P x → Q x) → tries_only P tr → tries_only Q tr.
Proof. intros HPQ H. eapply Forall_impl; [exact H|]. intros o (x & Hx & Ho). exists x. auto. Qed.

Lemma setup_enabled_run enabled setups k tr r : execs (setup_enabled enabled setups k) tr r →
  (∃ tr1 tr2, tr = tr1 ++ tr2 ∧ all_ok tr1 ∧ tries_only (selected enabled setups) tr1 ∧
     (∀ x, selected enabled setups x → Exists (did_setup x) tr1) ∧ execs k tr2 r) ∨
  (∃ err, r = Err err ∧ stopped tr err ∧ tries_only (selected enabled setups) tr).
Proof.
  revert tr. induction setups as [|[name rs] setups IH]; intros tr; cbn [setup_enabled].
  { intros H. left. exists [], tr. split_and!; [done|constructor|constructor| |done].
    intros x (? & ? & Hin & _). by apply elem_of_nil in Hin. }
  assert (Hm : ∀ x, selected enabled setups x → selected enabled ((name, rs) :: setups) x)
    by (intros x (n & l & ? & ?); exists n, l; by split; [right|]).
  case_bool_decide as Hen.
  - unfold guard_err. intros (t1 & t2 & a & -> & [Ht1 Ha]%register_run & H)%execs_bind.
    assert (Hs1 : tries_only (selected enabled ((name, rs) :: setups)) t1).
    { apply (tries_mono (.∈ rs)); [|done]. intros x Hx. exists name, rs. by split; [left|]. }
    destruct a as [[]|err].
    + destruct Ha as [Hok Hall]. apply IH in H as [(tr1 & tr2 & -> & Hok2 & Ht2 & Hall2 & H)|(err & -> & Hst & Ht2)].
      * left. exists (t1 ++ tr1), tr2. split_and!; [by rewrite app_assoc|by apply Forall_app|..|done].
        -- apply Forall_app. split; [done|]. by apply (tries_mono _ _ _ Hm).
        -- intros x (n & l & Hin & Hn & Hx). apply Exists_app. apply elem_of_cons in Hin as [[= -> ->]|Hin].
           ++ left. rewrite Forall_forall in Hall. by apply Hall.
           ++ right. apply Hall2. by exists n, l.
      * right. exists err. split_and!; [done|by apply stopped_app|]. apply Forall_app. split; [done|]. by apply (tries_mono _ _ _ Hm).
    + destruct H as [-> ->]. rewrite app_nil_r. right. by exists err.
  - intros H. apply IH in H as [(tr1 & tr2 & -> & Hok2 & Ht2 & Hall2 & H)|(err & -> & Hst & Ht2)].
    + left. exists tr1, tr2. split_and!; [done|done|by apply (tries_mono _ _ _ Hm)| |done].
      intros x (n & l & Hin & Hn & Hx). apply elem_of_cons in Hin as [[= -> ->]|Hin]; [done|]. apply Hall2. by exists n, l.
    + right. exists err. split_and!; [done|done|by apply (tries_mono _ _ _ Hm)].
Qed.

(** The end of the start-up: both checks, then the manager. *)
Definition checks : list (obs operatorE) := [Did (AddHealthzCheck "healthz") (Ok ()); Did (AddReadyzCheck "readyz") (Ok ())].
Lemma finish_run tr r :
  execs (guard_err (trigger (AddHealthzCheck "healthz"))
    (guard_err (trigger (AddReadyzCheck "readyz")) (guard_err (trigger StartManager) (Ret (Ok ()))))) tr r →
  (∃ a, tr = checks ++ [Did StartManager a] ∧ r = a) ∨
  (∃ err, r = Err err ∧ stopped tr err ∧ Forall (λ o, ¬ starts_manager o ∧ ∀ x, ¬ tried_setup x o) tr).
Proof.
  cbn. intros ([[]|err] & tr1 & -> & H).
  - destruct H as ([[]|err] & tr2 & -> & H).
    + destruct H as (a & tr3 & -> & H). left. exists a. destruct a as [[]|err]; by destruct H as [-> ->].
    + destruct H as [-> ->]. right. exists err. split_and!; [done| |repeat apply Forall_cons_2; try apply Forall_nil_2; by split; [intros []|intros x []]].
      exists [Did (AddHealthzCheck "healthz") (Ok ())], (Did (AddReadyzCheck "readyz") (Err err)).
      split_and!; [done|by apply Forall_singleton|done].
  - destruct H as [-> ->]. right. exists err. split_and!; [done| |repeat apply Forall_cons_2; try apply Forall_nil_2; by split; [intros []|intros x []]].
    exists [], (Did (AddHealthzCheck "healthz") (Err err)). split_and!; [done|constructor|done].
Qed.

Lemma tries_not_start P tr : tries_only P tr → Forall (λ o, ¬ starts_manager o) tr.
Proof. intros H. eapply Forall_impl; [exact H|]. intros o (x & _ & Ho) Hs. by destruct o as [? []]. Qed.
Lemma tries_selected P tr x : tries_only P tr → Exists (tried_setup x) tr → P x.
Proof.
  intros H (o & Ho & Hx)%Exists_exists. unfold tries_only in H. rewrite Forall_forall in H. destruct (H _ Ho) as (y & Hy & Hoy).
  destruct o as [? []]; cbn in *; try done. by simplify_eq.
Qed.
Lemma selected_perm enabled l l' x : l ≡ₚ l' → selected enabled l x → selected enabled l' x.
Proof. intros Hp (n & rs & Hin & H). exists n, rs. by rewrite <-Hp. Qed.

Lemma stopped_not_ok tr err : stopped tr err → ¬ all_ok tr.
Proof. intros (tr' & o & -> & _ & Ho) [_ Hc]%Forall_app. rewrite Forall_singleton in Hc. congruence. Qed.
Lemma exit_ok tr r :
  match r with Ok _ => all_ok tr ∧ Exists starts_manager tr | Err err => stopped tr err end → Execute r = 0%Z ↔ all_ok tr.
Proof. destruct r as [[]|err]; cbn; [naive_solver|]. intros H%stopped_not_ok. naive_solver. Qed.

(** The conclusion about a run [tr] that returned [r]. *)
Definition started_right (enabled : gset string) (tr : list (obs operatorE)) (r : result GoError unit) : Prop :=
  whenever starts_manager (λ before _, all_ok before ∧
     (∀ x, selected enabled controllerSetups x → Exists (did_setup x) before) ∧ ∃ tr', before = tr' ++ checks) tr ∧
  (∀ x, Exists (tried_setup x) tr → selected enabled controllerSetups x) ∧
  match r with Ok _ => all_ok tr ∧ Exists starts_manager tr | Err err => stopped tr err end.
Lemma finish_right enabled pre tr2 r :
  all_ok pre → (∀ x, Exists (tried_setup x) pre → selected enabled controllerSetups x) →
  (∀ P, whenever starts_manager P pre) → (∀ x, selected enabled controllerSetups x → Exists (did_setup x) pre) →
  execs (guard_err (trigger (AddHealthzCheck "healthz"))
    (guard_err (trigger (AddReadyzCheck "readyz")) (guard_err (trigger StartManager) (Ret (Ok ()))))) tr2 r →
  started_right enabled (pre ++ tr2) r.
Proof.
  intros Hpre Htried Hquiet Hdone H. unfold started_right.
  apply finish_run in H as [(a & -> & ->)|(err & -> & Hst & Hno)]; last first.
  { split_and!; [|..|by apply stopped_app].
    - apply whenever_app; [apply Hquiet|]. apply whenever_all. eapply Forall_impl; [exact Hno|]. by intros o [H1 _] H2.
    - intros x [Hx|Hx]%Exists_app; [by apply Htried|]. apply Exists_exists in Hx as (o & Ho & Hx).
      rewrite Forall_forall in Hno. by destruct (Hno _ Ho) as [_ []%(.$ x)]. }
  rewrite app_assoc. split_and!.
  - apply whenever_app; [apply whenever_app; [apply Hquiet|]|].
    + apply whenever_all. by repeat apply Forall_cons_2; try apply Forall_nil_2; intros [].
    + intros l1 x l2 Hl _. destruct l1 as [|? []]; simplify_eq/=. rewrite app_nil_r. split_and!; [|..|by exists pre].
      * apply Forall_app. by split; [|repeat constructor].
      * intros y Hy%Hdone. apply Exists_app. by left.
  - intros x Hx. rewrite !Exists_app in Hx. destruct Hx as [[Hx|Hx]|Hx]; [by apply Htried|..];
      by repeat (apply Exists_cons in Hx as [[]|Hx]); apply Exists_nil in Hx.
  - destruct a as [[]|err].
    + split; [apply Forall_app; split; [apply Forall_app; split|]; by repeat constructor|]. apply Exists_app. right. by left.
    + exists (pre ++ checks), (Did StartManager (Err err)). split_and!; [done| |done].
      apply Forall_app. by split; [|repeat constructor].
Qed.

Lemma start_run f keys setups enabled tr r :
  setups ≡ₚ controllerSetups → FilterEnabledControllers (controllersSpec f) keys = Ok enabled →
  execs (startOperator f keys setups) tr r → started_right enabled tr r.
Proof.
  intros Hsetups Henabled Hrun.
  assert (Hsel : ∀ x, selected enabled setups x ↔ selected enabled controllerSetups x)
    by (intros x; split; apply selected_perm; [|symmetry]; exact Hsetups).
  revert Hrun. unfold startOperator. rewrite Henabled. cbn [trigger guard_err]. intros (a & t0 & -> & H). cbn in H.
  destruct a as [[]|err]; last first.
  { destruct H as [-> ->]. split_and!.
    - apply whenever_all, Forall_singleton. intros [].
    - intros x Hx. by apply Exists_cons in Hx as [[]|Hx%Exists_nil].
    - exists [], (Did (NewManager (options f)) (Err err)). split_and!; [done|constructor|done]. }
  assert (Hn : all_ok [Did (NewManager (options f)) (Ok ())]) by by apply Forall_singleton.
  apply setup_enabled_run in H as [(tr1 & tr2 & -> & Hok & Ht & Hall & H)|(err & -> & Hst & Ht)]; last first.
  { split_and!; [|..|by apply (stopped_app [_])].
    - apply whenever_all, Forall_cons. split; [intros []|]. eapply Forall_impl; [exact (tries_not_start _ _ Ht)|]. by intros o H1 H2.
    - intros x [[]|Hx]%Exists_cons. apply Hsel. by eapply tries_selected. }
  assert (Hpre : all_ok (Did (NewManager (options f)) (Ok ()) :: tr1)) by by constructor.
  assert (Htried : ∀ x, Exists (tried_setup x) (Did (NewManager (options f)) (Ok ()) :: tr1) → selected enabled controllerSetups x).
  { intros x [[]|Hx]%Exists_cons. apply Hsel. by eapply tries_selected. }
  assert (Hquiet : ∀ P, whenever starts_manager P (Did (NewManager (options f)) (Ok ()) :: tr1)).
  { intros P. apply whenever_all, Forall_cons. split; [intros []|].
    eapply Forall_impl; [exact (tries_not_start _ _ Ht)|]. by intros o H1 H2. }
  assert (Hdone : ∀ x, selected enabled controllerSetups x → Exists (did_setup x) (Did (NewManager (options f)) (Ok ()) :: tr1))
    by (intros x Hx%Hsel%Hall; by right).
  rewrite (app_comm_cons tr1 tr2). by apply finish_right.
Qed.
(** The manager is made first. *)
Lemma manager_made f keys setups tr r :
  execs (startOperator f keys setups) tr r → ∃ a, head tr = Some (Did (NewManager (options f)) a).
Proof. cbn. intros (a & t & -> & _). by exists a. Qed.
(** Every type the controllers use is in its scheme. *)
Lemma scheme_complete f k : packageOf k ∈ Scheme (options f).
Proof. destruct k; apply (bool_decide_unpack _); reflexivity. Qed.

(** C38: the operator starts what was asked for.  The manager is made first,
    with a scheme that has the type of every object the controllers use.  Whatever order the set-up map
    is visited in, the manager is started only after every reconciler of every
    enabled controller, and both health checks, have been registered without
    an error; a reconciler of a controller that is not enabled is never
    registered; the operator succeeds exactly when all calls did, and otherwise
    makes no call after the first failure and returns it, and the process exits
    with 1. *)
Theorem operator_start f keys setups enabled tr r
  (Hsetups : setups ≡ₚ controllerSetups) (Henabled : FilterEnabledControllers (controllersSpec f) keys = Ok enabled)
  (Hrun : execs (startOperator f keys setups) tr r) :
  (∃ o a, head tr = Some (Did (NewManager o) a) ∧ ∀ k, packageOf k ∈ Scheme o) ∧
  whenever starts_manager (λ before _, all_ok before ∧
     (∀ x, selected enabled controllerSetups x → Exists (did_setup x) before) ∧ ∃ tr', before = tr' ++ checks) tr ∧
  (∀ x, Exists (tried_setup x) tr → selected enabled controllerSetups x) ∧
  match r with Ok _ => all_ok tr ∧ Exists starts_manager tr | Err err => stopped tr err end ∧
  (Execute r = 0%Z ↔ all_ok tr).
Proof.
  destruct (start_run _ _ _ _ _ _ Hsetups Henabled Hrun) as (H1 & H2 & H3).
  split_and!; [|done..|by apply exit_ok]. destruct (manager_made _ _ _ _ _ Hrun) as [a Ha].
  exists (options f), a. split; [done|apply scheme_complete].
Qed.
End operator.

(** * Witness *)

(** A cluster that accepts everything. *)
Definition accepts X (e : operatorE X) (s : unit) : X * unit :=
  match e in operatorE X return X * unit with
  | NewManager _ | SetupWithManager _ | AddHealthzCheck _ | AddReadyzCheck _ | StartManager => (Ok (), ())
  end.
Definition only_vectordata (spec : string) (keys : list string) : result GoError (gset string) := Ok {["VectorData"]}.
Definition sample_start := startOperator only_vectordata defaultFlags controllerSetups.*1 controllerSetups.
Lemma operator_start_witness :
  whenever starts_manager (λ before _, all_ok before ∧
     (∀ x, selected {["VectorData"]} controllerSetups x → Exists (did_setup x) before) ∧ ∃ tr', before = tr' ++ checks)
     (calls accepts sample_start ()) ∧
  (∀ x, Exists (tried_setup x) (calls accepts sample_start ()) → selected {["VectorData"]} controllerSetups x).
Proof.
  destruct (operator_start only_vectordata defaultFlags controllerSetups.*1 controllerSetups {["VectorData"]} _ _
    (Permutation_refl _) eq_refl (run_execs accepts sample_start ())) as (_ & H1 & H2 & _).
  split; [exact H1|exact H2].
Defined.
End Operator.
